(* ===== verification/_CoqProject ===== *)
-Q . S2P
Prelude.v
Steps.v
Timers.v
RingUtil.v
RingQueue.v
MemoryPool.v
DeliveryQueue.v
Bytes.v
City.v
CityCrc.v
PaxosWire.v
SendBuffer.v
BenchClient.v
StableStorage.v
StorageInit.v
Acceptor.v
Learner.v
Monitor.v
LearnerInit.v
AcceptorInit.v
ValuesHandler.v
Leader.v
Proposer.v
ProposerInv.v
ProposerProps.v
PaxosSystem.v
AbMagic.v
ProposerInit.v
Oracle.v
PaxosGood.v
PaxosValidity.v
PaxosLeader.v
PaxosAgreement.v
RingConfig.v
RingConfigText.v
RingTopology.v
RingMessages.v
RingStorage.v
RingAcceptor.v
RingAcceptorSpec.v
RingAcceptorRefine.v
RingAcceptorProps.v
McasterStorage.v
RingMcaster.v
RingMcasterInv.v
RingMcasterProps.v
RingUdp.v
RingLearner.v
RingLearnerProps.v
RingSystem.v
RingQuorum.v
RingClient.v
RingApps.v
RingTests.v
