(* ===== verification/Prelude.v ===== *)
(** * The libraries of the FDS repository, modelled and verified

    The repository holds two C libraries for atomic broadcast, and a library of
    hash functions.  This development models them from their source and proves
    what makes their parts correct, or where they are not.

    - libpaxos2 ([src_tree/fds/lib/paxos2]): a proposer with a leader, acceptors
      with a Berkeley DB, and learners, which exchange batches of messages over
      UDP multicast.
    - RingPaxos ([src_tree/fds/lib/ring_paxos]): a multicaster (the acceptor with
      id 1) and acceptors on a ring.  The multicaster sends commands to the
      multicast group and small messages around the ring; learners put commands
      and decisions together.
    - CityHash ([src_tree/fds/lib/cityhash-1.1.0]), which the other two do not use.

    ** Conventions (this file)

    A C function that changes state is a computation of the monad [M St A]
    ([St → option (A * St)]).  [None] is a failed [assert], an access out of
    bounds, a dereference of freed or NULL memory, or a loop that does not end.
    [wp m P s] says that [m] ends from [s] and that [P] holds of its result, so a
    theorem about [wp] is a statement of total correctness.  Integers are [Z]
    with the wrap of their type written out ([wrap], [u8] ... [u64]); arrays are
    lists ([arr_get], [arr_set]); a field of a struct is assigned with
    [r <| f := v |>].  Where the source shares memory (the value wrappers of the
    proposer, the commands of a ring acceptor, the chunks of the pool), the heap
    is part of the state and [free] removes from it.  Messages handed to the
    network, deliveries and callbacks are appended to logs in the state.  Times
    and the contents of uninitialised memory are arguments.  [Steps] has what the
    theorems about every step of a run share: [steps R m] says that [m] relates
    the state before and after it by [R].

    ** libpaxos2

    - [Bytes]: integers as little-endian bytes, shared by the two libraries.
    - [PaxosWire]: [libpaxos_messages.h] and the checks of [udp_receiver.c]; the
      messages, their bytes, the size computations, [validate_paxos_msg].
      [wire_roundtrip]: a valid message is read back from its bytes.
    - [SendBuffer]: [udp_sendbuf.c], [submit_handle.c].  [batching_transparent]:
      batching keeps the requests and their order, and every packet is valid.
    - [StableStorage]: [acceptor_stable_storage.c] over an interface to Berkeley
      DB ([RecordStore] with its laws).  [storage_roundtrip].  [StorageInit]:
      opening, recovering and closing it, over an interface to the file system and
      to the rest of Berkeley DB ([DbSystem]).  [storage_survives_restart].
    - [Acceptor]: [acceptor.c].  [acceptor_refines]: it implements an abstract
      acceptor; [prepare_keeps_promises]; [accept_check_inverted]: the ballot test
      of phase 2 is the wrong way around.
    - [Learner]: [learner.c].  [learner_delivers_quorums]: what is delivered, in
      order, was acknowledged by a quorum; [quorum_is_delivered];
      [hole_check_requests].
    - [LearnerInit]: [learner_init], the thread it creates and the condition
      variable between them.  [learner_init_outcome]: the caller learns the
      outcome or loses its wake-up.  [AcceptorInit]: the acceptor on top of it.
      [acceptor_restart]: what it knows after it was stopped and started again.
      [ProposerInit]: the proposer on top of it, with everything that can fail.
      [proposer_start_outcome]: when it starts, and in which state.
    - [ValuesHandler]: [proposer_values_handler.c], the linked list of pending
      values over a heap.  [pending_list_is_a_deque], [vh_shutdown_frees_all].
    - [Leader], [Proposer]: [proposer_leader.c], [proposer.c].  [ProposerInv] has
      their invariant (who owns a value, what a slot may hold, the counters) and
      that every routine keeps it; [ProposerProps] the properties:
      [proposer_never_aborts], [phase2_respects_phase1], [phase1_finds_highest],
      [leader_window], [p1_opens_window], [packets_reach_handlers] and the errors
      [duplicate_promise_counts], [restart_keeps_promises], [client_value_lost].
    - [PaxosSystem]: all processes and the network between them, in bytes.
      [learners_disagree]: a run in which two learners deliver different values.
      [PaxosGood]: what acceptors, learners and packets do to values, for any
      property of an instance and a value; the next two are its clients.
      [PaxosValidity]: [paxos2_validity]: nothing is delivered that no client
      submitted.  [PaxosLeader], [PaxosAgreement]: the invariant of a leader that
      is never replaced, and [single_leader_total_order]: then the learners deliver
      prefixes of one sequence of values.
    - [AbMagic]: [tests/abmagic.c], one process in the place of the leader and of
      the acceptors, with their storage and send buffer.  [abmagic_total_order]:
      the learners deliver prefixes of what it was sent.
    - [BenchClient]: [tests/benchmark_client.c].  [benchmark_client_refines]: it
      implements a client whose slots hold a value and times in microseconds.
    - [Monitor]: [tests/tp_monitor.c] and [tp_sampler.c] behind a learner.
      [monitor_counts_deliveries]: each delivery is in one report.
    - [Oracle]: [tests/example_oracle.c].  [oracle_announces]: it names the
      leaders in their order, however its threads interleave.

    ** RingPaxos

    - [Timers], [RingUtil]: [timers.c], [util.c]: deadlines; ballots and command
      keys ([ballot_ownership]).
    - [RingQueue]: [queue.c], the circular buffer, as an implementation of the
      interface [Deque] that its clients are verified against
      ([queue_refines_list]).  [MemoryPool]: [memory_pool.c]
      ([mempool_exclusive]).
    - [DeliveryQueue]: [delivery_queue.c] ([delivery_in_order] and three errors).
    - [RingConfig]: [config_parser.c] from the values of the file on.
      [validated_config]: what an accepted configuration guarantees;
      [quorum_unchecked]: what it does not.  [RingConfigText]: the file from its
      characters on ([fgets], [sscanf]).  [config_file_roundtrip]: what is written
      in the format of the file is read back; [parse_decimal_acceptor]: ids are
      read in octal.
    - [RingTopology]: [topology_manager.c].  [acceptors_form_ring].
    - [RingUdp]: [network_udp.c], the senders with their buffers and the receivers.
      [udp_transport]: what is sent arrives, in order; [receiver_is_parser]: the
      receiver of a datagram is equivalent to a parser of its bytes.
    - [RingMessages], [RingStorage], [RingAcceptor]: the messages, the table of an
      acceptor and its handlers ([stable_storage_1.c], [acceptor_helpers.c]).
      [RingAcceptorSpec] is the abstract acceptor, [RingAcceptorRefine] shows that
      every handler implements it, [RingAcceptorProps] that every safe run does
      ([ring_acceptor_refines]), that promises are kept, and a run that frees a
      command twice ([double_free]).
    - [McasterStorage], [RingMcaster]: [mcaster_storage.c],
      [client_values_manager.c] and [acceptor_helpers_mcaster.c].
      [RingMcasterInv] is the invariant of the multicaster, handler by handler;
      [RingMcasterProps] has [multicaster_orders_values] and the errors
      [promised_value_ignored] and [range_msg_aborts_iff].
    - [RingLearner]: [ringpaxos_learner.c] around the delivery queue.
      [RingLearnerProps] has [learner_delivers_and_requests].
    - [RingSystem]: the learner behind the multicaster, the submit proxy
      ([ringpaxos_submit_proxy.c]) and [stale_request_stops_multicaster].
    - [RingQuorum]: the multicaster, the acceptors and the network as one
      transition system.  [ring_safety]: every learner delivers a prefix of what
      was submitted, and a quorum of acceptors voted for each instance.
    - [RingClient]: the closed-loop client of [client_proposer_learner.c] over
      the sender of [RingUdp].  [client_closed_loop] refines it to a client
      without buffers and pointers, [client_spec], and states what that one keeps.
    - [RingApps]: [client_proposer.c] and [client_learner.c].
      [submit_loop_sends]: the packets hold the commands; [learner_counts].
    - [RingTests]: the test programs of the memory pool, the queue, the ballots
      and the deadlines.  [pool_tests_pass], [timer_test_passes].

    ** CityHash

    - [City]: [city.cc] and [city.h], on the bytes of [Bytes].
      [seeds_keep_collisions]; [tests_pass]: tests of [city-test.cc].
    - [CityCrc]: the functions of [city.cc] that use the CRC instruction of
      SSE 4.2, which is a parameter.  [all_city_hashes_strings]: no read of any
      hash function leaves the string and the loops end; [crc_test_passes].

    ** How the parts meet

    Clients send values to the multicaster ([RingMcaster]), which queues them
    ([RingQueue], through [Deque]) and opens instances in its table
    ([McasterStorage]).  It sends mappings and phase 2 to the group and phase 1 to
    its successor; acceptors ([RingAcceptor]) pass phase messages on to their
    successor ([RingTopology]), the last one back to the multicaster.  The learner
    ([RingLearner]) takes mappings and acceptances from the group.  All of them
    use [RingUdp].  In libpaxos2 the leader ([Leader]) is the part of the proposer
    that opens instances; its requests and the answers of [Acceptor] are batches
    of [SendBuffer]; [Learner] is used by the proposer too, which delivers with
    it.

    ** Bounds and fuel

    Loops over ranges are [mfor] over the list of their indices; [for_le] and
    [for_le_u32] are the loops whose counter can wrap, which then do not end.
    The lines of a file are read by recursion on its characters.  The other loops
    take fuel, and the theorems about [wp] show that it is
    enough: delivery in [Learner] and [DeliveryQueue] visits every slot at most
    once; [open_p2_loop] opens at most [max_p2_open_per_iteration] instances
    ([S] of it is the fuel); [close_loop] closes at most the open instances
    ([highest_open_iid - highest_closed_iid], plus 2); the shutdown of the
    pending list removes one element per round; a hash of CityHash reads as many
    chunks as the string has.  The instance numbers of the
    theorems about runs stay below the width of their type where the statement
    says so.

    ** Not modelled

    Sockets, libevent, the mutexes around single functions, threads beyond those
    of [LearnerInit], signal handling, printing and the event counters: they are
    input and output, or change nothing the modelled parts read. Crashes of an
    acceptor: its storage is closed before it is opened again. [dataobj.h] declares types that
    nothing uses, [network_common.c], [network_tcp.c] and [os_dependent.c] are
    options of sockets, connections and queries of the system, and
    [learners_manager.c] is a stub that only allocates. The programs
    [example_acceptor.c], [example_learner.c] and [example_proposer.c] only call
    the libraries; the other programs of [ring_paxos/test] are driven by
    libevent and sockets. *)
From Stdlib Require Import Init.Byte.
From Stdlib Require Export ZArith Lia.
From stdpp Require Export base tactics list gmap numbers.

Set Default Goal Selector "!".

Declare Scope fds_scope.
Delimit Scope fds_scope with fds.
#[global] Open Scope fds_scope.
#[global] Open Scope Z_scope.

#[export] Instance byte_eq_dec : EqDecision byte := Byte.byte_eq_dec.

(** ** Fixed-width integers

    An unsigned [w]-bit C integer is a [Z] in [0, 2^w); every arithmetic
    operation of the source is followed by the wrap of its type. *)

Definition wrap (w x : Z) : Z := x mod 2 ^ w.

Abbreviation u8 := (wrap 8).
Abbreviation u16 := (wrap 16).
Abbreviation u32 := (wrap 32).
Abbreviation u64 := (wrap 64).

Definition in_u (w x : Z) : Prop := 0 ≤ x < 2 ^ w.

(** ** A partial state monad

    [None] is the outcome of a failed [assert], of an access out of the bounds
    of an array and of a [free] of memory that is not allocated: the process
    stops (or is undefined).  A theorem [wp m Q s] is a total statement: the
    code reaches its end from [s], and then [Q] holds. *)

Definition M (St A : Type) : Type := St → option (A * St).

#[export] Instance M_ret {St} : MRet (M St) := λ A a s, Some (a, s).
#[export] Instance M_bind {St} : MBind (M St) := λ A B k m s,
  match m s with
  | Some (a, s') => k a s'
  | None => None
  end.

Definition get {St} : M St St := λ s, Some (s, s).
Definition gets {St A} (f : St → A) : M St A := λ s, Some (f s, s).
Definition put {St} (s : St) : M St unit := λ _, Some (tt, s).
Definition modify {St} (f : St → St) : M St unit := λ s, Some (tt, f s).
Definition crash {St A} : M St A := λ _, None.
Definition c_assert {St} (b : bool) : M St unit := λ s, if b then Some (tt, s) else None.
Definition lift_opt {St A} (o : option A) : M St A := λ s,
  match o with
  | Some a => Some (a, s)
  | None => None
  end.

(** Runs a computation of a component inside a state that contains it. *)
Definition zoom {St T A} (proj : St → T) (upd : T → St → St) (m : M T A) : M St A := λ s,
  match m (proj s) with
  | Some (a, t) => Some (a, upd t s)
  | None => None
  end.

(** [for] over the elements of a list, in order. *)
Fixpoint mfor {St A} (l : list A) (f : A → M St unit) : M St unit :=
  match l with
  | [] => mret tt
  | x :: l => f x ≫= λ _, mfor l f
  end.

Definition when {St} (b : bool) (m : M St unit) : M St unit := if b then m else mret tt.

Definition wp {St A} (m : M St A) (Q : A → St → Prop) (s : St) : Prop :=
  match m s with
  | Some (a, s') => Q a s'
  | None => False
  end.

#[global] Arguments wp : simpl never.

Section wp.
Context {St A B : Type}.
Implicit Types (s : St).

Lemma wp_ret (a : A) (Q : A → St → Prop) s : Q a s → wp (mret a) Q s.
Proof. done. Qed.

Lemma wp_bind (m : M St A) (k : A → M St B) Q s :
  wp m (λ a s', wp (k a) Q s') s → wp (m ≫= k) Q s.
Proof. unfold wp, mbind, M_bind. by destruct (m s) as [[a s']|]. Qed.

Lemma wp_bind_inv (m : M St A) (k : A → M St B) Q s :
  wp (m ≫= k) Q s → wp m (λ a s', wp (k a) Q s') s.
Proof. unfold wp, mbind, M_bind. by destruct (m s) as [[a s']|]. Qed.

Lemma wp_mono (m : M St A) (P Q : A → St → Prop) s :
  wp m P s → (∀ a s', P a s' → Q a s') → wp m Q s.
Proof. unfold wp. destruct (m s) as [[a s']|]; eauto. Qed.

Lemma wp_and (m : M St A) (P Q : A → St → Prop) s :
  wp m P s → wp m Q s → wp m (λ a s', P a s' ∧ Q a s') s.
Proof. unfold wp. by destruct (m s) as [[a s']|]. Qed.

Lemma wp_get (Q : St → St → Prop) s : Q s s → wp get Q s.
Proof. done. Qed.

Lemma wp_gets (f : St → A) Q s : Q (f s) s → wp (gets f) Q s.
Proof. done. Qed.

Lemma wp_put s' (Q : unit → St → Prop) s : Q tt s' → wp (put s') Q s.
Proof. done. Qed.

Lemma wp_modify (f : St → St) (Q : unit → St → Prop) s : Q tt (f s) → wp (modify f) Q s.
Proof. done. Qed.

Lemma wp_assert b (Q : unit → St → Prop) s : b = true → Q tt s → wp (c_assert b) Q s.
Proof. by intros ->. Qed.

Lemma wp_lift_opt (o : option A) a (Q : A → St → Prop) s :
  o = Some a → Q a s → wp (lift_opt o) Q s.
Proof. by intros ->. Qed.

Lemma wp_zoom {T} (proj : St → T) upd (m : M T A) (Q : A → St → Prop) s :
  wp m (λ a t, Q a (upd t s)) (proj s) → wp (zoom proj upd m) Q s.
Proof. unfold wp, zoom. by destruct (m (proj s)) as [[a t]|]. Qed.

Lemma wp_when b (m : M St unit) Q s :
  (b = true → wp m Q s) → (b = false → Q tt s) → wp (when b m) Q s.
Proof. intros H1 H2. destruct b; [exact (H1 eq_refl)|exact (H2 eq_refl)]. Qed.

Lemma wp_run (m : M St A) Q s a s' : m s = Some (a, s') → wp m Q s → Q a s'.
Proof. unfold wp. by intros ->. Qed.

(** A sequence without a result, because what follows its first part has none. *)
Lemma wp_bind_None (m : M St A) (k : A → M St B) s : wp m (λ a s', k a s' = None) s → (m ≫= k) s = None.
Proof. unfold wp, mbind, M_bind. by destruct (m s) as [[a s']|]. Qed.

(** A postcondition that determines the outcome. *)
Lemma wp_exact (m : M St A) a s' s : wp m (λ x t, x = a ∧ t = s') s → m s = Some (a, s').
Proof. unfold wp. destruct (m s) as [[x t]|]; [by intros [-> ->]|done]. Qed.

Lemma wp_total (m : M St A) Q s : wp m Q s → ∃ a s', m s = Some (a, s') ∧ Q a s'.
Proof. unfold wp. destruct (m s) as [[a s']|]; naive_solver. Qed.

Lemma wp_value (m : M St A) (Q : A → St → Prop) s a s' : m s = Some (a, s') → Q a s' → wp m Q s.
Proof. unfold wp. by intros ->. Qed.

Lemma wp_ext (m m' : M St A) (Q : A → St → Prop) s : m s = m' s → wp m' Q s → wp m Q s.
Proof. unfold wp. by intros ->. Qed.
End wp.

(** Loop rule: [I] relates the elements already visited and the state. *)
Lemma wp_mfor_gen {St A} (I : list A → St → Prop) (f : A → M St unit) l pre s Q :
  I pre s →
  (∀ dn x rest s, pre ++ l = dn ++ x :: rest → I dn s →
     wp (f x) (λ _ s', I (dn ++ [x]) s') s) →
  (∀ s, I (pre ++ l) s → Q tt s) →
  wp (mfor l f) Q s.
Proof.
  revert pre s. induction l as [|x l IH]; intros pre s HI Hstep HQ; cbn.
  - apply wp_ret, HQ. by rewrite app_nil_r.
  - apply wp_bind. eapply wp_mono; [by apply (Hstep pre x l)|].
    intros [] s' HI'. apply (IH (pre ++ [x])); [done| |].
    + intros d y rest s'' Heq. apply Hstep with rest. by rewrite <-Heq, <-app_assoc.
    + intros s''. rewrite <-app_assoc. apply HQ.
Qed.

Lemma wp_mfor {St A} (I : list A → St → Prop) (f : A → M St unit) l s Q :
  I [] s →
  (∀ dn x rest s, l = dn ++ x :: rest → I dn s →
     wp (f x) (λ _ s', I (dn ++ [x]) s') s) →
  (∀ s, I l s → Q tt s) →
  wp (mfor l f) Q s.
Proof. intros H1 H2 H3. by apply (wp_mfor_gen I f l []). Qed.

(** Loop rule for an invariant that does not mention the position. *)
Lemma wp_mfor_inv {St A} (I : St → Prop) (f : A → M St unit) l s Q :
  I s →
  (∀ x s, x ∈ l → I s → wp (f x) (λ _ s', I s') s) →
  (∀ s, I s → Q tt s) →
  wp (mfor l f) Q s.
Proof.
  intros H1 H2 H3. apply (wp_mfor (λ _, I)); [done| |done].
  intros d x rest s' -> HI. apply H2; [set_solver|done].
Qed.

Lemma wp_mfor_app {St A} (f : A → M St unit) l l' s Q :
  wp (mfor l f) (λ _ s', wp (mfor l' f) Q s') s → wp (mfor (l ++ l') f) Q s.
Proof.
  revert s. induction l as [|x l IH]; intros s H; [exact H|]. cbn [mfor app] in *. apply wp_bind.
  apply wp_bind_inv in H. eapply wp_mono; [exact H|]. intros [] s'. apply IH.
Qed.

Lemma mfor_map {St A B} (g : A → B) (f : B → M St unit) l s : mfor (map g l) f s = mfor l (λ x, f (g x)) s.
Proof. revert s. induction l as [|x l IH]; intros s; [done|]. cbn. unfold mbind, M_bind. destruct (f (g x) s) as [[? ?]|]; [apply IH|done]. Qed.

(** A loop that stops: at [x] at the latest. *)
Lemma mfor_None {St A} (I : St → Prop) (f : A → M St unit) l x s :
  x ∈ l → I s → (∀ s, I s → f x s = None) →
  (∀ y s, y ∈ l → I s → f y s = None ∨ wp (f y) (λ _ s', I s') s) → mfor l f s = None.
Proof.
  revert s. induction l as [|y l IH]; intros s Hx HI Hstop Hstep; [by apply not_elem_of_nil in Hx|].
  cbn [mfor]. unfold mbind, M_bind. destruct (Hstep y s) as [->|Hwp]; [by left|done|done|].
  unfold wp in Hwp. destruct (f y s) as [[u s']|] eqn:E; [|done].
  apply list.elem_of_cons in Hx as [->|Hx]; [by rewrite Hstop in E|].
  apply IH; [done..|]. intros z t Hz. apply Hstep. by right.
Qed.

(** ** Record update

    [r <| f := v |>] is the C assignment [r.f = v]; every record of the
    development comes with one [Setter] instance per field. *)

Class Setter {R T : Type} (proj : R → T) := setter : (T → T) → R → R.
Arguments setter {R T} proj {_} f r /.

Notation "r <| f := v |>" := (setter f (λ _, v) r)
  (at level 1, f at level 9, v at level 60, left associativity,
   format "r  <| f  :=  v |>") : fds_scope.
Notation "r <| f ::= g |>" := (setter f g r)
  (at level 1, f at level 9, g at level 60, left associativity,
   format "r  <| f  ::=  g |>") : fds_scope.

(** ** Arrays

    A C array is a list; an access out of its bounds has no result. *)

Section arrays.
Context {A : Type}.
Implicit Types (l : list A).

Definition arr_get l (i : Z) : option A :=
  if decide (0 ≤ i) then l !! Z.to_nat i else None.

Definition arr_set l (i : Z) (x : A) : list A := <[Z.to_nat i := x]> l.

Lemma arr_get_Some l i x :
  arr_get l i = Some x ↔ 0 ≤ i ∧ l !! Z.to_nat i = Some x.
Proof. unfold arr_get. case_decide; [|split; [done|lia]]. split; [done|by intros [? ?]]. Qed.

Lemma arr_get_lt l i x : arr_get l i = Some x → 0 ≤ i < Z.of_nat (length l).
Proof. intros [? ?%lookup_lt_Some]%arr_get_Some. lia. Qed.

Lemma arr_get_is_Some l i :
  0 ≤ i < Z.of_nat (length l) → ∃ x, arr_get l i = Some x.
Proof.
  intros [H1 H2]. destruct (lookup_lt_is_Some_2 l (Z.to_nat i)) as [x Hx]; [lia|].
  exists x. by apply arr_get_Some.
Qed.

Lemma length_arr_set l i x : length (arr_set l i x) = length l.
Proof. apply length_insert. Qed.

Lemma arr_get_set_eq l i x :
  0 ≤ i < Z.of_nat (length l) → arr_get (arr_set l i x) i = Some x.
Proof.
  intros [H1 H2]. apply arr_get_Some. split; [done|].
  apply list_lookup_insert_eq. lia.
Qed.

Lemma arr_get_set_ne l i j x :
  0 ≤ i → i ≠ j → arr_get (arr_set l i x) j = arr_get l j.
Proof.
  intros H1 H2. unfold arr_get, arr_set. case_decide; [|done].
  apply list_lookup_insert_ne. lia.
Qed.

Lemma arr_set_same l i x : arr_get l i = Some x → arr_set l i x = l.
Proof. intros [_ H]%arr_get_Some. by apply list_insert_id. Qed.

Lemma arr_set_set l i x y : arr_set (arr_set l i x) i y = arr_set l i y.
Proof. apply list_insert_insert_eq. Qed.

Lemma arr_get_replicate n (x : A) i :
  0 ≤ i < Z.of_nat n → arr_get (replicate n x) i = Some x.
Proof.
  intros [H1 H2]. apply arr_get_Some. split; [done|]. apply lookup_replicate_2. lia.
Qed.

Lemma arr_get_replicate_inv n (x y : A) i : arr_get (replicate n x) i = Some y → y = x.
Proof. by intros [_ [-> _]%lookup_replicate]%arr_get_Some. Qed.
End arrays.

(** ** Circular buffers

    Slot [i mod n] of an array of [n] entries: inside a window of [n]
    consecutive instance numbers two different numbers use different slots. *)

Lemma mod_window_inj n lo i j :
  0 < n → lo < i ≤ lo + n → lo < j ≤ lo + n → i mod n = j mod n → i = j.
Proof.
  intros Hn Hi Hj Heq.
  pose proof (Z.div_mod i n ltac:(lia)) as Hi'.
  pose proof (Z.div_mod j n ltac:(lia)) as Hj'.
  rewrite Heq in Hi'. generalize dependent (i / n). generalize dependent (j / n).
  intros b Hb a Ha. assert (a = b) as ->; [|lia].
  destruct (Z.lt_trichotomy a b) as [?|[?|?]]; [nia|done|nia].
Qed.

(** The masks of the source: [x & (2^k - 1)] is [x mod 2^k]. *)
Lemma land_mask x k : 0 ≤ k → Z.land x (2 ^ k - 1) = x mod 2 ^ k.
Proof. intros Hk. rewrite <-Z.land_ones by done. by rewrite Z.ones_equiv, Z.sub_1_r. Qed.

(** ** Wrap-around *)

Lemma wrap_small w x : 0 ≤ x < 2 ^ w → wrap w x = x.
Proof. apply Z.mod_small. Qed.

Lemma wrap_range w x : 0 ≤ w → in_u w (wrap w x).
Proof. intros Hw. apply Z.mod_pos_bound. lia. Qed.

Lemma wrap_idemp w x : 0 ≤ w → wrap w (wrap w x) = wrap w x.
Proof. intros. apply Z.mod_mod. lia. Qed.

(** ** Loops of the source

    [for(i = from; i <= to; i++)] over an unsigned [w]-bit [i] never ends when
    [to] is the largest value of the type. *)

Definition range (from to : Z) : list Z := seqZ from (to - from + 1).

Definition for_le {St} (w from to : Z) (f : Z → M St unit) : M St unit :=
  if decide (to = 2 ^ w - 1 ∧ from ≤ to) then crash else mfor (range from to) f.

Definition for_lt {St} (from to : Z) (f : Z → M St unit) : M St unit :=
  mfor (seqZ from (to - from)) f.

Lemma elem_of_range x from to : x ∈ range from to ↔ from ≤ x ≤ to.
Proof. unfold range. rewrite elem_of_seqZ. lia. Qed.

Lemma range_empty from to : to < from → range from to = [].
Proof. intros. unfold range. apply seqZ_nil. lia. Qed.

Lemma range_cons from to : from ≤ to → range from to = from :: range (from + 1) to.
Proof.
  intros. unfold range. rewrite seqZ_cons by lia.
  f_equal. unfold Z.succ, Z.pred. f_equal; lia.
Qed.

Lemma range_snoc from to : from ≤ to + 1 → range from (to + 1) = range from to ++ [to + 1].
Proof.
  intros. unfold range. replace (to + 1 - from + 1) with ((to - from + 1) + 1) by lia.
  rewrite (seqZ_app from (to - from + 1) 1) by lia.
  replace (from + (to - from + 1)) with (to + 1) by lia. done.
Qed.

(** A position of a range is determined by how many elements precede it. *)
Lemma range_split from to dn x rest :
  range from to = dn ++ x :: rest → x = from + Z.of_nat (length dn) ∧ x ≤ to.
Proof.
  intros Heq. assert (range from to !! length dn = Some x) as Hx.
  { rewrite Heq. by apply list_lookup_middle. }
  unfold range in Hx. apply lookup_seqZ in Hx. lia.
Qed.

Lemma range_prefix_lt from to dn x rest i : range from to = dn ++ x :: rest → i ∈ dn → i < x.
Proof.
  intros E Hi. destruct (range_split _ _ _ _ _ E) as [-> _].
  apply list_elem_of_lookup in Hi as [n Hn]. pose proof (lookup_lt_Some _ _ _ Hn).
  assert (range from to !! n = Some i) as H1 by (rewrite E; by rewrite lookup_app_l).
  unfold range in H1. apply lookup_seqZ in H1. lia.
Qed.

Lemma lookup_range from to k i : range from to !! k = Some i → i = from + Z.of_nat k ∧ i ≤ to.
Proof. unfold range. intros [-> ?]%lookup_seqZ. lia. Qed.

Lemma length_range from to : length (range from to) = Z.to_nat (to - from + 1).
Proof. unfold range. by rewrite length_seqZ. Qed.

Lemma prefix_lookups {A} (l1 l2 : list A) : (∀ k x, l1 !! k = Some x → l2 !! k = Some x) → l1 `prefix_of` l2.
Proof.
  revert l2. induction l1 as [|x l1 IH]; intros l2 Hl; [apply prefix_nil|]. pose proof (Hl 0%nat x eq_refl) as Hx.
  destruct l2 as [|y l2]; [done|]. injection Hx as ->. apply prefix_cons, IH. intros k. apply (Hl (S k)).
Qed.

(** ** Automation *)

Create HintDb fds discriminated.
Create Rewrite HintDb fds.

#[export] Hint Resolve wp_ret wp_get wp_gets wp_put wp_modify : fds.
#[export] Hint Rewrite @length_arr_set @length_insert @length_replicate : fds.

(** One step of the weakest precondition of a sequence of commands. *)
Ltac wp_step :=
  lazymatch goal with
  | |- wp (mret _) _ _ => apply wp_ret
  | |- wp (_ ≫= _) _ _ => apply wp_bind
  | |- wp get _ _ => apply wp_get
  | |- wp (gets _) _ _ => apply wp_gets
  | |- wp (put _) _ _ => apply wp_put
  | |- wp (modify _) _ _ => apply wp_modify
  | |- wp (zoom _ _ _) _ _ => apply wp_zoom
  end.
Ltac wp_steps := repeat (wp_step; cbn beta).

(** Case analysis on the first [if]/[match] of a weakest precondition. *)
Ltac wp_case :=
  match goal with
  | |- wp (if ?b then _ else _) _ _ => destruct b eqn:?
  | |- wp (match ?b with _ => _ end) _ _ => destruct b eqn:?
  end.

(** Turns the boolean comparisons of the source into propositions. *)
Ltac zbool :=
  repeat match goal with
  | H : _ && _ = true |- _ => apply andb_prop in H; destruct H
  | H : _ && _ = false |- _ => apply andb_false_iff in H
  | H : _ || _ = true |- _ => apply orb_true_iff in H
  | H : _ || _ = false |- _ => apply orb_false_elim in H; destruct H
  | H : negb _ = true |- _ => apply negb_true_iff in H
  | H : negb _ = false |- _ => apply negb_false_iff in H
  | H : (_ =? _) = true |- _ => apply Z.eqb_eq in H
  | H : (_ =? _) = false |- _ => apply Z.eqb_neq in H
  | H : (_ <? _) = true |- _ => apply Z.ltb_lt in H
  | H : (_ <? _) = false |- _ => apply Z.ltb_ge in H
  | H : (_ <=? _) = true |- _ => apply Z.leb_le in H
  | H : (_ <=? _) = false |- _ => apply Z.leb_gt in H
  | H : (_ >? _) = _ |- _ => rewrite Z.gtb_ltb in H
  | H : (_ >=? _) = _ |- _ => rewrite Z.geb_leb in H
  | H : bool_decide _ = true |- _ => apply bool_decide_eq_true_1 in H
  | H : bool_decide _ = false |- _ => apply bool_decide_eq_false_1 in H
  end.
