(* ===== verification/Steps.v ===== *)
(** * What a computation does to its state, if it ends

    [wlp] is the partial version of [wp]: nothing is claimed of a computation
    without a result.  [steps R m] says that whatever [m] does to the state is
    in the relation [R], a preorder, so that it follows for a handler from its
    parts; [solve_steps] goes through the code. *)
From S2P Require Import Prelude.

Definition wlp {St A} (m : M St A) (Q : A → St → Prop) (s : St) : Prop :=
  match m s with
  | Some (a, s') => Q a s'
  | None => True
  end.

#[global] Arguments wlp : simpl never.

Section wlp.
Context {St A B : Type}.
Implicit Types (s : St).

Lemma wlp_ret (a : A) (Q : A → St → Prop) s : Q a s → wlp (mret a) Q s.
Proof. done. Qed.

Lemma wlp_bind (m : M St A) (k : A → M St B) Q s : wlp m (λ a s', wlp (k a) Q s') s → wlp (m ≫= k) Q s.
Proof. unfold wlp, mbind, M_bind. by destruct (m s) as [[a s']|]. Qed.

Lemma wlp_mono (m : M St A) (P Q : A → St → Prop) s : wlp m P s → (∀ a s', P a s' → Q a s') → wlp m Q s.
Proof. unfold wlp. destruct (m s) as [[a s']|]; eauto. Qed.

Lemma wlp_get (k : St → M St B) Q s : wlp (k s) Q s → wlp (get ≫= k) Q s.
Proof. done. Qed.

Lemma wlp_assert b (Q : unit → St → Prop) s : (b = true → Q tt s) → wlp (c_assert b) Q s.
Proof. destruct b; [by intros H; apply H|done]. Qed.

Lemma wlp_lift_opt (o : option A) (Q : A → St → Prop) s : (∀ a, o = Some a → Q a s) → wlp (lift_opt o) Q s.
Proof. intros H. unfold wlp, lift_opt. destruct o; [by apply H|done]. Qed.

Lemma wlp_modify (f : St → St) (Q : unit → St → Prop) s : Q tt (f s) → wlp (modify f) Q s.
Proof. done. Qed.

Lemma wlp_zoom {T} (proj : St → T) upd (m : M T A) (Q : A → St → Prop) s :
  wlp m (λ a t, Q a (upd t s)) (proj s) → wlp (zoom proj upd m) Q s.
Proof. unfold wlp, zoom. by destruct (m (proj s)) as [[a t]|]. Qed.

Lemma wlp_run (m : M St A) Q s a s' : m s = Some (a, s') → wlp m Q s → Q a s'.
Proof. unfold wlp. by intros ->. Qed.

Lemma wlp_of_wp (m : M St A) Q s : wp m Q s → wlp m Q s.
Proof. unfold wp, wlp. by destruct (m s) as [[a s']|]. Qed.

Lemma wp_wlp (m : M St A) (P Q : A → St → Prop) s : wp m P s → wlp m Q s → wp m (λ a s', P a s' ∧ Q a s') s.
Proof. unfold wp, wlp. by destruct (m s) as [[]|]. Qed.
End wlp.

(** ** Relations between the states before and after *)

Definition steps {St A} (R : relation St) (m : M St A) : Prop := ∀ s, wlp m (λ _ s', R s s') s.

Section steps.
Context {St : Type} (R : relation St) `{!PreOrder R}.

Lemma steps_run {A} (m : M St A) s a s' : steps R m → m s = Some (a, s') → R s s'.
Proof. intros H E. by apply (wlp_run _ _ _ _ _ E (H s)). Qed.

Lemma wlp_steps {A} (m : M St A) (Q : A → St → Prop) s : steps R m → (∀ a s', R s s' → Q a s') → wlp m Q s.
Proof. intros H HQ. eapply wlp_mono; [apply H|]. intros a s'. apply HQ. Qed.

Lemma steps_ret {A} (a : A) : steps R (mret a).
Proof using Type*. intros s. by apply wlp_ret. Qed.
Lemma steps_bind {A B} (m : M St A) (k : A → M St B) : steps R m → (∀ a, steps R (k a)) → steps R (m ≫= k).
Proof using Type*.
  intros Hm Hk s. apply wlp_bind. apply wlp_steps; [done|]. intros a s' H.
  apply wlp_steps; [apply Hk|]. intros _ s''. by etrans.
Qed.
Lemma steps_get {A} (k : St → M St A) : (∀ s, steps R (k s)) → steps R (get ≫= k).
Proof. intros H s. apply H. Qed.
Lemma steps_modify (f : St → St) : (∀ s, R s (f s)) → steps R (modify f).
Proof. intros H s. by apply wlp_modify. Qed.
Lemma steps_assert b : steps R (c_assert b).
Proof using Type*. intros s. by apply wlp_assert. Qed.
Lemma steps_lift_opt {A} (o : option A) : steps R (lift_opt o).
Proof using Type*. intros s. by apply wlp_lift_opt. Qed.
Lemma steps_crash {A} : steps R (crash (A := A)).
Proof. done. Qed.
Lemma steps_mfor {A} (l : list A) (f : A → M St unit) : (∀ x, steps R (f x)) → steps R (mfor l f).
Proof using Type*. intros H. induction l as [|x l IH]; cbn [mfor]; [apply steps_ret|]. by apply steps_bind. Qed.
Lemma steps_zoom {T A} (proj : St → T) upd (m : M T A) : (∀ s t, R s (upd t s)) → steps R (zoom proj upd m).
Proof. intros H s. apply wlp_zoom. unfold wlp. by destruct (m (proj s)) as [[a t]|]. Qed.
Lemma steps_mono {A} (R' : relation St) (m : M St A) : (∀ s s', R s s' → R' s s') → steps R m → steps R' m.
Proof. intros HR H s. by apply wlp_steps; [|intros a s' ?; apply HR]. Qed.
End steps.

(** Goes through the code; [tac] proves what is left of a basic step, and
    hypotheses and hints of the database [steps] give the routines. *)
Create HintDb steps.

Ltac solve_steps_with tac := cbv zeta; repeat (cbv beta; lazymatch goal with
  | |- steps _ (get ≫= _) => apply steps_get; intros ?
  | |- steps _ (_ ≫= _) => apply steps_bind; [tc_solve| |intros ?]
  | |- steps _ (mret _) => apply steps_ret; tc_solve
  | |- steps _ (c_assert _) => apply steps_assert; tc_solve
  | |- steps _ (lift_opt _) => apply steps_lift_opt; tc_solve
  | |- steps _ crash => apply steps_crash
  | |- steps _ (mfor _ _) => apply steps_mfor; [tc_solve|intros ?]
  | |- steps _ (if ?b then _ else _) => destruct b
  | |- steps _ (match ?x with _ => _ end) => destruct x
  | |- steps _ _ => first [assumption | solve [auto with nocore steps] | tac]
  end).
Tactic Notation "solve_steps" := solve_steps_with ltac:(apply steps_modify; intros ?; by repeat case_match).

(** ** Invariants of a computation

    [keeps P m]: if [m] ends, what held before it holds after it. *)

Definition keeps {St A} (P : St → Prop) (m : M St A) : Prop := ∀ s, P s → wlp m (λ _ s', P s') s.

Section keeps.
Context {St : Type} (P : St → Prop).

Lemma wlp_keeps {A} (m : M St A) (Q : A → St → Prop) s : keeps P m → P s → (∀ a s', P s' → Q a s') → wlp m Q s.
Proof. intros Hm Hs HQ. eapply wlp_mono; [by apply Hm|]. intros a s'. apply HQ. Qed.

Lemma keeps_wlp {A} (m : M St A) s : keeps P m → P s → wlp m (λ _ s', P s') s.
Proof. intros Hm. apply Hm. Qed.

Lemma keeps_seq {A B} (m : M St A) (k : A → M St B) s :
  wlp m (λ _ s', P s') s → (∀ a s', P s' → wlp (k a) (λ _ s'', P s'') s') → wlp (m ≫= k) (λ _ s', P s') s.
Proof. intros Hm Hk. apply wlp_bind. eapply wlp_mono; [exact Hm|]. intros a s'. apply Hk. Qed.

Lemma keeps_mfor {A} (l : list A) (f : A → M St unit) s :
  (∀ x s, x ∈ l → P s → wlp (f x) (λ _ s', P s') s) → P s → wlp (mfor l f) (λ _ s', P s') s.
Proof.
  revert s. induction l as [|x l IH]; intros s Hf Hs; [done|]. cbn [mfor]. apply keeps_seq; [apply Hf; [left|done]|].
  intros ? s' Hs'. apply IH; [|done]. intros y s'' Hy. apply Hf. by right.
Qed.

Lemma keeps_for_le w from to (f : Z → M St unit) s :
  (∀ x s, P s → wlp (f x) (λ _ s', P s') s) → P s → wlp (for_le w from to f) (λ _ s', P s') s.
Proof. intros Hf Hs. unfold for_le. destruct (decide _); [done|]. apply keeps_mfor; eauto. Qed.

Lemma keeps_for_lt from to (f : Z → M St unit) s :
  (∀ x s, P s → wlp (f x) (λ _ s', P s') s) → P s → wlp (for_lt from to f) (λ _ s', P s') s.
Proof. intros Hf Hs. apply keeps_mfor; eauto. Qed.

Lemma keeps_zoom {T A} (PT : T → Prop) (proj : St → T) upd (m : M T A) s :
  keeps PT m → PT (proj s) → (∀ t, PT t → P (upd t s)) → wlp (zoom proj upd m) (λ _ s', P s') s.
Proof. intros Hm Hs HP. apply wlp_zoom. eapply wlp_mono; [by apply Hm|]. intros ? t. apply HP. Qed.
End keeps.

(** Goes through the code with what is known of the state; [tac] proves what is
    left, and the database [keeps] has the routines. *)
Create HintDb keeps discriminated.
#[export] Hint Constants Opaque : keeps.

Ltac solve_keeps_with tac := cbv zeta; repeat (cbv beta; lazymatch goal with
  | |- keeps _ _ => intros ? ?
  | |- wlp (get ≫= _) _ _ => apply wlp_get
  | |- wlp (gets _ ≫= _) _ _ => apply wlp_get
  | |- wlp (_ ≫= _) _ _ => apply keeps_seq; [|intros ? ? ?]
  | |- wlp (mret _) _ _ => apply wlp_ret; assumption
  | |- wlp (c_assert _) _ _ => apply wlp_assert; intros _; assumption
  | |- wlp (lift_opt _) _ _ => apply wlp_lift_opt; intros ? _; assumption
  | |- wlp crash _ _ => exact I
  | |- wlp (mfor _ _) _ _ => apply keeps_mfor; [intros ? ? _ ?|assumption]
  | |- wlp (for_le _ _ _ _) _ _ => apply keeps_for_le; [intros ? ? ?|assumption]
  | |- wlp (for_lt _ _ _) _ _ => apply keeps_for_lt; [intros ? ? ?|assumption]
  | |- wlp (if ?b then _ else _) _ _ => destruct b
  | |- wlp (match ?x with _ => _ end) _ _ => destruct x
  | |- wlp _ _ _ => first [solve [apply keeps_wlp; [auto with nocore keeps|assumption]] | tac]
  end).
Tactic Notation "solve_keeps" := solve_keeps_with fail.
Tactic Notation "solve_keeps" "with" tactic3(tac) := solve_keeps_with tac.
