(* ===== verification/Timers.v ===== *)
(** * Deadlines

    [struct timeval], the deadline arithmetic and the periodic events of
    [ring_paxos/lib/timers.c].  The wall clock ([gettimeofday]) is an argument
    of every function that reads it. *)
From S2P Require Import Prelude.

Record timeval := mk_timeval { tv_sec : Z; tv_usec : Z }.

#[export] Instance timeval_eq_dec : EqDecision timeval.
Proof. solve_decision. Defined.

Definition timeval_zero : timeval := mk_timeval 0 0.

(** A value of [gettimeofday], or an interval of the configuration. *)
Definition tv_normal (t : timeval) : Prop := 0 ≤ tv_sec t ∧ 0 ≤ tv_usec t < 1000000.

(** The time in microseconds. *)
Definition tv_micros (t : timeval) : Z := tv_sec t * 1000000 + tv_usec t.

(** [timer_set_timeout] (timers.c): the deadline is returned. *)
Definition timer_set_timeout (current_time interval : timeval) : timeval :=
  let sec := tv_sec current_time + tv_sec interval in
  let tot_usec := tv_usec current_time + tv_usec interval in
  if 1000000 <=? tot_usec
  then mk_timeval (sec + 1) (tot_usec mod 1000000)
  else mk_timeval sec tot_usec.

(** [timer_is_expired] (timers.c). *)
Definition timer_is_expired (deadline_time curr_time : timeval) : bool :=
  (tv_sec deadline_time <? tv_sec curr_time) ||
  ((tv_sec deadline_time =? tv_sec curr_time) &&
   (tv_usec deadline_time <? tv_usec curr_time)).

(** ** Periodic events

    [event_add] of libevent is a parameter; it arms the event for its
    interval and returns 0 on success.  The callback has its argument. *)
Section periodic.
Context {St : Type} (event_add : timeval → M St Z).

Record periodic_event := mk_periodic_event {
  pe_interval : timeval;
  pe_cb : M St unit
}.

(** The callback of libevent: the event is armed again only after the real
    callback returned. *)
Definition periodic_event_wrapper (pe : periodic_event) : M St unit :=
  pe_cb pe;;
  retval ← event_add (pe_interval pe);
  c_assert (retval =? 0).

Definition set_periodic_event (interval : timeval) (cb : M St unit) : M St periodic_event :=
  let p := mk_periodic_event (mk_timeval (tv_sec interval) (tv_usec interval)) cb in
  retval ← event_add (pe_interval p);
  c_assert (retval =? 0);;
  mret p.

(** The event is set, and then fires [n] times. *)
Definition periodic_run (interval : timeval) (cb : M St unit) (n : nat) : M St unit :=
  p ← set_periodic_event interval cb;
  mfor (seq 0 n) (λ _, periodic_event_wrapper p).

(** What the callback keeps holds however often the event fires. *)
Lemma periodic_run_inv (I : St → Prop) interval cb n s :
  (∀ s, I s → wp (event_add interval) (λ r s', r = 0 ∧ I s') s) → (∀ s, I s → wp cb (λ _ s', I s') s) → I s →
  wp (periodic_run interval cb n) (λ _ s', I s') s.
Proof.
  intros Hadd Hcb Hs. destruct interval as [sec usec]. unfold periodic_run, set_periodic_event. cbn.
  apply wp_bind, wp_bind. eapply wp_mono; [by apply Hadd|]. intros r s1 [-> H1].
  apply wp_bind, wp_assert; [done|]. apply wp_ret. apply (wp_mfor_inv I); [done| |done].
  intros _ s2 _ H2. unfold periodic_event_wrapper. cbn. apply wp_bind. eapply wp_mono; [by apply Hcb|].
  intros [] s3 H3. apply wp_bind. eapply wp_mono; [by apply Hadd|]. intros r s4 [-> H4]. by apply wp_assert.
Qed.
End periodic.
#[global] Arguments periodic_event : clear implicits.

(** ** Lemmas *)

Lemma tv_micros_nonneg t : tv_normal t → 0 ≤ tv_micros t.
Proof. unfold tv_normal, tv_micros. lia. Qed.

(** On normalised times the comparison of the source is the order of time. *)
Lemma timer_is_expired_micros d c :
  tv_normal d → tv_normal c →
  timer_is_expired d c = bool_decide (tv_micros d < tv_micros c).
Proof.
  unfold tv_normal, tv_micros, timer_is_expired. intros Hd Hc.
  apply eq_bool_prop_intro. rewrite bool_decide_spec, orb_True, andb_True, !Is_true_true.
  rewrite !Z.ltb_lt, Z.eqb_eq. lia.
Qed.

Lemma timer_set_timeout_normal c i :
  tv_normal c → tv_normal i → tv_normal (timer_set_timeout c i).
Proof.
  unfold tv_normal, timer_set_timeout. intros Hc Hi.
  destruct (Z.leb_spec 1000000 (tv_usec c + tv_usec i)); cbn; [|lia].
  pose proof (Z.mod_pos_bound (tv_usec c + tv_usec i) 1000000). lia.
Qed.

Lemma timer_set_timeout_micros c i :
  tv_normal c → tv_normal i →
  tv_micros (timer_set_timeout c i) = tv_micros c + tv_micros i.
Proof.
  unfold tv_normal, tv_micros, timer_set_timeout. intros Hc Hi.
  destruct (Z.leb_spec 1000000 (tv_usec c + tv_usec i)); cbn; [|lia].
  pose proof (Z.mod_pos_bound (tv_usec c + tv_usec i) 1000000).
  pose proof (Z.div_mod (tv_usec c + tv_usec i) 1000000 ltac:(lia)).
  assert ((tv_usec c + tv_usec i) / 1000000 = 1); nia.
Qed.

#[export] Hint Resolve timer_set_timeout_normal : fds.

(** ** Properties *)

(** A deadline set at [now] with [interval] is expired at [later] exactly
    when more than [interval] has passed: neither the carry of the
    microseconds nor the two-level comparison loses time. *)
Theorem timer_expires_after_interval now interval later :
  tv_normal now → tv_normal interval → tv_normal later →
  timer_is_expired (timer_set_timeout now interval) later = true ↔
  tv_micros later - tv_micros now > tv_micros interval.
Proof.
  intros Hn Hi Hl. rewrite timer_is_expired_micros by auto with fds.
  rewrite bool_decide_eq_true, timer_set_timeout_micros by done. lia.
Qed.

Lemma timer_expires_after_interval_witness :
  timer_is_expired (timer_set_timeout (mk_timeval 7 999999) (mk_timeval 0 10000))
    (mk_timeval 8 10000) = true.
Proof.
  apply (timer_expires_after_interval (mk_timeval 7 999999) (mk_timeval 0 10000)
    (mk_timeval 8 10000)); unfold tv_normal, tv_micros; cbn; lia.
Defined.

(** The carry is of one second only: an interval of 2500000 microseconds, which
    the configuration accepts, is a deadline after one and a half seconds. *)
Lemma long_microseconds_lost :
  timer_set_timeout (mk_timeval 10 0) (mk_timeval 0 2500000) = mk_timeval 11 500000.
Proof. done. Qed.
