(* ===== verification/RingUtil.v ===== *)
(** * Ballots and command identifiers of RingPaxos

    [ring_paxos/include/paxos_config.h], [ring_paxos/include/lp_utils.h] and
    [ring_paxos/lib/util.c].  A ballot is a 32-bit word made of a 16-bit
    sequence number and the 16-bit identity (acceptor, incarnation) of the
    multicaster that owns it. *)
From S2P Require Import Prelude.

(** [command_id] (paxos_config.h). *)
Record command_id := mk_command_id {
  mcaster_id : Z;          (* uint8_t *)
  mcaster_incarnation : Z; (* uint8_t *)
  cmd_seqnum : Z           (* uint16_t *)
}.

#[export] Instance command_id_eq_dec : EqDecision command_id.
Proof. solve_decision. Defined.

(** [CMD_KEY_CLEAR] and [clear_cmd_key]: the key all of whose fields are 0. *)
Definition clear_cmd_key : command_id := mk_command_id 0 0 0.

(** [CMD_KEY_EQUALS] (lp_utils.h). *)
Definition CMD_KEY_EQUALS (x y : command_id) : bool :=
  (mcaster_id x =? mcaster_id y) &&
  (mcaster_incarnation x =? mcaster_incarnation y) &&
  (cmd_seqnum x =? cmd_seqnum y).

(** [CMD_KEY_IS_NULL] (lp_utils.h). *)
Definition CMD_KEY_IS_NULL (x : command_id) : bool :=
  (mcaster_id x =? 0) && (mcaster_incarnation x =? 0) && (cmd_seqnum x =? 0).

Lemma CMD_KEY_EQUALS_spec x y : CMD_KEY_EQUALS x y = true ↔ x = y.
Proof.
  destruct x as [a b c], y as [a' b' c']. unfold CMD_KEY_EQUALS; cbn.
  rewrite !andb_true_iff, !Z.eqb_eq.
  split; [by intros [[-> ->] ->]|by intros [= -> -> ->]].
Qed.

Lemma CMD_KEY_EQUALS_decide x y : CMD_KEY_EQUALS x y = bool_decide (x = y).
Proof.
  apply eq_bool_prop_intro.
  by rewrite bool_decide_spec, Is_true_true, CMD_KEY_EQUALS_spec.
Qed.

Lemma CMD_KEY_EQUALS_refl x : CMD_KEY_EQUALS x x = true.
Proof. by apply CMD_KEY_EQUALS_spec. Qed.

(** ** Ballots (util.c) *)

Definition make_first_ballot (acc_id incarnation : Z) : Z :=
  let b := 0 in
  let b := u32 (b + Z.shiftl 1 16) in
  let b := u32 (b + Z.shiftl acc_id 8) in
  let b := u32 (b + incarnation) in
  b.

Definition raise_ballot (current_b ballot_to_beat : Z) : Z :=
  let new_b := Z.land current_b 0xFFFF in
  let new_seq := Z.land (Z.shiftr ballot_to_beat 16) 0xFFFF in
  let new_seq := u16 (new_seq + 1) in
  u32 (new_b + Z.shiftl new_seq 16).

Definition increment_ballot (b : Z) : Z :=
  let new_b := Z.land b 0xFFFF in
  let new_seqnum := Z.land (Z.shiftr b 16) 0xFFFF in
  let new_seqnum := u16 (new_seqnum + 1) in
  u32 (new_b + Z.shiftl new_seqnum 16).

Definition is_my_ballot (b acc_id incarnation : Z) : bool :=
  let identificator := u16 (Z.shiftl acc_id 8 + incarnation) in
  Z.land b 0xFFFF =? identificator.

(** ** The two halves of a ballot *)

Definition ballot_seq (b : Z) : Z := b / 2 ^ 16.
Definition ballot_owner (b : Z) : Z := b mod 2 ^ 16.

Lemma land_ffff x : Z.land x 0xFFFF = x mod 2 ^ 16.
Proof. apply (land_mask x 16). lia. Qed.

Lemma ballot_split b : b = ballot_seq b * 2 ^ 16 + ballot_owner b.
Proof. unfold ballot_seq, ballot_owner. rewrite (Z.div_mod b (2 ^ 16)) at 1; lia. Qed.

Lemma ballot_seq_range b : in_u 32 b → in_u 16 (ballot_seq b).
Proof.
  unfold in_u, ballot_seq. intros [H1 H2]. split; [apply Z.div_pos; lia|].
  apply Z.div_lt_upper_bound; lia.
Qed.

Lemma ballot_owner_range b : in_u 16 (ballot_owner b).
Proof. apply Z.mod_pos_bound. lia. Qed.

Lemma ballot_seq_land b : in_u 32 b → Z.land (Z.shiftr b 16) 0xFFFF = ballot_seq b.
Proof.
  intros Hb. rewrite land_ffff, Z.shiftr_div_pow2 by lia.
  apply Z.mod_small, (ballot_seq_range b Hb).
Qed.

(** A ballot assembled from its two halves. *)
Lemma ballot_join s o :
  in_u 16 s → in_u 16 o →
  ballot_seq (s * 2 ^ 16 + o) = s ∧ ballot_owner (s * 2 ^ 16 + o) = o ∧
  in_u 32 (s * 2 ^ 16 + o).
Proof.
  unfold in_u, ballot_seq, ballot_owner. intros Hs Ho.
  rewrite Z.div_add_l by lia. rewrite Z.div_small by lia.
  rewrite (Z.add_comm _ o), Z.mod_add by lia. rewrite Z.mod_small by lia. lia.
Qed.

Lemma raise_ballot_halves c b :
  in_u 32 c → in_u 32 b →
  ballot_seq (raise_ballot c b) = u16 (ballot_seq b + 1) ∧
  ballot_owner (raise_ballot c b) = ballot_owner c ∧
  in_u 32 (raise_ballot c b).
Proof.
  intros Hc Hb. unfold raise_ballot. rewrite ballot_seq_land by done.
  rewrite land_ffff, Z.shiftl_mul_pow2 by lia. fold (ballot_owner c).
  pose proof (ballot_owner_range c) as Ho.
  pose proof (wrap_range 16 (ballot_seq b + 1) ltac:(lia)) as Hs.
  rewrite Z.add_comm.
  destruct (ballot_join _ _ Hs Ho) as (H1 & H2 & H3).
  by rewrite wrap_small by apply H3.
Qed.

Lemma increment_ballot_raise b : increment_ballot b = raise_ballot b b.
Proof. done. Qed.

Lemma make_first_ballot_halves a i :
  in_u 8 a → in_u 8 i →
  ballot_seq (make_first_ballot a i) = 1 ∧
  ballot_owner (make_first_ballot a i) = a * 2 ^ 8 + i ∧
  in_u 32 (make_first_ballot a i).
Proof.
  unfold in_u. intros Ha Hi. unfold make_first_ballot.
  rewrite !Z.shiftl_mul_pow2 by lia.
  change (u32 (0 + 1 * 2 ^ 16)) with (1 * 2 ^ 16).
  rewrite (wrap_small 32 (1 * 2 ^ 16 + _)), wrap_small by lia.
  replace (1 * 2 ^ 16 + a * 2 ^ 8 + i) with (1 * 2 ^ 16 + (a * 2 ^ 8 + i)) by lia.
  apply ballot_join; unfold in_u; lia.
Qed.

Lemma is_my_ballot_owner b a i :
  in_u 8 a → in_u 8 i → is_my_ballot b a i = true ↔ ballot_owner b = a * 2 ^ 8 + i.
Proof.
  unfold in_u. intros Ha Hi. unfold is_my_ballot. rewrite Z.eqb_eq, land_ffff.
  rewrite Z.shiftl_mul_pow2 by lia. by rewrite wrap_small by lia.
Qed.

(** The ballots a multicaster ever uses: the first one, and the ones obtained
    from its own by [raise_ballot] and [increment_ballot]. *)
Inductive ballot_of (a i : Z) : Z → Prop :=
  | ballot_first : ballot_of a i (make_first_ballot a i)
  | ballot_raise b beat : ballot_of a i b → in_u 32 beat → ballot_of a i (raise_ballot b beat)
  | ballot_incr b : ballot_of a i b → ballot_of a i (increment_ballot b).

Lemma ballot_of_owner a i b :
  in_u 8 a → in_u 8 i → ballot_of a i b → ballot_owner b = a * 2 ^ 8 + i ∧ in_u 32 b.
Proof.
  intros Ha Hi. induction 1 as [|b beat Hb [IH1 IH2] Hbeat|b Hb [IH1 IH2]].
  - by destruct (make_first_ballot_halves a i) as (_ & ? & ?).
  - destruct (raise_ballot_halves b beat) as (_ & ? & ?); [done|done|]. split; [congruence|done].
  - rewrite increment_ballot_raise.
    destruct (raise_ballot_halves b b) as (_ & ? & ?); [done|done|]. split; [congruence|done].
Qed.

(** ** Properties *)

(** C33. Two multicasters never use the same ballot: whatever ballots a
    multicaster raises or increments from its first one, [is_my_ballot]
    recognises them as its own and as nobody else's. *)
Theorem ballot_ownership a i b a' i' :
  in_u 8 a → in_u 8 i → in_u 8 a' → in_u 8 i' → ballot_of a i b →
  is_my_ballot b a' i' = true ↔ a' = a ∧ i' = i.
Proof.
  intros Ha Hi Ha' Hi' Hb. rewrite is_my_ballot_owner by done.
  destruct (ballot_of_owner a i b) as [-> _]; [done..|].
  unfold in_u in *. lia.
Qed.

Lemma ballot_ownership_witness :
  is_my_ballot (raise_ballot (make_first_ballot 1 0) (make_first_ballot 9 3)) 1 0 = true ↔
  1 = 1 ∧ 0 = 0.
Proof.
  apply (ballot_ownership 1 0 _ 1 0); [unfold in_u; lia..|].
  apply ballot_raise; [apply ballot_first|]. unfold in_u. vm_compute. by split.
Defined.

(** [raise_ballot] beats the ballot it is given as long as the 16-bit
    sequence number of that ballot is not exhausted, and then it is the least
    ballot of the same owner with a larger sequence number; on an exhausted
    sequence number it wraps to sequence number 0 and beats nothing. *)
Theorem raise_ballot_beats c b :
  in_u 32 c → in_u 32 b →
  (ballot_seq b < 0xFFFF →
     b < raise_ballot c b ∧
     ∀ d, in_u 32 d → ballot_owner d = ballot_owner c → ballot_seq b < ballot_seq d →
          raise_ballot c b ≤ d) ∧
  (ballot_seq b = 0xFFFF → raise_ballot c b ≤ 0xFFFF < b).
Proof.
  intros Hc Hb. destruct (raise_ballot_halves c b) as (Hs & Ho & Hr); [done..|].
  pose proof (ballot_split (raise_ballot c b)). pose proof (ballot_split b).
  pose proof (ballot_owner_range b). pose proof (ballot_owner_range c).
  pose proof (ballot_seq_range b Hb). unfold in_u in *.
  split; intros Hq.
  - rewrite wrap_small in Hs by lia. split; [lia|].
    intros d Hd Hdo Hds. pose proof (ballot_split d). lia.
  - rewrite Hq in Hs. change (u16 (0xFFFF + 1)) with 0 in Hs. lia.
Qed.

Lemma raise_ballot_beats_witness :
  make_first_ballot 9 3 < raise_ballot (make_first_ballot 1 0) (make_first_ballot 9 3).
Proof.
  destruct (raise_ballot_beats (make_first_ballot 1 0) (make_first_ballot 9 3)) as [H _].
  - unfold in_u. vm_compute. by split.
  - unfold in_u. vm_compute. by split.
  - apply H. reflexivity.
Defined.
