(* ===== verification/RingQueue.v ===== *)
(** * The bounded double-ended queue of RingPaxos

    [ring_paxos/include/lp_queue.h] and [ring_paxos/lib/queue.c]: a circular
    buffer of elements with a read and a write index.  [Deque] is the interface
    its clients (memory pool, client values manager, multicaster storage) rely
    on; [queue_laws] shows that the circular buffer implements it.

    A [void *] is whatever it designates ([D]): the bytes of a command for the
    client values, an address for the memory pool.  The copy that [make_copy]
    asks for has the same contents as its source, and the release of the data
    of a discarded element is not modelled. *)
From S2P Require Import Prelude.

Definition MAX_QUEUE_SIZE_BYTES : Z := 1024 * 1024 * 1024.

(** [queue_element] (queue.c); [None] is the NULL pointer. *)
Record queue_element (D : Type) := mk_queue_element { data : option D; size : Z }.
Arguments mk_queue_element {D} data size.
Arguments data {D} _.
Arguments size {D} _.

(** [struct lpqueue_t] (queue.c). *)
Record lpqueue (D : Type) := mk_lpqueue {
  queue_count : Z; max_count : Z;   (* unsigned *)
  queue_size : Z;                   (* unsigned *)
  read_index : Z; write_index : Z;  (* unsigned *)
  queue : list (queue_element D)
}.
Arguments mk_lpqueue {D} _ _ _ _ _ _.
Arguments queue_count {D} _.
Arguments max_count {D} _.
Arguments queue_size {D} _.
Arguments read_index {D} _.
Arguments write_index {D} _.
Arguments queue {D} _.

(** ** The interface *)

Class DequeOps (Q D : Type) := {
  d_init : Z → option Q;
  d_pop : M Q (option (queue_element D));
  d_append : queue_element D → M Q bool;
  d_prepend : queue_element D → M Q bool;
  d_count : Q → Z
}.

(** Number of bytes the elements of a queue stand for. *)
Definition total_bytes {D} (l : list (queue_element D)) : Z :=
  foldr (λ e acc, size e + acc) 0 l.
Arguments total_bytes : simpl never.

Lemma total_bytes_cons {D} (e : queue_element D) l :
  total_bytes (e :: l) = size e + total_bytes l.
Proof. done. Qed.

(** The laws of a queue of capacity [c] whose contents are a list. *)
Class Deque (Q D : Type) `{!DequeOps Q D} := {
  d_rep : Z → Q → list (queue_element D) → Prop;
  d_init_law n : 0 < n < 2 ^ 32 → ∃ q, d_init n = Some q ∧ d_rep n q [];
  d_len c q l : d_rep c q l → Z.of_nat (length l) ≤ c;
  d_count_law c q l : d_rep c q l → d_count q = Z.of_nat (length l);
  d_pop_law c q l :
    d_rep c q l → wp d_pop (λ r q', r = head l ∧ d_rep c q' (tail l)) q;
  d_append_law c q l e :
    d_rep c q l → 0 ≤ size e →
    Z.of_nat (length l) < c → total_bytes l + size e ≤ MAX_QUEUE_SIZE_BYTES →
    wp (d_append e) (λ b q', b = true ∧ d_rep c q' (l ++ [e])) q;
  d_append_full_law c q l e :
    d_rep c q l → Z.of_nat (length l) = c →
    wp (d_append e) (λ b q', b = false ∧ d_rep c q' l) q;
  d_prepend_law c q l e :
    d_rep c q l → 0 ≤ size e →
    wp (d_prepend e) (λ b q', b = true ∧
      d_rep c q' (e :: (if decide (Z.of_nat (length l) = c) then removelast l else l))) q
}.

(** ** The circular buffer *)

Section queue.
Context {D : Type}.
Implicit Types (q : lpqueue D) (e : queue_element D) (l : list (queue_element D)).

#[local] Instance set_queue_count : Setter (@queue_count D) := λ g r,
  mk_lpqueue (g (queue_count r)) (max_count r) (queue_size r) (read_index r) (write_index r) (queue r).
#[local] Arguments set_queue_count _ _ /.
#[local] Instance set_queue_size : Setter (@queue_size D) := λ g r,
  mk_lpqueue (queue_count r) (max_count r) (g (queue_size r)) (read_index r) (write_index r) (queue r).
#[local] Arguments set_queue_size _ _ /.
#[local] Instance set_read_index : Setter (@read_index D) := λ g r,
  mk_lpqueue (queue_count r) (max_count r) (queue_size r) (g (read_index r)) (write_index r) (queue r).
#[local] Arguments set_read_index _ _ /.
#[local] Instance set_write_index : Setter (@write_index D) := λ g r,
  mk_lpqueue (queue_count r) (max_count r) (queue_size r) (read_index r) (g (write_index r)) (queue r).
#[local] Arguments set_write_index _ _ /.
#[local] Instance set_queue : Setter (@queue D) := λ g r,
  mk_lpqueue (queue_count r) (max_count r) (queue_size r) (read_index r) (write_index r) (g (queue r)).
#[local] Arguments set_queue _ _ /.

(** [calloc] clears the elements. *)
Definition queue_init (queue_length : Z) : option (lpqueue D) :=
  if queue_length =? 0 then None
  else Some (mk_lpqueue 0 queue_length 0 0 0
               (replicate (Z.to_nat queue_length) (mk_queue_element None 0))).

Definition queue_get_current_size q : Z := queue_count q.

Definition queue_pop : M (lpqueue D) (option (queue_element D)) :=
  q ← get;
  if queue_count q =? 0 then mret None
  else
    e ← lift_opt (arr_get (queue q) (read_index q));
    modify (λ q, q <| queue_count := u32 (queue_count q - 1) |>);;
    modify (λ q, q <| queue_size := u32 (queue_size q - size e) |>);;
    modify (λ q, q <| read_index := u32 (read_index q + 1) |>);;
    modify (λ q, if read_index q =? max_count q then q <| read_index := 0 |> else q);;
    mret (Some e).

Definition queue_discard_last : M (lpqueue D) bool :=
  q ← get;
  if queue_count q =? 0 then mret false
  else
    modify (λ q, if write_index q =? 0
                 then q <| write_index := u32 (max_count q - 1) |>
                 else q <| write_index := u32 (write_index q - 1) |>);;
    q ← get;
    e ← lift_opt (arr_get (queue q) (write_index q));
    modify (λ q, q <| queue_size := u32 (queue_size q - size e) |>);;
    modify (λ q, q <| queue_count := u32 (queue_count q - 1) |>);;
    modify (λ q, q <| queue := arr_set (queue q) (write_index q) (mk_queue_element None 0) |>);;
    mret true.

(** The element carries the pair [cmd_value], [cmd_size]. *)
Definition queue_prepend e : M (lpqueue D) bool :=
  q ← get;
  (if queue_count q =? max_count q
   then result ← queue_discard_last; c_assert (bool_decide (result = true))
   else mret tt);;
  modify (λ q, if read_index q =? 0
               then q <| read_index := u32 (max_count q - 1) |>
               else q <| read_index := u32 (read_index q - 1) |>);;
  modify (λ q, q <| queue_size := u32 (queue_size q + size e) |>);;
  modify (λ q, q <| queue_count := u32 (queue_count q + 1) |>);;
  q ← get;
  _ ← lift_opt (arr_get (queue q) (read_index q));
  modify (λ q, q <| queue := arr_set (queue q) (read_index q) e |>);;
  mret true.

Definition queue_append e : M (lpqueue D) bool :=
  q ← get;
  if queue_count q =? max_count q then mret false
  else if MAX_QUEUE_SIZE_BYTES <? u64 (queue_size q + size e) then mret false
  else
    _ ← lift_opt (arr_get (queue q) (write_index q));
    modify (λ q, q <| queue := arr_set (queue q) (write_index q) e |>);;
    modify (λ q, q <| queue_count := u32 (queue_count q + 1) |>);;
    modify (λ q, q <| queue_size := u32 (queue_size q + size e) |>);;
    modify (λ q, q <| write_index := u32 (write_index q + 1) |>);;
    modify (λ q, if write_index q =? max_count q then q <| write_index := 0 |> else q);;
    mret true.

(** ** Representation

    The [i]-th element of the contents is in slot [read_index + i], modulo the
    capacity. *)
Definition slot q (i : Z) : Z := (read_index q + i) mod max_count q.

Record queue_rep (c : Z) q l : Prop := {
  rep_cap : max_count q = c;
  rep_pos : 0 < c < 2 ^ 32;
  rep_arr : Z.of_nat (length (queue q)) = c;
  rep_read : 0 ≤ read_index q < c;
  rep_len : Z.of_nat (length l) ≤ c;
  rep_count : queue_count q = Z.of_nat (length l);
  rep_write : write_index q = slot q (Z.of_nat (length l));
  rep_size : queue_size q = u32 (total_bytes l);
  rep_sizes : Forall (λ e, 0 ≤ size e) l;
  rep_elems : ∀ i e, l !! i = Some e → arr_get (queue q) (slot q (Z.of_nat i)) = Some e
}.

Lemma slot_range c q l i : queue_rep c q l → 0 ≤ slot q i < c.
Proof. intros H. unfold slot. rewrite (rep_cap _ _ _ H). apply Z.mod_pos_bound. apply H. Qed.

(** Two positions less than the capacity apart are in different slots. *)
Lemma mod_neq c a b : 0 < c → a < b < a + c → a mod c ≠ b mod c.
Proof.
  intros Hc Hab Heq. assert (a = b); [|lia].
  apply (mod_window_inj c (a - 1)); lia.
Qed.

(** Increment with wrap-around of an index. *)
Lemma index_succ c i : 0 ≤ i < c → (if i + 1 =? c then 0 else i + 1) = (i + 1) mod c.
Proof.
  intros Hi. destruct (Z.eqb_spec (i + 1) c) as [->|].
  - by rewrite Z.mod_same by lia.
  - rewrite Z.mod_small; lia.
Qed.

(** Decrement with wrap-around of an index. *)
Lemma index_pred c i : 0 ≤ i < c → (if i =? 0 then c - 1 else i - 1) = (i - 1) mod c.
Proof.
  intros Hi. destruct (Z.eqb_spec i 0) as [->|].
  - replace (0 - 1) with (c - 1 + (-1) * c) by lia.
    rewrite Z.mod_add by lia. rewrite Z.mod_small; lia.
  - rewrite Z.mod_small; lia.
Qed.

Lemma u32_add_l a b : u32 (u32 a + b) = u32 (a + b).
Proof. unfold wrap. by rewrite Z.add_mod_idemp_l. Qed.
Lemma u32_sub_l a b : u32 (u32 a - b) = u32 (a - b).
Proof. unfold wrap. by rewrite Zminus_mod_idemp_l. Qed.

Lemma total_bytes_app l e : total_bytes (l ++ [e]) = total_bytes l + size e.
Proof. unfold total_bytes. rewrite foldr_app. cbn. induction l as [|x l IH]; cbn; lia. Qed.

(** Removing the first element. *)
Lemma rep_tail c q e l :
  queue_rep c q (e :: l) →
  queue_rep c (mk_lpqueue (u32 (queue_count q - 1)) (max_count q)
    (u32 (queue_size q - size e)) ((read_index q + 1) mod c) (write_index q) (queue q)) l.
Proof.
  intros [Hc Hp Ha Hr Hl Hn Hw Hs Hf He]. cbn in *. unfold slot in *. rewrite Hc in *.
  assert (∀ j, ((read_index q + 1) mod c + j) mod c = (read_index q + (j + 1)) mod c) as Hsl.
  { intros j. rewrite Z.add_mod_idemp_l by lia. f_equal. lia. }
  split; unfold slot; cbn; rewrite ?Hc, ?Hsl; try done; try lia.
  - apply Z.mod_pos_bound. lia.
  - rewrite Hn, wrap_small; lia.
  - rewrite Hs, total_bytes_cons, u32_sub_l. f_equal. lia.
  - by inversion Hf.
  - intros i e' Hi. rewrite Hsl, <-(He (S i) e' Hi). f_equal. f_equal. lia.
Qed.

(** Removing the last element; its slot is cleared. *)
Lemma rep_init c q e x l :
  queue_rep c q (l ++ [e]) →
  arr_get (queue q) ((write_index q - 1) mod c) = Some e ∧
  queue_rep c (mk_lpqueue (u32 (queue_count q - 1)) (max_count q)
    (u32 (queue_size q - size e)) (read_index q) ((write_index q - 1) mod c)
    (arr_set (queue q) ((write_index q - 1) mod c) x)) l.
Proof.
  intros [Hc Hp Ha Hr Hl Hn Hw Hs Hf He]. rewrite length_app in *. cbn in *.
  unfold slot in *. rewrite Hc in *.
  assert ((write_index q - 1) mod c = (read_index q + Z.of_nat (length l)) mod c) as Hwi.
  { rewrite Hw, Zminus_mod_idemp_l. f_equal. lia. }
  pose proof (Z.mod_pos_bound (read_index q + Z.of_nat (length l)) c) as Hb.
  rewrite Hwi. split.
  - apply He. rewrite lookup_app_r, Nat.sub_diag; done.
  - split; unfold slot; cbn; rewrite ?Hc; try done; try lia.
    + by rewrite length_arr_set.
    + rewrite Hn, wrap_small; lia.
    + rewrite Hs, total_bytes_app, u32_sub_l. f_equal. lia.
    + by apply Forall_app in Hf as [? _].
    + intros i e' Hi. pose proof (lookup_lt_Some _ _ _ Hi). 
      rewrite arr_get_set_ne; [|lia|].
      * apply He. by apply lookup_app_l_Some.
      * intros Heq. symmetry in Heq. revert Heq. apply mod_neq; lia.
Qed.

(** Adding an element at the back. *)
Lemma rep_snoc c q e l :
  queue_rep c q l → 0 ≤ size e → Z.of_nat (length l) < c →
  queue_rep c (mk_lpqueue (u32 (queue_count q + 1)) (max_count q)
    (u32 (queue_size q + size e)) (read_index q) ((write_index q + 1) mod c)
    (arr_set (queue q) (write_index q) e)) (l ++ [e]).
Proof.
  intros [Hc Hp Ha Hr Hl Hn Hw Hs Hf He] Hpos Hlt. cbn in *. unfold slot in *. rewrite Hc in *.
  pose proof (Z.mod_pos_bound (read_index q + Z.of_nat (length l)) c) as Hb.
  split; unfold slot; cbn; rewrite ?length_app, ?Hc; cbn; try done; try lia.
  - by rewrite length_arr_set.
  - rewrite Hn, wrap_small; lia.
  - rewrite Hw, Z.add_mod_idemp_l by lia. f_equal. lia.
  - by rewrite Hs, total_bytes_app, u32_add_l.
  - apply Forall_app. by rewrite Forall_singleton.
  - intros i e' Hi. apply lookup_app_Some in Hi as [Hi|[Hi1 Hi2]].
    + pose proof (lookup_lt_Some _ _ _ Hi). rewrite Hw. rewrite arr_get_set_ne; [|lia|].
      * by apply He.
      * intros Heq. symmetry in Heq. revert Heq. apply mod_neq; lia.
    + apply list_lookup_singleton_Some in Hi2 as [Hi2 ->].
      replace (Z.of_nat i) with (Z.of_nat (length l)) by lia. rewrite Hw.
      apply arr_get_set_eq. lia.
Qed.

(** Adding an element at the front. *)
Lemma rep_cons c q e l :
  queue_rep c q l → 0 ≤ size e → Z.of_nat (length l) < c →
  queue_rep c (mk_lpqueue (u32 (queue_count q + 1)) (max_count q)
    (u32 (queue_size q + size e)) ((read_index q - 1) mod c) (write_index q)
    (arr_set (queue q) ((read_index q - 1) mod c) e)) (e :: l).
Proof.
  intros [Hc Hp Ha Hr Hl Hn Hw Hs Hf He] Hpos Hlt. cbn in *. unfold slot in *. rewrite Hc in *.
  pose proof (Z.mod_pos_bound (read_index q - 1) c) as Hb.
  assert (∀ j, ((read_index q - 1) mod c + j) mod c = (read_index q - 1 + j) mod c) as Hsl.
  { intros j. by rewrite Z.add_mod_idemp_l by lia. }
  split; unfold slot; cbn; rewrite ?Hc, ?Hsl; try done; try lia.
  - by rewrite length_arr_set.
  - rewrite Hn, wrap_small; lia.
  - rewrite Hw. f_equal. lia.
  - rewrite Hs, total_bytes_cons, u32_add_l. f_equal. lia.
  - by constructor.
  - intros [|i] e' Hi; cbn in Hi; rewrite Hsl.
    + injection Hi as <-. rewrite Z.add_0_r. apply arr_get_set_eq. lia.
    + pose proof (lookup_lt_Some _ _ _ Hi). rewrite arr_get_set_ne; [|lia|].
      * rewrite <-(He i e' Hi). f_equal. f_equal. lia.
      * apply mod_neq; lia.
Qed.

Lemma total_bytes_nonneg l : Forall (λ e, 0 ≤ size e) l → 0 ≤ total_bytes l.
Proof. unfold total_bytes. induction 1; cbn; lia. Qed.

(** ** The operations against the representation *)

Lemma queue_init_rep n : 0 < n < 2 ^ 32 → ∃ q, queue_init n = Some q ∧ queue_rep n q [].
Proof.
  intros Hn. unfold queue_init. destruct (Z.eqb_spec n 0); [lia|].
  eexists; split; [done|]. split; cbn; try done; try lia.
  rewrite length_replicate. lia.
Qed.

Lemma queue_pop_rep c q l :
  queue_rep c q l →
  wp queue_pop (λ r q', r = head l ∧ queue_rep c q' (tail l)) q.
Proof.
  intros H. unfold queue_pop. wp_step. wp_step. rewrite (rep_count _ _ _ H).
  destruct l as [|e l]; [by apply wp_ret|]. cbn [length head tail].
  destruct (Z.eqb_spec (Z.of_nat (S (length l))) 0) as [?|_]; [lia|].
  wp_step. apply (wp_lift_opt _ e).
  { pose proof (rep_elems _ _ _ H 0%nat e eq_refl) as He. unfold slot in He.
    rewrite Z.add_0_r, Z.mod_small in He; [done|].
    rewrite (rep_cap _ _ _ H). apply H. }
  wp_steps. split; [done|]. cbn.
  pose proof (rep_tail c q e l H) as Ht. 
  pose proof (rep_read _ _ _ H) as Hr. pose proof (rep_pos _ _ _ H) as Hp.
  rewrite <-index_succ in Ht by done. rewrite (rep_cap _ _ _ H) in *.
  rewrite (wrap_small 32 (read_index q + 1)) by lia. by destruct (_ =? c).
Qed.

Lemma queue_append_full c q l e :
  queue_rep c q l → Z.of_nat (length l) = c →
  wp (queue_append e) (λ b q', b = false ∧ queue_rep c q' l) q.
Proof.
  intros H Hf. unfold queue_append. wp_steps.
  rewrite (rep_count _ _ _ H), (rep_cap _ _ _ H), Hf, Z.eqb_refl. by apply wp_ret.
Qed.

(** The size test of [queue_append] compares the 32-bit byte count. *)
Lemma queue_append_large c q l e :
  queue_rep c q l → Z.of_nat (length l) < c →
  MAX_QUEUE_SIZE_BYTES < u64 (u32 (total_bytes l) + size e) →
  wp (queue_append e) (λ b q', b = false ∧ q' = q) q.
Proof.
  intros H Hf Hb. unfold queue_append. wp_steps.
  rewrite (rep_count _ _ _ H), (rep_cap _ _ _ H), (rep_size _ _ _ H).
  destruct (Z.eqb_spec (Z.of_nat (length l)) c); [lia|].
  destruct (Z.ltb_spec MAX_QUEUE_SIZE_BYTES (u64 (u32 (total_bytes l) + size e))); [|lia].
  by apply wp_ret.
Qed.

Lemma queue_append_rep c q l e :
  queue_rep c q l → 0 ≤ size e → Z.of_nat (length l) < c →
  u64 (u32 (total_bytes l) + size e) ≤ MAX_QUEUE_SIZE_BYTES →
  wp (queue_append e) (λ b q', b = true ∧ queue_rep c q' (l ++ [e])) q.
Proof.
  intros H Hpos Hf Hb. unfold queue_append. wp_steps.
  rewrite (rep_count _ _ _ H), (rep_size _ _ _ H).
  pose proof (rep_cap _ _ _ H) as Hc. rewrite Hc.
  destruct (Z.eqb_spec (Z.of_nat (length l)) c); [lia|].
  destruct (Z.ltb_spec MAX_QUEUE_SIZE_BYTES (u64 (u32 (total_bytes l) + size e))); [lia|].
  pose proof (slot_range c q l (Z.of_nat (length l)) H) as Hw.
  rewrite <-(rep_write _ _ _ H) in Hw.
  destruct (arr_get_is_Some (queue q) (write_index q)) as [x Hx].
  { by rewrite (rep_arr _ _ _ H). }
  wp_step. apply (wp_lift_opt _ x); [done|]. wp_steps. split; [done|]. cbn.
  pose proof (rep_snoc c q e l H Hpos Hf) as Ht. pose proof (rep_pos _ _ _ H).
  rewrite <-index_succ, Hc in Ht by done.
  rewrite (wrap_small 32 (write_index q + 1)), Hc by lia. by destruct (_ =? c).
Qed.

Lemma queue_discard_last_rep c q l e :
  queue_rep c q (l ++ [e]) →
  wp queue_discard_last (λ b q', b = true ∧ queue_rep c q' l) q.
Proof.
  intros H. unfold queue_discard_last. wp_step. wp_step.
  rewrite (rep_count _ _ _ H), length_app. cbn [length].
  destruct (Z.eqb_spec (Z.of_nat (length l + 1)) 0); [lia|].
  destruct (rep_init c q e (mk_queue_element None 0) l H) as [Hx Ht].
  pose proof (slot_range c q _ (Z.of_nat (length (l ++ [e]))) H) as Hw.
  rewrite <-(rep_write _ _ _ H) in Hw.
  rewrite <-index_pred in Hx, Ht by done. pose proof (rep_pos _ _ _ H).
  pose proof (rep_cap _ _ _ H) as Hc. rewrite Hc in Ht.
  wp_steps. destruct (Z.eqb_spec (write_index q) 0) as [Hz|Hz].
  - wp_steps. apply (wp_lift_opt _ e).
    + cbn. rewrite (wrap_small 32), Hc by lia. done.
    + wp_steps. split; [done|]. cbn. by rewrite (wrap_small 32 (max_count q - 1)), Hc by lia.
  - wp_steps. apply (wp_lift_opt _ e).
    + cbn. rewrite (wrap_small 32) by lia. done.
    + wp_steps. split; [done|]. cbn. by rewrite (wrap_small 32 (write_index q - 1)), Hc by lia.
Qed.

Lemma queue_discard_last_empty c q :
  queue_rep c q [] → wp queue_discard_last (λ b q', b = false ∧ q' = q) q.
Proof.
  intros H. unfold queue_discard_last. wp_steps.
  rewrite (rep_count _ _ _ H). by apply wp_ret.
Qed.

(** The part of [queue_prepend] after the discard of the last element. *)
Lemma queue_prepend_space c q l e :
  queue_rep c q l → 0 ≤ size e → Z.of_nat (length l) < c →
  wp (modify (λ q, if read_index q =? 0
               then q <| read_index := u32 (max_count q - 1) |>
               else q <| read_index := u32 (read_index q - 1) |>);;
      modify (λ q, q <| queue_size := u32 (queue_size q + size e) |>);;
      modify (λ q, q <| queue_count := u32 (queue_count q + 1) |>);;
      q ← get;
      _ ← lift_opt (arr_get (queue q) (read_index q));
      modify (λ q, q <| queue := arr_set (queue q) (read_index q) e |>);;
      mret true) (λ b q', b = true ∧ queue_rep c q' (e :: l)) q.
Proof.
  intros H Hpos Hf. pose proof (rep_cons c q e l H Hpos Hf) as Ht.
  pose proof (rep_read _ _ _ H) as Hr. pose proof (rep_pos _ _ _ H).
  pose proof (rep_cap _ _ _ H) as Hc. rewrite <-index_pred, Hc in Ht by done.
  pose proof (rep_arr _ _ _ H) as Ha.
  wp_steps. destruct (Z.eqb_spec (read_index q) 0) as [Hz|Hz].
  - cbn. rewrite (wrap_small 32 (max_count q - 1)), Hc by lia.
    destruct (arr_get_is_Some (queue q) (c - 1)) as [x Hx]; [lia|].
    apply (wp_lift_opt _ x); [done|]. by wp_steps.
  - cbn. rewrite (wrap_small 32 (read_index q - 1)), Hc by lia.
    destruct (arr_get_is_Some (queue q) (read_index q - 1)) as [x Hx]; [lia|].
    apply (wp_lift_opt _ x); [done|]. by wp_steps.
Qed.

Lemma queue_prepend_rep c q l e :
  queue_rep c q l → 0 ≤ size e →
  wp (queue_prepend e) (λ b q', b = true ∧
    queue_rep c q' (e :: (if decide (Z.of_nat (length l) = c) then removelast l else l))) q.
Proof.
  intros H Hpos. unfold queue_prepend. wp_step. wp_step. apply wp_bind.
  rewrite (rep_count _ _ _ H), (rep_cap _ _ _ H).
  pose proof (rep_len _ _ _ H) as Hl. pose proof (rep_pos _ _ _ H).
  destruct (Z.eqb_spec (Z.of_nat (length l)) c) as [Hf|Hf].
  - rewrite decide_True by done.
    destruct (exists_last (l := l)) as (l' & x & ->); [intros ->; cbn in Hf; lia|].
    rewrite removelast_last. rewrite length_app in Hf. cbn in Hf.
    wp_step. eapply wp_mono; [by apply (queue_discard_last_rep c q l' x)|].
    intros b q' [-> H']. apply wp_assert; [by apply bool_decide_eq_true|].
    apply queue_prepend_space; [done|done|lia].
  - rewrite decide_False by done. apply wp_ret. apply queue_prepend_space; [done|done|lia].
Qed.
End queue.

#[export] Instance queue_ops {D} : DequeOps (lpqueue D) D := {|
  d_init := queue_init;
  d_pop := queue_pop;
  d_append := queue_append;
  d_prepend := queue_prepend;
  d_count := queue_get_current_size
|}.

(** The circular buffer implements the interface. *)
#[export] Program Instance queue_laws {D} : Deque (lpqueue D) D := {| d_rep := queue_rep |}.
Next Obligation. intros D n. apply queue_init_rep. Qed.
Next Obligation. intros D c q l. apply rep_len. Qed.
Next Obligation. intros D c q l. apply rep_count. Qed.
Next Obligation. intros D c q l. apply queue_pop_rep. Qed.
Next Obligation.
  intros D c q l e H He Hf Hb. apply queue_append_rep; [done..|].
  pose proof (total_bytes_nonneg _ (rep_sizes _ _ _ H)).
  etransitivity; [apply Z.mod_le; [|lia]|].
  - pose proof (wrap_range 32 (total_bytes l) ltac:(lia)) as [? _]. lia.
  - pose proof (Z.mod_le (total_bytes l) (2 ^ 32)). unfold wrap. lia.
Qed.
Next Obligation. intros D c q l e. apply queue_append_full. Qed.
Next Obligation. intros D c q l e. apply queue_prepend_rep. Qed.

(** ** The queue as a bounded list *)

Section refinement.
Context {D : Type}.
Implicit Types (l : list (queue_element D)).

(** The calls of the clients of the queue, and what they return. *)
Inductive queue_call :=
  | CallPop
  | CallAppend (e : queue_element D)
  | CallPrepend (e : queue_element D)
  | CallDiscardLast.

Inductive queue_answer :=
  | Element (r : option (queue_element D))
  | Flag (b : bool).

Definition queue_exec (call : queue_call) : M (lpqueue D) queue_answer :=
  match call with
  | CallPop => r ← queue_pop; mret (Element r)
  | CallAppend e => b ← queue_append e; mret (Flag b)
  | CallPrepend e => b ← queue_prepend e; mret (Flag b)
  | CallDiscardLast => b ← queue_discard_last; mret (Flag b)
  end.

(** The specification: a list of at most [c] elements.  A full queue refuses an
    append and drops its last element for a prepend; an append is also refused
    when the byte count, kept modulo [2^32], would pass the limit. *)
Definition spec_exec (c : Z) (call : queue_call) l : queue_answer * list (queue_element D) :=
  match call with
  | CallPop => (Element (head l), tail l)
  | CallAppend e =>
      if bool_decide (Z.of_nat (length l) = c) then (Flag false, l)
      else if MAX_QUEUE_SIZE_BYTES <? u64 (u32 (total_bytes l) + size e) then (Flag false, l)
      else (Flag true, l ++ [e])
  | CallPrepend e =>
      (Flag true, e :: (if decide (Z.of_nat (length l) = c) then removelast l else l))
  | CallDiscardLast =>
      match l with
      | [] => (Flag false, [])
      | _ => (Flag true, removelast l)
      end
  end.

Fixpoint queue_run (calls : list queue_call) : M (lpqueue D) (list queue_answer) :=
  match calls with
  | [] => mret []
  | call :: calls => r ← queue_exec call; rs ← queue_run calls; mret (r :: rs)
  end.

Fixpoint spec_run (c : Z) (calls : list queue_call) l : list queue_answer * list (queue_element D) :=
  match calls with
  | [] => ([], l)
  | call :: calls =>
      let '(r, l) := spec_exec c call l in
      let '(rs, l) := spec_run c calls l in (r :: rs, l)
  end.

(** The sizes of the elements a client passes are values of [size_t]. *)
Definition call_ok (call : queue_call) : Prop :=
  match call with
  | CallAppend e | CallPrepend e => 0 ≤ size e
  | _ => True
  end.

Lemma queue_exec_refines c q l call :
  queue_rep c q l → call_ok call →
  wp (queue_exec call) (λ r q', r = (spec_exec c call l).1 ∧
    queue_rep c q' (spec_exec c call l).2) q.
Proof.
  intros H Hok. destruct call as [|e|e|]; cbn in *; apply wp_bind.
  - eapply wp_mono; [by apply queue_pop_rep|]. by intros r q' [-> ?].
  - pose proof (rep_len _ _ _ H). case_bool_decide.
    + eapply wp_mono; [by apply queue_append_full|]. by intros r q' [-> ?].
    + destruct (Z.ltb_spec MAX_QUEUE_SIZE_BYTES (u64 (u32 (total_bytes l) + size e))).
      * eapply wp_mono; [apply (queue_append_large c q l); [done|lia|done]|].
        by intros r q' [-> ->].
      * eapply wp_mono; [apply (queue_append_rep c q l); [done|done|lia|done]|].
        by intros r q' [-> ?].
  - eapply wp_mono; [by apply queue_prepend_rep|]. by intros r q' [-> ?].
  - destruct l as [|x l]; cbn.
    + eapply wp_mono; [by apply (queue_discard_last_empty c)|]. by intros r q' [-> ->].
    + destruct (exists_last (l := x :: l)) as (l' & y & Hl); [done|].
      change (match l with [] => [] | _ => x :: removelast l end) with (removelast (x :: l)).
      rewrite Hl in *. rewrite removelast_last.
      eapply wp_mono; [by apply (queue_discard_last_rep c q l' y)|]. by intros r q' [-> ?].
Qed.

(** C28. The circular buffer is a bounded list: whatever sequence of calls is
    made on a new queue of capacity [n], none fails an assertion or touches a
    slot outside the array, each call returns what it returns on a list of
    capacity [n], and the buffer ends up representing that list. *)
Theorem queue_refines_list n calls :
  0 < n < 2 ^ 32 → Forall call_ok calls →
  ∃ q, queue_init n = Some q ∧
    wp (queue_run calls) (λ rs q',
      rs = (spec_run n calls []).1 ∧ queue_rep n q' (spec_run n calls []).2) q.
Proof.
  intros Hn Hok. destruct (queue_init_rep (D := D) n Hn) as (q & Hq & Hrep).
  exists q. split; [done|]. clear Hq. revert q Hrep. generalize (@nil (queue_element D)).
  induction Hok as [|call calls Hc _ IH]; intros l q Hrep; cbn; [by apply wp_ret|].
  apply wp_bind. eapply wp_mono; [by apply queue_exec_refines|].
  intros r q' [-> Hrep']. destruct (spec_exec n call l) as [r l']. cbn in *.
  apply wp_bind. eapply wp_mono; [by apply IH|].
  intros rs q'' [-> ?]. by destruct (spec_run n calls l').
Qed.
End refinement.

Lemma queue_refines_list_witness :
  ∃ q, queue_init (D := Z) 2 = Some q ∧
    wp (queue_run [CallAppend (mk_queue_element (Some 1) 8); CallAppend (mk_queue_element (Some 2) 8);
                   CallPrepend (mk_queue_element (Some 3) 8); CallPop; CallPop; CallPop])
      (λ rs q', rs = [Flag true; Flag true; Flag true;
                      Element (Some (mk_queue_element (Some 3) 8));
                      Element (Some (mk_queue_element (Some 1) 8)); Element None] ∧
        queue_rep 2 q' []) q.
Proof.
  apply (queue_refines_list (D := Z) 2
    [CallAppend (mk_queue_element (Some 1) 8); CallAppend (mk_queue_element (Some 2) 8);
     CallPrepend (mk_queue_element (Some 3) 8); CallPop; CallPop; CallPop]).
  - lia.
  - repeat constructor; cbn; lia.
Defined.
