(* ===== verification/MemoryPool.v ===== *)
(** * The memory pool of RingPaxos

    [ring_paxos/include/lp_memory_pool.h] and [ring_paxos/lib/memory_pool.c]: a
    fixed number of chunks of the same size, cut out of one allocation and
    recycled through a queue of free chunks.  The pool uses the queue only
    through the interface [RingQueue.Deque]; its theorems hold for any
    implementation of it.  An address is an integer; the address [calloc]
    returns is an argument of [mempool_new]. *)
From S2P Require Import Prelude RingQueue.

(** [struct memory_pool_t] (memory_pool.c).  The queue is NULL when
    [queue_init] refused to build one. *)
Record memory_pool (Q : Type) := mk_memory_pool {
  tot_entries : Z; cur_entries : Z; entry_size : Z;  (* size_t *)
  chunks_queue : option Q;
  pool_begin : Z; pool_end : Z                       (* addresses *)
}.
Arguments mk_memory_pool {Q} _ _ _ _ _ _.
Arguments tot_entries {Q} _.
Arguments cur_entries {Q} _.
Arguments entry_size {Q} _.
Arguments chunks_queue {Q} _.
Arguments pool_begin {Q} _.
Arguments pool_end {Q} _.

Section pool.
Context {Q : Type} `{HQ : Deque Q Z}.
Implicit Types (mp : memory_pool Q).

#[local] Instance set_cur_entries : Setter (@cur_entries Q) := λ g r,
  mk_memory_pool (tot_entries r) (g (cur_entries r)) (entry_size r) (chunks_queue r) (pool_begin r) (pool_end r).
#[local] Arguments set_cur_entries _ _ /.
#[local] Instance set_chunks_queue : Setter (@chunks_queue Q) := λ g r,
  mk_memory_pool (tot_entries r) (cur_entries r) (entry_size r) (g (chunks_queue r)) (pool_begin r) (pool_end r).
#[local] Arguments set_chunks_queue _ _ /.
#[local] Instance set_pool_end : Setter (@pool_end Q) := λ g r,
  mk_memory_pool (tot_entries r) (cur_entries r) (entry_size r) (chunks_queue r) (pool_begin r) (g (pool_end r)).
#[local] Arguments set_pool_end _ _ /.

(** A call on the queue of the pool; a NULL queue is dereferenced. *)
Definition on_queue {A} (m : M Q A) : M (memory_pool Q) A :=
  q ← gets chunks_queue;
  q ← lift_opt q;
  r ← lift_opt (m q);
  modify (λ mp, mp <| chunks_queue := Some (snd r) |>);;
  mret (fst r).

(** A free chunk of the queue. *)
Definition chunk_element (sz addr : Z) : queue_element Z := mk_queue_element (Some addr) sz.

(** The loop of [mempool_new], from chunk [i] at address [next_chunk]. *)
Fixpoint mempool_fill (n : nat) (next_chunk : Z) : M (memory_pool Q) Z :=
  match n with
  | O => mret next_chunk
  | S n =>
      mp ← get;
      success ← on_queue (d_append (chunk_element (entry_size mp) next_chunk));
      c_assert success;;
      mempool_fill n (next_chunk + entry_size mp)
  end.

Definition mempool_new (num_entries sz base : Z) : option (memory_pool Q) :=
  let mp := mk_memory_pool num_entries num_entries sz (d_init (u32 num_entries)) base 0 in
  match mempool_fill (Z.to_nat num_entries) base mp with
  | Some (next_chunk, mp) => Some (mp <| pool_end := next_chunk - sz |>)
  | None => None
  end.

Definition mempool_alloc : M (memory_pool Q) Z :=
  mp ← get;
  c_assert (0 <? cur_entries mp);;
  modify (λ mp, mp <| cur_entries := u64 (cur_entries mp - 1) |>);;
  e ← on_queue d_pop;
  e ← lift_opt e;
  chunk_addr ← lift_opt (data e);
  c_assert (size e =? entry_size mp);;
  c_assert ((pool_begin mp <=? chunk_addr) && (chunk_addr <=? pool_end mp));;
  mret chunk_addr.

Definition mempool_free (entry : Z) : M (memory_pool Q) unit :=
  mp ← get;
  c_assert (cur_entries mp <? tot_entries mp);;
  c_assert ((pool_begin mp <=? entry) && (entry <=? pool_end mp));;
  modify (λ mp, mp <| cur_entries := u64 (cur_entries mp + 1) |>);;
  _ ← on_queue (d_prepend (chunk_element (entry_size mp) entry));
  mret tt.

Definition is_mempool_chunk mp (entry : Z) : bool :=
  (pool_begin mp <=? entry) && (entry <=? pool_end mp).

Definition is_mempool_exhaused mp : bool := cur_entries mp =? 0.

(** ** Representation

    The chunks of a pool, and the invariant: the chunks in the queue and the
    chunks [owned] by the client are together all the chunks, each once. *)
Definition chunks (base sz : Z) (n : nat) : list Z := (λ i, base + Z.of_nat i * sz) <$> seq 0 n.
#[local] Arguments chunks : simpl never.

Record pool_state mp (owned : list Z) (q : Q) (free : list Z) : Prop := {
  ps_queue : chunks_queue mp = Some q;
  ps_rep : d_rep (tot_entries mp) q (chunk_element (entry_size mp) <$> free);
  ps_tot : 0 < tot_entries mp < 2 ^ 32;
  ps_size : 0 < entry_size mp;
  ps_cur : cur_entries mp = Z.of_nat (length free);
  ps_end : pool_end mp = pool_begin mp + (tot_entries mp - 1) * entry_size mp;
  ps_chunks :
    owned ++ free ≡ₚ chunks (pool_begin mp) (entry_size mp) (Z.to_nat (tot_entries mp))
}.

(** The parameters of a pool, which never change. *)
Definition pool_shape mp : Z * Z * Z := (tot_entries mp, entry_size mp, pool_begin mp).

Definition pool_inv (sh : Z * Z * Z) mp (owned : list Z) : Prop :=
  pool_shape mp = sh ∧ ∃ q free, pool_state mp owned q free.

Lemma length_chunks base sz n : length (chunks base sz n) = n.
Proof. unfold chunks. by rewrite length_fmap, length_seq. Qed.

Lemma chunks_snoc base sz n : chunks base sz (S n) = chunks base sz n ++ [base + Z.of_nat n * sz].
Proof. unfold chunks. by rewrite seq_S, fmap_app. Qed.

Lemma chunks_NoDup base sz n : 0 < sz → NoDup (chunks base sz n).
Proof.
  intros Hsz. unfold chunks. apply (NoDup_fmap_2_strong _); [|apply NoDup_seq].
  intros i j _ _ Heq. nia.
Qed.

Lemma elem_of_chunks base sz n a :
  a ∈ chunks base sz n ↔ ∃ i : nat, (i < n)%nat ∧ a = base + Z.of_nat i * sz.
Proof.
  unfold chunks. rewrite list_elem_of_fmap. setoid_rewrite elem_of_seq.
  split; intros (i & H1 & H2); exists i; split; (done || lia).
Qed.

(** The address test of the source accepts every chunk of the pool. *)
Lemma chunk_in_bounds base sz n a :
  0 < sz → a ∈ chunks base sz n → base ≤ a ≤ base + (Z.of_nat n - 1) * sz.
Proof. intros Hsz (i & Hi & ->)%elem_of_chunks. nia. Qed.

Lemma wp_on_queue {A} (m : M Q A) (P : A → memory_pool Q → Prop) mp q :
  chunks_queue mp = Some q →
  wp m (λ a q', P a (mp <| chunks_queue := Some q' |>)) q →
  wp (on_queue m) P mp.
Proof.
  intros Hq Hm. unfold on_queue. wp_steps. apply (wp_lift_opt _ q); [done|].
  apply wp_total in Hm as (a & q' & Hm & HP).
  wp_steps. apply (wp_lift_opt _ (a, q')); [done|]. by wp_steps.
Qed.

(** Filling the queue from the chunks already in it. *)
Lemma mempool_fill_spec n k mp q :
  chunks_queue mp = Some q →
  d_rep (tot_entries mp) q (chunk_element (entry_size mp) <$> chunks (pool_begin mp) (entry_size mp) k) →
  0 < entry_size mp → Z.of_nat (k + n) ≤ tot_entries mp →
  Z.of_nat (k + n) * entry_size mp ≤ MAX_QUEUE_SIZE_BYTES →
  wp (mempool_fill n (pool_begin mp + Z.of_nat k * entry_size mp))
    (λ next mp', next = pool_begin mp + Z.of_nat (k + n) * entry_size mp ∧
       ∃ q', mp' = mp <| chunks_queue := Some q' |> ∧
         d_rep (tot_entries mp) q'
           (chunk_element (entry_size mp) <$> chunks (pool_begin mp) (entry_size mp) (k + n))) mp.
Proof.
  revert k mp q. induction n as [|n IH]; intros k mp q Hq Hrep Hsz Hlen Hmax.
  - cbn [mempool_fill]. apply wp_ret. rewrite Nat.add_0_r. split; [done|]. exists q. split; [|done].
    destruct mp. cbn in *. by rewrite Hq.
  - cbn [mempool_fill]. wp_steps. apply (wp_on_queue _ _ _ q); [done|].
    eapply wp_mono; [apply (d_append_law (tot_entries mp)); [done| | |]|].
    + cbn. lia.
    + rewrite length_fmap, length_chunks. lia.
    + assert (total_bytes (chunk_element (entry_size mp) <$> chunks (pool_begin mp) (entry_size mp) k)
              = Z.of_nat k * entry_size mp) as ->.
      { unfold chunks. generalize 0%nat. clear. induction k as [|k IH]; intros j; [done|].
        cbn [seq fmap list_fmap]. rewrite total_bytes_cons, IH. cbn. lia. }
      cbn. lia.
    + intros b q' [-> Hrep']. wp_steps. apply wp_assert; [done|].
      replace (pool_begin mp + Z.of_nat k * entry_size mp + entry_size mp)
        with (pool_begin mp + Z.of_nat (S k) * entry_size mp) by lia.
      pose proof (IH (S k) (mp <| chunks_queue := Some q' |>) q') as IH'. cbn in IH' |- *.
      eapply wp_mono; [apply IH'; try done|].
      * by rewrite chunks_snoc, fmap_app.
      * lia.
      * lia.
      * cbn. intros next mp' [-> (q'' & -> & ?)]. rewrite Nat.add_succ_r.
        split; [done|]. by exists q''.
Qed.

Lemma pool_state_length mp owned q free :
  pool_state mp owned q free →
  Z.of_nat (length owned) + Z.of_nat (length free) = tot_entries mp.
Proof.
  intros H. pose proof (Permutation_length (ps_chunks _ _ _ _ H)) as Hlen.
  rewrite length_chunks, length_app in Hlen. pose proof (ps_tot _ _ _ _ H). lia.
Qed.

Lemma pool_state_bounds mp owned q free a :
  pool_state mp owned q free → a ∈ owned ++ free →
  (pool_begin mp <=? a) && (a <=? pool_end mp) = true.
Proof.
  intros H Ha. rewrite (ps_chunks _ _ _ _ H) in Ha.
  apply chunk_in_bounds in Ha; [|by eapply ps_size].
  pose proof (ps_tot _ _ _ _ H). pose proof (ps_end _ _ _ _ H).
  rewrite andb_true_iff, !Z.leb_le. lia.
Qed.

(** The chunk allocated is the first of the queue. *)
Lemma mempool_alloc_state mp owned q a free :
  pool_state mp owned q (a :: free) →
  wp mempool_alloc (λ b mp', b = a ∧ pool_shape mp' = pool_shape mp ∧
    ∃ q', pool_state mp' (a :: owned) q' free) mp.
Proof.
  intros H. pose proof (pool_state_length _ _ _ _ H) as Hlen. cbn [length] in Hlen.
  pose proof (pool_state_bounds _ _ _ _ a H ltac:(set_solver)) as Hb.
  destruct H as [Hq Hrep Htot Hsz Hcur Hend Hperm]. cbn [length] in Hcur.
  unfold mempool_alloc. wp_steps. apply wp_assert; [apply Z.ltb_lt; lia|].
  wp_steps. apply (wp_on_queue _ _ _ q); [done|].
  eapply wp_mono; [by apply (d_pop_law (tot_entries mp))|].
  intros r q' [-> Hrep']. wp_steps. apply (wp_lift_opt _ (chunk_element (entry_size mp) a)); [done|].
  wp_steps. apply (wp_lift_opt _ a); [done|].
  wp_steps. apply wp_assert; [apply Z.eqb_refl|].
  wp_steps. apply wp_assert; [done|]. wp_steps. split; [done|]. split; [done|].
  exists q'. split; cbn; try done.
  - rewrite wrap_small; lia.
  - by rewrite <-Hperm, Permutation_middle.
Qed.

Lemma mempool_free_state mp owned q a free :
  pool_state mp (a :: owned) q free →
  wp (mempool_free a) (λ _ mp', pool_shape mp' = pool_shape mp ∧
    ∃ q', pool_state mp' owned q' (a :: free)) mp.
Proof.
  intros H. pose proof (pool_state_length _ _ _ _ H) as Hlen. cbn [length] in Hlen.
  pose proof (pool_state_bounds _ _ _ _ a H ltac:(set_solver)) as Hb.
  destruct H as [Hq Hrep Htot Hsz Hcur Hend Hperm].
  unfold mempool_free. wp_steps. apply wp_assert; [apply Z.ltb_lt; lia|].
  wp_steps. apply wp_assert; [done|].
  wp_steps. apply (wp_on_queue _ _ _ q); [done|].
  eapply wp_mono; [apply (d_prepend_law (tot_entries mp)); [done|cbn; lia]|].
  intros b q' [-> Hrep']. wp_steps.
  rewrite decide_False in Hrep' by (rewrite length_fmap; lia).
  split; [done|]. exists q'. split; cbn; try done.
  - rewrite wrap_small; lia.
  - by rewrite <-Hperm, <-Permutation_middle.
Qed.

(** A new pool: all its chunks are free. *)
Lemma mempool_new_state n sz base :
  0 < n < 2 ^ 32 → 0 < sz → n * sz ≤ MAX_QUEUE_SIZE_BYTES →
  ∃ mp, mempool_new n sz base = Some mp ∧ pool_inv (n, sz, base) mp [].
Proof.
  intros Hn Hsz Hmax. destruct (d_init_law n Hn) as (q & Hq & Hrep).
  unfold mempool_new. rewrite (wrap_small 32) by lia. rewrite Hq.
  pose proof (mempool_fill_spec (Z.to_nat n) 0 (mk_memory_pool n n sz (Some q) base 0) q) as Hf.
  cbn [tot_entries entry_size pool_begin] in Hf.
  replace (base + Z.of_nat 0 * sz) with base in Hf by lia. rewrite Nat.add_0_l in Hf.
  apply wp_total in Hf as (next & mp' & -> & -> & q' & -> & Hrep'); [|done|done|done|lia|lia].
  cbn. eexists; split; [done|]. split; [done|]. exists q', (chunks base sz (Z.to_nat n)).
  split; cbn; try done.
  - rewrite length_chunks. lia.
  - nia.
Qed.

(** ** The client's view *)

(** A client that allocates only when the pool is not exhausted, and frees only
    what it owns, once. *)
Inductive pool_client : memory_pool Q → list Z → memory_pool Q → list Z → Prop :=
  | client_nil mp owned : pool_client mp owned mp owned
  | client_alloc mp owned a mp' mp'' owned'' :
      is_mempool_exhaused mp = false → mempool_alloc mp = Some (a, mp') →
      pool_client mp' (a :: owned) mp'' owned'' → pool_client mp owned mp'' owned''
  | client_free mp l1 a l2 mp' mp'' owned'' :
      mempool_free a mp = Some (tt, mp') →
      pool_client mp' (l1 ++ l2) mp'' owned'' → pool_client mp (l1 ++ a :: l2) mp'' owned''.

Lemma pool_state_perm mp owned owned' q free :
  owned ≡ₚ owned' → pool_state mp owned q free → pool_state mp owned' q free.
Proof. intros Hp [????? ? Hc]. split; try done. by rewrite <-Hp. Qed.

Lemma alloc_total sh mp owned :
  pool_inv sh mp owned → is_mempool_exhaused mp = false →
  ∃ a mp', mempool_alloc mp = Some (a, mp') ∧ pool_inv sh mp' (a :: owned).
Proof.
  intros (Hsh & q & free & H) Hex. apply Z.eqb_neq in Hex. rewrite (ps_cur _ _ _ _ H) in Hex.
  destruct free as [|a free]; [cbn in Hex; lia|].
  destruct (wp_total _ _ _ (mempool_alloc_state _ _ _ _ _ H)) as (b & mp' & Hm & -> & Hsh' & q' & H').
  exists a, mp'. split; [done|]. split; [congruence|]. by exists q', free.
Qed.

Lemma free_total sh mp l1 a l2 :
  pool_inv sh mp (l1 ++ a :: l2) →
  ∃ mp', mempool_free a mp = Some (tt, mp') ∧ pool_inv sh mp' (l1 ++ l2).
Proof.
  intros (Hsh & q & free & H).
  eapply pool_state_perm in H; [|symmetry; apply Permutation_middle].
  destruct (wp_total _ _ _ (mempool_free_state _ _ _ _ _ H)) as ([] & mp' & Hm & Hsh' & q' & H').
  exists mp'. split; [done|]. split; [congruence|]. by exists q', (a :: free).
Qed.

Lemma pool_client_inv sh mp owned mp' owned' :
  pool_client mp owned mp' owned' → pool_inv sh mp owned → pool_inv sh mp' owned'.
Proof.
  induction 1 as [|mp owned a mp' ? ? Hex Ha _ IH|mp l1 a l2 mp' ? ? Hf _ IH]; intros Hinv; [done|..].
  - destruct (alloc_total _ _ _ Hinv Hex) as (b & mp1 & Hb & H1). apply IH. congruence.
  - destruct (free_total _ _ _ _ _ Hinv) as (mp1 & Hb & H1). apply IH. congruence.
Qed.

(** What the invariant says of the chunks of the client. *)
Lemma pool_inv_owned n sz base mp owned :
  pool_inv (n, sz, base) mp owned →
  NoDup owned ∧
  (∀ a, a ∈ owned → ∃ i, 0 ≤ i < n ∧ a = base + i * sz) ∧
  (is_mempool_exhaused mp = false ↔ Z.of_nat (length owned) < n).
Proof.
  intros ([= Ht Hs Hb] & q & free & H).
  pose proof (pool_state_length _ _ _ _ H) as Hlen. rewrite Ht in Hlen.
  pose proof (ps_chunks _ _ _ _ H) as Hc. rewrite Ht, Hs, Hb in Hc.
  pose proof (ps_size _ _ _ _ H) as Hsz. rewrite Hs in Hsz.
  split_and!.
  - pose proof (chunks_NoDup base sz (Z.to_nat n) Hsz) as Hnd.
    rewrite <-Hc in Hnd. by apply list.NoDup_app in Hnd as [? _].
  - intros a Ha. assert (a ∈ chunks base sz (Z.to_nat n)) as Hin.
    { rewrite <-Hc. set_solver. }
    apply elem_of_chunks in Hin as (i & Hi & ->). exists (Z.of_nat i). split; [lia|done].
  - unfold is_mempool_exhaused. rewrite Z.eqb_neq, (ps_cur _ _ _ _ H). lia.
Qed.

(** C29. A client of a new pool that allocates only when the pool is not
    exhausted and frees only what it owns never owns the same chunk twice, owns
    only chunks of the pool, and can always make its next call: no assertion of
    the pool fails, an allocation in particular being possible until all the
    chunks are owned. *)
Theorem mempool_exclusive n sz base mp mp' owned :
  0 < n < 2 ^ 32 → 0 < sz → n * sz ≤ MAX_QUEUE_SIZE_BYTES →
  mempool_new n sz base = Some mp → pool_client mp [] mp' owned →
  NoDup owned ∧
  (∀ a, a ∈ owned → ∃ i, 0 ≤ i < n ∧ a = base + i * sz) ∧
  (is_mempool_exhaused mp' = false ↔ Z.of_nat (length owned) < n) ∧
  (is_mempool_exhaused mp' = false → is_Some (mempool_alloc mp')) ∧
  (∀ a, a ∈ owned → is_Some (mempool_free a mp')).
Proof.
  intros Hn Hsz Hmax Hnew Hrun.
  destruct (mempool_new_state n sz base) as (mp0 & Hmp0 & Hinv0); [done..|].
  assert (mp0 = mp) as -> by congruence.
  pose proof (pool_client_inv _ _ _ _ _ Hrun Hinv0) as Hinv.
  destruct (pool_inv_owned _ _ _ _ _ Hinv) as (H1 & H2 & H3).
  split_and!; [done..| |].
  - intros Hex. destruct (alloc_total _ _ _ Hinv Hex) as (a & mp1 & -> & _). by eexists.
  - intros a (l1 & l2 & ->)%list_elem_of_split.
    destruct (free_total _ _ _ _ _ Hinv) as (mp1 & -> & _). by eexists.
Qed.
End pool.

(** ** A pool over the circular buffer *)

Definition example_pool : option (memory_pool (lpqueue Z)) := mempool_new 2 64 4096.

Lemma mempool_exclusive_witness :
  ∃ mp mp', example_pool = Some mp ∧ mempool_alloc mp = Some (4096, mp') ∧
    NoDup [4096].
Proof.
  unfold example_pool. eexists _, _. split; [vm_compute; reflexivity|].
  split; [vm_compute; reflexivity|].
  eapply (mempool_exclusive (Q := lpqueue Z) 2 64 4096).
  - lia.
  - lia.
  - unfold MAX_QUEUE_SIZE_BYTES. lia.
  - vm_compute. reflexivity.
  - eapply client_alloc; [vm_compute; reflexivity|vm_compute; reflexivity|].
    apply client_nil.
Defined.

(** A pool of more than 1 GB is refused by the queue: the assertion of
    [mempool_new] fails. *)
Example mempool_new_too_large : mempool_new (Q := lpqueue Z) 2 (2 ^ 30) 4096 = None.
Proof. vm_compute. reflexivity. Qed.
