(* ===== verification/DeliveryQueue.v ===== *)
(** * The delivery queue of a RingPaxos learner

    [ring_paxos/include/lp_delivery_queue.h] and
    [ring_paxos/lib/delivery_queue.c]: a circular buffer of instances that
    waits, for each instance, for the value mapped to a key ([command_map]) and
    for the key that was chosen ([acceptance]), and delivers in the order of
    the instances.

    The callbacks the queue is given are recorded, in order, in [dq_log].  The
    entry a pointer of the source designates is the slot of its instance. *)
From Stdlib Require Import Init.Byte.
From S2P Require Import Prelude RingUtil Timers.

(** [cmd_slot]: the [size] bytes last copied there. *)
Record cmd_slot := mk_cmd_slot { cs_size : Z; cs_data : list byte }.

(** [dq_entry] (delivery_queue.c). *)
Record dq_entry := mk_dq_entry {
  inst_number : Z;             (* iid_t *)
  cmd_key : command_id;
  has_mapping : bool;
  has_final_value : bool;
  cmdmap_request_timeout : timeval;
  finval_request_timeout : timeval
}.

(** The calls of the four callbacks. *)
Inductive dq_event :=
  | Deliver (value : list byte) (sz : Z)
  | MissingCmdmap (inst : Z)
  | MissingAcceptance (inst : Z)
  | PostCheck.

(** [struct delivery_queue_t] (delivery_queue.c). *)
Record delivery_queue := mk_delivery_queue {
  dq_size : Z;                 (* queue_size, size_t *)
  queue_array : list dq_entry;
  cmd_slot_array : list cmd_slot;
  highest_delivered : Z;       (* iid_t *)
  highest_seen_closed : Z;     (* iid_t *)
  highest_seen_cmdmap : Z;     (* iid_t *)
  pc_cb : bool;                (* whether a post-check callback is set *)
  request_timeout : timeval;
  late_start : bool;
  dq_log : list dq_event
}.

#[export] Instance set_inst_number : Setter inst_number := λ g r,
  mk_dq_entry (g (inst_number r)) (cmd_key r) (has_mapping r) (has_final_value r)
    (cmdmap_request_timeout r) (finval_request_timeout r).
#[global] Arguments set_inst_number _ _ /.
#[export] Instance set_cmd_key : Setter cmd_key := λ g r,
  mk_dq_entry (inst_number r) (g (cmd_key r)) (has_mapping r) (has_final_value r)
    (cmdmap_request_timeout r) (finval_request_timeout r).
#[global] Arguments set_cmd_key _ _ /.
#[export] Instance set_has_mapping : Setter has_mapping := λ g r,
  mk_dq_entry (inst_number r) (cmd_key r) (g (has_mapping r)) (has_final_value r)
    (cmdmap_request_timeout r) (finval_request_timeout r).
#[global] Arguments set_has_mapping _ _ /.
#[export] Instance set_has_final_value : Setter has_final_value := λ g r,
  mk_dq_entry (inst_number r) (cmd_key r) (has_mapping r) (g (has_final_value r))
    (cmdmap_request_timeout r) (finval_request_timeout r).
#[global] Arguments set_has_final_value _ _ /.
#[export] Instance set_cmdmap_request_timeout : Setter cmdmap_request_timeout := λ g r,
  mk_dq_entry (inst_number r) (cmd_key r) (has_mapping r) (has_final_value r) (g
    (cmdmap_request_timeout r)) (finval_request_timeout r).
#[global] Arguments set_cmdmap_request_timeout _ _ /.
#[export] Instance set_finval_request_timeout : Setter finval_request_timeout := λ g r,
  mk_dq_entry (inst_number r) (cmd_key r) (has_mapping r) (has_final_value r)
    (cmdmap_request_timeout r) (g (finval_request_timeout r)).
#[global] Arguments set_finval_request_timeout _ _ /.
#[export] Instance set_queue_array : Setter queue_array := λ g r,
  mk_delivery_queue (dq_size r) (g (queue_array r)) (cmd_slot_array r) (highest_delivered r)
    (highest_seen_closed r) (highest_seen_cmdmap r) (pc_cb r) (request_timeout r) (late_start
    r) (dq_log r).
#[global] Arguments set_queue_array _ _ /.
#[export] Instance set_cmd_slot_array : Setter cmd_slot_array := λ g r,
  mk_delivery_queue (dq_size r) (queue_array r) (g (cmd_slot_array r)) (highest_delivered r)
    (highest_seen_closed r) (highest_seen_cmdmap r) (pc_cb r) (request_timeout r) (late_start
    r) (dq_log r).
#[global] Arguments set_cmd_slot_array _ _ /.
#[export] Instance set_highest_delivered : Setter highest_delivered := λ g r,
  mk_delivery_queue (dq_size r) (queue_array r) (cmd_slot_array r) (g (highest_delivered r))
    (highest_seen_closed r) (highest_seen_cmdmap r) (pc_cb r) (request_timeout r) (late_start
    r) (dq_log r).
#[global] Arguments set_highest_delivered _ _ /.
#[export] Instance set_highest_seen_closed : Setter highest_seen_closed := λ g r,
  mk_delivery_queue (dq_size r) (queue_array r) (cmd_slot_array r) (highest_delivered r) (g
    (highest_seen_closed r)) (highest_seen_cmdmap r) (pc_cb r) (request_timeout r) (late_start
    r) (dq_log r).
#[global] Arguments set_highest_seen_closed _ _ /.
#[export] Instance set_highest_seen_cmdmap : Setter highest_seen_cmdmap := λ g r,
  mk_delivery_queue (dq_size r) (queue_array r) (cmd_slot_array r) (highest_delivered r)
    (highest_seen_closed r) (g (highest_seen_cmdmap r)) (pc_cb r) (request_timeout r)
    (late_start r) (dq_log r).
#[global] Arguments set_highest_seen_cmdmap _ _ /.
#[export] Instance set_late_start : Setter late_start := λ g r,
  mk_delivery_queue (dq_size r) (queue_array r) (cmd_slot_array r) (highest_delivered r)
    (highest_seen_closed r) (highest_seen_cmdmap r) (pc_cb r) (request_timeout r) (g
    (late_start r)) (dq_log r).
#[global] Arguments set_late_start _ _ /.
#[export] Instance set_dq_log : Setter dq_log := λ g r,
  mk_delivery_queue (dq_size r) (queue_array r) (cmd_slot_array r) (highest_delivered r)
    (highest_seen_closed r) (highest_seen_cmdmap r) (pc_cb r) (request_timeout r) (late_start
    r) (g (dq_log r)).
#[global] Arguments set_dq_log _ _ /.

Implicit Types (dq : delivery_queue) (e : dq_entry).

Definition dq_clear_entry : dq_entry :=
  mk_dq_entry 0 clear_cmd_key false false timeval_zero timeval_zero.

Definition dq_delayed_start dq : delivery_queue := dq <| late_start := true |>.

(** [delivery_queue_init]: the size comes from the configuration, the request
    timeout is 10 ms. *)
Definition delivery_queue_init (working_set_size : Z) (pc : bool) : delivery_queue :=
  mk_delivery_queue working_set_size
    (replicate (Z.to_nat working_set_size) dq_clear_entry)
    (replicate (Z.to_nat working_set_size) (mk_cmd_slot 0 []))
    0 0 0 pc (mk_timeval 0 10000) false [].

(** The slot of an instance, as an index of both arrays. *)
Definition dq_index dq (inst : Z) : Z := inst mod dq_size dq.

Definition dq_get_entry (inst : Z) : M delivery_queue dq_entry :=
  dq ← get;
  c_assert (0 <? inst);;
  c_assert (inst <=? u64 (highest_delivered dq + dq_size dq));;
  e ← lift_opt (arr_get (queue_array dq) (dq_index dq inst));
  c_assert ((inst_number e =? inst) || (inst_number e =? 0));;
  let e := e <| inst_number := inst |> in
  put (dq <| queue_array := arr_set (queue_array dq) (dq_index dq inst) e |>);;
  mret e.

(** [e->f = v] for the entry [e] of [inst]. *)
Definition dq_put_entry (inst : Z) e : M delivery_queue unit :=
  modify (λ dq, dq <| queue_array := arr_set (queue_array dq) (dq_index dq inst) e |>).

Definition dq_get_slot e : M delivery_queue cmd_slot :=
  dq ← get;
  lift_opt (arr_get (cmd_slot_array dq) (dq_index dq (inst_number e))).

(** [cs->size = size; memcpy(cs->data, value, size)] *)
Definition dq_put_slot e (value : list byte) : M delivery_queue unit :=
  modify (λ dq, dq <| cmd_slot_array :=
    arr_set (cmd_slot_array dq) (dq_index dq (inst_number e))
      (mk_cmd_slot (Z.of_nat (length value)) value) |>).

Definition dq_call (ev : dq_event) : M delivery_queue unit :=
  modify (λ dq, dq <| dq_log := dq_log dq ++ [ev] |>).

(** One request of the periodic check; [continue] ends it early. *)
Definition dq_check_entry (time_now : timeval) (i : Z) : M delivery_queue unit :=
  e ← dq_get_entry i;
  c_assert (inst_number e =? i);;
  if has_mapping e && has_final_value e then mret tt
  else
    dq ← get;
    e ← (if negb (has_mapping e) then
           if ((tv_sec (cmdmap_request_timeout e) =? 0) && (tv_usec (cmdmap_request_timeout e) =? 0))
              || timer_is_expired (cmdmap_request_timeout e) time_now
           then
             dq_call (MissingCmdmap i);;
             let e := e <| cmdmap_request_timeout := timer_set_timeout time_now (request_timeout dq) |> in
             dq_put_entry i e;;
             mret e
           else mret e
         else mret e);
    if i <? highest_seen_closed dq then
      if (negb (tv_sec (finval_request_timeout e) =? 0) && negb (tv_usec (finval_request_timeout e) =? 0))
         || timer_is_expired (finval_request_timeout e) time_now
      then
        dq_call (MissingAcceptance i);;
        dq_put_entry i (e <| finval_request_timeout := timer_set_timeout time_now (request_timeout dq) |>)
      else mret tt
    else mret tt.

Fixpoint dq_check_loop (time_now : timeval) (instances : list Z) : M delivery_queue unit :=
  match instances with
  | [] => mret tt
  | i :: instances =>
      dq ← get;
      if u64 (highest_delivered dq + dq_size dq) <=? i then mret tt
      else dq_check_entry time_now i;; dq_check_loop time_now instances
  end.

Definition dq_periodic_check (time_now : timeval) : M delivery_queue unit :=
  dq ← get;
  let upper_limit := Z.max (highest_seen_closed dq) (highest_seen_cmdmap dq) in
  dq_check_loop time_now (range (u64 (highest_delivered dq + 1)) upper_limit);;
  if pc_cb dq then dq_call PostCheck else mret tt.

(** The loop of [dq_deliver_loop]; one iteration per delivered instance. *)
Fixpoint dq_deliver_fuel (fuel : nat) : M delivery_queue unit :=
  match fuel with
  | O => crash
  | S fuel =>
      dq ← get;
      let next := u64 (highest_delivered dq + 1) in
      e ← dq_get_entry next;
      if has_mapping e && has_final_value e then
        cs ← dq_get_slot e;
        dq_call (Deliver (cs_data cs) (cs_size cs));;
        dq_put_entry next dq_clear_entry;;
        modify (λ dq, dq <| highest_delivered := u64 (highest_delivered dq + 1) |>);;
        dq_deliver_fuel fuel
      else mret tt
  end.

Definition dq_deliver_loop : M delivery_queue unit :=
  dq ← get;
  dq_deliver_fuel (S (Z.to_nat (dq_size dq))).

(** The hack for learners that start late. *)
Definition dq_late_start (inst : Z) : M delivery_queue unit :=
  modify (λ dq, if late_start dq
                then dq <| highest_delivered := u64 (inst - 1) |> <| late_start := false |>
                else dq).

Definition delivery_queue_handle_command_map
    (inst : Z) (key : command_id) (cmd_value : list byte) : M delivery_queue unit :=
  let cmd_size := Z.of_nat (length cmd_value) in
  dq_late_start inst;;
  dq ← get;
  if u64 (highest_delivered dq + dq_size dq) <=? inst then mret tt
  else if inst <=? highest_delivered dq then mret tt
  else
    modify (λ dq, if highest_seen_cmdmap dq <? inst
                  then dq <| highest_seen_cmdmap := inst |> else dq);;
    e ← dq_get_entry inst;
    c_assert (inst_number e =? inst);;
    cs ← dq_get_slot e;
    if has_final_value e && has_mapping e then mret tt
    else if has_mapping e then
      if CMD_KEY_EQUALS key (cmd_key e) then
        c_assert (cs_size cs =? cmd_size);;
        c_assert (bool_decide (cmd_value = cs_data cs))
      else
        dq_put_entry inst (e <| cmd_key := key |>);;
        dq_put_slot e cmd_value
    else if has_final_value e then
      if CMD_KEY_EQUALS key (cmd_key e) then
        dq_put_slot e cmd_value;;
        dq_put_entry inst (e <| has_mapping := true |>);;
        dq_deliver_loop
      else mret tt
    else
      dq_put_slot e cmd_value;;
      dq_put_entry inst (e <| cmd_key := key |> <| has_mapping := true |>).

Definition delivery_queue_handle_acceptance
    (inst : Z) (key : command_id) : M delivery_queue unit :=
  dq_late_start inst;;
  modify (λ dq, if highest_seen_closed dq <? inst
                then dq <| highest_seen_closed := inst |> else dq);;
  dq ← get;
  if u64 (highest_delivered dq + dq_size dq) <=? inst then mret tt
  else if inst <=? highest_delivered dq then mret tt
  else
    e ← dq_get_entry inst;
    let same_key := CMD_KEY_EQUALS (cmd_key e) key in
    if has_final_value e && has_mapping e then c_assert same_key
    else if has_mapping e then
      if same_key then
        dq_put_entry inst (e <| has_final_value := true |>);;
        dq_deliver_loop
      else
        dq_put_entry inst (e <| has_mapping := false |> <| cmd_key := key |>)
    else if has_final_value e then c_assert (CMD_KEY_EQUALS (cmd_key e) key)
    else dq_put_entry inst (e <| cmd_key := key |> <| has_final_value := true |>).

#[global] Arguments dq_get_entry : simpl never.
#[global] Arguments dq_put_entry : simpl never.
#[global] Arguments dq_get_slot : simpl never.
#[global] Arguments dq_put_slot : simpl never.
#[global] Arguments dq_call : simpl never.
#[global] Arguments dq_deliver_loop : simpl never.
#[global] Arguments dq_check_entry : simpl never.

(** ** The invariant

    [cmd_of] gives the bytes of the command a key names in an instance,
    [chosen] the key that consensus chose for an instance; [L] bounds the
    instances that are [accepted], [K] those that are mapped. *)

Definition is_delivery (ev : dq_event) : bool :=
  match ev with
  | Deliver _ _ => true
  | _ => false
  end.

Definition deliveries (log : list dq_event) : list dq_event :=
  filter (λ ev, is_delivery ev = true) log.

Section invariant.
Context (n L K : Z) (accepted : Z → Prop) (cmd_of : Z → command_id → list byte) (chosen : Z → command_id).

Definition slot_of (i : Z) (key : command_id) : cmd_slot :=
  mk_cmd_slot (Z.of_nat (length (cmd_of i key))) (cmd_of i key).

Definition delivery_of (i : Z) : dq_event :=
  Deliver (cmd_of i (chosen i)) (Z.of_nat (length (cmd_of i (chosen i)))).

Definition is_flagged e : Prop := has_mapping e = true ∨ has_final_value e = true.

(** What the entry [e] and the slot [s] of one position [k] hold. *)
Record cell_ok (B hd k : Z) e (s : cmd_slot) : Prop := {
  co_inst : (inst_number e = 0 ∧ ¬ is_flagged e) ∨
            (hd < inst_number e ≤ hd + n ∧ inst_number e mod n = k);
  co_bound : has_final_value e = true → inst_number e ≤ B ∧ accepted (inst_number e);
  co_final : has_final_value e = true → cmd_key e = chosen (inst_number e);
  co_map : has_mapping e = true → s = slot_of (inst_number e) (cmd_key e)
}.

Record dq_frame (B hd : Z) dq : Prop := {
  df_size : dq_size dq = n;
  df_entries : Z.of_nat (length (queue_array dq)) = n;
  df_slots : Z.of_nat (length (cmd_slot_array dq)) = n;
  df_hd : highest_delivered dq = hd;
  df_bounds : 0 ≤ hd ≤ B ∧ B ≤ L;
  df_closed : highest_seen_closed dq ≤ L;
  df_cmdmap : highest_seen_cmdmap dq ≤ K;
  df_late : late_start dq = false;
  df_accepted i : 1 ≤ i ≤ hd → accepted i;
  df_log : deliveries (dq_log dq) = delivery_of <$> range 1 hd
}.

Definition dq_cell dq (k : Z) e (s : cmd_slot) : Prop :=
  arr_get (queue_array dq) k = Some e ∧ arr_get (cmd_slot_array dq) k = Some s.

Definition dq_inv (B hd : Z) dq : Prop :=
  dq_frame B hd dq ∧
  ∀ k e s, dq_cell dq k e s → cell_ok B hd k e s.

(** The next instance to deliver is not ready. *)
Definition dq_settled (hd : Z) dq : Prop :=
  ∀ e s, dq_cell dq ((hd + 1) mod n) e s → has_mapping e && has_final_value e = false.

(** The cell of [inst] is being changed; the others are those of [dq0]. *)
Definition dq_open dq0 (B hd inst : Z) e (s : cmd_slot) dq : Prop :=
  dq_frame B hd dq ∧ hd < inst ≤ hd + n ∧ inst_number e = inst ∧
  dq_cell dq (inst mod n) e s ∧
  ∀ k e' s', k ≠ inst mod n → dq_cell dq k e' s' → dq_cell dq0 k e' s'.

Lemma clear_cell_ok B hd k s : cell_ok B hd k dq_clear_entry s.
Proof.
  assert (¬ is_flagged dq_clear_entry) by (intros [?|?]; done).
  constructor; [by left|done..].
Qed.

Hypothesis n_pos : 0 < n.
Hypothesis accepted_le : ∀ i, accepted i → i ≤ L.
Hypothesis L_bound : Z.max L K + n < 2 ^ 64.

Lemma dq_inv_weaken B B' hd dq : B ≤ B' ≤ L → dq_inv B hd dq → dq_inv B' hd dq.
Proof.
  intros HB [[] Hc]. split; [constructor; auto; lia|].
  intros k e s Hk. destruct (Hc k e s Hk). constructor; auto.
  intros Hf. destruct (co_bound0 Hf). split; [lia|done].
Qed.

(** Only the instances of the current window can be ready. *)
Lemma dq_inv_window B hd dq : dq_inv B hd dq → dq_inv (Z.min B (hd + n)) hd dq.
Proof.
  intros [[] Hc]. split; [constructor; auto; lia|].
  intros k e s Hk. destruct (Hc k e s Hk). constructor; auto.
  intros Hf. specialize (co_bound0 Hf). destruct co_inst0 as [[_ []]|]; [by right|split; [lia|tauto]].
Qed.

Lemma dq_close dq0 B hd inst e s dq :
  dq_inv B hd dq0 →
  dq_open dq0 B hd inst e s dq →
  (has_final_value e = true → inst ≤ B ∧ accepted inst) →
  (has_final_value e = true → cmd_key e = chosen inst) →
  (has_mapping e = true → s = slot_of inst (cmd_key e)) →
  dq_inv B hd dq.
Proof.
  intros [_ H0] (Hf & Hw & He & [Hk1 Hk2] & Ho) H1 H2 H3. split; [done|].
  intros k e' s' [Hk1' Hk2']. destruct (decide (k = inst mod n)) as [->|Hne].
  - simplify_eq. constructor; auto.
  - by apply H0, Ho.
Qed.

Lemma wp_dq_get_entry B hd inst dq Q :
  dq_inv B hd dq → hd < inst ≤ hd + n →
  (∀ e s dq', dq_open dq B hd inst e s dq' → cell_ok B hd (inst mod n) e s →
     (dq_settled hd dq → dq_settled hd dq') → Q e dq') →
  wp (dq_get_entry inst) Q dq.
Proof.
  intros [Hf Hc] Hw HQ. unfold dq_get_entry. destruct Hf as [? ? ? Hhd ? ? ? ? ? ?]. wp_steps.
  pose proof (Z.mod_pos_bound inst n n_pos).
  apply wp_assert; [apply Z.ltb_lt; lia|]. wp_steps.
  apply wp_assert; [apply Z.leb_le; rewrite wrap_small; lia|]. wp_steps.
  unfold dq_index. rewrite df_size0 in *.
  destruct (arr_get_is_Some (queue_array dq) (inst mod n)) as [e He]; [lia|].
  destruct (arr_get_is_Some (cmd_slot_array dq) (inst mod n)) as [s Hs]; [lia|].
  eapply wp_lift_opt; [done|]. wp_steps.
  destruct (Hc _ _ _ (conj He Hs)) as [Hi Hb Hfin Hmap].
  assert (inst_number e = 0 ∧ ¬ is_flagged e ∨ inst_number e = inst) as Hor.
  { destruct Hi as [?|[? ?]]; [by left|right].
    apply (mod_window_inj n hd); [done..|lia]. }
  apply wp_assert.
  { apply orb_true_iff. rewrite !Z.eqb_eq. tauto. }
  wp_steps. apply (HQ _ s).
  - split_and!; cbn; [constructor; cbn; auto; by rewrite length_arr_set|lia|lia|done| |].
    + split; cbn; [|done]. apply arr_get_set_eq. lia.
    + intros k e' s' Hk [He' Hs']. cbn in *. rewrite arr_get_set_ne in He' by lia.
      by split.
  - unfold is_flagged in *. constructor; cbn in *.
    + right. lia.
    + intros Hfl. destruct Hor as [[_ ?]|<-]; [tauto|auto].
    + intros Hfl. destruct Hor as [[_ ?]|<-]; [tauto|auto].
    + intros Hfl. destruct Hor as [[_ []]|<-]; [by left|auto].
  - intros Hset e' s' [He' Hs']. cbn in *.
    destruct (decide (inst mod n = (hd + 1) mod n)) as [Heq|Hne].
    + rewrite Heq, arr_get_set_eq in He' by lia. simplify_eq. cbn.
      apply (Hset e s'). rewrite Heq in He. by split.
    + rewrite arr_get_set_ne in He' by lia. apply (Hset e' s'). by split.
Qed.

Lemma wp_dq_put_entry dq0 B hd inst e e' s dq Q :
  dq_open dq0 B hd inst e s dq → inst_number e' = inst →
  (∀ dq', dq_open dq0 B hd inst e' s dq' → Q tt dq') →
  wp (dq_put_entry inst e') Q dq.
Proof.
  intros (Hf & Hw & _ & [He Hs] & Ho) He' HQ. unfold dq_put_entry. wp_steps. apply HQ.
  pose proof (Z.mod_pos_bound inst n n_pos).
  destruct Hf. unfold dq_index. rewrite df_size0 in *.
  split_and!; cbn; [constructor; cbn; auto; by rewrite length_arr_set|lia|lia|done| |].
  - split; cbn; [|done]. apply arr_get_set_eq. lia.
  - intros k e'' s'' Hk [He'' Hs'']. cbn in *. rewrite arr_get_set_ne in He'' by lia.
    apply Ho; [done|by split].
Qed.

Lemma wp_dq_get_slot dq0 B hd inst e s dq Q :
  dq_open dq0 B hd inst e s dq → Q s dq → wp (dq_get_slot e) Q dq.
Proof.
  intros (Hf & Hw & He & [_ Hs] & Ho) HQ. unfold dq_get_slot. wp_steps.
  unfold dq_index. rewrite (df_size _ _ _ Hf), He. by eapply wp_lift_opt.
Qed.

Lemma wp_dq_put_slot dq0 B hd inst e e' s v dq Q :
  dq_open dq0 B hd inst e s dq → inst_number e' = inst →
  (∀ dq', dq_open dq0 B hd inst e (mk_cmd_slot (Z.of_nat (length v)) v) dq' → Q tt dq') →
  wp (dq_put_slot e' v) Q dq.
Proof.
  intros (Hf & Hw & Hn & [He Hs] & Ho) He' HQ. unfold dq_put_slot. wp_steps. apply HQ.
  pose proof (Z.mod_pos_bound inst n n_pos).
  destruct Hf. unfold dq_index. rewrite He', df_size0 in *.
  split_and!; cbn; [constructor; cbn; auto; by rewrite length_arr_set|lia|lia|done| |].
  - split; cbn; [done|]. apply arr_get_set_eq. lia.
  - intros k e'' s'' Hk [He'' Hs'']. cbn in *. rewrite arr_get_set_ne in Hs'' by lia.
    apply Ho; [done|by split].
Qed.
Definition dq_good (B : Z) dq : Prop :=
  ∃ hd, dq_inv B hd dq ∧ dq_settled hd dq.

Lemma dq_settled_open dq0 B hd inst e s dq :
  dq_open dq0 B hd inst e s dq → inst = hd + 1 ∨ dq_settled hd dq0 →
  has_mapping e && has_final_value e = false → dq_settled hd dq.
Proof.
  intros (_ & Hw & _ & [He _] & Ho) Hor Hb e' s' [He' Hs'].
  destruct (decide ((hd + 1) mod n = inst mod n)) as [Heq|Hne].
  - rewrite Heq in He'. by simplify_eq.
  - destruct Hor as [->|Hset]; [done|]. apply (Hset e' s'). apply Ho; [done|by split].
Qed.

Lemma deliver_one dq0 B hd e s dq :
  dq_inv B hd dq0 → dq_open dq0 B hd (hd + 1) e s dq → cell_ok B hd ((hd + 1) mod n) e s →
  has_mapping e = true → has_final_value e = true →
  wp (cs ← dq_get_slot e;
      dq_call (Deliver (cs_data cs) (cs_size cs));;
      dq_put_entry (hd + 1) dq_clear_entry;;
      modify (λ dq, dq <| highest_delivered := u64 (highest_delivered dq + 1) |>))
    (λ _ dq', dq_inv B (hd + 1) dq') dq.
Proof.
  intros [_ H0] Hop [_ Hb Hf Hm] Hmap Hfin.
  pose proof Hop as (Hfr & Hw & Hi & Hcell & Ho). apply wp_bind.
  eapply wp_dq_get_slot; [done|]. unfold dq_call, dq_put_entry. wp_steps. cbn.
  rewrite (Hm Hmap), (Hf Hfin), Hi. destruct Hfr. unfold dq_index; cbn.
  destruct (Hb Hfin) as [Hle Hacc]. rewrite df_size0, df_hd0.
  pose proof (Z.mod_pos_bound (hd + 1) n n_pos).
  split.
  - constructor; cbn; auto; [by rewrite length_arr_set| |lia| |].
    + rewrite wrap_small; lia.
    + intros i ?. destruct (decide (i = hd + 1)) as [->|]; [congruence|apply df_accepted0; lia].
    + unfold deliveries in *. rewrite list.filter_app, df_log0. cbn.
      rewrite range_snoc, fmap_app by lia. done.
  - intros k e' s' [He' Hs']; cbn in *. destruct (decide (k = (hd + 1) mod n)) as [->|Hne].
    + rewrite arr_get_set_eq in He' by lia. simplify_eq. apply clear_cell_ok.
    + rewrite arr_get_set_ne in He' by lia.
      destruct (H0 k e' s' (Ho k e' s' Hne (conj He' Hs'))). constructor; auto.
      destruct co_inst0 as [?|[? ?]]; [by left|right]. split; [|done].
      assert (inst_number e' ≠ hd + 1) by congruence. lia.
Qed.

Lemma wp_dq_deliver_fuel B fuel hd dq :
  dq_inv B hd dq → (Z.to_nat (B - hd) < fuel)%nat →
  wp (dq_deliver_fuel fuel) (λ _ dq', dq_good B dq') dq.
Proof.
  revert hd dq. induction fuel as [|fuel IH]; intros hd dq Hinv Hfuel; [lia|]. cbn.
  pose proof Hinv as [Hfr _]. destruct Hfr. wp_steps. rewrite df_hd0, wrap_small by lia.
  eapply wp_dq_get_entry; [done|lia|]. intros e s dq' Hop Hcell _. cbn.
  destruct (has_mapping e && has_final_value e) eqn:Hready.
  - pose proof Hready as [Hm Hf]%andb_prop.
    assert (hd + 1 ≤ B).
    { pose proof (co_bound _ _ _ _ _ Hcell Hf) as [Hb _].
      by rewrite (proj1 (proj2 (proj2 Hop))) in Hb. }
    pose proof (deliver_one _ _ _ _ _ _ Hinv Hop Hcell Hm Hf) as Hdel.
    repeat (apply wp_bind; apply wp_bind_inv in Hdel; eapply wp_mono; [exact Hdel|];
            clear Hdel; cbn beta; intros ?a ?s Hdel).
    apply wp_bind. eapply wp_mono; [exact Hdel|]. cbn beta. intros _ dq'' Hinv'.
    apply (IH (hd + 1)); [done|]. lia.
  - apply wp_ret. exists hd. split; [|eapply dq_settled_open; eauto].
    destruct Hcell. rewrite (proj1 (proj2 (proj2 Hop))) in *. by eapply dq_close.
Qed.
Lemma wp_dq_deliver_loop hd dq :
  dq_inv L hd dq → wp dq_deliver_loop (λ _ dq', dq_good L dq') dq.
Proof.
  intros Hinv. pose proof Hinv as [[Hn _ _ _ Hb _ _ _ _ _] _].
  unfold dq_deliver_loop. wp_steps. rewrite Hn.
  apply wp_mono with (λ _ dq', dq_good (Z.min L (hd + n)) dq').
  - apply wp_dq_deliver_fuel with hd; [by apply dq_inv_window|lia].
  - intros _ dq' (hd' & Hinv' & Hset). exists hd'. split; [|done].
    eapply dq_inv_weaken; [|done]. pose proof (df_bounds _ _ _ (proj1 Hinv')). lia.
Qed.

Lemma wp_dq_late_start inst dq Q :
  late_start dq = false → Q tt dq → wp (dq_late_start inst) Q dq.
Proof. intros Hl HQ. unfold dq_late_start. wp_steps. by rewrite Hl. Qed.

(** What a handler leaves when it ends without delivering. *)
Lemma dq_good_close dq0 hd inst e s dq :
  dq_inv L hd dq0 → dq_settled hd dq0 →
  dq_open dq0 L hd inst e s dq → (has_final_value e = true → inst ≤ L ∧ accepted inst) →
  has_mapping e && has_final_value e = false →
  (has_final_value e = true → cmd_key e = chosen inst) →
  (has_mapping e = true → s = slot_of inst (cmd_key e)) →
  dq_good L dq.
Proof.
  intros Hinv Hset Hop ? ? ? ?. exists hd. split; [by eapply dq_close|].
  eapply dq_settled_open; eauto.
Qed.

Lemma dq_seen_closed hd dq i :
  dq_inv L hd dq → dq_settled hd dq → i ≤ L →
  let dq' := if highest_seen_closed dq <? i then dq <| highest_seen_closed := i |> else dq in
  dq_inv L hd dq' ∧ dq_settled hd dq'.
Proof. intros [[] ?] ? ?. destruct (_ <? _); [|done]. split; [|done]. split; [by constructor|done]. Qed.

Lemma dq_seen_cmdmap hd dq i :
  dq_inv L hd dq → dq_settled hd dq → i ≤ K →
  let dq' := if highest_seen_cmdmap dq <? i then dq <| highest_seen_cmdmap := i |> else dq in
  dq_inv L hd dq' ∧ dq_settled hd dq'.
Proof. intros [[] ?] ? ?. destruct (_ <? _); [|done]. split; [|done]. split; [by constructor|done]. Qed.

(** The side conditions that are left when the cell is closed. *)
Ltac cell := intros; cbn in *; first
  [done|congruence|by auto|
   match goal with H : _ = false |- _ => by rewrite H, ?andb_false_r end].

Lemma handle_acceptance_spec inst dq :
  accepted inst → dq_good L dq →
  wp (delivery_queue_handle_acceptance inst (chosen inst)) (λ _ dq', dq_good L dq') dq.
Proof.
  intros Ha (hd & Hinv & Hset). pose proof (accepted_le _ Ha) as HL. unfold delivery_queue_handle_acceptance. wp_steps.
  apply wp_dq_late_start; [apply Hinv|]. wp_steps.
  destruct (dq_seen_closed hd dq inst Hinv Hset HL) as [Hinv' Hset']. cbv zeta in *.
  clear Hinv Hset. set (dq1 := if _ <? _ then _ else _) in *. clearbody dq1. clear dq.
  pose proof Hinv' as [[Hn _ _ Hhd Hb _ _ _ _ _] _]. rewrite Hn, Hhd, wrap_small by lia.
  wp_case; zbool; [apply wp_ret; by exists hd|].
  wp_case; zbool; [apply wp_ret; by exists hd|].
  wp_steps. eapply wp_dq_get_entry; [done|lia|]. intros e s dq' Hop [_ Hbd Hfin Hmap] Hk.
  rewrite (proj1 (proj2 (proj2 Hop))) in *. rewrite CMD_KEY_EQUALS_decide.
  destruct (has_final_value e) eqn:Hf, (has_mapping e) eqn:Hm; cbn.
  - rewrite Hfin by done. apply wp_assert; [by apply bool_decide_true|].
    exists hd. split; [eapply dq_close; [done|done|cell..]|auto].
  - rewrite Hfin by done. apply wp_assert; [by apply bool_decide_true|].
    exists hd. split; [eapply dq_close; [done|done|cell..]|auto].
  - wp_case; zbool; wp_steps.
    + eapply wp_dq_put_entry; [exact Hop|apply Hop|]. intros dq2 Hop2.
      eapply wp_dq_deliver_loop, dq_close; [done|done|cell..].
    + eapply wp_dq_put_entry; [exact Hop|apply Hop|]. intros dq2 Hop2.
      eapply dq_good_close; [done|done|done|cell..].
  - eapply wp_dq_put_entry; [exact Hop|apply Hop|]. intros dq2 Hop2.
    eapply dq_good_close; [done|done|done|cell..].
Qed.

Lemma handle_command_map_spec inst key dq :
  inst ≤ K → dq_good L dq →
  wp (delivery_queue_handle_command_map inst key (cmd_of inst key)) (λ _ dq', dq_good L dq') dq.
Proof.
  intros HL (hd & Hinv & Hset). unfold delivery_queue_handle_command_map. wp_steps.
  apply wp_dq_late_start; [apply Hinv|]. wp_steps.
  pose proof Hinv as [[Hn _ _ Hhd Hb _ _ _ _ _] _]. rewrite Hn, Hhd, wrap_small by lia.
  wp_case; zbool; [apply wp_ret; by exists hd|].
  wp_case; zbool; [apply wp_ret; by exists hd|]. wp_steps.
  destruct (dq_seen_cmdmap hd dq inst Hinv Hset HL) as [Hinv' Hset']. cbv zeta in *.
  clear Hinv Hset Hn Hhd. set (dq1 := if highest_seen_cmdmap _ <? _ then _ else _) in *.
  clearbody dq1. clear dq.
  eapply wp_dq_get_entry; [done|lia|]. intros e s dq' Hop [_ Hbd Hfin Hmap] Hk.
  pose proof Hop as (_ & _ & Hi & _ & _). wp_steps.
  apply wp_assert; [by apply Z.eqb_eq|]. wp_steps.
  eapply wp_dq_get_slot; [done|]. rewrite Hi in *. rewrite CMD_KEY_EQUALS_decide.
  destruct (has_final_value e) eqn:Hf, (has_mapping e) eqn:Hm; cbn.
  - apply wp_ret. exists hd. split; [eapply dq_close; [done|done|cell..]|auto].
  - wp_case; zbool; wp_steps.
    + subst key. eapply wp_dq_put_slot; [exact Hop|done|]. intros dq2 Hop2. wp_steps.
      eapply wp_dq_put_entry; [exact Hop2|done|]. intros dq3 Hop3.
      eapply wp_dq_deliver_loop, dq_close; [done|done|cell..].
    + exists hd. split; [eapply dq_close; [done|done|cell..]|auto].
  - wp_case; zbool; wp_steps.
    + subst key. rewrite Hmap by done. apply wp_assert; [by apply Z.eqb_eq|].
      apply wp_assert; [by apply bool_decide_true|].
      exists hd. split; [eapply dq_close; [done|done|cell..]|auto].
    + eapply wp_dq_put_entry; [exact Hop|done|]. intros dq2 Hop2. wp_steps.
      eapply wp_dq_put_slot; [exact Hop2|done|]. intros dq3 Hop3.
      eapply dq_good_close; [done|done|done|cell..].
  - wp_steps. eapply wp_dq_put_slot; [exact Hop|done|]. intros dq2 Hop2. wp_steps.
    eapply wp_dq_put_entry; [exact Hop2|done|]. intros dq3 Hop3.
    eapply dq_good_close; [done|done|done|cell..].
Qed.
Lemma wp_dq_call_open dq0 hd inst e s ev dq Q :
  dq_open dq0 L hd inst e s dq → is_delivery ev = false →
  (∀ dq', dq_open dq0 L hd inst e s dq' → Q tt dq') → wp (dq_call ev) Q dq.
Proof.
  intros (Hf & Hr) Hev HQ. unfold dq_call. wp_steps. apply HQ. split; [|done].
  destruct Hf. constructor; auto. cbn. unfold deliveries in *.
  rewrite list.filter_app, filter_cons_False, filter_nil, app_nil_r; [done|by rewrite Hev].
Qed.

Lemma dq_check_entry_spec now i hd dq :
  hd < i < hd + n → dq_inv L hd dq → dq_settled hd dq →
  wp (dq_check_entry now i) (λ _ dq', dq_inv L hd dq' ∧ dq_settled hd dq') dq.
Proof.
  intros Hi Hinv Hset. unfold dq_check_entry. wp_steps.
  eapply wp_dq_get_entry; [done|lia|]. intros e s dq1 Hop [_ Hbd Hfin Hmap] Hk.
  pose proof Hop as (_ & _ & Hie & _ & _). rewrite Hie in *. wp_steps.
  apply wp_assert; [by apply Z.eqb_eq|].
  destruct (has_mapping e && has_final_value e) eqn:Hready.
  { apply wp_ret. split; [|by auto]. eapply dq_close; [done|done|cell..]. }
  assert (∀ e' dq', dq_open dq L hd i e' s dq' →
    has_mapping e' = has_mapping e → has_final_value e' = has_final_value e →
    cmd_key e' = cmd_key e → dq_inv L hd dq' ∧ dq_settled hd dq') as Hend.
  { intros e' dq' Hop' Hm Hf Hc. split.
    - eapply dq_close; [done|done| | |]; rewrite ?Hm, ?Hf, ?Hc; auto.
    - eapply dq_settled_open; [done|by right|by rewrite Hm, Hf]. }
  wp_steps.
  apply wp_mono with (λ e' dq', dq_open dq L hd i e' s dq' ∧
    has_mapping e' = has_mapping e ∧ has_final_value e' = has_final_value e ∧
    cmd_key e' = cmd_key e).
  - repeat wp_case; try by apply wp_ret. wp_steps.
    eapply wp_dq_call_open; [done|done|]. intros dq2 Hop2. wp_steps.
    eapply wp_dq_put_entry; [done|done|]. intros dq3 Hop3. by apply wp_ret.
  - intros e' dq' (Hop' & Hm & Hf & Hc). repeat wp_case; try (apply wp_ret; by eapply Hend).
    wp_steps. eapply wp_dq_call_open; [done|done|]. intros dq2 Hop2.
    eapply wp_dq_put_entry; [done|apply Hop2|]. intros dq3 Hop3. by eapply Hend.
Qed.

Lemma dq_check_loop_spec now hd l dq :
  Forall (λ i, hd < i) l → dq_inv L hd dq → dq_settled hd dq →
  wp (dq_check_loop now l) (λ _ dq', dq_inv L hd dq' ∧ dq_settled hd dq') dq.
Proof.
  intros Hl. revert dq. induction Hl as [|i l Hi Hl IH]; intros dq Hinv Hset; cbn.
  { by apply wp_ret. }
  wp_steps. pose proof Hinv as [[Hn _ _ Hhd Hb _ _ _ _ _] _]. rewrite Hn, Hhd, wrap_small by lia.
  wp_case; zbool; [by apply wp_ret|]. wp_steps.
  eapply wp_mono; [apply (dq_check_entry_spec now i hd); [lia|done|done]|].
  intros _ dq' [? ?]. by apply IH.
Qed.

Lemma dq_periodic_check_spec now dq :
  dq_good L dq → wp (dq_periodic_check now) (λ _ dq', dq_good L dq') dq.
Proof.
  intros (hd & Hinv & Hset). unfold dq_periodic_check. wp_steps.
  pose proof Hinv as [[Hn _ _ Hhd Hb Hc1 Hc2 _ _ _] _]. rewrite Hhd, wrap_small by lia.
  eapply wp_mono; [apply (dq_check_loop_spec now hd); [|done|done]|].
  { apply list.Forall_forall. intros i Hi%elem_of_range. lia. }
  clear Hinv Hset. intros _ dq' [Hinv Hset].
  wp_case; [|apply wp_ret; by exists hd]. unfold dq_call. wp_steps. exists hd.
  split; [|done]. destruct Hinv as [[] ?]. split; [|done]. constructor; auto. cbn.
  unfold deliveries in *. by rewrite list.filter_app, app_nil_r.
Qed.

(** ** What the learner receives *)

Inductive dq_msg :=
  | MsgMap (inst : Z) (key : command_id)
  | MsgAcceptance (inst : Z)
  | Tick (now : timeval).

Definition dq_exec (m : dq_msg) : M delivery_queue unit :=
  match m with
  | MsgMap i key => delivery_queue_handle_command_map i key (cmd_of i key)
  | MsgAcceptance i => delivery_queue_handle_acceptance i (chosen i)
  | Tick now => dq_periodic_check now
  end.

Definition dq_msg_ok (m : dq_msg) : Prop :=
  match m with
  | MsgMap i _ => i ≤ K
  | MsgAcceptance i => accepted i
  | Tick _ => True
  end.

Lemma dq_exec_spec m dq :
  dq_msg_ok m → dq_good L dq → wp (dq_exec m) (λ _ dq', dq_good L dq') dq.
Proof.
  destruct m; cbn; intros; auto using handle_command_map_spec, handle_acceptance_spec,
    dq_periodic_check_spec.
Qed.

Lemma delivery_queue_init_good pc : 0 ≤ L → 0 ≤ K → dq_good L (delivery_queue_init n pc).
Proof.
  intros HL HK. assert (∀ k e s, dq_cell (delivery_queue_init n pc) k e s → e = dq_clear_entry)
    as Hclear by (intros k e s [He _]; exact (arr_get_replicate_inv _ _ _ _ He)).
  exists 0. split; [split|].
  - constructor; cbn; rewrite ?length_replicate; auto; lia.
  - intros k e s ->%Hclear. apply clear_cell_ok.
  - by intros e s ->%Hclear.
Qed.
End invariant.

(** ** Properties *)

(** C10. Whatever order the command maps, the acceptances and the periodic
    checks arrive in, repeated, lost or conflicting as long as the acceptances
    name the chosen keys, no assert of the delivery queue fails, every call
    ends, and the values delivered are exactly those of the instances 1 to
    [highest_delivered], in order, with none of them skipped, repeated or
    replaced by the value of another key; these instances were accepted, and the
    next one is not ready. *)
Theorem delivery_in_order n L K accepted cmd_of chosen pc (msgs : list dq_msg) :
  0 < n → (∀ i, accepted i → i ≤ L) → 0 ≤ L → 0 ≤ K → Z.max L K + n < 2 ^ 64 → Forall (dq_msg_ok K accepted) msgs →
  wp (mfor msgs (dq_exec cmd_of chosen))
    (λ _ dq, (∀ i, 1 ≤ i ≤ highest_delivered dq → accepted i) ∧
      deliveries (dq_log dq) = delivery_of cmd_of chosen <$> range 1 (highest_delivered dq) ∧
      ∀ e s, dq_cell dq ((highest_delivered dq + 1) mod n) e s →
        has_mapping e && has_final_value e = false)
    (delivery_queue_init n pc).
Proof.
  intros Hn Hacc HL HK HLn Hmsgs.
  apply (wp_mfor_inv (dq_good n L K accepted cmd_of chosen L)).
  - by apply delivery_queue_init_good.
  - intros m dq Hm Hgood. apply dq_exec_spec; [done..| |done].
    by eapply list.Forall_forall in Hmsgs.
  - intros dq (hd & Hinv & Hset). destruct Hinv as [[] _]. rewrite df_hd0. by split_and!.
Qed.

Definition example_cmd_of (i : Z) (k : command_id) : list byte :=
  if cmd_seqnum k =? 1 then [x61; x62] else [x63].
Definition example_chosen (i : Z) : command_id := mk_command_id 3 4 i.
Definition example_msgs : list dq_msg :=
  [MsgMap 2 (mk_command_id 3 4 2); MsgAcceptance 2; Tick (mk_timeval 5 20);
   MsgMap 1 (mk_command_id 9 9 9); MsgAcceptance 1; MsgAcceptance 1;
   MsgMap 1 (mk_command_id 3 4 1); MsgMap 2 (mk_command_id 3 4 2)].

Lemma delivery_in_order_witness :
  wp (mfor example_msgs (dq_exec example_cmd_of example_chosen))
    (λ _ dq, (∀ i, 1 ≤ i ≤ highest_delivered dq → 1 ≤ i ≤ 2) ∧
      deliveries (dq_log dq) = delivery_of example_cmd_of example_chosen <$> range 1 (highest_delivered dq) ∧
      ∀ e s, dq_cell dq ((highest_delivered dq + 1) mod 4) e s →
        has_mapping e && has_final_value e = false)
    (delivery_queue_init 4 true).
Proof.
  apply (delivery_in_order 4 2 10 (λ i, 1 ≤ i ≤ 2) example_cmd_of example_chosen true example_msgs); [lia..|].
  repeat constructor; cbn; lia.
Defined.

(** The same run, evaluated: both instances are delivered. *)
Example delivery_example :
  (λ p, (highest_delivered p.2, deliveries (dq_log p.2))) <$>
    mfor example_msgs (dq_exec example_cmd_of example_chosen) (delivery_queue_init 4 true)
  = Some (2, [Deliver [x61; x62] 2; Deliver [x63] 1]).
Proof. vm_compute. reflexivity. Qed.

(** ** Findings *)

(** [post_receive_check] of the learner calls the delivery loop after every
    packet, those that do not concern the queue included. *)
Definition late_start_run (inst : Z) : M delivery_queue unit :=
  dq_deliver_loop;;
  delivery_queue_handle_acceptance inst (mk_command_id 1 1 1).

(** [dq_delayed_start] is not compatible with a delivery loop that runs on
    the empty queue: the loop marks slot 1 with instance 1, and after the jump
    of [highest_delivered] the assert on the slot fails when the first instance
    is congruent to 1, and does not when it is not. *)
Theorem late_start_aborts :
  late_start_run 13 (dq_delayed_start (delivery_queue_init 4 false)) = None ∧
  late_start_run 14 (dq_delayed_start (delivery_queue_init 4 false)) ≠ None.
Proof. split; vm_compute; done. Qed.

(** Two checks in the same microsecond, while instance 1 is a gap. *)
Definition double_check (now : timeval) : M delivery_queue unit :=
  delivery_queue_handle_acceptance 2 (mk_command_id 1 1 1);;
  dq_periodic_check now;;
  dq_periodic_check now.

(** The deadline of a request for an acceptance does not stop the next
    check from repeating it, unlike the deadline of a request for a command
    map: the test that reads "not already requested recently" is inverted. *)
Theorem finval_request_repeated :
  match double_check (mk_timeval 100 7) (delivery_queue_init 4 false) with
  | Some (_, dq) => dq_log dq =
      [MissingCmdmap 1; MissingAcceptance 1; MissingCmdmap 2; MissingAcceptance 1]
  | None => False
  end.
Proof. vm_compute. reflexivity. Qed.

(** When the chosen key differs from the one of the mapping that is known
    (edge A3), the acceptance is lost: the mapping of the chosen key does not
    make the instance deliverable, a second acceptance does. *)
Theorem edge_A3_loses_acceptance :
  let k1 := mk_command_id 1 1 1 in
  let k2 := mk_command_id 1 1 2 in
  let run := (delivery_queue_handle_command_map 1 k1 [x61];;
              delivery_queue_handle_acceptance 1 k2;;
              delivery_queue_handle_command_map 1 k2 [x62]) in
  (highest_delivered ∘ snd <$> run (delivery_queue_init 4 false)) = Some 0 ∧
  (highest_delivered ∘ snd <$> (run;; delivery_queue_handle_acceptance 1 k2)
     (delivery_queue_init 4 false)) = Some 1.
Proof. split; vm_compute; reflexivity. Qed.
