(* ===== verification/Bytes.v ===== *)
(** * Bytes and buffers

    Byte strings as C code sees them: integers are little-endian, a read beyond
    the end of a buffer has no result.  [at_off] is what the lemmas about
    encoders and decoders share: some bytes are in a buffer at an offset. *)
From Stdlib Require Import Init.Byte.
From coqutil Require Export Word.LittleEndianList.
From S2P Require Import Prelude.

Definition blen (v : list byte) : Z := Z.of_nat (length v).

Definition pad (n : nat) : list byte := replicate n x00.

(** ** Reading a buffer

    [None] is an access beyond the end of the buffer. *)

Definition rd (n : nat) (off : Z) (buf : list byte) : option Z :=
  if decide (0 ≤ off ∧ off + Z.of_nat n ≤ Z.of_nat (length buf))
  then Some (le_combine (take n (drop (Z.to_nat off) buf)))
  else None.

(** [short int] *)
Definition signed16 (z : Z) : Z := if z <? 2 ^ 15 then z else z - 2 ^ 16.

Definition rd_short (off : Z) (buf : list byte) : option Z := signed16 <$> rd 2 off buf.

(** The bytes of a value, [memcpy]'d from the buffer. *)
Definition rd_bytes (n off : Z) (buf : list byte) : option (list byte) :=
  if decide (0 ≤ off ∧ 0 ≤ n ∧ off + n ≤ Z.of_nat (length buf))
  then Some (take (Z.to_nat n) (drop (Z.to_nat off) buf))
  else None.

(** ** Reading what was written *)

#[global] Arguments pad : simpl never.
#[global] Arguments blen : simpl never.
#[global] Arguments rd : simpl never.
#[global] Arguments rd_short : simpl never.
#[global] Arguments le_split : simpl never.

(** The bytes [l] are in [buf] at [off]. *)
Definition at_off (buf : list byte) (off : Z) (l : list byte) : Prop :=
  ∃ pre rest, buf = pre ++ l ++ rest ∧ off = blen pre.

Lemma at_off_app buf off l1 l2 :
  at_off buf off (l1 ++ l2) → at_off buf off l1 ∧ at_off buf (off + blen l1) l2.
Proof.
  intros (pre & rest & -> & ->). split.
  - exists pre, (l2 ++ rest). by rewrite <-!app_assoc.
  - exists (pre ++ l1), rest. unfold blen. rewrite length_app. split; [by rewrite <-!app_assoc|lia].
Qed.

Lemma at_off_bounds buf off l : at_off buf off l → 0 ≤ off ∧ off + blen l ≤ blen buf.
Proof. intros (pre & rest & -> & ->). unfold blen. rewrite !length_app. lia. Qed.

Lemma at_off_take buf off l :
  at_off buf off l → take (length l) (drop (Z.to_nat off) buf) = l.
Proof.
  intros (pre & rest & -> & ->). unfold blen. rewrite Nat2Z.id.
  by rewrite drop_app_length, take_app_length.
Qed.

Lemma rd_at n off buf v :
  at_off buf off (le_split n v) → rd n off buf = Some (v mod 2 ^ (Z.of_nat n * 8)).
Proof.
  intros H. pose proof (at_off_bounds _ _ _ H) as Hb. apply at_off_take in H.
  unfold blen in Hb. rewrite length_le_split in H, Hb.
  unfold rd. rewrite decide_True by lia. by rewrite H, le_combine_split.
Qed.

Lemma rd_at_small n off buf v :
  at_off buf off (le_split n v) → 0 ≤ v < 2 ^ (Z.of_nat n * 8) → rd n off buf = Some v.
Proof. intros H Hv. rewrite (rd_at _ _ _ _ H). by rewrite Z.mod_small. Qed.

Definition in_short (x : Z) : Prop := - 2 ^ 15 ≤ x < 2 ^ 15.

Lemma signed16_mod x : in_short x → signed16 (x mod 2 ^ 16) = x.
Proof.
  unfold in_short, signed16. intros Hx. destruct (Z.ltb_spec x 0).
  - rewrite <-(Z.mod_unique x (2 ^ 16) (-1) (x + 2 ^ 16)) by lia.
    destruct (Z.ltb_spec (x + 2 ^ 16) (2 ^ 15)); lia.
  - rewrite Z.mod_small by lia. destruct (Z.ltb_spec x (2 ^ 15)); lia.
Qed.

Lemma rd_short_at off buf x :
  at_off buf off (le_split 2 x) → in_short x → rd_short off buf = Some x.
Proof.
  intros H Hx. unfold rd_short. rewrite (rd_at _ _ _ _ H). cbn [fmap option_fmap option_map].
  by rewrite signed16_mod.
Qed.

Lemma rd_bytes_at n off buf l : at_off buf off l → n = blen l → rd_bytes n off buf = Some l.
Proof.
  intros H ->. pose proof (at_off_bounds _ _ _ H) as Hb. unfold rd_bytes, blen in *.
  rewrite decide_True by lia. by rewrite Nat2Z.id, (at_off_take _ _ _ H).
Qed.

Lemma blen_le_split n v : blen (le_split n v) = Z.of_nat n.
Proof. unfold blen. by rewrite length_le_split. Qed.
Lemma blen_pad n : blen (pad n) = Z.of_nat n.
Proof. unfold blen, pad. by rewrite length_replicate. Qed.
Lemma blen_app l1 l2 : blen (l1 ++ l2) = blen l1 + blen l2.
Proof. unfold blen. rewrite length_app. lia. Qed.
Lemma blen_nonneg l : 0 ≤ blen l.
Proof. unfold blen. lia. Qed.

#[export] Hint Rewrite blen_le_split blen_pad blen_app : fds.
#[export] Hint Rewrite @length_app @length_le_split : fds.

(** ** Where bytes are, position by position *)

Lemma at_off_lookup buf off l :
  at_off buf off l ↔ 0 ≤ off ∧ off + blen l ≤ blen buf ∧ ∀ i, (i < length l)%nat → buf !! (Z.to_nat off + i)%nat = l !! i.
Proof.
  split.
  - intros H. pose proof (at_off_bounds _ _ _ H). split_and!; [lia..|]. intros i Hi. destruct H as (pre & rest & -> & ->).
    unfold blen. rewrite Nat2Z.id, lookup_app_r by lia. rewrite lookup_app_l by lia. f_equal. lia.
  - unfold blen. intros (H0 & Hl & H). exists (take (Z.to_nat off) buf), (drop (Z.to_nat off + length l) buf).
    unfold blen. rewrite length_take. split; [|lia].
    apply list_eq. intros i. destruct (decide (i < Z.to_nat off)%nat); [by rewrite lookup_app_l, lookup_take_lt by (rewrite ?length_take; lia)|].
    rewrite lookup_app_r, length_take by (rewrite length_take; lia).
    replace (Z.to_nat off `min` length buf)%nat with (Z.to_nat off) by lia.
    destruct (decide (i - Z.to_nat off < length l)%nat).
    + rewrite lookup_app_l by done. rewrite <-H by done. f_equal. lia.
    + rewrite lookup_app_r, lookup_drop by lia. f_equal. lia.
Qed.

Lemma at_off_join buf off l1 l2 : at_off buf off l1 → at_off buf (off + blen l1) l2 → at_off buf off (l1 ++ l2).
Proof.
  rewrite !at_off_lookup, blen_app. unfold blen. intros (H1 & H2 & H3) (H4 & H5 & H6). split_and!; [lia..|].
  intros i. rewrite length_app. intros Hi. destruct (decide (i < length l1)%nat).
  - rewrite lookup_app_l by done. auto.
  - rewrite lookup_app_r by lia. rewrite <-H6 by lia. f_equal. lia.
Qed.

(** Cuts the fields of a structure apart. *)
Ltac cut_fields :=
  repeat match goal with
  | H : at_off _ _ (_ ++ _) |- _ =>
      let H1 := fresh "F" in let H2 := fresh "F" in
      apply at_off_app in H; destruct H as [H1 H2]; autorewrite with fds in H2
  end.

(** Brings the offset of a field to the one in the goal. *)
Ltac at_field := match goal with
  | H : at_off ?b ?o ?l |- at_off ?b ?o' ?l => replace o' with o by lia; exact H
  end.

Ltac rd_field := first [at_field|assumption|done].
