(* ===== verification/City.v ===== *)
(** * CityHash

    [cityhash-1.1.0/src/city.cc] and the inline functions of [city.h]: the hash
    functions of 32, 64 and 128 bits, for a little-endian machine.  A pointer is
    an offset into the buffer that is hashed; a read outside of the buffer has no
    result.  The functions that need SSE 4.2 are in [CityCrc]. *)
From Stdlib Require Import Init.Byte Znumtheory.
From S2P Require Import Prelude Bytes.
From coqutil Require Import Byte.

Implicit Types (buf : list byte) (s len x y z u v w a b c d e f g h mul seed : Z).

(** Arithmetic of [uint32] and [uint64]. *)
#[local] Notation "x +₃₂ y" := (u32 (x + y)) (at level 50, left associativity).
#[local] Notation "x *₃₂ y" := (u32 (x * y)) (at level 40, left associativity).
#[local] Notation "x +₆₄ y" := (u64 (x + y)) (at level 50, left associativity).
#[local] Notation "x -₆₄ y" := (u64 (x - y)) (at level 50, left associativity).
#[local] Notation "x *₆₄ y" := (u64 (x * y)) (at level 40, left associativity).
#[local] Notation "x ⊕ y" := (Z.lxor x y) (at level 52, left associativity).

Definition uint128 : Type := Z * Z.
Definition Uint128Low64 (x : uint128) : Z := x.1.
Definition Uint128High64 (x : uint128) : Z := x.2.

(** ** Reading, and small routines *)

Definition Fetch64 buf (p : Z) : option Z := rd 8 p buf.
Definition Fetch32 buf (p : Z) : option Z := rd 4 p buf.

(** [s[i]], which is a [char] of 8 bits with a sign. *)
Definition signed8 (x : Z) : Z := if x <? 2 ^ 7 then x else x - 2 ^ 8.

Definition bswap_32 x : Z := le_combine (rev (le_split 4 x)).
Definition bswap_64 x : Z := le_combine (rev (le_split 8 x)).

Definition k0 : Z := 0xc3a5c85c97cb3127.
Definition k1 : Z := 0xb492b66fbe98f273.
Definition k2 : Z := 0x9ae16a3b2f90404f.

Definition c1 : Z := 0xcc9e2d51.
Definition c2 : Z := 0x1b873593.

Definition fmix h : Z :=
  let h := h ⊕ Z.shiftr h 16 in
  let h := h *₃₂ 0x85ebca6b in
  let h := h ⊕ Z.shiftr h 13 in
  let h := h *₃₂ 0xc2b2ae35 in
  h ⊕ Z.shiftr h 16.

Definition Rotate32 (val shift : Z) : Z :=
  if shift =? 0 then val else Z.lor (Z.shiftr val shift) (u32 (Z.shiftl val (32 - shift))).

Definition Mur a h : Z :=
  let a := a *₃₂ c1 in
  let a := Rotate32 a 17 in
  let a := a *₃₂ c2 in
  let h := h ⊕ a in
  let h := Rotate32 h 19 in
  h *₃₂ 5 +₃₂ 0xe6546b64.

(** ** 32 bits *)

Definition Hash32Len13to24 buf s len : option Z :=
  a ← Fetch32 buf (s - 4 + Z.shiftr len 1);
  b ← Fetch32 buf (s + 4);
  c ← Fetch32 buf (s + len - 8);
  d ← Fetch32 buf (s + Z.shiftr len 1);
  e ← Fetch32 buf s;
  f ← Fetch32 buf (s + len - 4);
  let h := u32 len in
  Some (fmix (Mur f (Mur e (Mur d (Mur c (Mur b (Mur a h))))))).

(** The loop over the bytes [i ... len - 1]. *)
Fixpoint hash32_bytes buf s (n : nat) (i b c : Z) : option (Z * Z) :=
  match n with
  | O => Some (b, c)
  | S n =>
      x ← rd 1 (s + i) buf;
      let b := b *₃₂ c1 +₃₂ signed8 x in
      hash32_bytes buf s n (i + 1) b (c ⊕ b)
  end.

Definition Hash32Len0to4 buf s len : option Z :=
  '(b, c) ← hash32_bytes buf s (Z.to_nat len) 0 0 9;
  Some (fmix (Mur b (Mur (u32 len) c))).

Definition Hash32Len5to12 buf s len : option Z :=
  let a := u32 len in let b := u32 (len * 5) in let c := 9 in let d := b in
  x ← Fetch32 buf s;
  let a := a +₃₂ x in
  x ← Fetch32 buf (s + len - 4);
  let b := b +₃₂ x in
  x ← Fetch32 buf (s + Z.land (Z.shiftr len 1) 4);
  let c := c +₃₂ x in
  Some (fmix (Mur c (Mur b (Mur a d)))).

(** The lines [h ^= x; h = Rotate32(h, 19); h = h * 5 + 0xe6546b64]. *)
Definition mix32 h x (shift : Z) : Z := Rotate32 (h ⊕ x) shift *₃₂ 5 +₃₂ 0xe6546b64.

(** The body of the loop over 20 bytes, with [(f, g, h)]. *)
Definition hash32_step buf s (st : Z * Z * Z) : option (Z * Z * Z) :=
  let '(f, g, h) := st in
  x ← Fetch32 buf s; let a0 := Rotate32 (x *₃₂ c1) 17 *₃₂ c2 in
  a1 ← Fetch32 buf (s + 4);
  x ← Fetch32 buf (s + 8); let a2 := Rotate32 (x *₃₂ c1) 17 *₃₂ c2 in
  x ← Fetch32 buf (s + 12); let a3 := Rotate32 (x *₃₂ c1) 17 *₃₂ c2 in
  a4 ← Fetch32 buf (s + 16);
  let h := mix32 h a0 18 in
  let f := f +₃₂ a1 in
  let f := Rotate32 f 19 in
  let f := f *₃₂ c1 in
  let g := g +₃₂ a2 in
  let g := Rotate32 g 18 in
  let g := g *₃₂ 5 +₃₂ 0xe6546b64 in
  let h := mix32 h (a3 +₃₂ a1) 19 in
  let g := g ⊕ a4 in
  let g := bswap_32 g *₃₂ 5 in
  let h := h +₃₂ a4 *₃₂ 5 in
  let h := bswap_32 h in
  let f := f +₃₂ a0 in
  (* PERMUTE3(f, h, g) *)
  let '(f, h) := (h, f) in let '(f, g) := (g, f) in
  Some (f, g, h).

(** [do ... while (--iters != 0)] *)
Fixpoint hash32_loop buf (iters : nat) s (st : Z * Z * Z) : option (Z * Z * Z) :=
  match iters with
  | O => None
  | S iters =>
      st ← hash32_step buf s st;
      match iters with O => Some st | S _ => hash32_loop buf iters (s + 20) st end
  end.

Definition CityHash32 buf s len : option Z :=
  if len <=? 24 then
    if len <=? 12 then
      if len <=? 4 then Hash32Len0to4 buf s len else Hash32Len5to12 buf s len
    else Hash32Len13to24 buf s len
  else
    let h := u32 len in let g := u32 (c1 * len) in let f := g in
    x ← Fetch32 buf (s + len - 4); let a0 := Rotate32 (x *₃₂ c1) 17 *₃₂ c2 in
    x ← Fetch32 buf (s + len - 8); let a1 := Rotate32 (x *₃₂ c1) 17 *₃₂ c2 in
    x ← Fetch32 buf (s + len - 16); let a2 := Rotate32 (x *₃₂ c1) 17 *₃₂ c2 in
    x ← Fetch32 buf (s + len - 12); let a3 := Rotate32 (x *₃₂ c1) 17 *₃₂ c2 in
    x ← Fetch32 buf (s + len - 20); let a4 := Rotate32 (x *₃₂ c1) 17 *₃₂ c2 in
    let h := mix32 h a0 19 in
    let h := mix32 h a2 19 in
    let g := mix32 g a1 19 in
    let g := mix32 g a3 19 in
    let f := f +₃₂ a4 in
    let f := Rotate32 f 19 in
    let f := f *₃₂ 5 +₃₂ 0xe6546b64 in
    let iters := (len - 1) / 20 in
    '(f, g, h) ← hash32_loop buf (Z.to_nat iters) s (f, g, h);
    let g := Rotate32 g 11 *₃₂ c1 in
    let g := Rotate32 g 17 *₃₂ c1 in
    let f := Rotate32 f 11 *₃₂ c1 in
    let f := Rotate32 f 17 *₃₂ c1 in
    let h := Rotate32 (h +₃₂ g) 19 in
    let h := h *₃₂ 5 +₃₂ 0xe6546b64 in
    let h := Rotate32 h 17 *₃₂ c1 in
    let h := Rotate32 (h +₃₂ f) 19 in
    let h := h *₃₂ 5 +₃₂ 0xe6546b64 in
    let h := Rotate32 h 17 *₃₂ c1 in
    Some h.

(** ** 64 bits *)

Definition Rotate (val shift : Z) : Z :=
  if shift =? 0 then val else Z.lor (Z.shiftr val shift) (u64 (Z.shiftl val (64 - shift))).

Definition ShiftMix (val : Z) : Z := val ⊕ Z.shiftr val 47.

(** The overload with three arguments; [Hash128to64] has the same lines. *)
Definition HashLen16_mul u v mul : Z :=
  let a := (u ⊕ v) *₆₄ mul in
  let a := a ⊕ Z.shiftr a 47 in
  let b := (v ⊕ a) *₆₄ mul in
  let b := b ⊕ Z.shiftr b 47 in
  b *₆₄ mul.

Definition kMul : Z := 0x9ddfea08eb382d69.

Definition Hash128to64 (x : uint128) : Z :=
  let a := (Uint128Low64 x ⊕ Uint128High64 x) *₆₄ kMul in
  let a := a ⊕ Z.shiftr a 47 in
  let b := (Uint128High64 x ⊕ a) *₆₄ kMul in
  let b := b ⊕ Z.shiftr b 47 in
  b *₆₄ kMul.

Definition HashLen16 u v : Z := Hash128to64 (u, v).

Definition HashLen0to16 buf s len : option Z :=
  if 8 <=? len then
    let mul := k2 +₆₄ len *₆₄ 2 in
    x ← Fetch64 buf s; let a := x +₆₄ k2 in
    b ← Fetch64 buf (s + len - 8);
    let c := Rotate b 37 *₆₄ mul +₆₄ a in
    let d := (Rotate a 25 +₆₄ b) *₆₄ mul in
    Some (HashLen16_mul c d mul)
  else if 4 <=? len then
    let mul := k2 +₆₄ len *₆₄ 2 in
    a ← Fetch32 buf s;
    x ← Fetch32 buf (s + len - 4);
    Some (HashLen16_mul (len +₆₄ u64 (Z.shiftl a 3)) x mul)
  else if 0 <? len then
    a ← rd 1 s buf;
    b ← rd 1 (s + Z.shiftr len 1) buf;
    c ← rd 1 (s + (len - 1)) buf;
    let y := a +₃₂ u32 (Z.shiftl b 8) in
    let z := u32 (len + u32 (Z.shiftl c 2)) in
    Some (ShiftMix (y *₆₄ k2 ⊕ z *₆₄ k0) *₆₄ k2)
  else Some k2.

Definition HashLen17to32 buf s len : option Z :=
  let mul := k2 +₆₄ len *₆₄ 2 in
  x ← Fetch64 buf s; let a := x *₆₄ k1 in
  b ← Fetch64 buf (s + 8);
  x ← Fetch64 buf (s + len - 8); let c := x *₆₄ mul in
  x ← Fetch64 buf (s + len - 16); let d := x *₆₄ k2 in
  Some (HashLen16_mul (Rotate (a +₆₄ b) 43 +₆₄ Rotate c 30 +₆₄ d) (a +₆₄ Rotate (b +₆₄ k2) 18 +₆₄ c) mul).

(** The overload with the four words, and the one with a pointer. *)
Definition WeakHashLen32WithSeeds_words w x y z a b : uint128 :=
  let a := a +₆₄ w in
  let b := Rotate (b +₆₄ a +₆₄ z) 21 in
  let c := a in
  let a := a +₆₄ x in
  let a := a +₆₄ y in
  let b := b +₆₄ Rotate a 44 in
  (a +₆₄ z, b +₆₄ c).

Definition WeakHashLen32WithSeeds buf s a b : option uint128 :=
  w ← Fetch64 buf s; x ← Fetch64 buf (s + 8); y ← Fetch64 buf (s + 16); z ← Fetch64 buf (s + 24);
  Some (WeakHashLen32WithSeeds_words w x y z a b).

Definition HashLen33to64 buf s len : option Z :=
  let mul := k2 +₆₄ len *₆₄ 2 in
  x ← Fetch64 buf s; let a := x *₆₄ k2 in
  b ← Fetch64 buf (s + 8);
  c ← Fetch64 buf (s + len - 24);
  d ← Fetch64 buf (s + len - 32);
  x ← Fetch64 buf (s + 16); let e := x *₆₄ k2 in
  x ← Fetch64 buf (s + 24); let f := x *₆₄ 9 in
  g ← Fetch64 buf (s + len - 8);
  x ← Fetch64 buf (s + len - 16); let h := x *₆₄ mul in
  let u := Rotate (a +₆₄ g) 43 +₆₄ (Rotate b 30 +₆₄ c) *₆₄ 9 in
  let v := ((a +₆₄ g) ⊕ d) +₆₄ f +₆₄ 1 in
  let w := bswap_64 ((u +₆₄ v) *₆₄ mul) +₆₄ h in
  let x := Rotate (e +₆₄ f) 42 +₆₄ c in
  let y := (bswap_64 ((v +₆₄ w) *₆₄ mul) +₆₄ g) *₆₄ mul in
  let z := e +₆₄ f +₆₄ c in
  let a := bswap_64 ((x +₆₄ z) *₆₄ mul +₆₄ y) +₆₄ b in
  let b := ShiftMix ((z +₆₄ a) *₆₄ mul +₆₄ d +₆₄ h) *₆₄ mul in
  Some (b +₆₄ x).

(** The 56 bytes of state of the loops over 64 bytes. *)
Record city_state := mk_city { cv : uint128; cw : uint128; cx : Z; cy : Z; cz : Z }.

(** The body of the loop of [CityHash64], which the loop of
    [CityHash128WithSeed] has twice. *)
Definition city_step buf s (st : city_state) : option city_state :=
  let '(mk_city v w x y z) := st in
  r ← Fetch64 buf (s + 8);
  let x := Rotate (x +₆₄ y +₆₄ v.1 +₆₄ r) 37 *₆₄ k1 in
  r ← Fetch64 buf (s + 48);
  let y := Rotate (y +₆₄ v.2 +₆₄ r) 42 *₆₄ k1 in
  let x := x ⊕ w.2 in
  r ← Fetch64 buf (s + 40);
  let y := y +₆₄ (v.1 +₆₄ r) in
  let z := Rotate (z +₆₄ w.1) 33 *₆₄ k1 in
  v ← WeakHashLen32WithSeeds buf s (v.2 *₆₄ k1) (x +₆₄ w.1);
  r ← Fetch64 buf (s + 16);
  w ← WeakHashLen32WithSeeds buf (s + 32) (z +₆₄ w.2) (y +₆₄ r);
  let '(z, x) := (x, z) in
  Some (mk_city v w x y z).

(** [do ... while (len != 0)]; [fuel] is the number of chunks. *)
Fixpoint city64_loop buf (fuel : nat) s len (st : city_state) : option city_state :=
  match fuel with
  | O => None
  | S fuel =>
      st ← city_step buf s st;
      let s := s + 64 in
      let len := len -₆₄ 64 in
      if len =? 0 then Some st else city64_loop buf fuel s len st
  end.

Definition CityHash64 buf s len : option Z :=
  if len <=? 32 then
    if len <=? 16 then HashLen0to16 buf s len else HashLen17to32 buf s len
  else if len <=? 64 then HashLen33to64 buf s len
  else
    x ← Fetch64 buf (s + len - 40);
    r ← Fetch64 buf (s + len - 16); r' ← Fetch64 buf (s + len - 56);
    let y := r +₆₄ r' in
    r ← Fetch64 buf (s + len - 48); r' ← Fetch64 buf (s + len - 24);
    let z := HashLen16 (r +₆₄ len) r' in
    v ← WeakHashLen32WithSeeds buf (s + len - 64) len z;
    w ← WeakHashLen32WithSeeds buf (s + len - 32) (y +₆₄ k1) x;
    r ← Fetch64 buf s;
    let x := x *₆₄ k1 +₆₄ r in
    let len := Z.ldiff (len - 1) 63 in
    '(mk_city v w x y z) ← city64_loop buf (Z.to_nat (len / 64)) s len (mk_city v w x y z);
    Some (HashLen16 (HashLen16 v.1 w.1 +₆₄ ShiftMix y *₆₄ k1 +₆₄ z) (HashLen16 v.2 w.2 +₆₄ x)).

Definition CityHash64WithSeeds buf s len (seed0 seed1 : Z) : option Z :=
  x ← CityHash64 buf s len;
  Some (HashLen16 (x -₆₄ seed0) seed1).

Definition CityHash64WithSeed buf s len seed : option Z := CityHash64WithSeeds buf s len k2 seed.

(** ** 128 bits *)

(** The loop of [CityMurmur] over 16 bytes; [l] is a [signed long]. *)
Fixpoint murmur_loop buf (fuel : nat) s (l : Z) (st : Z * Z * Z * Z) : option (Z * Z * Z * Z) :=
  match fuel with
  | O => None
  | S fuel =>
      let '(a, b, c, d) := st in
      r ← Fetch64 buf s;
      let a := a ⊕ ShiftMix (r *₆₄ k1) *₆₄ k1 in
      let a := a *₆₄ k1 in
      let b := b ⊕ a in
      r ← Fetch64 buf (s + 8);
      let c := c ⊕ ShiftMix (r *₆₄ k1) *₆₄ k1 in
      let c := c *₆₄ k1 in
      let d := d ⊕ c in
      let s := s + 16 in
      let l := l - 16 in
      if 0 <? l then murmur_loop buf fuel s l (a, b, c, d) else Some (a, b, c, d)
  end.

Definition CityMurmur buf s len (seed : uint128) : option uint128 :=
  let a := Uint128Low64 seed in
  let b := Uint128High64 seed in
  let l := len - 16 in
  '(a, b, c, d) ←
    (if l <=? 0 then
       let a := ShiftMix (a *₆₄ k1) *₆₄ k1 in
       r ← HashLen0to16 buf s len;
       let c := b *₆₄ k1 +₆₄ r in
       r ← (if 8 <=? len then Fetch64 buf s else Some c);
       let d := ShiftMix (a +₆₄ r) in
       Some (a, b, c, d)
     else
       r ← Fetch64 buf (s + len - 8);
       let c := HashLen16 (r +₆₄ k1) a in
       r ← Fetch64 buf (s + len - 16);
       let d := HashLen16 (b +₆₄ len) (c +₆₄ r) in
       let a := a +₆₄ d in
       murmur_loop buf (Z.to_nat ((l + 15) / 16)) s l (a, b, c, d));
  let a := HashLen16 a c in
  let b := HashLen16 d b in
  Some (a ⊕ b, HashLen16 b a).

(** [do ... while (len >= 128)], which returns [s] and what is left of [len]. *)
Fixpoint city128_loop buf (fuel : nat) s len (st : city_state) : option (Z * Z * city_state) :=
  match fuel with
  | O => None
  | S fuel =>
      st ← city_step buf s st;
      let s := s + 64 in
      st ← city_step buf s st;
      let s := s + 64 in
      let len := len -₆₄ 128 in
      if 128 <=? len then city128_loop buf fuel s len st else Some (s, len, st)
  end.

(** The chunks of 32 bytes from the end of [s]. *)
Fixpoint city128_tail buf (fuel : nat) s len (tail_done : Z) (st : city_state) : option city_state :=
  if tail_done <? len then
    match fuel with
    | O => None
    | S fuel =>
        let '(mk_city v w x y z) := st in
        let tail_done := tail_done +₆₄ 32 in
        let y := Rotate (x +₆₄ y) 42 *₆₄ k0 +₆₄ v.2 in
        r ← Fetch64 buf (s + len - tail_done + 16);
        let w := (w.1 +₆₄ r, w.2) in
        let x := x *₆₄ k0 +₆₄ w.1 in
        r ← Fetch64 buf (s + len - tail_done);
        let z := z +₆₄ (w.2 +₆₄ r) in
        let w := (w.1, w.2 +₆₄ v.1) in
        v ← WeakHashLen32WithSeeds buf (s + len - tail_done) (v.1 +₆₄ z) v.2;
        let v := (v.1 *₆₄ k0, v.2) in
        city128_tail buf fuel s len tail_done (mk_city v w x y z)
    end
  else Some st.

Definition CityHash128WithSeed buf s len (seed : uint128) : option uint128 :=
  if len <? 128 then CityMurmur buf s len seed
  else
    let x := Uint128Low64 seed in
    let y := Uint128High64 seed in
    let z := len *₆₄ k1 in
    r ← Fetch64 buf s;
    let v1 := Rotate (y ⊕ k1) 49 *₆₄ k1 +₆₄ r in
    r ← Fetch64 buf (s + 8);
    let v2 := Rotate v1 42 *₆₄ k1 +₆₄ r in
    let w1 := Rotate (y +₆₄ z) 35 *₆₄ k1 +₆₄ x in
    r ← Fetch64 buf (s + 88);
    let w2 := Rotate (x +₆₄ r) 53 *₆₄ k1 in
    '(s, len, mk_city v w x y z) ← city128_loop buf (Z.to_nat (len / 128)) s len (mk_city (v1, v2) (w1, w2) x y z);
    let x := x +₆₄ Rotate (v.1 +₆₄ z) 49 *₆₄ k0 in
    let y := y *₆₄ k0 +₆₄ Rotate w.2 37 in
    let z := z *₆₄ k0 +₆₄ Rotate w.1 27 in
    let w := (w.1 *₆₄ 9, w.2) in
    let v := (v.1 *₆₄ k0, v.2) in
    '(mk_city v w x y z) ← city128_tail buf 4 s len 0 (mk_city v w x y z);
    let x := HashLen16 x v.1 in
    let y := HashLen16 (y +₆₄ z) w.1 in
    Some (HashLen16 (x +₆₄ v.2) w.2 +₆₄ y, HashLen16 (x +₆₄ w.2) (y +₆₄ v.2)).

Definition CityHash128 buf s len : option uint128 :=
  if 16 <=? len then
    r ← Fetch64 buf s; r' ← Fetch64 buf (s + 8);
    CityHash128WithSeed buf (s + 16) (len - 16) (r, r' +₆₄ k0)
  else CityHash128WithSeed buf s len (k0, k1).

(** ** The results are words *)

Lemma in_u_land n x : 0 ≤ n → in_u n x ↔ Z.land x (Z.ones n) = x.
Proof.
  intros Hn. rewrite Z.land_ones by done. unfold in_u. split; [apply Z.mod_small|intros <-].
  apply Z.mod_pos_bound. lia.
Qed.

Lemma lxor_in n x y : 0 ≤ n → in_u n x → in_u n y → in_u n (x ⊕ y).
Proof.
  intros Hn. rewrite !in_u_land by done. intros Hx Hy.
  rewrite <-Hx, <-Hy at 2. apply Z.bits_inj'. intros i _. rewrite Z.land_spec, !Z.lxor_spec, !Z.land_spec.
  by destruct (Z.testbit x i), (Z.testbit y i), (Z.testbit _ i).
Qed.

Lemma shiftr_in n x k : 0 ≤ k → in_u n x → in_u n (Z.shiftr x k).
Proof.
  unfold in_u. intros Hk [H1 H2]. rewrite Z.shiftr_div_pow2 by done. split; [apply Z.div_pos; lia|].
  apply Z.le_lt_trans with x; [|done]. apply Z.div_le_upper_bound; [lia|]. assert (1 ≤ 2 ^ k) by lia. nia.
Qed.

Lemma u64_in x : in_u 64 (u64 x).
Proof. by apply wrap_range. Qed.
Lemma u32_word x : in_u 32 (u32 x).
Proof. by apply wrap_range. Qed.
#[local] Hint Resolve u64_in u32_word : core.

Lemma fmix_in h : in_u 32 (fmix h).
Proof. unfold fmix. apply lxor_in; [done|done|]. by apply shiftr_in. Qed.
Lemma HashLen16_in u v : in_u 64 (HashLen16 u v).
Proof. unfold HashLen16, Hash128to64. done. Qed.
Lemma HashLen16_mul_in u v mul : in_u 64 (HashLen16_mul u v mul).
Proof. unfold HashLen16_mul. done. Qed.
#[local] Hint Resolve fmix_in HashLen16_in HashLen16_mul_in : core.

(** ** Every read is inside of the buffer *)

Definition defined {A} (o : option A) (P : A → Prop) : Prop := ∃ r : A, o = Some r ∧ P r.

Lemma defined_some {A} (a : A) (P : A → Prop) : P a → defined (Some a) P.
Proof. intros H. by exists a. Qed.
Lemma defined_bind {A B} (o : option A) (k : A → option B) (P : A → Prop) (Q : B → Prop) :
  defined o P → (∀ r : A, P r → defined (k r) Q) → defined (o ≫= k) Q.
Proof. intros (r & -> & Hr) Hk. by apply Hk. Qed.

Section reads.
Context (buf : list byte).

Lemma defined_rd {B} (n : nat) p (k : Z → option B) (Q : B → Prop) :
  0 ≤ p → p + Z.of_nat n ≤ blen buf → (∀ x, defined (k x) Q) → defined (rd n p buf ≫= k) Q.
Proof. intros H1 H2 Hk. unfold rd. rewrite decide_True by (unfold blen in H2; lia). apply Hk. Qed.

Lemma defined_weak {B} s a b (k : uint128 → option B) (Q : B → Prop) :
  0 ≤ s → s + 32 ≤ blen buf → (∀ r : uint128, defined (k r) Q) → defined (WeakHashLen32WithSeeds buf s a b ≫= k) Q.
Proof.
  intros H1 H2 Hk. unfold WeakHashLen32WithSeeds, Fetch64. eapply defined_bind.
  - do 4 (apply defined_rd; [lia..|intros ?]). apply (defined_some _ (λ _, True)). done.
  - intros a' _. apply Hk.
Qed.

(** Goes through the reads; their bounds are left to [lia]. *)
#[local] Ltac reads := unfold Fetch64, Fetch32; cbv zeta; repeat (cbv beta zeta; lazymatch goal with
  | |- defined (rd _ _ _ ≫= _) _ => apply defined_rd; [lia|lia|intros ?]
  | |- defined (WeakHashLen32WithSeeds _ _ _ _ ≫= _) _ => apply defined_weak; [lia|lia|intros ?]
  end).

Lemma shiftr_half len : Z.shiftr len 1 = len / 2.
Proof using Type. by rewrite Z.shiftr_div_pow2. Qed.

Lemma half_and_4 len : 5 ≤ len ≤ 12 → 0 ≤ Z.land (Z.shiftr len 1) 4 ≤ len - 4.
Proof using Type.
  intros H. assert (len = 5 ∨ len = 6 ∨ len = 7 ∨ len = 8 ∨ len = 9 ∨ len = 10 ∨ len = 11 ∨ len = 12) as Hl by lia.
  by destruct_or! Hl; subst len.
Qed.

#[local] Ltac word := apply defined_some; by auto.

Lemma hash32_bytes_reads s n i b c : 0 ≤ s + i → s + i + Z.of_nat n ≤ blen buf →
  defined (hash32_bytes buf s n i b c) (λ _, True).
Proof using Type.
  revert i b c. induction n as [|n IH]; intros i b c H1 H2; [by apply defined_some|]. cbn [hash32_bytes].
  reads. apply IH; lia.
Qed.

Lemma hash32_step_reads s st : 0 ≤ s → s + 20 ≤ blen buf → defined (hash32_step buf s st) (λ _, True).
Proof using Type. destruct st as [[f g] h]. intros. unfold hash32_step. reads. by apply defined_some. Qed.

Lemma hash32_loop_reads iters s st : (0 < iters)%nat → 0 ≤ s → s + 20 * Z.of_nat iters ≤ blen buf →
  defined (hash32_loop buf iters s st) (λ _, True).
Proof using Type.
  revert s st. induction iters as [|iters IH]; intros s st H0 H1 H2; [lia|]. cbn [hash32_loop].
  eapply defined_bind; [apply hash32_step_reads; lia|]. intros st' _. destruct iters as [|iters]; [by apply defined_some|].
  apply IH; lia.
Qed.

Lemma city_step_reads s st : 0 ≤ s → s + 64 ≤ blen buf → defined (city_step buf s st) (λ _, True).
Proof using Type. destruct st. intros. unfold city_step. reads. by apply defined_some. Qed.

Lemma city64_loop_reads fuel s len st : (0 < fuel)%nat → 0 ≤ s → len = 64 * Z.of_nat fuel → len < 2 ^ 64 →
  s + len ≤ blen buf → defined (city64_loop buf fuel s len st) (λ _, True).
Proof using Type.
  revert s len st. induction fuel as [|fuel IH]; intros s len st H0 H1 -> H3 H4; [lia|]. cbn [city64_loop]. cbv zeta.
  eapply defined_bind; [apply city_step_reads; lia|]. intros st' _. rewrite (wrap_small 64) by lia.
  destruct (Z.eqb_spec (64 * Z.of_nat (S fuel) - 64) 0) as [|Hne]; [by apply defined_some|]. apply IH; lia.
Qed.

Lemma HashLen0to16_reads s len : 0 ≤ s → 0 ≤ len → s + len ≤ blen buf → defined (HashLen0to16 buf s len) (in_u 64).
Proof using Type.
  intros. unfold HashLen0to16. rewrite ?shiftr_half. destruct (Z.leb_spec 8 len); [reads; word|].
  destruct (Z.leb_spec 4 len); [reads; word|]. destruct (Z.ltb_spec 0 len); [|word].
  assert (0 ≤ len / 2 < len) by (split; [apply Z.div_pos; lia|apply Z.div_lt_upper_bound; lia]).
  reads. word.
Qed.

Lemma murmur_loop_reads fuel s l st : 0 ≤ s → 0 < l ≤ 16 * Z.of_nat fuel → s + l + 16 ≤ blen buf →
  defined (murmur_loop buf fuel s l st) (λ _, True).
Proof using Type.
  revert s l st. induction fuel as [|fuel IH]; intros s l [[[a b] c] d] H1 H2 H3; [lia|]. cbn [murmur_loop]. reads.
  destruct (Z.ltb_spec 0 (l - 16)); [|by apply defined_some]. apply IH; lia.
Qed.

Lemma city128_loop_reads fuel s len st : (0 < fuel)%nat → 0 ≤ s → 128 * Z.of_nat fuel ≤ len < 128 * (Z.of_nat fuel + 1) → len < 2 ^ 64 →
  s + len ≤ blen buf → defined (city128_loop buf fuel s len st)
    (λ r, let '(s', len', _) := r in s + 128 ≤ s' ∧ 0 ≤ len' < 128 ∧ s' + len' = s + len).
Proof using Type.
  revert s len st. induction fuel as [|fuel IH]; intros s len st H0 H1 H2 H3 H4; [lia|]. cbn [city128_loop]. cbv zeta.
  eapply defined_bind; [apply city_step_reads; lia|]. intros st1 _.
  eapply defined_bind; [apply city_step_reads; lia|]. intros st2 _. rewrite (wrap_small 64) by lia.
  destruct (Z.leb_spec 128 (len - 128)).
  - destruct (IH (s + 64 + 64) (len - 128) st2) as ([[s' len'] st'] & -> & H5); [lia..|]. apply defined_some. lia.
  - apply defined_some. lia.
Qed.

Lemma city128_tail_reads fuel s len tail st : tail = 128 - 32 * Z.of_nat fuel → 0 ≤ tail → len < 128 → 128 ≤ s → s + len ≤ blen buf →
  0 ≤ len → defined (city128_tail buf fuel s len tail st) (λ _, True).
Proof using Type.
  revert tail st. induction fuel as [|fuel IH]; intros tail [v w x y z] -> H1 H2 H3 H4 H5; cbn [city128_tail];
    match goal with |- context [?t <? len] => destruct (Z.ltb_spec t len); [|by apply defined_some] end; [lia|].
  rewrite (wrap_small 64) by lia. reads. apply IH; lia.
Qed.

Lemma CityHash32_reads s len : 0 ≤ s → 0 ≤ len → s + len ≤ blen buf → defined (CityHash32 buf s len) (in_u 32).
Proof using Type.
  intros Hs Hl Hb. unfold CityHash32, Hash32Len0to4, Hash32Len5to12, Hash32Len13to24. rewrite ?shiftr_half.
  destruct (Z.leb_spec len 24); [destruct (Z.leb_spec len 12); [destruct (Z.leb_spec len 4)|]|].
  - eapply defined_bind; [apply hash32_bytes_reads; lia|]. intros [b c] _. word.
  - pose proof (half_and_4 len ltac:(lia)). rewrite shiftr_half in *. reads. word.
  - assert (6 ≤ len / 2 ≤ len - 6) by (split; [apply Z.div_le_lower_bound; lia|apply Z.div_le_upper_bound; lia]). reads. word.
  - reads. assert (1 ≤ (len - 1) / 20) by (apply Z.div_le_lower_bound; lia).
    pose proof (Z.mul_div_le (len - 1) 20 ltac:(lia)).
    eapply defined_bind; [apply hash32_loop_reads; lia|]. intros [[f g] h] _. word.
Qed.

Lemma CityHash64_reads s len : 0 ≤ s → 0 ≤ len < 2 ^ 63 → s + len ≤ blen buf → defined (CityHash64 buf s len) (in_u 64).
Proof using Type.
  intros Hs Hl Hb. unfold CityHash64.
  destruct (Z.leb_spec len 32); [destruct (Z.leb_spec len 16)|destruct (Z.leb_spec len 64)].
  - apply HashLen0to16_reads; lia.
  - unfold HashLen17to32. reads. word.
  - unfold HashLen33to64. reads. word.
  - reads. assert (Z.ldiff (len - 1) 63 = 64 * ((len - 1) / 64)) as ->.
    { change 63 with (Z.ones 6). rewrite Z.ldiff_ones_r, Z.shiftl_mul_pow2, Z.shiftr_div_pow2 by lia. apply Z.mul_comm. }
    assert (1 ≤ (len - 1) / 64) by (apply Z.div_le_lower_bound; lia). pose proof (Z.mul_div_le (len - 1) 64 ltac:(lia)).
    eapply defined_bind; [apply city64_loop_reads; rewrite ?(Z.mul_comm 64), ?Z.div_mul; lia|]. intros [] _. word.
Qed.

Lemma CityHash64WithSeeds_reads s len seed0 seed1 : 0 ≤ s → 0 ≤ len < 2 ^ 63 → s + len ≤ blen buf →
  defined (CityHash64WithSeeds buf s len seed0 seed1) (in_u 64).
Proof using Type.
  intros Hs Hl Hb. unfold CityHash64WithSeeds. eapply defined_bind; [by apply CityHash64_reads|]. intros x _. word.
Qed.

Definition is_uint128 (x : uint128) : Prop := in_u 64 x.1 ∧ in_u 64 x.2.

Lemma CityMurmur_reads s len (seed : uint128) : 0 ≤ s → 0 ≤ len → s + len ≤ blen buf → defined (CityMurmur buf s len seed) is_uint128.
Proof using Type.
  intros Hs Hl Hb. unfold CityMurmur. cbv zeta. eapply (defined_bind _ _ (λ _, True)).
  - destruct (Z.leb_spec (len - 16) 0).
    + eapply defined_bind; [apply HashLen0to16_reads; lia|]. intros r _. eapply (defined_bind _ _ (λ _, True)).
      * destruct (Z.leb_spec 8 len); [|by apply (defined_some _ (λ _, True))]. unfold Fetch64, rd.
        rewrite decide_True by (unfold blen in Hb; lia). by apply (defined_some _ (λ _, True)).
      * intros r' _. by apply (defined_some _ (λ _, True)).
    + reads. apply murmur_loop_reads; [lia| |lia]. assert (0 ≤ (len - 16 + 15) / 16) by (apply Z.div_pos; lia).
      pose proof (Z_div_mod_eq_full (len - 16 + 15) 16). pose proof (Z.mod_pos_bound (len - 16 + 15) 16 ltac:(lia)). lia.
  - intros [[[a b] c] d] _. apply defined_some. split; [by apply lxor_in|apply HashLen16_in].
Qed.

Lemma CityHash128WithSeed_reads s len (seed : uint128) : 0 ≤ s → 0 ≤ len < 2 ^ 63 → s + len ≤ blen buf →
  defined (CityHash128WithSeed buf s len seed) is_uint128.
Proof using Type.
  intros Hs Hl Hb. unfold CityHash128WithSeed. destruct (Z.ltb_spec len 128); [apply CityMurmur_reads; lia|]. reads.
  assert (1 ≤ len / 128) by (apply Z.div_le_lower_bound; lia).
  pose proof (Z_div_mod_eq_full len 128). pose proof (Z.mod_pos_bound len 128 ltac:(lia)).
  eapply defined_bind; [apply city128_loop_reads; lia|]. intros [[s' len'] []] (? & ? & ?).
  eapply defined_bind; [apply city128_tail_reads; lia|]. intros [] _. apply defined_some. split; [by apply u64_in|apply HashLen16_in].
Qed.

Lemma CityHash128_reads s len : 0 ≤ s → 0 ≤ len < 2 ^ 63 → s + len ≤ blen buf → defined (CityHash128 buf s len) is_uint128.
Proof using Type.
  intros Hs Hl Hb. unfold CityHash128. destruct (Z.leb_spec 16 len); [reads|]; apply CityHash128WithSeed_reads; lia.
Qed.
End reads.

(** ** The bytes around the string do not matter

    [o ⊑ o']: what the first one computes, the second one computes too. *)

Definition below {A} (o o' : option A) : Prop := ∀ r : A, o = Some r → o' = Some r.

Lemma below_refl {A} (o : option A) : below o o.
Proof. by intros r. Qed.
Lemma below_bind {A B} (o o' : option A) (k k' : A → option B) :
  below o o' → (∀ r : A, below (k r) (k' r)) → below (o ≫= k) (o' ≫= k').
Proof. intros Ho Hk r. destruct o as [q|]; [|done]. rewrite (Ho q eq_refl). apply Hk. Qed.

Section moved.
Context (pre str post : list byte).
#[local] Abbreviation buf := (pre ++ str ++ post).
#[local] Abbreviation d := (blen pre).

Lemma rd_moved (n : nat) p q : q = p + d → below (rd n p str) (rd n q buf).
Proof using Type.
  intros -> r. unfold rd. destruct (decide _) as [[H1 H2]|]; [|done]. intros [= <-].
  rewrite decide_True by (unfold blen; rewrite !length_app; lia). f_equal. f_equal.
  replace (Z.to_nat (p + d)) with (length pre + Z.to_nat p)%nat by (unfold blen; lia).
  rewrite <-drop_drop, drop_app_length, drop_app_le, take_app_le; [done|rewrite length_drop; lia|lia].
Qed.

#[local] Ltac moved tac := cbv zeta; repeat (cbv beta zeta; lazymatch goal with
  | |- below (Some _) _ => apply below_refl
  | |- below None _ => apply below_refl
  | |- below (Fetch64 _ _) _ => apply rd_moved; lia
  | |- below (Fetch32 _ _) _ => apply rd_moved; lia
  | |- below (rd _ _ _) _ => apply rd_moved; lia
  | |- below (_ ≫= _) _ => apply below_bind; [|intros ?]
  | |- below (if ?b then _ else _) _ => destruct b
  | |- below (let '(_, _) := ?x in _) _ => destruct x
  | |- below (match ?x with _ => _ end) _ => destruct x
  | |- below _ _ => tac
  end).

Lemma weak_moved s t a b : t = s + d → below (WeakHashLen32WithSeeds str s a b) (WeakHashLen32WithSeeds buf t a b).
Proof using Type. intros ->. unfold WeakHashLen32WithSeeds. moved fail. Qed.

Lemma hash32_bytes_moved n s t i b c : t = s + d → below (hash32_bytes str s n i b c) (hash32_bytes buf t n i b c).
Proof using Type.
  intros ->. revert i b c. induction n as [|n IH]; intros i b c; cbn [hash32_bytes]; moved ltac:(apply IH).
Qed.

Lemma hash32_loop_moved n s t st : t = s + d → below (hash32_loop str n s st) (hash32_loop buf n t st).
Proof using Type.
  revert s t st. induction n as [|n IH]; intros s t st ->; cbn [hash32_loop]; [done|]. unfold hash32_step.
  destruct st as [[f g] h]. moved ltac:(apply IH; lia).
Qed.

Lemma city_step_moved s t st : t = s + d → below (city_step str s st) (city_step buf t st).
Proof using Type. intros ->. destruct st. unfold city_step. moved ltac:(apply weak_moved; lia). Qed.

Lemma city64_loop_moved n s t len st : t = s + d → below (city64_loop str n s len st) (city64_loop buf n t len st).
Proof using Type.
  revert s t len st. induction n as [|n IH]; intros s t len st ->; cbn [city64_loop]; [done|].
  moved ltac:(first [apply city_step_moved; lia | apply IH; lia]).
Qed.

Lemma HashLen0to16_moved s t len : t = s + d → below (HashLen0to16 str s len) (HashLen0to16 buf t len).
Proof using Type. intros ->. unfold HashLen0to16. moved fail. Qed.

Lemma murmur_loop_moved n s t l st : t = s + d → below (murmur_loop str n s l st) (murmur_loop buf n t l st).
Proof using Type.
  revert s t l st. induction n as [|n IH]; intros s t l st ->; cbn [murmur_loop]; [done|].
  destruct st as [[[a b] c] e]. moved ltac:(apply IH; lia).
Qed.

Lemma CityMurmur_moved s t len (seed : uint128) : t = s + d → below (CityMurmur str s len seed) (CityMurmur buf t len seed).
Proof using Type.
  intros ->. unfold CityMurmur. moved ltac:(first [apply HashLen0to16_moved; lia | apply murmur_loop_moved; lia]).
Qed.

Lemma city128_tail_moved n s t len tail st : t = s + d → below (city128_tail str n s len tail st) (city128_tail buf n t len tail st).
Proof using Type.
  intros ->. revert tail st. induction n as [|n IH]; intros tail st; cbn [city128_tail];
    moved ltac:(first [apply weak_moved; lia | apply IH]).
Qed.

Lemma city128_loop_moved n s t len st : t = s + d →
  ∀ s' len' st', city128_loop str n s len st = Some (s', len', st') → city128_loop buf n t len st = Some (s' + d, len', st').
Proof using Type.
  revert s t len st. induction n as [|n IH]; intros s t len st -> s' len' st'; cbn [city128_loop]; [done|]. cbv zeta.
  destruct (city_step str s st) as [st1|] eqn:E1; [|done]. rewrite (city_step_moved s _ st eq_refl st1 E1). cbn.
  destruct (city_step str (s + 64) st1) as [st2|] eqn:E2; [|done].
  rewrite (city_step_moved (s + 64) (s + d + 64) st1 ltac:(lia) st2 E2). cbn. destruct (128 <=? _).
  - apply IH. lia.
  - intros [= <- <- <-]. f_equal. f_equal. f_equal. lia.
Qed.

Lemma CityHash32_moved s t len : t = s + d → below (CityHash32 str s len) (CityHash32 buf t len).
Proof using Type.
  intros ->. unfold CityHash32, Hash32Len0to4, Hash32Len5to12, Hash32Len13to24.
  moved ltac:(first [apply hash32_bytes_moved; lia | apply hash32_loop_moved; lia]).
Qed.

Lemma CityHash64_moved s t len : t = s + d → below (CityHash64 str s len) (CityHash64 buf t len).
Proof using Type.
  intros ->. unfold CityHash64, HashLen17to32, HashLen33to64.
  moved ltac:(first [apply HashLen0to16_moved; lia | apply weak_moved; lia | apply city64_loop_moved; lia]).
Qed.

Lemma CityHash64WithSeeds_moved s t len seed0 seed1 : t = s + d →
  below (CityHash64WithSeeds str s len seed0 seed1) (CityHash64WithSeeds buf t len seed0 seed1).
Proof using Type. intros ->. unfold CityHash64WithSeeds. moved ltac:(apply CityHash64_moved; lia). Qed.

Lemma CityHash128WithSeed_moved s t len (seed : uint128) : t = s + d →
  below (CityHash128WithSeed str s len seed) (CityHash128WithSeed buf t len seed).
Proof using Type.
  intros ->. unfold CityHash128WithSeed. destruct (len <? 128); [by apply CityMurmur_moved|]. cbv zeta.
  do 3 (apply below_bind; [apply rd_moved; lia|intros ?]). intros res.
  match goal with |- context [city128_loop str ?n s ?l ?st] => destruct (city128_loop str n s l st) as [[[s' len'] st']|] eqn:E; [|done];
    rewrite (city128_loop_moved n s (s + d) l st eq_refl _ _ _ E) end. cbn [mbind option_bind]. destruct st'. revert res.
  apply below_bind; [by apply city128_tail_moved|]. intros []. apply below_refl.
Qed.

Lemma CityHash128_moved s t len : t = s + d → below (CityHash128 str s len) (CityHash128 buf t len).
Proof using Type. intros ->. unfold CityHash128. moved ltac:(apply CityHash128WithSeed_moved; lia). Qed.
End moved.

(** CityHash hashes a string wherever it lies: for every string of less than
    2^63 bytes, at any place of a buffer, each function reads only bytes of the
    string, its loops end, and its result is a word of its width that depends on
    the bytes (and the seeds) only. *)
Theorem city_hashes_strings pre str post (seed0 seed1 : Z) (seed : uint128) : blen str < 2 ^ 63 →
  let buf := pre ++ str ++ post in let s := blen pre in let len := blen str in
  (∃ h, in_u 32 h ∧ CityHash32 str 0 len = Some h ∧ CityHash32 buf s len = Some h) ∧
  (∃ h, in_u 64 h ∧ CityHash64 str 0 len = Some h ∧ CityHash64 buf s len = Some h) ∧
  (∃ h, in_u 64 h ∧ CityHash64WithSeeds str 0 len seed0 seed1 = Some h ∧ CityHash64WithSeeds buf s len seed0 seed1 = Some h) ∧
  (∃ h : uint128, is_uint128 h ∧ CityHash128 str 0 len = Some h ∧ CityHash128 buf s len = Some h) ∧
  (∃ h : uint128, is_uint128 h ∧ CityHash128WithSeed str 0 len seed = Some h ∧ CityHash128WithSeed buf s len seed = Some h).
Proof.
  intros Hmax buf s len. pose proof (blen_nonneg str) as Hlen.
  destruct (CityHash32_reads str 0 len) as (h1 & E1 & H1); [unfold len in *; lia..|].
  destruct (CityHash64_reads str 0 len) as (h2 & E2 & H2); [unfold len in *; lia..|].
  destruct (CityHash64WithSeeds_reads str 0 len seed0 seed1) as (h3 & E3 & H3); [unfold len in *; lia..|].
  destruct (CityHash128_reads str 0 len) as (h4 & E4 & H4); [unfold len in *; lia..|].
  destruct (CityHash128WithSeed_reads str 0 len seed) as (h5 & E5 & H5); [unfold len in *; lia..|].
  split_and!; [exists h1|exists h2|exists h3|exists h4|exists h5]; (split; [done|]; split; [done|]).
  - by apply (CityHash32_moved pre str post 0 s).
  - by apply (CityHash64_moved pre str post 0 s).
  - by apply (CityHash64WithSeeds_moved pre str post 0 s).
  - by apply (CityHash128_moved pre str post 0 s).
  - by apply (CityHash128WithSeed_moved pre str post 0 s).
Qed.

Lemma city_hashes_strings_witness :
  let str := [x61; x62; x63] in
  (∃ h, in_u 64 h ∧ CityHash64 str 0 3 = Some h ∧ CityHash64 ([x00] ++ str ++ [x00; x00]) 1 3 = Some h).
Proof. exact (proj1 (proj2 (city_hashes_strings [x00] [x61; x62; x63] [x00; x00] 0 0 (0, 0) ltac:(done)))). Defined.

(** ** Seeds *)

(** Multiplication by an odd constant can be undone. *)
Lemma mul_word_inj n mul x y : 0 ≤ n → Z.gcd (2 ^ n) mul = 1 → in_u n x → in_u n y → wrap n (x * mul) = wrap n (y * mul) → x = y.
Proof.
  intros Hn Hgcd Hx Hy E. unfold wrap, in_u in *.
  assert ((2 ^ n | mul * (x - y))) as Hd.
  { apply Z.mod_divide; [lia|]. replace (mul * (x - y)) with (x * mul - y * mul) by lia.
    rewrite Zminus_mod, E, Z.sub_diag. by apply Z.mod_0_l; lia. }
  apply Z.gauss in Hd as [q Hq]; [|done]. revert Hx Hy Hq. generalize (2 ^ n). intros m Hx Hy Hq.
  assert (q = 0) by nia. nia.
Qed.

Lemma sub_word_inj n x y z : 0 ≤ n → in_u n x → in_u n y → wrap n (x - z) = wrap n (y - z) → x = y.
Proof.
  intros Hn Hx Hy E. apply (mul_word_inj n 1); [done|by rewrite Z.gcd_1_r|done..|]. rewrite !Z.mul_1_r.
  replace x with (x - z + z) by lia. replace y with (y - z + z) by lia. unfold wrap in *.
  by rewrite <-(Zplus_mod_idemp_l (x - z)), <-(Zplus_mod_idemp_l (y - z)), E.
Qed.

Lemma lxor_inj z x y : z ⊕ x = z ⊕ y → x = y.
Proof. intros E. rewrite <-(Z.lxor_0_l x), <-(Z.lxor_0_l y), <-(Z.lxor_nilpotent z), !Z.lxor_assoc. by rewrite E. Qed.

Lemma ShiftMix_twice x : in_u 64 x → ShiftMix (ShiftMix x) = x.
Proof.
  intros Hx. unfold ShiftMix. rewrite Z.shiftr_lxor, Z.shiftr_shiftr by lia.
  assert (Z.shiftr x (47 + 47) = 0) as ->.
  { rewrite Z.shiftr_div_pow2 by lia. apply Z.div_small. unfold in_u in Hx. lia. }
  by rewrite Z.lxor_0_r, Z.lxor_assoc, Z.lxor_nilpotent, Z.lxor_0_r.
Qed.

Lemma ShiftMix_inj x y : in_u 64 x → in_u 64 y → ShiftMix x = ShiftMix y → x = y.
Proof. intros Hx Hy E. by rewrite <-(ShiftMix_twice x), <-(ShiftMix_twice y), E. Qed.

Definition mixed x : Z := ShiftMix (x *₆₄ kMul).

Lemma kMul_inj x y : in_u 64 x → in_u 64 y → x *₆₄ kMul = y *₆₄ kMul → x = y.
Proof. by apply mul_word_inj. Qed.
Lemma mixed_in x : in_u 64 (mixed x).
Proof. apply lxor_in; [done|done|]. by apply shiftr_in. Qed.
Lemma mixed_inj x y : in_u 64 x → in_u 64 y → mixed x = mixed y → x = y.
Proof. intros Hx Hy E. apply kMul_inj; [done..|]. by apply ShiftMix_inj. Qed.

(** For one second word, the combination of two words is a bijection. *)
Lemma HashLen16_inj v x y : in_u 64 v → in_u 64 x → in_u 64 y → HashLen16 x v = HashLen16 y v → x = y.
Proof.
  intros Hv Hx Hy E. change (mixed (v ⊕ mixed (x ⊕ v)) *₆₄ kMul = mixed (v ⊕ mixed (y ⊕ v)) *₆₄ kMul) in E.
  pose proof mixed_in as Hin. apply kMul_inj in E; [|done..].
  apply mixed_inj, lxor_inj, mixed_inj in E; [|by apply lxor_in..].
  rewrite (Z.lxor_comm x), (Z.lxor_comm y) in E. by apply lxor_inj in E.
Qed.

(** A seed does not separate strings: two strings have the same
    [CityHash64] exactly when they have the same [CityHash64WithSeeds], whatever
    the seeds. *)
Theorem seeds_keep_collisions str str' (seed0 seed1 : Z) : blen str < 2 ^ 63 → blen str' < 2 ^ 63 → in_u 64 seed1 →
  CityHash64WithSeeds str 0 (blen str) seed0 seed1 = CityHash64WithSeeds str' 0 (blen str') seed0 seed1 ↔
  CityHash64 str 0 (blen str) = CityHash64 str' 0 (blen str').
Proof.
  intros H1 H2 Hs. unfold CityHash64WithSeeds. pose proof (blen_nonneg str). pose proof (blen_nonneg str').
  destruct (CityHash64_reads str 0 (blen str)) as (x & -> & Hx); [lia..|].
  destruct (CityHash64_reads str' 0 (blen str')) as (y & -> & Hy); [lia..|]. cbn. split; [|by intros [= ->]].
  intros [= E]. apply HashLen16_inj in E; [|done..]. f_equal. by eapply (sub_word_inj 64); [|..|exact E].
Qed.

Lemma seeds_keep_collisions_witness :
  (CityHash64WithSeeds [x61] 0 1 7 9 = CityHash64WithSeeds [] 0 0 7 9 ↔ CityHash64 [x61] 0 1 = CityHash64 [] 0 0) ∧
  CityHash64 [x61] 0 1 ≠ CityHash64 [] 0 0.
Proof. split; [exact (seeds_keep_collisions [x61] [] 7 9 eq_refl eq_refl ltac:(done))|]. by vm_compute. Defined.

(** ** The tests of city-test.cc

    [setup] fills the data, [Test] compares the hashes of a part of it with what
    is expected. *)

Fixpoint setup (n : nat) i a b : list byte :=
  match n with
  | O => []
  | S n =>
      let a := a +₆₄ b in
      let b := b +₆₄ a in
      let a := (a ⊕ Z.shiftr a 41) *₆₄ k0 in
      let b := (b ⊕ Z.shiftr b 41) *₆₄ k0 +₆₄ i in
      byte.of_Z (u8 (Z.shiftr b 37)) :: setup n (i + 1) a b
  end.

Definition data (n : nat) : list byte := setup n 0 9 777.

Definition kSeed0 : Z := 1234567.
Definition kSeed1 : Z := k0.
Definition kSeed128 : uint128 := (kSeed0, kSeed1).

(** The hashes that [Test] compares. *)
Definition Test_hashes buf (offset len : Z) : option (list Z) :=
  u ← CityHash128 buf offset len;
  v ← CityHash128WithSeed buf offset len kSeed128;
  e0 ← CityHash64 buf offset len;
  e15 ← CityHash32 buf offset len;
  e1 ← CityHash64WithSeed buf offset len kSeed0;
  e2 ← CityHash64WithSeeds buf offset len kSeed0 kSeed1;
  Some [e0; e1; e2; Uint128Low64 u; Uint128High64 u; Uint128Low64 v; Uint128High64 v; e15].

Definition Test (expected : list Z) buf (offset len : Z) : bool := bool_decide (Test_hashes buf offset len = Some expected).

(** Some of the tests of [testdata]: those of the lengths 0 to 9 and 17, without
    the columns of the CRC functions. *)
Definition testdata : list (Z * list Z) :=
  [(0, [0x9ae16a3b2f90404f; 0x75106db890237a4a; 0x3feac5f636039766; 0x3df09dfc64c09a2b; 0x3cb540c392e51e29; 0x6b56343feac0663; 0x5b7bc50fd8e8ad92; 0xdc56d17a]);
   (1, [0x541150e87f415e96; 0x1aef0d24b3148a1a; 0xbacc300e1e82345a; 0xc3cdc41e1df33513; 0x2c138ff2596d42f6; 0xf58e9082aed3055f; 0x162e192b2957163d; 0x99929334]);
   (2, [0xf3786a4b25827c1; 0x34ee1a2bf767bd1c; 0x2f15ca2ebfb631f2; 0x3149ba1dac77270d; 0x70e2e076e30703c; 0x59bcc9659bc5296; 0x9ecbc8132ae2f1d7; 0x4252edb7]);
   (3, [0xef923a7a1af78eab; 0x79163b1e1e9a9b18; 0xdf3b2aca6e1e4a30; 0x2193fb7620cbf23b; 0x8b6a8ff06cda8302; 0x1a44469afd3e091f; 0x8b0449376612506; 0xebc34f3c]);
   (4, [0x11df592596f41d88; 0x843ec0bce9042f9c; 0xcce2ea1e08b1eb30; 0x4d09e42f09cc3495; 0x666236631b9f253b; 0xd28b3763cd02b6a3; 0x43b249e57c4d0c1b; 0x26f2b463]);
   (5, [0x831f448bdc5600b3; 0x62a24be3120a6919; 0x1b44098a41e010da; 0xdc07df53b949c6b; 0xd2b11b2081aeb002; 0xd212b02c1b13f772; 0xc0bed297b4be1912; 0xb042c047]);
   (6, [0x3eca803e70304894; 0xd80de767e4a920a; 0xa51cfbb292efd53d; 0xd183dcda5f73edfa; 0x3a93cbf40f30128c; 0x1a92544d0b41dbda; 0xaec2c4bee81975e1; 0xe73bb0a8]);
   (7, [0x1b5a063fb4c7f9f1; 0x318dbc24af66dee9; 0x10ef7b32d5c719af; 0xb140a02ef5c97712; 0xb7d00ef065b51b33; 0x635121d532897d98; 0x532daf21b312a6d6; 0x91dfdd75]);
   (8, [0xa0f10149a0e538d6; 0x69d008c20f87419f; 0x41b36376185b3e9e; 0x26b6689960ccf81d; 0x55f23b27bb9efd94; 0x3a17f6166dd765db; 0xc891a8a62931e782; 0xc87f95de]);
   (9, [0xfb8d9c70660b910b; 0xa45b0cc3476bff1b; 0xb28d1996144f0207; 0x98ec31113e5e35d2; 0x5e4aeb853f1b9aa7; 0xbcf5c8fe4465b7c8; 0xb1ea3a8243996f15; 0x3f5538ef]);
   (17, [0x6abbfde37ee03b5b; 0x83febf188d2cc113; 0xcda7b62d94d5b8ee; 0xa4375590b8ae7c82; 0x168fd42f9ecae4ff; 0x23bbde43de2cb214; 0xa8c333112a243c8c; 0xb6b06e40])].

Example tests_pass : (let d := data 306 in forallb (λ '(i, expected), Test expected d (i * i) i) testdata) = true.
Proof. by vm_compute. Qed.
