(* ===== verification/CityCrc.v ===== *)
(** * The CRC functions of CityHash

    The part of [city.cc] that is compiled for SSE 4.2, declared in
    [citycrc.h].  The instruction [_mm_crc32_u64] is a parameter; [crc32c] is
    what the processor documents for it, for the tests. *)
From Stdlib Require Import Init.Byte.
From S2P Require Import Prelude Bytes City.
From coqutil Require Import Byte.

Implicit Types (buf : list byte) (s len seed : Z).

#[local] Notation "x +₆₄ y" := (u64 (x + y)) (at level 50, left associativity).
#[local] Notation "x *₆₄ y" := (u64 (x * y)) (at level 40, left associativity).
#[local] Notation "x ⊕ y" := (Z.lxor x y) (at level 52, left associativity).

(** The words of [CityHashCrc256Long]. *)
Record crc_state := mk_crc {
  ca : Z; cb : Z; cc : Z; cd : Z; ce : Z; cf : Z; cg : Z; ch : Z; crx : Z; cry : Z; crz : Z
}.

(** [PERMUTE3(p, q, r)]: swaps [p] and [q], then [p] and [r]; the result is the
    new [(p, q, r)]. *)
Definition PERMUTE3 (p q r : Z) : Z * Z * Z := let '(p, q) := (q, p) in let '(p, r) := (r, p) in (p, q, r).

(** The permutations between the chunks, by the words they permute. *)
Definition permute_ahc (st : crc_state) : crc_state :=
  let '(mk_crc a b c d e f g h x y z) := st in let '(a, h, c) := PERMUTE3 a h c in mk_crc a b c d e f g h x y z.
Definition permute_ahf (st : crc_state) : crc_state :=
  let '(mk_crc a b c d e f g h x y z) := st in let '(a, h, f) := PERMUTE3 a h f in mk_crc a b c d e f g h x y z.
Definition permute_bhf (st : crc_state) : crc_state :=
  let '(mk_crc a b c d e f g h x y z) := st in let '(b, h, f) := PERMUTE3 b h f in mk_crc a b c d e f g h x y z.
Definition permute_bhd (st : crc_state) : crc_state :=
  let '(mk_crc a b c d e f g h x y z) := st in let '(b, h, d) := PERMUTE3 b h d in mk_crc a b c d e f g h x y z.
Definition permute_bhe (st : crc_state) : crc_state :=
  let '(mk_crc a b c d e f g h x y z) := st in let '(b, h, e) := PERMUTE3 b h e in mk_crc a b c d e f g h x y z.
Definition permute_ahe (st : crc_state) : crc_state :=
  let '(mk_crc a b c d e f g h x y z) := st in let '(a, h, e) := PERMUTE3 a h e in mk_crc a b c d e f g h x y z.
Definition permute_chg (st : crc_state) : crc_state :=
  let '(mk_crc a b c d e f g h x y z) := st in let '(c, h, g) := PERMUTE3 c h g in mk_crc a b c d e f g h x y z.

Section crc.
Context (mm_crc32_u64 : Z → Z → Z).

(** [CHUNK(r)]; the caller adds 40 to [s]. *)
Definition CHUNK buf s (r : Z) (st : crc_state) : option crc_state :=
  let '(mk_crc a b c d e f g h x y z) := st in
  let '(x, z, y) := PERMUTE3 x z y in
  v ← Fetch64 buf s; let b := b +₆₄ v in
  v ← Fetch64 buf (s + 8); let c := c +₆₄ v in
  v ← Fetch64 buf (s + 16); let d := d +₆₄ v in
  v ← Fetch64 buf (s + 24); let e := e +₆₄ v in
  v ← Fetch64 buf (s + 32); let f := f +₆₄ v in
  let a := a +₆₄ b in
  let h := h +₆₄ f in
  let b := b +₆₄ c in
  let f := f +₆₄ d in
  let g := g +₆₄ e in
  let e := e +₆₄ z in
  let g := g +₆₄ x in
  let z := mm_crc32_u64 z (b +₆₄ g) in
  let y := mm_crc32_u64 y (e +₆₄ h) in
  let x := mm_crc32_u64 x (f +₆₄ a) in
  let e := Rotate e r in
  let c := c +₆₄ e in
  Some (mk_crc a b c d e f g h x y z).

(** The body of the loop over 240 bytes. *)
Definition crc_240 buf s (st : crc_state) : option crc_state :=
  st ← CHUNK buf s 0 st; let st := permute_ahc st in
  st ← CHUNK buf (s + 40) 33 st; let st := permute_ahf st in
  st ← CHUNK buf (s + 80) 0 st; let st := permute_bhf st in
  st ← CHUNK buf (s + 120) 42 st; let st := permute_bhd st in
  st ← CHUNK buf (s + 160) 0 st; let st := permute_bhe st in
  st ← CHUNK buf (s + 200) 33 st; Some (permute_ahe st).

(** [do ... while (--iters > 0)] *)
Fixpoint crc_loop buf (iters : nat) s (st : crc_state) : option (Z * crc_state) :=
  match iters with
  | O => None
  | S iters =>
      st ← crc_240 buf s st;
      match iters with O => Some (s + 240, st) | S _ => crc_loop buf iters (s + 240) st end
  end.

(** What follows a chunk in [while (len >= 40)]. *)
Definition mix_rest (st : crc_state) : crc_state :=
  let '(mk_crc a b c d e f g h x y z) := st in
  let e := e ⊕ Rotate a 20 in
  let h := h +₆₄ Rotate b 30 in
  let g := g ⊕ Rotate c 40 in
  let f := f +₆₄ Rotate d 34 in
  permute_chg (mk_crc a b c d e f g h x y z).

(** [while (len >= 40)], which returns [s] and what is left of [len]. *)
Fixpoint crc_rest buf (fuel : nat) s len (st : crc_state) : option (Z * Z * crc_state) :=
  if 40 <=? len then
    match fuel with
    | O => None
    | S fuel =>
        st ← CHUNK buf s 29 st;
        crc_rest buf fuel (s + 40) (len - 40) (mix_rest st)
    end
  else Some (s, len, st).

(** The last bytes, with the ones before them. *)
Definition crc_last buf s len (st : crc_state) : option crc_state :=
  if 0 <? len then
    st ← CHUNK buf (s + len - 40) 33 st;
    let '(mk_crc a b c d e f g h x y z) := st in
    let e := e ⊕ Rotate a 43 in
    let h := h +₆₄ Rotate b 42 in
    let g := g ⊕ Rotate c 41 in
    let f := f +₆₄ Rotate d 40 in
    Some (mk_crc a b c d e f g h x y z)
  else Some st.

(** [result[0]] to [result[3]]. *)
Definition crc_result : Type := Z * Z * Z * Z.

Definition crc_finish (r0 r1 : Z) (st : crc_state) : crc_result :=
  let '(mk_crc a b c d e f g h x y z) := st in
  let r0 := r0 ⊕ h in
  let r1 := r1 ⊕ g in
  let g := g +₆₄ h in
  let a := HashLen16 a (g +₆₄ z) in
  let x := x +₆₄ u64 (Z.shiftl y 32) in
  let b := b +₆₄ x in
  let c := HashLen16 c z +₆₄ h in
  let d := HashLen16 d (e +₆₄ r0) in
  let g := g +₆₄ e in
  let h := h +₆₄ HashLen16 x f in
  let e := HashLen16 a d +₆₄ g in
  let z := HashLen16 b c +₆₄ a in
  let y := HashLen16 g h +₆₄ c in
  let r0 := e +₆₄ z +₆₄ y +₆₄ x in
  let a := ShiftMix ((a +₆₄ y) *₆₄ k0) *₆₄ k0 +₆₄ b in
  let r1 := r1 +₆₄ (a +₆₄ r0) in
  let a := ShiftMix (a *₆₄ k0) *₆₄ k0 +₆₄ c in
  let r2 := a +₆₄ r1 in
  let a := ShiftMix ((a +₆₄ e) *₆₄ k0) *₆₄ k0 in
  let r3 := a +₆₄ r2 in
  (r0, r1, r2, r3).

(** Requires [240 <= len]. *)
Definition CityHashCrc256Long buf s len seed : option crc_result :=
  v ← Fetch64 buf (s + 56); let a := v +₆₄ k0 in
  v ← Fetch64 buf (s + 96); let b := v +₆₄ k0 in
  let c := HashLen16 b len in let r0 := c in
  v ← Fetch64 buf (s + 120); let d := v *₆₄ k0 +₆₄ len in let r1 := d in
  v ← Fetch64 buf (s + 184); let e := v +₆₄ seed in
  let h := c +₆₄ d in
  let iters := len / 240 in
  let len := len - iters * 240 in
  '(s, st) ← crc_loop buf (Z.to_nat iters) s (mk_crc a b c d e 0 0 h seed 0 0);
  '(s, len, st) ← crc_rest buf 5 s len st;
  st ← crc_last buf s len st;
  Some (crc_finish r0 r1 st).

(** Requires [len < 240]. *)
Definition CityHashCrc256Short buf s len : option crc_result :=
  str ← rd_bytes len s buf;
  CityHashCrc256Long (str ++ pad (Z.to_nat (240 - len))) 0 240 (u32 (Z.lnot (u32 len))).

Definition CityHashCrc256 buf s len : option crc_result :=
  if 240 <=? len then CityHashCrc256Long buf s len 0 else CityHashCrc256Short buf s len.

Definition CityHashCrc128WithSeed buf s len (seed : uint128) : option uint128 :=
  if len <=? 900 then CityHash128WithSeed buf s len seed
  else
    '(r0, r1, r2, r3) ← CityHashCrc256 buf s len;
    let u := Uint128High64 seed +₆₄ r0 in
    let v := Uint128Low64 seed +₆₄ r1 in
    Some (HashLen16 u (v +₆₄ r2), HashLen16 (Rotate v 32) (u *₆₄ k0 +₆₄ r3)).

Definition CityHashCrc128 buf s len : option uint128 :=
  if len <=? 900 then CityHash128 buf s len
  else
    '(r0, r1, r2, r3) ← CityHashCrc256 buf s len;
    Some (r2, r3).
End crc.

(** ** The instruction, and the tests of city-test.cc *)

(** A bit of the reflected CRC-32C. *)
Definition crc32c_bit (c : Z) : Z := if Z.odd c then Z.shiftr c 1 ⊕ 0x82f63b78 else Z.shiftr c 1.

Definition crc32c (c v : Z) : Z := Nat.iter 64 crc32c_bit (u32 c ⊕ v).

(** The hashes that [Test] compares with the columns 7 to 14. *)
Definition Test_crc_hashes buf (offset len : Z) : option (list Z) :=
  y ← CityHashCrc128 crc32c buf offset len;
  z ← CityHashCrc128WithSeed crc32c buf offset len kSeed128;
  '(r0, r1, r2, r3) ← CityHashCrc256 crc32c buf offset len;
  Some [Uint128Low64 y; Uint128High64 y; Uint128Low64 z; Uint128High64 z; r0; r1; r2; r3].

(** ** Every read is inside of the string *)

Section reads.
Context (mm_crc32_u64 : Z → Z → Z) (buf : list byte).
#[local] Abbreviation CHUNK := (CHUNK mm_crc32_u64).

Lemma CHUNK_reads s r st : 0 ≤ s → s + 40 ≤ blen buf → defined (CHUNK buf s r st) (λ _, True).
Proof using Type.
  destruct st. intros. unfold CityCrc.CHUNK, Fetch64. cbn [PERMUTE3].
  do 5 (apply defined_rd; [lia|lia|intros ?]). by apply defined_some.
Qed.

Lemma crc_240_reads s st : 0 ≤ s → s + 240 ≤ blen buf → defined (crc_240 mm_crc32_u64 buf s st) (λ _, True).
Proof using Type.
  intros. unfold crc_240. do 6 (eapply defined_bind; [apply CHUNK_reads; lia|intros ? _]; cbv zeta). by apply defined_some.
Qed.

Lemma crc_loop_reads iters s st : (0 < iters)%nat → 0 ≤ s → s + 240 * Z.of_nat iters ≤ blen buf →
  defined (crc_loop mm_crc32_u64 buf iters s st) (λ r, r.1 = s + 240 * Z.of_nat iters).
Proof using Type.
  revert s st. induction iters as [|iters IH]; intros s st H0 H1 H2; [lia|]. cbn [crc_loop].
  eapply defined_bind; [apply crc_240_reads; lia|]. intros st' _. destruct iters as [|iters]; [by apply defined_some|].
  destruct (IH (s + 240) st') as (r & -> & E); [lia..|]. apply defined_some. lia.
Qed.

Lemma crc_rest_reads fuel s len st : 0 ≤ s → 0 ≤ len < 40 * (Z.of_nat fuel + 1) → s + len ≤ blen buf →
  defined (crc_rest mm_crc32_u64 buf fuel s len st)
    (λ r, let '(s', len', _) := r in s ≤ s' ∧ 0 ≤ len' < 40 ∧ s' + len' = s + len).
Proof using Type.
  revert s len st. induction fuel as [|fuel IH]; intros s len st H0 H1 H2; cbn [crc_rest];
    (destruct (Z.leb_spec 40 len); [|apply defined_some; lia]); [lia|].
  eapply defined_bind; [apply CHUNK_reads; lia|]. intros st' _.
  destruct (IH (s + 40) (len - 40) (mix_rest st')) as ([[s' len'] st''] & -> & H4); [lia..|]. apply defined_some. lia.
Qed.

Lemma crc_last_reads s len st : 40 ≤ s → 0 ≤ len < 40 → s + len ≤ blen buf →
  defined (crc_last mm_crc32_u64 buf s len st) (λ _, True).
Proof using Type.
  intros. unfold crc_last. destruct (0 <? len); [|by apply defined_some].
  eapply defined_bind; [apply CHUNK_reads; lia|]. intros [] _. by apply defined_some.
Qed.

Definition is_crc_result (r : crc_result) : Prop :=
  let '(r0, r1, r2, r3) := r in in_u 64 r0 ∧ in_u 64 r1 ∧ in_u 64 r2 ∧ in_u 64 r3.

Lemma crc_finish_words r0 r1 st : is_crc_result (crc_finish r0 r1 st).
Proof using Type. destruct st. cbn. split_and!; apply u64_in. Qed.

Lemma CityHashCrc256Long_reads s len seed : 0 ≤ s → 240 ≤ len → s + len ≤ blen buf →
  defined (CityHashCrc256Long mm_crc32_u64 buf s len seed) is_crc_result.
Proof using Type.
  intros Hs Hl Hb. unfold CityHashCrc256Long, Fetch64. do 4 (apply defined_rd; [lia|lia|intros ?]; cbv zeta).
  pose proof (Z_div_mod_eq_full len 240). pose proof (Z.mod_pos_bound len 240 ltac:(lia)).
  assert (1 ≤ len / 240) by (apply Z.div_le_lower_bound; lia).
  eapply defined_bind; [apply crc_loop_reads; lia|]. intros [s1 st1] Es1. simpl in Es1.
  eapply defined_bind; [apply crc_rest_reads; lia|]. intros [[s2 len2] st2] (? & ? & ?).
  eapply defined_bind; [apply crc_last_reads; lia|]. intros st3 _. apply defined_some, crc_finish_words.
Qed.
End reads.

Lemma rd_bytes_all (str : list byte) : rd_bytes (blen str) 0 str = Some str.
Proof. unfold rd_bytes, blen. rewrite decide_True by lia. rewrite Nat2Z.id. simpl. by rewrite firstn_all. Qed.

Lemma CityHashCrc256_reads mm str : defined (CityHashCrc256 mm str 0 (blen str)) is_crc_result.
Proof.
  pose proof (blen_nonneg str). unfold CityHashCrc256. destruct (Z.leb_spec 240 (blen str)).
  - apply CityHashCrc256Long_reads; lia.
  - unfold CityHashCrc256Short. rewrite rd_bytes_all. cbn [mbind option_bind].
    apply CityHashCrc256Long_reads; [lia..|]. rewrite blen_app, blen_pad. lia.
Qed.

(** ** The bytes around the string do not matter *)

Section moved.
Context (mm_crc32_u64 : Z → Z → Z) (pre str post : list byte).
#[local] Abbreviation buf := (pre ++ str ++ post).
#[local] Abbreviation d := (blen pre).

#[local] Ltac moved tac := cbv zeta; repeat (cbv beta zeta; lazymatch goal with
  | |- below (Some _) _ => apply below_refl
  | |- below None _ => apply below_refl
  | |- below (Fetch64 _ _) _ => apply rd_moved; lia
  | |- below (_ ≫= _) _ => apply below_bind; [|intros ?]
  | |- below (if ?b then _ else _) _ => destruct b
  | |- below (let '(_, _) := ?x in _) _ => destruct x
  | |- below (match ?x with _ => _ end) _ => destruct x
  | |- below _ _ => tac
  end).

Lemma CHUNK_moved s t r st : t = s + d → below (CHUNK mm_crc32_u64 str s r st) (CHUNK mm_crc32_u64 buf t r st).
Proof using Type. intros ->. destruct st. unfold CHUNK. cbn [PERMUTE3]. moved fail. Qed.

Lemma crc_240_moved s t st : t = s + d → below (crc_240 mm_crc32_u64 str s st) (crc_240 mm_crc32_u64 buf t st).
Proof using Type. intros ->. unfold crc_240. moved ltac:(apply CHUNK_moved; lia). Qed.

Lemma crc_loop_moved n s t st : t = s + d →
  ∀ s' st', crc_loop mm_crc32_u64 str n s st = Some (s', st') → crc_loop mm_crc32_u64 buf n t st = Some (s' + d, st').
Proof using Type.
  revert s t st. induction n as [|n IH]; intros s t st -> s' st'; cbn [crc_loop]; [done|].
  destruct (crc_240 _ str s st) as [st1|] eqn:E1; [|done]. rewrite (crc_240_moved s _ st eq_refl st1 E1).
  cbn [mbind option_bind]. destruct n as [|n].
  - intros [= <- <-]. f_equal. f_equal. lia.
  - apply IH. lia.
Qed.

Lemma crc_rest_moved n s t len st : t = s + d →
  ∀ s' len' st', crc_rest mm_crc32_u64 str n s len st = Some (s', len', st') →
    crc_rest mm_crc32_u64 buf n t len st = Some (s' + d, len', st').
Proof using Type.
  revert s t len st. induction n as [|n IH]; intros s t len st -> s' len' st'; cbn [crc_rest]; (destruct (40 <=? len);
    [|intros [= <- <- <-]; done]); [done|].
  destruct (CHUNK _ str s 29 st) as [st1|] eqn:E1; [|done]. rewrite (CHUNK_moved s _ 29 st eq_refl st1 E1).
  cbn [mbind option_bind]. apply IH. lia.
Qed.

Lemma crc_last_moved s t len st : t = s + d → below (crc_last mm_crc32_u64 str s len st) (crc_last mm_crc32_u64 buf t len st).
Proof using Type. intros ->. unfold crc_last. moved ltac:(apply CHUNK_moved; lia). Qed.

Lemma CityHashCrc256Long_moved s t len seed : t = s + d →
  below (CityHashCrc256Long mm_crc32_u64 str s len seed) (CityHashCrc256Long mm_crc32_u64 buf t len seed).
Proof using Type.
  intros ->. unfold CityHashCrc256Long. cbv zeta. do 4 (apply below_bind; [apply rd_moved; lia|intros ?]). intros res.
  match goal with |- context [crc_loop _ str ?n s ?st] => destruct (crc_loop mm_crc32_u64 str n s st) as [[s1 st1]|] eqn:E; [|done];
    rewrite (crc_loop_moved n s (s + d) st eq_refl _ _ E) end. cbn [mbind option_bind].
  match goal with |- context [crc_rest _ str ?n s1 ?l ?st] => destruct (crc_rest mm_crc32_u64 str n s1 l st) as [[[s2 len2] st2]|] eqn:E2; [|done];
    rewrite (crc_rest_moved n s1 (s1 + d) l st eq_refl _ _ _ E2) end. cbn [mbind option_bind]. revert res.
  apply below_bind; [by apply crc_last_moved|]. intros st3. apply below_refl.
Qed.

Lemma CityHashCrc256_moved : below (CityHashCrc256 mm_crc32_u64 str 0 (blen str)) (CityHashCrc256 mm_crc32_u64 buf d (blen str)).
Proof using Type.
  unfold CityHashCrc256. destruct (240 <=? blen str); [by apply CityHashCrc256Long_moved|].
  unfold CityHashCrc256Short. rewrite rd_bytes_all. rewrite (rd_bytes_at _ _ _ str); [apply below_refl|by exists pre, post|done].
Qed.
End moved.

(** C31. CityHash hashes a string wherever it lies: for every string of less than
    2^63 bytes, at any place of a buffer, each of its functions, with and without
    the CRC instruction, reads only bytes of the string, its loops end, and its
    result is a word (or words) of its width that depends on the bytes (and the
    seeds) only.  Nothing is assumed of the instruction. *)
Theorem all_city_hashes_strings mm_crc32_u64 pre str post (seed0 seed1 : Z) (seed : uint128) : blen str < 2 ^ 63 →
  let buf := pre ++ str ++ post in let s := blen pre in let len := blen str in
  ((∃ h, in_u 32 h ∧ CityHash32 str 0 len = Some h ∧ CityHash32 buf s len = Some h) ∧
   (∃ h, in_u 64 h ∧ CityHash64 str 0 len = Some h ∧ CityHash64 buf s len = Some h) ∧
   (∃ h, in_u 64 h ∧ CityHash64WithSeeds str 0 len seed0 seed1 = Some h ∧ CityHash64WithSeeds buf s len seed0 seed1 = Some h) ∧
   (∃ h : uint128, is_uint128 h ∧ CityHash128 str 0 len = Some h ∧ CityHash128 buf s len = Some h) ∧
   (∃ h : uint128, is_uint128 h ∧ CityHash128WithSeed str 0 len seed = Some h ∧ CityHash128WithSeed buf s len seed = Some h)) ∧
  (∃ r : crc_result, is_crc_result r ∧ CityHashCrc256 mm_crc32_u64 str 0 len = Some r ∧ CityHashCrc256 mm_crc32_u64 buf s len = Some r) ∧
  (∃ h : uint128, is_uint128 h ∧ CityHashCrc128 mm_crc32_u64 str 0 len = Some h ∧ CityHashCrc128 mm_crc32_u64 buf s len = Some h) ∧
  (∃ h : uint128, is_uint128 h ∧ CityHashCrc128WithSeed mm_crc32_u64 str 0 len seed = Some h ∧
    CityHashCrc128WithSeed mm_crc32_u64 buf s len seed = Some h).
Proof.
  intros Hmax buf s len. pose proof (blen_nonneg str). split; [by apply city_hashes_strings|].
  destruct (CityHashCrc256_reads mm_crc32_u64 str) as (r & E & Hr). pose proof (CityHashCrc256_moved mm_crc32_u64 pre str post r E) as E'.
  fold buf s len in E, E'. split; [by exists r|]. unfold CityHashCrc128, CityHashCrc128WithSeed.
  rewrite E, E'. destruct r as [[[r0 r1] r2] r3]. destruct Hr as (_ & _ & Hr2 & Hr3).
  destruct (len <=? 900); cbn [mbind option_bind].
  - split; [destruct (CityHash128_reads str 0 len) as (h & Eh & Hh)|destruct (CityHash128WithSeed_reads str 0 len seed) as (h & Eh & Hh)];
      try (unfold len; lia); exists h; (split; [done|split; [done|]]).
    + by apply (CityHash128_moved pre str post 0 s).
    + by apply (CityHash128WithSeed_moved pre str post 0 s).
  - split; eexists; (split; [|by split]); split; first [done|apply HashLen16_in].
Qed.

Lemma all_city_hashes_strings_witness :
  let str := [x61; x62; x63] in
  (∃ r : crc_result, is_crc_result r ∧ CityHashCrc256 crc32c str 0 3 = Some r ∧ CityHashCrc256 crc32c ([x00] ++ str ++ [x00; x00]) 1 3 = Some r).
Proof. exact (proj1 (proj2 (all_city_hashes_strings crc32c [x00] [x61; x62; x63] [x00; x00] 0 0 (0, 0) ltac:(done)))). Defined.

(** The columns of the CRC functions of one row of [testdata]. *)
Example crc_test_passes :
  Test_crc_hashes (take 3 (drop 9 (data 12))) 0 3 = Some
    [0x2193fb7620cbf23b; 0x8b6a8ff06cda8302; 0x1a44469afd3e091f; 0x8b0449376612506; 0xe9d9d41c32ad91d1; 0xb44ab09f58e3c608; 0x19e9175f9fcf784; 0x839b3c9581b4a480].
Proof. by vm_compute. Qed.
