(* ===== verification/PaxosWire.v ===== *)
(** * The messages of libpaxos2 and their bytes

    [paxos2/include/libpaxos_messages.h] and the checks of
    [paxos2/lib/udp_receiver.c].  A message is data ([paxos_msg]); its bytes
    are those of the C structures on a little-endian LP64 machine
    ([enc_data]), padding included.  The receiver's side reads the fields at
    their offsets in the receive buffer. *)
From Stdlib Require Import Init.Byte.
From S2P Require Import Prelude Bytes.

(** ** Configuration (paxos_config.h) *)

Definition MAX_N_OF_PROPOSERS : Z := 10.
Definition N_OF_ACCEPTORS : Z := 3.
Definition QUORUM : Z := N_OF_ACCEPTORS / 2 + 1.
Definition MAX_UDP_MSG_SIZE : Z := 7500.
Definition PAXOS_MAX_VALUE_SIZE : Z := MAX_UDP_MSG_SIZE - 40.

(** ** Sizes on LP64

    [paxos_msg] is 16 bytes long although its [data] starts at offset 12, so a
    packet ends with 4 bytes of the send buffer that mean nothing. *)
Definition sizeof_paxos_msg : Z := 16.
Definition data_offset : Z := 12.
Definition sizeof_prepare_req : Z := 8.
Definition sizeof_prepare_ack : Z := 24.
Definition sizeof_accept_req : Z := 16.
Definition sizeof_accept_ack : Z := 24.
Definition sizeof_batch : Z := 4.
Definition sizeof_iid : Z := 4.
Definition sizeof_leader_announce : Z := 2.
Definition sizeof_alive_ping : Z := 16.

(** ** Messages *)

Record prepare_req := mk_prepare_req { pr_iid : Z; pr_ballot : Z }.

Record prepare_ack := mk_prepare_ack {
  pa_iid : Z; pa_ballot : Z; pa_value_ballot : Z; pa_value : list byte
}.

Record accept_req := mk_accept_req { ar_iid : Z; ar_ballot : Z; ar_value : list byte }.

Record accept_ack := mk_accept_ack {
  aa_iid : Z; aa_ballot : Z; aa_value_ballot : Z; aa_is_final : Z; aa_value : list byte
}.

(** libpaxos_priv.h: the record an acceptor stores is an [accept_ack]. *)
Abbreviation acceptor_record := accept_ack.

(** A message with its batch header; the [count] of a batch is the length of
    its list and the sizes are those of the values. *)
Inductive paxos_msg :=
  | PrepareReqs (proposer_id : Z) (l : list prepare_req)
  | PrepareAcks (acceptor_id : Z) (l : list prepare_ack)
  | AcceptReqs (proposer_id : Z) (l : list accept_req)
  | AcceptAcks (acceptor_id : Z) (l : list accept_ack)
  | RepeatReqs (l : list Z)
  | Submit (value : list byte)
  | LeaderAnnounce (current_leader : Z)
  | AlivePing (proposer_id sequence_number : Z).

(** [paxos_msg_code] *)
Definition msg_type (m : paxos_msg) : Z :=
  match m with
  | PrepareReqs _ _ => 1
  | PrepareAcks _ _ => 2
  | AcceptReqs _ _ => 4
  | AcceptAcks _ _ => 8
  | RepeatReqs _ => 16
  | Submit _ => 32
  | LeaderAnnounce _ => 64
  | AlivePing _ _ => 65
  end.

Definition PREPARE_ACK_SIZE (pa : prepare_ack) : Z := blen (pa_value pa) + sizeof_prepare_ack.
Definition ACCEPT_REQ_SIZE (ar : accept_req) : Z := blen (ar_value ar) + sizeof_accept_req.
Definition ACCEPT_ACK_SIZE (aa : accept_ack) : Z := blen (aa_value aa) + sizeof_accept_ack.

Definition sum_sizes {A} (size : A → Z) (l : list A) : Z := foldr (λ x n, size x + n) 0 l.

(** [data_size] of a message. *)
Definition data_size_of (m : paxos_msg) : Z :=
  match m with
  | PrepareReqs _ l => sizeof_batch + Z.of_nat (length l) * sizeof_prepare_req
  | PrepareAcks _ l => sizeof_batch + sum_sizes PREPARE_ACK_SIZE l
  | AcceptReqs _ l => sizeof_batch + sum_sizes ACCEPT_REQ_SIZE l
  | AcceptAcks _ l => sizeof_batch + sum_sizes ACCEPT_ACK_SIZE l
  | RepeatReqs l => sizeof_batch + Z.of_nat (length l) * sizeof_iid
  | Submit v => blen v
  | LeaderAnnounce _ => sizeof_leader_announce
  | AlivePing _ _ => sizeof_alive_ping
  end.

Definition PAXOS_MSG_SIZE (m : paxos_msg) : Z := data_size_of m + sizeof_paxos_msg.

(** ** Bytes of a message *)

Definition enc_prepare_req (r : prepare_req) : list byte :=
  le_split 4 (pr_iid r) ++ le_split 4 (pr_ballot r).

Definition enc_prepare_ack (a : prepare_ack) : list byte :=
  le_split 4 (pa_iid a) ++ le_split 4 (pa_ballot a) ++ le_split 4 (pa_value_ballot a) ++
  pad 4 ++ le_split 8 (blen (pa_value a)) ++ pa_value a.

Definition enc_accept_req (r : accept_req) : list byte :=
  le_split 4 (ar_iid r) ++ le_split 4 (ar_ballot r) ++
  le_split 8 (blen (ar_value r)) ++ ar_value r.

Definition enc_accept_ack (a : accept_ack) : list byte :=
  le_split 4 (aa_iid a) ++ le_split 4 (aa_ballot a) ++ le_split 4 (aa_value_ballot a) ++
  le_split 2 (aa_is_final a) ++ pad 2 ++ le_split 8 (blen (aa_value a)) ++ aa_value a.

Definition enc_count {A} (l : list A) : list byte := le_split 2 (Z.of_nat (length l)).

Definition enc_data (m : paxos_msg) : list byte :=
  match m with
  | PrepareReqs id l => enc_count l ++ le_split 2 id ++ concat (map enc_prepare_req l)
  | PrepareAcks id l => le_split 2 id ++ enc_count l ++ concat (map enc_prepare_ack l)
  | AcceptReqs id l => enc_count l ++ le_split 2 id ++ concat (map enc_accept_req l)
  | AcceptAcks id l => le_split 2 id ++ enc_count l ++ concat (map enc_accept_ack l)
  | RepeatReqs l => enc_count l ++ pad 2 ++ concat (map (le_split 4) l)
  | Submit v => v
  | LeaderAnnounce id => le_split 2 id
  | AlivePing id n => le_split 2 id ++ pad 6 ++ le_split 8 n
  end.

(** The packet: header, data and the 4 bytes that follow the data. *)
Definition enc_msg (m : paxos_msg) (rest : list byte) : list byte :=
  le_split 8 (data_size_of m) ++ le_split 4 (msg_type m) ++ enc_data m ++ rest.

(** ** The size of a received batch *)

(** The loop of the three functions that compute the size of a batch whose
    items end with a value: [hdr] is the size of the item's header, the
    [value_size] field is at [vs]. *)
Fixpoint size_calc_loop (hdr vs : Z) (n : nat) (offset : Z) (buf : list byte) : option Z :=
  match n with
  | O => Some offset
  | S n =>
      v ← rd 8 (data_offset + sizeof_batch + offset + vs) buf;
      size_calc_loop hdr vs n (u64 (offset + u64 (v + hdr))) buf
  end.

Definition prepare_ack_batch_size_calc (count : Z) (buf : list byte) : option Z :=
  offset ← size_calc_loop sizeof_prepare_ack 16 (Z.to_nat count) 0 buf;
  Some (u64 (sizeof_batch + offset)).

Definition accept_req_batch_size_calc (count : Z) (buf : list byte) : option Z :=
  offset ← size_calc_loop sizeof_accept_req 8 (Z.to_nat count) 0 buf;
  Some (u64 (sizeof_batch + offset)).

Definition accept_ack_batch_size_calc (count : Z) (buf : list byte) : option Z :=
  offset ← size_calc_loop sizeof_accept_ack 16 (Z.to_nat count) 0 buf;
  Some (u64 (sizeof_batch + offset)).

(** [validate_paxos_msg]: [Some true] is the return value 0, [Some false] is
    -1.  The comparison with the expected size comes after the [default] case
    of the [switch] and is never reached; the sizes are computed all the same. *)
Definition validate_paxos_msg (buf : list byte) (msg_size : Z) : option bool :=
  ds ← rd 8 0 buf;
  ty ← rd 4 8 buf;
  if negb (u64 (ds + sizeof_paxos_msg) =? msg_size) then Some false
  else if ty =? 1 then
    count ← rd_short data_offset buf;
    id ← rd_short (data_offset + 2) buf;
    if (id <? 0) || (MAX_N_OF_PROPOSERS <=? id) then Some false
    else Some true
  else if ty =? 2 then
    id ← rd_short data_offset buf;
    count ← rd_short (data_offset + 2) buf;
    if (id <? 0) || (N_OF_ACCEPTORS <=? id) then Some false
    else _ ← prepare_ack_batch_size_calc count buf; Some true
  else if ty =? 4 then
    count ← rd_short data_offset buf;
    id ← rd_short (data_offset + 2) buf;
    if (id <? 0) || (MAX_N_OF_PROPOSERS <=? id) then Some false
    else _ ← accept_req_batch_size_calc count buf; Some true
  else if ty =? 8 then
    id ← rd_short data_offset buf;
    count ← rd_short (data_offset + 2) buf;
    if (id <? 0) || (N_OF_ACCEPTORS <=? id) then Some false
    else _ ← accept_ack_batch_size_calc count buf; Some true
  else if ty =? 16 then
    _ ← rd_short data_offset buf; Some true
  else Some ((ty =? 32) || (ty =? 64) || (ty =? 65)).

(** The loops of the message handlers over a batch: item [i] starts at
    [offset] of the batch's data and [size] gives where the next one starts. *)
Fixpoint dec_items {A} (dec : Z → list byte → option A) (size : A → Z)
    (n : nat) (offset : Z) (buf : list byte) : option (list A) :=
  match n with
  | O => Some []
  | S n =>
      x ← dec (data_offset + sizeof_batch + offset) buf;
      l ← dec_items dec size n (offset + size x) buf;
      Some (x :: l)
  end.

Definition dec_prepare_req (off : Z) (buf : list byte) : option prepare_req :=
  iid ← rd 4 off buf; b ← rd 4 (off + 4) buf; Some (mk_prepare_req iid b).

Definition dec_prepare_ack (off : Z) (buf : list byte) : option prepare_ack :=
  iid ← rd 4 off buf; b ← rd 4 (off + 4) buf; vb ← rd 4 (off + 8) buf;
  sz ← rd 8 (off + 16) buf; v ← rd_bytes sz (off + 24) buf;
  Some (mk_prepare_ack iid b vb v).

Definition dec_accept_req (off : Z) (buf : list byte) : option accept_req :=
  iid ← rd 4 off buf; b ← rd 4 (off + 4) buf;
  sz ← rd 8 (off + 8) buf; v ← rd_bytes sz (off + 16) buf;
  Some (mk_accept_req iid b v).

Definition dec_accept_ack (off : Z) (buf : list byte) : option accept_ack :=
  iid ← rd 4 off buf; b ← rd 4 (off + 4) buf; vb ← rd 4 (off + 8) buf;
  fin ← rd_short (off + 12) buf;
  sz ← rd 8 (off + 16) buf; v ← rd_bytes sz (off + 24) buf;
  Some (mk_accept_ack iid b vb fin v).

(** What the handlers see of a valid message in the receive buffer. *)
Definition dec_msg (buf : list byte) : option paxos_msg :=
  ds ← rd 8 0 buf;
  ty ← rd 4 8 buf;
  let items {A} (dec : Z → list byte → option A) size n := dec_items dec size (Z.to_nat n) 0 buf in
  if ty =? 1 then
    count ← rd_short data_offset buf; id ← rd_short (data_offset + 2) buf;
    PrepareReqs id <$> items dec_prepare_req (λ _, sizeof_prepare_req) count
  else if ty =? 2 then
    id ← rd_short data_offset buf; count ← rd_short (data_offset + 2) buf;
    PrepareAcks id <$> items dec_prepare_ack PREPARE_ACK_SIZE count
  else if ty =? 4 then
    count ← rd_short data_offset buf; id ← rd_short (data_offset + 2) buf;
    AcceptReqs id <$> items dec_accept_req ACCEPT_REQ_SIZE count
  else if ty =? 8 then
    id ← rd_short data_offset buf; count ← rd_short (data_offset + 2) buf;
    AcceptAcks id <$> items dec_accept_ack ACCEPT_ACK_SIZE count
  else if ty =? 16 then
    count ← rd_short data_offset buf;
    RepeatReqs <$> items (rd 4) (λ _, sizeof_iid) count
  else if ty =? 32 then Submit <$> rd_bytes ds data_offset buf
  else if ty =? 64 then LeaderAnnounce <$> rd_short data_offset buf
  else if ty =? 65 then
    id ← rd_short data_offset buf; n ← rd 8 (data_offset + 8) buf; Some (AlivePing id n)
  else None.

(** ** Reading what was written *)

(** Well-formed items: the fields fit their C types. *)
Definition prepare_req_ok (r : prepare_req) : Prop := in_u 32 (pr_iid r) ∧ in_u 32 (pr_ballot r).
Definition prepare_ack_ok (a : prepare_ack) : Prop :=
  in_u 32 (pa_iid a) ∧ in_u 32 (pa_ballot a) ∧ in_u 32 (pa_value_ballot a).
Definition accept_req_ok (r : accept_req) : Prop := in_u 32 (ar_iid r) ∧ in_u 32 (ar_ballot r).
Definition accept_ack_ok (a : accept_ack) : Prop :=
  in_u 32 (aa_iid a) ∧ in_u 32 (aa_ballot a) ∧ in_u 32 (aa_value_ballot a) ∧
  in_short (aa_is_final a).

Lemma dec_prepare_req_at off buf r :
  at_off buf off (enc_prepare_req r) → prepare_req_ok r → dec_prepare_req off buf = Some r.
Proof.
  destruct r as [iid b]. unfold enc_prepare_req, dec_prepare_req, prepare_req_ok; cbn.
  intros H (? & ?). cut_fields.
  rewrite (rd_at_small 4 off buf iid) by rd_field. cbn.
  by rewrite (rd_at_small 4 (off + 4) buf b) by rd_field.
Qed.

Lemma value_size_bound buf off l v :
  blen buf < 2 ^ 64 → at_off buf off (le_split 8 l) → l = blen v → ∀ o, at_off buf o v →
  0 ≤ l < 2 ^ (Z.of_nat 8 * 8).
Proof. intros Hb _ -> o Hv%at_off_bounds. pose proof (blen_nonneg v). lia. Qed.

Lemma dec_prepare_ack_at off buf a :
  blen buf < 2 ^ 64 → at_off buf off (enc_prepare_ack a) → prepare_ack_ok a →
  dec_prepare_ack off buf = Some a.
Proof.
  intros Hbuf. destruct a as [iid b vb v].
  unfold enc_prepare_ack, dec_prepare_ack, prepare_ack_ok; cbn.
  intros H (? & ? & ?). cut_fields.
  assert (0 ≤ blen v < 2 ^ (Z.of_nat 8 * 8)) by (eapply value_size_bound; eauto).
  rewrite (rd_at_small 4 off buf iid) by rd_field. cbn.
  rewrite (rd_at_small 4 (off + 4) buf b) by rd_field. cbn.
  rewrite (rd_at_small 4 (off + 8) buf vb) by rd_field. cbn.
  rewrite (rd_at_small 8 (off + 16) buf (blen v)) by rd_field. cbn.
  by rewrite (rd_bytes_at _ (off + 24) buf v) by rd_field.
Qed.

Lemma dec_accept_req_at off buf r :
  blen buf < 2 ^ 64 → at_off buf off (enc_accept_req r) → accept_req_ok r →
  dec_accept_req off buf = Some r.
Proof.
  intros Hbuf. destruct r as [iid b v].
  unfold enc_accept_req, dec_accept_req, accept_req_ok; cbn.
  intros H (? & ?). cut_fields.
  assert (0 ≤ blen v < 2 ^ (Z.of_nat 8 * 8)) by (eapply value_size_bound; eauto).
  rewrite (rd_at_small 4 off buf iid) by rd_field. cbn.
  rewrite (rd_at_small 4 (off + 4) buf b) by rd_field. cbn.
  rewrite (rd_at_small 8 (off + 8) buf (blen v)) by rd_field. cbn.
  by rewrite (rd_bytes_at _ (off + 16) buf v) by rd_field.
Qed.

Lemma dec_accept_ack_at off buf a :
  blen buf < 2 ^ 64 → at_off buf off (enc_accept_ack a) → accept_ack_ok a →
  dec_accept_ack off buf = Some a.
Proof.
  intros Hbuf. destruct a as [iid b vb fin v].
  unfold enc_accept_ack, dec_accept_ack, accept_ack_ok; cbn.
  intros H (? & ? & ? & ?). cut_fields.
  assert (0 ≤ blen v < 2 ^ (Z.of_nat 8 * 8)) by (eapply value_size_bound; eauto).
  rewrite (rd_at_small 4 off buf iid) by rd_field. cbn.
  rewrite (rd_at_small 4 (off + 4) buf b) by rd_field. cbn.
  rewrite (rd_at_small 4 (off + 8) buf vb) by rd_field. cbn.
  rewrite (rd_short_at (off + 12) buf fin) by rd_field. cbn.
  rewrite (rd_at_small 8 (off + 16) buf (blen v)) by rd_field. cbn.
  by rewrite (rd_bytes_at _ (off + 24) buf v) by rd_field.
Qed.

Section batches.
Context {A : Type} (enc : A → list byte) (size : A → Z) (ok : A → Prop).
Hypothesis enc_size : ∀ x, blen (enc x) = size x.

Lemma blen_concat (l : list A) : blen (concat (map enc l)) = sum_sizes size l.
Proof. induction l as [|x l IH]; cbn; [done|]. by rewrite blen_app, enc_size, IH. Qed.

Lemma dec_items_at (dec : Z → list byte → option A) buf l offset :
  (∀ off x, at_off buf off (enc x) → ok x → dec off buf = Some x) →
  at_off buf (data_offset + sizeof_batch + offset) (concat (map enc l)) → Forall ok l →
  dec_items dec size (length l) offset buf = Some l.
Proof.
  intros Hdec Hat Hok. revert offset Hat. induction Hok as [|x l Hx Hok IH]; intros offset Hat; [done|].
  cbn in Hat. apply at_off_app in Hat as [H1 H2]. cbn.
  rewrite (Hdec _ _ H1 Hx). cbn. rewrite IH; [done|].
  rewrite enc_size in H2. by replace (data_offset + sizeof_batch + (offset + size x))
    with (data_offset + sizeof_batch + offset + size x) by lia.
Qed.

(** The size the receiver computes is the size that was written, when the
    items hold their [value_size] at [vs]. *)
Lemma size_calc_at (hdr vs : Z) (vlen : A → Z) buf l offset :
  blen buf < 2 ^ 64 → 0 ≤ offset → 0 ≤ hdr →
  (∀ x, size x = vlen x + hdr ∧ 0 ≤ vlen x) →
  (∀ off x, at_off buf off (enc x) → rd 8 (off + vs) buf = Some (vlen x)) →
  at_off buf (data_offset + sizeof_batch + offset) (concat (map enc l)) →
  size_calc_loop hdr vs (length l) offset buf = Some (offset + sum_sizes size l).
Proof.
  intros Hbuf Ho Hh Hsz Hrd. revert offset Ho. induction l as [|x l IH]; intros offset Ho Hat.
  { cbn. f_equal. lia. }
  pose proof (at_off_bounds _ _ _ Hat) as Hb. rewrite blen_concat in Hb. cbn in Hat, Hb.
  apply at_off_app in Hat as [H1 H2].
  pose proof (at_off_bounds _ _ _ H1). pose proof (at_off_bounds _ _ _ H2).
  rewrite enc_size in *. destruct (Hsz x) as [Hx Hv].
  cbn [size_calc_loop length]. unfold data_offset, sizeof_batch in *.
  rewrite (Hrd _ _ H1). cbn. pose proof (blen_nonneg (concat (map enc l))).
  rewrite (wrap_small 64 (vlen x + hdr)), wrap_small by lia. rewrite IH.
  - f_equal. cbn. unfold sum_sizes. lia.
  - lia.
  - by replace (12 + 4 + (offset + (vlen x + hdr))) with (12 + 4 + offset + size x) by lia.
Qed.
End batches.

Lemma enc_prepare_req_size r : blen (enc_prepare_req r) = sizeof_prepare_req.
Proof. unfold enc_prepare_req. by autorewrite with fds. Qed.
Lemma enc_prepare_ack_size a : blen (enc_prepare_ack a) = PREPARE_ACK_SIZE a.
Proof. unfold enc_prepare_ack, PREPARE_ACK_SIZE, sizeof_prepare_ack. autorewrite with fds. lia. Qed.
Lemma enc_accept_req_size r : blen (enc_accept_req r) = ACCEPT_REQ_SIZE r.
Proof. unfold enc_accept_req, ACCEPT_REQ_SIZE, sizeof_accept_req. autorewrite with fds. lia. Qed.
Lemma enc_accept_ack_size a : blen (enc_accept_ack a) = ACCEPT_ACK_SIZE a.
Proof. unfold enc_accept_ack, ACCEPT_ACK_SIZE, sizeof_accept_ack. autorewrite with fds. lia. Qed.

Lemma sum_sizes_const {A} (l : list A) c : sum_sizes (λ _, c) l = Z.of_nat (length l) * c.
Proof. induction l as [|x l IH]; cbn -[Z.of_nat Z.mul]; [lia|]. unfold sum_sizes in IH. lia. Qed.

Lemma enc_data_size m : blen (enc_data m) = data_size_of m.
Proof.
  destruct m; cbn [enc_data data_size_of]; unfold enc_count; autorewrite with fds; try done.
  - rewrite (blen_concat _ _ enc_prepare_req_size), sum_sizes_const. unfold sizeof_batch. lia.
  - rewrite (blen_concat _ _ enc_prepare_ack_size). unfold sizeof_batch. lia.
  - rewrite (blen_concat _ _ enc_accept_req_size). unfold sizeof_batch. lia.
  - rewrite (blen_concat _ _ enc_accept_ack_size). unfold sizeof_batch. lia.
  - rewrite (blen_concat (le_split 4) (λ _, 4)) by (intros; apply blen_le_split).
    rewrite sum_sizes_const. unfold sizeof_batch, sizeof_iid. lia.
Qed.

(** A message all of whose fields fit their C types and whose sender is one
    the receivers know. *)
Definition msg_ok (m : paxos_msg) : Prop :=
  match m with
  | PrepareReqs id l => 0 ≤ id < MAX_N_OF_PROPOSERS ∧ Forall prepare_req_ok l ∧
                        Z.of_nat (length l) < 2 ^ 15
  | PrepareAcks id l => 0 ≤ id < N_OF_ACCEPTORS ∧ Forall prepare_ack_ok l ∧
                        Z.of_nat (length l) < 2 ^ 15
  | AcceptReqs id l => 0 ≤ id < MAX_N_OF_PROPOSERS ∧ Forall accept_req_ok l ∧
                       Z.of_nat (length l) < 2 ^ 15
  | AcceptAcks id l => 0 ≤ id < N_OF_ACCEPTORS ∧ Forall accept_ack_ok l ∧
                       Z.of_nat (length l) < 2 ^ 15
  | RepeatReqs l => Forall (in_u 32) l ∧ Z.of_nat (length l) < 2 ^ 15
  | Submit _ => True
  | LeaderAnnounce id => in_short id
  | AlivePing id n => in_short id ∧ in_u 64 n
  end.

Lemma rd_value_size_prepare_ack buf off a :
  blen buf < 2 ^ 64 → at_off buf off (enc_prepare_ack a) →
  rd 8 (off + 16) buf = Some (blen (pa_value a)).
Proof.
  intros Hb H. unfold enc_prepare_ack in H. cut_fields.
  eapply rd_at_small; [at_field|]. eapply value_size_bound; eauto.
Qed.
Lemma rd_value_size_accept_req buf off a :
  blen buf < 2 ^ 64 → at_off buf off (enc_accept_req a) →
  rd 8 (off + 8) buf = Some (blen (ar_value a)).
Proof.
  intros Hb H. unfold enc_accept_req in H. cut_fields.
  eapply rd_at_small; [at_field|]. eapply value_size_bound; eauto.
Qed.
Lemma rd_value_size_accept_ack buf off a :
  blen buf < 2 ^ 64 → at_off buf off (enc_accept_ack a) →
  rd 8 (off + 16) buf = Some (blen (aa_value a)).
Proof.
  intros Hb H. unfold enc_accept_ack in H. cut_fields.
  eapply rd_at_small; [at_field|]. eapply value_size_bound; eauto.
Qed.

Lemma enc_msg_at m rest :
  at_off (enc_msg m rest) 0 (le_split 8 (data_size_of m)) ∧
  at_off (enc_msg m rest) 8 (le_split 4 (msg_type m)) ∧
  at_off (enc_msg m rest) data_offset (enc_data m).
Proof.
  assert (at_off (enc_msg m rest) 0 (enc_msg m rest)) as H.
  { exists [], []. by rewrite app_nil_r. }
  unfold enc_msg at 2 in H. cut_fields.
  split_and!; [at_field|at_field|]. unfold data_offset. at_field.
Qed.

Lemma msg_type_range m : in_u 32 (msg_type m).
Proof. destruct m; cbn; unfold in_u; lia. Qed.

Lemma in_short_small x n : 0 ≤ x < n → n ≤ 2 ^ 15 → in_short x.
Proof. unfold in_short. lia. Qed.

(** Decides the conditionals of the receiver on a known message type. *)
Ltac known_type := cbn -[rd rd_short dec_items enc_count blen rd_bytes
  prepare_ack_batch_size_calc accept_req_batch_size_calc accept_ack_batch_size_calc].

Lemma rd_count {A} off buf (l : list A) :
  at_off buf off (enc_count l) → Z.of_nat (length l) < 2 ^ 15 →
  rd_short off buf = Some (Z.of_nat (length l)).
Proof. intros H Hl. eapply rd_short_at; [done|]. apply (in_short_small _ (2 ^ 15)); lia. Qed.

Lemma id_in_range id n :
  0 ≤ id < n → (id <? 0) || (n <=? id) = false.
Proof. intros Hid. destruct (Z.ltb_spec id 0), (Z.leb_spec n id); lia || done. Qed.

(** The two [short]s of a batch header, and the items behind it. *)
Lemma header_count_id {A} buf (l : list A) id n items :
  at_off buf data_offset (enc_count l ++ le_split 2 id ++ items) →
  0 ≤ id < n → n ≤ 2 ^ 15 → Z.of_nat (length l) < 2 ^ 15 →
  rd_short data_offset buf = Some (Z.of_nat (length l)) ∧
  rd_short (data_offset + 2) buf = Some id ∧
  at_off buf (data_offset + sizeof_batch + 0) items.
Proof.
  intros H Hid Hn Hl. unfold enc_count, sizeof_batch in *. cut_fields. split_and!; [| |at_field].
  - by apply rd_count.
  - eapply rd_short_at; [at_field|by eapply in_short_small].
Qed.

Lemma header_id_count {A} buf (l : list A) id n items :
  at_off buf data_offset (le_split 2 id ++ enc_count l ++ items) →
  0 ≤ id < n → n ≤ 2 ^ 15 → Z.of_nat (length l) < 2 ^ 15 →
  rd_short data_offset buf = Some id ∧
  rd_short (data_offset + 2) buf = Some (Z.of_nat (length l)) ∧
  at_off buf (data_offset + sizeof_batch + 0) items.
Proof.
  intros H Hid Hn Hl. unfold enc_count, sizeof_batch in *. cut_fields. split_and!; [| |at_field].
  - eapply rd_short_at; [at_field|by eapply in_short_small].
  - apply rd_count; [unfold enc_count; at_field|done].
Qed.

Lemma header_repeat buf (l : list Z) items :
  at_off buf data_offset (enc_count l ++ pad 2 ++ items) → Z.of_nat (length l) < 2 ^ 15 →
  rd_short data_offset buf = Some (Z.of_nat (length l)) ∧
  at_off buf (data_offset + sizeof_batch + 0) items.
Proof.
  intros H Hl. unfold enc_count, sizeof_batch in *. cut_fields. split; [|at_field].
  by apply rd_count.
Qed.

Lemma size_calc_enc {A} (enc : A → list byte) (size : A → Z) (vlen : A → Z) (hdr vs : Z) (l : list A) buf :
  blen buf < 2 ^ 64 →
  (∀ x, blen (enc x) = size x) → 0 ≤ hdr → (∀ x, size x = vlen x + hdr ∧ 0 ≤ vlen x) →
  (∀ off x, at_off buf off (enc x) → rd 8 (off + vs) buf = Some (vlen x)) →
  at_off buf (data_offset + sizeof_batch + 0) (concat (map enc l)) →
  is_Some (size_calc_loop hdr vs (Z.to_nat (Z.of_nat (length l))) 0 buf).
Proof.
  intros Hbuf He Hh Hs Hr Hat. rewrite Nat2Z.id.
  rewrite (size_calc_at enc size He hdr vs vlen buf l 0); eauto; lia.
Qed.

Section receive.
Context (m : paxos_msg) (rest : list byte).
Let buf := enc_msg m rest.
Hypothesis m_ok : msg_ok m.
Hypothesis buf_ok : blen buf < 2 ^ 63.

Lemma buf_data : at_off buf data_offset (enc_data m).
Proof. apply enc_msg_at. Qed.

Lemma buf_ok' : blen buf < 2 ^ 64.
Proof. clear - buf_ok. lia. Qed.

Lemma data_size_bounds : 0 ≤ data_size_of m ∧ data_offset + data_size_of m ≤ blen buf.
Proof.
  pose proof (at_off_bounds _ _ _ buf_data) as Hb. rewrite enc_data_size in Hb.
  pose proof (blen_nonneg (enc_data m)) as Hn. rewrite enc_data_size in Hn. clear m_ok. lia.
Qed.

Lemma rd_header : rd 8 0 buf = Some (data_size_of m) ∧ rd 4 8 buf = Some (msg_type m).
Proof.
  destruct (enc_msg_at m rest) as (H1 & H2 & _). pose proof data_size_bounds as Hb.
  pose proof buf_ok. unfold data_offset in Hb. split.
  - eapply rd_at_small; [done|]. cbn. clear m_ok. lia.
  - eapply rd_at_small; [done|]. apply msg_type_range.
Qed.

Lemma validate_enc : validate_paxos_msg buf (PAXOS_MSG_SIZE m) = Some true.
Proof.
  pose proof buf_data as H3. pose proof data_size_bounds as Hb. pose proof buf_ok as Hbuf.
  pose proof buf_ok' as Hbuf'. pose proof m_ok as Hok. unfold data_offset in Hb.
  unfold validate_paxos_msg, PAXOS_MSG_SIZE, sizeof_paxos_msg.
  destruct rd_header as [-> ->]. cbn [mbind option_bind].
  rewrite wrap_small, Z.eqb_refl by (clear Hok; lia). cbn [negb]. clear Hb.
  destruct m as [id l|id l|id l|id l|l|v|id|id n]; cbn [msg_type enc_data msg_ok] in *;
    known_type; try done.
  - destruct Hok as (Hid & Hl & Hc).
    destruct (header_count_id buf l id _ _ H3 Hid) as (-> & -> & _); [done|done|]. known_type.
    by rewrite id_in_range.
  - destruct Hok as (Hid & Hl & Hc).
    destruct (header_id_count buf l id _ _ H3 Hid) as (-> & -> & Hi); [done|done|]. known_type.
    rewrite id_in_range by done. unfold prepare_ack_batch_size_calc.
    destruct (size_calc_enc _ _ (λ a, blen (pa_value a)) sizeof_prepare_ack 16 l
      buf Hbuf' enc_prepare_ack_size) as [? ->]; try done.
    + intros a. split; [done|apply blen_nonneg].
    + intros. by apply rd_value_size_prepare_ack.
  - destruct Hok as (Hid & Hl & Hc).
    destruct (header_count_id buf l id _ _ H3 Hid) as (-> & -> & Hi); [done|done|]. known_type.
    rewrite id_in_range by done. unfold accept_req_batch_size_calc.
    destruct (size_calc_enc _ _ (λ a, blen (ar_value a)) sizeof_accept_req 8 l
      buf Hbuf' enc_accept_req_size) as [? ->]; try done.
    + intros a. split; [done|apply blen_nonneg].
    + intros. by apply rd_value_size_accept_req.
  - destruct Hok as (Hid & Hl & Hc).
    destruct (header_id_count buf l id _ _ H3 Hid) as (-> & -> & Hi); [done|done|]. known_type.
    rewrite id_in_range by done. unfold accept_ack_batch_size_calc.
    destruct (size_calc_enc _ _ (λ a, blen (aa_value a)) sizeof_accept_ack 16 l
      buf Hbuf' enc_accept_ack_size) as [? ->]; try done.
    + intros a. split; [done|apply blen_nonneg].
    + intros. by apply rd_value_size_accept_ack.
  - destruct Hok as (Hl & Hc). by destruct (header_repeat buf l _ H3 Hc) as [-> _].
Qed.

Lemma dec_enc : dec_msg buf = Some m.
Proof.
  pose proof buf_data as H3. pose proof buf_ok' as Hbuf. pose proof m_ok as Hok.
  unfold dec_msg. destruct rd_header as [-> ->]. cbn [mbind option_bind].
  destruct m as [id l|id l|id l|id l|l|v|id|id n]; cbn [msg_type enc_data msg_ok data_size_of] in *;
    known_type.
  - destruct Hok as (Hid & Hl & Hc).
    destruct (header_count_id buf l id _ _ H3 Hid) as (-> & -> & Hi); [done|done|]. known_type.
    rewrite Nat2Z.id, (dec_items_at enc_prepare_req _ prepare_req_ok enc_prepare_req_size);
      [done| |done|done]. intros. by apply dec_prepare_req_at.
  - destruct Hok as (Hid & Hl & Hc).
    destruct (header_id_count buf l id _ _ H3 Hid) as (-> & -> & Hi); [done|done|]. known_type.
    rewrite Nat2Z.id, (dec_items_at enc_prepare_ack _ prepare_ack_ok enc_prepare_ack_size);
      [done| |done|done]. intros. by apply dec_prepare_ack_at.
  - destruct Hok as (Hid & Hl & Hc).
    destruct (header_count_id buf l id _ _ H3 Hid) as (-> & -> & Hi); [done|done|]. known_type.
    rewrite Nat2Z.id, (dec_items_at enc_accept_req _ accept_req_ok enc_accept_req_size);
      [done| |done|done]. intros. by apply dec_accept_req_at.
  - destruct Hok as (Hid & Hl & Hc).
    destruct (header_id_count buf l id _ _ H3 Hid) as (-> & -> & Hi); [done|done|]. known_type.
    rewrite Nat2Z.id, (dec_items_at enc_accept_ack _ accept_ack_ok enc_accept_ack_size);
      [done| |done|done]. intros. by apply dec_accept_ack_at.
  - destruct Hok as (Hl & Hc). destruct (header_repeat buf l _ H3 Hc) as [-> Hi]. known_type.
    rewrite Nat2Z.id, (dec_items_at (le_split 4) (λ _, sizeof_iid) (in_u 32));
      [done|intros; apply blen_le_split| |done|done].
    intros off x Hx Hok'. by apply rd_at_small.
  - by rewrite (rd_bytes_at _ _ _ v).
  - by rewrite (rd_short_at _ _ id).
  - destruct Hok as [Hid Hn]. cut_fields. rewrite (rd_short_at data_offset buf id) by rd_field.
    cbn -[rd]. by rewrite (rd_at_small 8 _ buf n) by rd_field.
Qed.
End receive.

(** ** Properties *)


Definition example_ack : paxos_msg :=
  AcceptAcks 2 [mk_accept_ack 7 21 21 0 [x61; x62; x63]; mk_accept_ack 9 300 300 1 []].


(** A packet of 20 bytes, the header of a batch without any item, in a receive
    buffer that was zero. *)
Definition short_packet (type first second : Z) : list byte :=
  let p := le_split 8 sizeof_batch ++ le_split 4 type ++ le_split 2 first ++ le_split 2 second in
  p ++ pad (Z.to_nat MAX_UDP_MSG_SIZE - length p).

(** The receiver never compares the size of a batch with the size of the
    packet (the comparison follows the [default] case of the [switch]): a
    packet that holds no item is accepted with a count of 2, and the acceptor
    serves two requests made of old bytes of its buffer; with a count of 400
    acknowledgements the validation itself reads beyond the buffer. *)
Theorem declared_count_unchecked :
  validate_paxos_msg (short_packet 1 2 0) 20 = Some true ∧
  dec_msg (short_packet 1 2 0) = Some (PrepareReqs 0 [mk_prepare_req 0 0; mk_prepare_req 0 0]) ∧
  validate_paxos_msg (short_packet 2 0 400) 20 = None.
Proof. split_and!; vm_compute; reflexivity. Qed.

Lemma take_header m rest n :
  (12 ≤ n)%nat →
  at_off (take n (enc_msg m rest)) 0 (le_split 8 (data_size_of m)) ∧
  at_off (take n (enc_msg m rest)) 8 (le_split 4 (msg_type m)).
Proof.
  intros Hn. unfold enc_msg. rewrite !app_assoc, <-(app_assoc (le_split 8 _ ++ _)).
  rewrite take_app, take_ge by (by rewrite length_app, !length_le_split). rewrite <-app_assoc.
  split.
  - by eexists [], _.
  - eexists (le_split 8 _), _. split; [done|by rewrite blen_le_split].
Qed.

(** A value of the size that [libpaxos.h] allows may not be learned: an
    acceptance with more than [MAX_UDP_MSG_SIZE - 44] bytes makes a packet that
    is larger than the receive buffer, and the receivers drop the part of it
    that they read. *)
Theorem large_value_ack_dropped id iid b v rest received :
  PAXOS_MAX_VALUE_SIZE - 4 < blen v ≤ PAXOS_MAX_VALUE_SIZE →
  received ≤ MAX_UDP_MSG_SIZE →
  validate_paxos_msg
    (take (Z.to_nat MAX_UDP_MSG_SIZE) (enc_msg (AcceptAcks id [mk_accept_ack iid b b 0 v]) rest))
    received = Some false.
Proof.
  intros Hv Hr. set (m := AcceptAcks id [mk_accept_ack iid b b 0 v]).
  destruct (take_header m rest (Z.to_nat MAX_UDP_MSG_SIZE)) as [H1 H2].
  { unfold MAX_UDP_MSG_SIZE. lia. }
  assert (data_size_of m = blen v + 28) as Hds.
  { unfold m. cbn [data_size_of sum_sizes foldr]. unfold ACCEPT_ACK_SIZE, sizeof_batch,
      sizeof_accept_ack. cbn [aa_value]. lia. }
  unfold PAXOS_MAX_VALUE_SIZE, MAX_UDP_MSG_SIZE in Hv, Hr.
  unfold validate_paxos_msg. rewrite (rd_at_small 8 0 _ _ H1) by (rewrite Hds; cbn; lia).
  cbn [mbind option_bind]. rewrite (rd_at_small 4 8 _ _ H2) by apply msg_type_range.
  cbn [mbind option_bind]. rewrite Hds. unfold sizeof_paxos_msg.
  rewrite wrap_small by lia. destruct (Z.eqb_spec (blen v + 28 + 16) received); [lia|done].
Qed.

Lemma large_value_ack_dropped_witness :
  validate_paxos_msg
    (take (Z.to_nat MAX_UDP_MSG_SIZE)
       (enc_msg (AcceptAcks 1 [mk_accept_ack 5 11 11 0 (pad (Z.to_nat PAXOS_MAX_VALUE_SIZE))]) (pad 4)))
    MAX_UDP_MSG_SIZE = Some false.
Proof. apply large_value_ack_dropped; rewrite ?blen_pad; done. Defined.
