(* ===== verification/SendBuffer.v ===== *)
(** * The send buffers of libpaxos2

    [paxos2/lib/udp_sendbuf.c] and [paxos2/lib/submit_handle.c].  A send
    buffer holds one open message; adding an item that does not fit sends the
    message and opens a new one.  The packets handed to [sendto] are recorded
    in [sent]; creating the socket is not modelled. *)
From Stdlib Require Import Init.Byte.
From S2P Require Import Prelude Bytes PaxosWire.

(** [udp_send_buffer]: the message in [buffer], its [data_size] field, the
    [dirty] flag. *)
Record udp_send_buffer := mk_sendbuf {
  sb_msg : paxos_msg;
  sb_data_size : Z;            (* size_t *)
  dirty : bool;
  sent : list paxos_msg
}.

#[export] Instance set_sb_msg : Setter sb_msg := λ g r,
  mk_sendbuf (g (sb_msg r)) (sb_data_size r) (dirty r) (sent r).
#[global] Arguments set_sb_msg _ _ /.
#[export] Instance set_sb_data_size : Setter sb_data_size := λ g r,
  mk_sendbuf (sb_msg r) (g (sb_data_size r)) (dirty r) (sent r).
#[global] Arguments set_sb_data_size _ _ /.
#[export] Instance set_dirty : Setter dirty := λ g r,
  mk_sendbuf (sb_msg r) (sb_data_size r) (g (dirty r)) (sent r).
#[global] Arguments set_dirty _ _ /.
#[export] Instance set_sent : Setter sent := λ g r,
  mk_sendbuf (sb_msg r) (sb_data_size r) (dirty r) (g (sent r)).
#[global] Arguments set_sent _ _ /.

Implicit Types (sb : udp_send_buffer).

(** [udp_sendbuf_new] zeroes the structure. *)
Definition udp_sendbuf_new : udp_send_buffer := mk_sendbuf (Submit []) 0 false [].

(** The kinds of message [sendbuf_clear] prepares, with their sender. *)
Inductive clear_type :=
  | prepare_reqs | accept_reqs | prepare_acks | accept_acks | repeat_reqs | submit.

Definition sendbuf_clear (type : clear_type) (sender_id : Z) : M udp_send_buffer unit :=
  modify (λ sb,
    let sb := sb <| dirty := false |> in
    match type with
    | prepare_reqs => sb <| sb_data_size := sizeof_batch |> <| sb_msg := PrepareReqs sender_id [] |>
    | accept_reqs => sb <| sb_data_size := sizeof_batch |> <| sb_msg := AcceptReqs sender_id [] |>
    | prepare_acks => sb <| sb_data_size := sizeof_batch |> <| sb_msg := PrepareAcks sender_id [] |>
    | accept_acks => sb <| sb_data_size := sizeof_batch |> <| sb_msg := AcceptAcks sender_id [] |>
    | repeat_reqs => sb <| sb_data_size := sizeof_batch |> <| sb_msg := RepeatReqs [] |>
    | submit => sb <| sb_data_size := 0 |> <| sb_msg := Submit [] |>
    end).

Definition sendbuf_flush : M udp_send_buffer unit :=
  modify (λ sb, if dirty sb then sb <| sent := sent sb ++ [sb_msg sb] |> else sb).

(** Writing [n] bytes at the end of the data; beyond the buffer it is an
    overflow. *)
Definition sb_room (n : Z) : M udp_send_buffer unit :=
  sb ← get;
  c_assert (data_offset + sb_data_size sb + n <=? MAX_UDP_MSG_SIZE).

(** [PAXOS_MSG_SIZE(m) + n >= MAX_UDP_MSG_SIZE] *)
Definition sb_full (n : Z) sb : bool :=
  MAX_UDP_MSG_SIZE <=? u64 (u64 (sb_data_size sb + sizeof_paxos_msg) + n).

(** [sb->dirty = 1; m->data_size += n] *)
Definition sb_grow (n : Z) : M udp_send_buffer unit :=
  modify (λ sb, sb <| dirty := true |> <| sb_data_size := u64 (sb_data_size sb + n) |>).

Definition sendbuf_add_prepare_req (iid ballot : Z) : M udp_send_buffer unit :=
  sb ← get;
  match sb_msg sb with
  | PrepareReqs proposer_id _ =>
      (if sb_full sizeof_prepare_req sb
       then sendbuf_flush;; sendbuf_clear prepare_reqs proposer_id
       else mret tt);;
      sb_room sizeof_prepare_req;;
      modify (λ sb, match sb_msg sb with
                    | PrepareReqs id l => sb <| sb_msg := PrepareReqs id (l ++ [mk_prepare_req iid ballot]) |>
                    | _ => sb
                    end);;
      sb_grow sizeof_prepare_req
  | _ => crash (* assert(m->type == prepare_reqs) *)
  end.

Definition sendbuf_add_accept_req (iid ballot : Z) (value : list byte) : M udp_send_buffer unit :=
  let ar_size := u64 (sizeof_accept_req + blen value) in
  sb ← get;
  match sb_msg sb with
  | AcceptReqs proposer_id _ =>
      (if sb_full ar_size sb
       then sendbuf_flush;; sendbuf_clear accept_reqs proposer_id
       else mret tt);;
      sb_room ar_size;;
      modify (λ sb, match sb_msg sb with
                    | AcceptReqs id l => sb <| sb_msg := AcceptReqs id (l ++ [mk_accept_req iid ballot value]) |>
                    | _ => sb
                    end);;
      sb_grow ar_size
  | _ => crash
  end.

(** The two functions the acceptor uses commit the transaction of the stable
    storage before they send, and begin another one: [proj] and [upd] are the
    place of the buffer in the caller's state. *)
Section acceptor_messages.
Context {St : Type} (proj : St → udp_send_buffer) (upd : udp_send_buffer → St → St).
Context (tx_begin tx_end : M St unit).
Local Abbreviation on := (zoom proj upd).

Definition sendbuf_add_prepare_ack (rec : acceptor_record) : M St unit :=
  let pa_size := u64 (sizeof_prepare_ack + blen (aa_value rec)) in
  sb ← gets proj;
  match sb_msg sb with
  | PrepareAcks acceptor_id _ =>
      (if sb_full pa_size sb
       then tx_end;; on sendbuf_flush;; on (sendbuf_clear prepare_acks acceptor_id);; tx_begin
       else mret tt);;
      on (sb_room pa_size;;
          modify (λ sb, match sb_msg sb with
                        | PrepareAcks id l => sb <| sb_msg := PrepareAcks id (l ++
                            [mk_prepare_ack (aa_iid rec) (aa_ballot rec) (aa_value_ballot rec)
                               (aa_value rec)]) |>
                        | _ => sb
                        end);;
          sb_grow pa_size)
  | _ => crash
  end.

Definition sendbuf_add_accept_ack (rec : acceptor_record) : M St unit :=
  let aa_size := u64 (ACCEPT_ACK_SIZE rec) in
  sb ← gets proj;
  match sb_msg sb with
  | AcceptAcks acceptor_id _ =>
      (if sb_full aa_size sb
       then tx_end;; on sendbuf_flush;; on (sendbuf_clear accept_acks acceptor_id);; tx_begin
       else mret tt);;
      on (sb_room aa_size;;
          modify (λ sb, match sb_msg sb with
                        | AcceptAcks id l => sb <| sb_msg := AcceptAcks id (l ++ [rec]) |>
                        | _ => sb
                        end);;
          sb_grow aa_size)
  | _ => crash
  end.
End acceptor_messages.

Definition sendbuf_add_repeat_req (iid : Z) : M udp_send_buffer unit :=
  sb ← get;
  match sb_msg sb with
  | RepeatReqs _ =>
      (if sb_full sizeof_iid sb
       then sendbuf_flush;; sendbuf_clear repeat_reqs (-1)
       else mret tt);;
      sb_room sizeof_iid;;
      sb_grow sizeof_iid;;
      modify (λ sb, match sb_msg sb with
                    | RepeatReqs l => sb <| sb_msg := RepeatReqs (l ++ [iid]) |>
                    | _ => sb
                    end)
  | _ => crash
  end.

(** The value is copied to the start of the data, after [data_size] grows. *)
Definition sendbuf_add_submit_val (value : list byte) : M udp_send_buffer unit :=
  sb ← get;
  match sb_msg sb with
  | Submit _ =>
      sb_grow (blen value);;
      c_assert (data_offset + blen value <=? MAX_UDP_MSG_SIZE);;
      modify (λ sb, sb <| sb_msg := Submit value |>)
  | _ => crash
  end.

Definition sendbuf_send_ping (proposer_id sequence_number : Z) : M udp_send_buffer unit :=
  modify (λ sb, sb <| dirty := true |> <| sb_data_size := sizeof_alive_ping |>
                   <| sb_msg := AlivePing proposer_id sequence_number |>);;
  sendbuf_flush.

Definition sendbuf_send_leader_announce (leader_id : Z) : M udp_send_buffer unit :=
  modify (λ sb, sb <| dirty := true |> <| sb_data_size := sizeof_leader_announce |>
                   <| sb_msg := LeaderAnnounce leader_id |>);;
  sendbuf_flush.

(** [pax_submit_nonblock] (submit_handle.c). *)
Definition pax_submit_nonblock (value : list byte) : M udp_send_buffer Z :=
  sendbuf_clear submit 0;;
  sendbuf_add_submit_val value;;
  sendbuf_flush;;
  mret 0.

(** ** What a buffer holds

    [sb_holds base id items sb]: since [base] was sent, the packets that were
    sent and the open message hold together [items], in order; every packet
    holds an item and fits in the receive buffer of the other processes. *)

Section batch.
Context {A : Type} (mk : Z → list A → paxos_msg) (size : A → Z) (ct : clear_type).

Record sb_holds (base : list paxos_msg) (id : Z) (items : list A) sb : Prop := {
  sh_size : ∃ l chunks,
    sb_msg sb = mk id l ∧ sent sb = base ++ map (mk id) chunks ∧ concat chunks ++ l = items ∧
    sb_data_size sb = sizeof_batch + sum_sizes size l ∧
    dirty sb = bool_decide (l ≠ []) ∧
    sizeof_batch + sum_sizes size l + sizeof_paxos_msg < MAX_UDP_MSG_SIZE ∧
    Forall (λ c, c ≠ [] ∧ sizeof_batch + sum_sizes size c + sizeof_paxos_msg < MAX_UDP_MSG_SIZE) chunks
}.

(** What is left once the buffer is flushed. *)
Definition sb_sent (base : list paxos_msg) (id : Z) (items : list A) (packets : list paxos_msg) : Prop :=
  ∃ chunks, packets = base ++ map (mk id) chunks ∧ concat chunks = items ∧
    Forall (λ c, c ≠ [] ∧ sizeof_batch + sum_sizes size c + sizeof_paxos_msg < MAX_UDP_MSG_SIZE) chunks.

Definition cleared (id : Z) sb : udp_send_buffer :=
  sb <| dirty := false |> <| sb_data_size := sizeof_batch |> <| sb_msg := mk id [] |>.

(** The message that is open, with its size. *)
Definition sb_open (id : Z) (l : list A) sb : Prop :=
  sb_msg sb = mk id l ∧ sb_data_size sb = sizeof_batch + sum_sizes size l.

Hypothesis clear_ct : ∀ id sb, sendbuf_clear ct id sb = Some (tt, cleared id sb).

Lemma sum_sizes_app (l1 l2 : list A) : sum_sizes size (l1 ++ l2) = sum_sizes size l1 + sum_sizes size l2.
Proof. unfold sum_sizes. induction l1 as [|x l1 IH]; cbn; lia. Qed.

Lemma sum_sizes_nonneg (l : list A) : (∀ x, 0 ≤ size x) → 0 ≤ sum_sizes size l.
Proof. intros H. unfold sum_sizes. induction l as [|x l IH]; cbn; [lia|]. specialize (H x). lia. Qed.

Lemma wp_clear_ct id sb Q : Q tt (cleared id sb) → wp (sendbuf_clear ct id) Q sb.
Proof. intros H. unfold wp. by rewrite clear_ct. Qed.

Lemma wp_clear_holds id sb (Q : unit → udp_send_buffer → Prop) :
  (∀ sb', sb_holds (sent sb) id [] sb' → Q tt sb') → wp (sendbuf_clear ct id) Q sb.
Proof.
  intros HQ. apply wp_clear_ct, HQ. constructor. exists [], []; cbn.
  by rewrite app_nil_r.
Qed.

Lemma wp_flush_holds base id items sb (Q : unit → udp_send_buffer → Prop) :
  sb_holds base id items sb →
  (∀ sb', sb_sent base id items (sent sb') → Q tt sb') → wp sendbuf_flush Q sb.
Proof.
  intros [(l & cs & Hm & Hs & <- & Hds & Hd & Hf & Hcs)] HQ. unfold sendbuf_flush. wp_steps. apply HQ.
  destruct (dirty sb) eqn:E; cbn.
  - symmetry in Hd. apply bool_decide_eq_true in Hd. exists (cs ++ [l]).
    rewrite Hs, Hm, map_app, concat_app, app_assoc; cbn. rewrite app_nil_r. split_and!; [done..|].
    apply Forall_app. split; [done|]. by constructor.
  - symmetry in Hd. apply bool_decide_eq_false, dec_stable in Hd as ->. exists cs.
    by rewrite app_nil_r.
Qed.

(** A full buffer is sent and cleared, and holds the same items. *)
Lemma wp_flush_clear base id items sb (Q : unit → udp_send_buffer → Prop) :
  sb_holds base id items sb →
  (∀ sb', sb_holds base id items sb' → sb_open id [] sb' → Q tt sb') →
  wp (sendbuf_flush;; sendbuf_clear ct id) Q sb.
Proof.
  intros Hh HQ. apply wp_bind. eapply wp_flush_holds; [done|]. intros sb' (cs & Hs & Hc & Hf).
  apply wp_clear_ct, HQ; [|done]. constructor. exists [], cs. cbn. by rewrite app_nil_r.
Qed.

Hypothesis size_nonneg : ∀ x, 0 ≤ size x.
Hypothesis mk_inj : ∀ id l l', mk id l = mk id l' → l = l'.

(** An item that fits in a packet of its own. *)
Definition item_fits (x : A) : Prop :=
  sizeof_batch + size x + sizeof_paxos_msg < MAX_UDP_MSG_SIZE.

Definition has_room (x : A) sb : Prop :=
  sb_data_size sb + size x + sizeof_paxos_msg < MAX_UDP_MSG_SIZE.

Lemma holds_size_bounds base id items sb :
  sb_holds base id items sb → sizeof_batch ≤ sb_data_size sb < MAX_UDP_MSG_SIZE.
Proof.
  intros [(l & cs & _ & _ & _ & Hds & _ & Hf & _)]. pose proof (sum_sizes_nonneg l size_nonneg).
  unfold sizeof_paxos_msg in *. lia.
Qed.

Lemma not_full_room base id items sb x :
  sb_holds base id items sb → item_fits x → sb_full (size x) sb = false → has_room x sb.
Proof.
  intros Hh Hx Hfull. pose proof (holds_size_bounds _ _ _ _ Hh) as Hb. pose proof (size_nonneg x).
  unfold sb_full, item_fits, has_room in *. zbool.
  unfold MAX_UDP_MSG_SIZE, sizeof_batch, sizeof_paxos_msg in *. rewrite (wrap_small 64 (sb_data_size sb + 16)), wrap_small in Hfull by lia. lia.
Qed.

Lemma open_empty_room id sb x : sb_open id [] sb → item_fits x → has_room x sb.
Proof. intros [_ Hds] Hx. unfold has_room, item_fits in *. rewrite Hds. cbn. lia. Qed.

Lemma wp_make_room base id items x sb (Q : unit → udp_send_buffer → Prop) :
  sb_holds base id items sb → item_fits x →
  (∀ sb', sb_holds base id items sb' → has_room x sb' → Q tt sb') →
  wp (if sb_full (size x) sb then sendbuf_flush;; sendbuf_clear ct id else mret tt) Q sb.
Proof.
  intros Hh Hx HQ. wp_case.
  - eapply wp_flush_clear; [done|]. intros sb' Hh' Ho. apply HQ; [done|by eapply open_empty_room].
  - apply wp_ret, HQ; [done|by eapply not_full_room].
Qed.

Lemma wp_sb_room base id items x sb (Q : unit → udp_send_buffer → Prop) :
  sb_holds base id items sb → has_room x sb → Q tt sb → wp (sb_room (size x)) Q sb.
Proof.
  intros Hh Hr HQ. unfold sb_room. wp_steps. apply wp_assert; [|done]. apply Z.leb_le.
  unfold has_room, data_offset, sizeof_paxos_msg in *. lia.
Qed.

(** The state after an item is written. *)
Lemma holds_push base id items x sb sb' :
  sb_holds base id items sb → has_room x sb →
  (∀ l, sb_msg sb = mk id l → sb_msg sb' = mk id (l ++ [x])) →
  sent sb' = sent sb → dirty sb' = true → sb_data_size sb' = u64 (sb_data_size sb + size x) →
  sb_holds base id (items ++ [x]) sb'.
Proof.
  intros Hh Hr Hm' Hs' Hd' Hds'. pose proof (holds_size_bounds _ _ _ _ Hh) as Hb.
  pose proof (size_nonneg x).
  destruct Hh as [(l & cs & Hm & Hs & <- & Hds & Hd & Hf & Hcs)].
  unfold has_room, MAX_UDP_MSG_SIZE, sizeof_paxos_msg, sizeof_batch in *.
  rewrite wrap_small in Hds' by lia. constructor. exists (l ++ [x]), cs.
  rewrite sum_sizes_app, (Hm' l Hm), Hs', Hd', Hds', Hds. unfold sizeof_batch, sizeof_paxos_msg.
  unfold MAX_UDP_MSG_SIZE.
  cbn. split_and!; try done; try lia.
  - by rewrite app_assoc.
  - symmetry. apply bool_decide_eq_true. by destruct l.
Qed.
End batch.

(** The instances for the five kinds of batches. *)
Definition prepare_req_size (_ : prepare_req) : Z := sizeof_prepare_req.
Definition prepare_ack_of (rec : acceptor_record) : prepare_ack :=
  mk_prepare_ack (aa_iid rec) (aa_ballot rec) (aa_value_ballot rec) (aa_value rec).
Definition iid_size (_ : Z) : Z := sizeof_iid.

Lemma PREPARE_ACK_SIZE_nonneg a : 0 ≤ PREPARE_ACK_SIZE a.
Proof. unfold PREPARE_ACK_SIZE, sizeof_prepare_ack. pose proof (blen_nonneg (pa_value a)). lia. Qed.
Lemma ACCEPT_REQ_SIZE_nonneg a : 0 ≤ ACCEPT_REQ_SIZE a.
Proof. unfold ACCEPT_REQ_SIZE, sizeof_accept_req. pose proof (blen_nonneg (ar_value a)). lia. Qed.
Lemma ACCEPT_ACK_SIZE_nonneg a : 0 ≤ ACCEPT_ACK_SIZE a.
Proof. unfold ACCEPT_ACK_SIZE, sizeof_accept_ack. pose proof (blen_nonneg (aa_value a)). lia. Qed.

#[export] Hint Resolve PREPARE_ACK_SIZE_nonneg ACCEPT_REQ_SIZE_nonneg ACCEPT_ACK_SIZE_nonneg : fds.

Lemma add_prepare_req_holds base id items iid ballot sb :
  sb_holds PrepareReqs prepare_req_size base id items sb →
  wp (sendbuf_add_prepare_req iid ballot)
    (λ _ sb', sb_holds PrepareReqs prepare_req_size base id (items ++ [mk_prepare_req iid ballot]) sb') sb.
Proof.
  intros Hh. unfold sendbuf_add_prepare_req. wp_steps.
  destruct (sh_size _ _ _ _ _ _ Hh) as (l & cs & Hm & _). rewrite Hm. wp_steps.
  set (x := mk_prepare_req iid ballot). change sizeof_prepare_req with (prepare_req_size x).
  eapply (wp_make_room PrepareReqs prepare_req_size prepare_reqs); [done|done|done|done|].
  intros sb' Hh' Hr. wp_steps. eapply (wp_sb_room PrepareReqs); [done|done|]. wp_steps.
  eapply (holds_push PrepareReqs prepare_req_size); try done; destruct (sb_msg sb') eqn:E; try done.
  intros l' [= -> ->]. done.
Qed.

Lemma fits_wrap {A} (size : A → Z) x : item_fits size x → 0 ≤ size x → u64 (size x) = size x.
Proof.
  unfold item_fits, MAX_UDP_MSG_SIZE, sizeof_batch, sizeof_paxos_msg. intros. apply wrap_small. lia.
Qed.

Lemma add_accept_req_holds base id items iid ballot value sb :
  sb_holds AcceptReqs ACCEPT_REQ_SIZE base id items sb →
  item_fits ACCEPT_REQ_SIZE (mk_accept_req iid ballot value) →
  wp (sendbuf_add_accept_req iid ballot value)
    (λ _ sb', sb_holds AcceptReqs ACCEPT_REQ_SIZE base id (items ++ [mk_accept_req iid ballot value]) sb') sb.
Proof.
  intros Hh Hx. unfold sendbuf_add_accept_req. wp_steps.
  destruct (sh_size _ _ _ _ _ _ Hh) as (l & cs & Hm & _). rewrite Hm. wp_steps.
  set (x := mk_accept_req iid ballot value) in *.
  replace (sizeof_accept_req + blen value) with (ACCEPT_REQ_SIZE x) by apply Z.add_comm.
  rewrite fits_wrap by auto with fds.
  eapply (wp_make_room AcceptReqs ACCEPT_REQ_SIZE accept_reqs); [done|auto with fds|done|done|].
  intros sb' Hh' Hr. wp_steps. eapply (wp_sb_room AcceptReqs); [done|done|]. wp_steps.
  eapply (holds_push AcceptReqs ACCEPT_REQ_SIZE); [auto with fds|exact Hh'|done|..];
    destruct (sb_msg sb') eqn:E; try done. by intros l' [= -> ->].
Qed.

Lemma add_repeat_req_holds base items iid sb :
  sb_holds (λ _, RepeatReqs) iid_size base (-1) items sb →
  wp (sendbuf_add_repeat_req iid)
    (λ _ sb', sb_holds (λ _, RepeatReqs) iid_size base (-1) (items ++ [iid]) sb') sb.
Proof.
  intros Hh. unfold sendbuf_add_repeat_req. wp_steps.
  destruct (sh_size _ _ _ _ _ _ Hh) as (l & cs & Hm & _). rewrite Hm. wp_steps.
  change sizeof_iid with (iid_size iid).
  eapply (wp_make_room (λ _, RepeatReqs) iid_size repeat_reqs); [done|done|done|done|].
  intros sb' Hh' Hr. wp_steps. eapply (wp_sb_room (λ _, RepeatReqs)); [done|done|].
  unfold sb_grow. wp_steps. cbn.
  eapply (holds_push (λ _, RepeatReqs) iid_size); try done;
    destruct (sb_msg sb') eqn:E; try done. by intros l' [= ->].
Qed.

(** The acceptor's additions, with a state around the buffer. *)
Section acceptor_additions.
Context {St : Type} (proj : St → udp_send_buffer) (upd : udp_send_buffer → St → St).
Context (tx_begin tx_end : M St unit) (P : St → Prop).
Hypothesis proj_upd : ∀ sb s, proj (upd sb s) = sb.
Hypothesis upd_P : ∀ sb s, P s → P (upd sb s).
Hypothesis tx_end_ok : ∀ s, P s → wp tx_end (λ _ s', P s' ∧ proj s' = proj s) s.
Hypothesis tx_begin_ok : ∀ s, P s → wp tx_begin (λ _ s', P s' ∧ proj s' = proj s) s.

Lemma wp_make_room_tx {A} (mk : Z → list A → paxos_msg) size ct base id items x s
    (Q : unit → St → Prop) :
  (∀ id sb, sendbuf_clear ct id sb = Some (tt, cleared mk id sb)) → (∀ x, 0 ≤ size x) →
  sb_holds mk size base id items (proj s) → P s → item_fits size x →
  (∀ s', sb_holds mk size base id items (proj s') → has_room size x (proj s') → P s' → Q tt s') →
  wp (if sb_full (size x) (proj s)
      then tx_end;; zoom proj upd sendbuf_flush;; zoom proj upd (sendbuf_clear ct id);; tx_begin
      else mret tt) Q s.
Proof.
  intros Hct Hsz Hh HP Hx HQ. wp_case.
  - wp_steps. eapply wp_mono; [by apply tx_end_ok|]. intros _ s1 [HP1 Hp1]. wp_steps.
    rewrite <-Hp1 in Hh. eapply wp_flush_holds; [done|]. intros sb2 (cs & Hs & Hc & Hf). wp_steps.
    apply (wp_clear_ct mk); [done|].
    eapply wp_mono; [apply tx_begin_ok; by apply upd_P, upd_P|].
    intros [] s3 [HP3 Hp3]. rewrite !proj_upd in Hp3. apply HQ; rewrite ?Hp3; [| |done].
    + constructor. exists [], cs. cbn. by rewrite app_nil_r.
    + by eapply open_empty_room.
  - apply wp_ret, HQ; [done| |done]. by eapply not_full_room.
Qed.

Lemma add_prepare_ack_holds base id items rec s :
  sb_holds PrepareAcks PREPARE_ACK_SIZE base id items (proj s) → P s →
  item_fits PREPARE_ACK_SIZE (prepare_ack_of rec) →
  wp (sendbuf_add_prepare_ack proj upd tx_begin tx_end rec)
    (λ _ s', sb_holds PrepareAcks PREPARE_ACK_SIZE base id (items ++ [prepare_ack_of rec]) (proj s')
             ∧ P s') s.
Proof.
  intros Hh HP Hx. unfold sendbuf_add_prepare_ack. wp_steps.
  destruct (sh_size _ _ _ _ _ _ Hh) as (l & cs & Hm & _). rewrite Hm. wp_steps.
  replace (sizeof_prepare_ack + blen (aa_value rec)) with (PREPARE_ACK_SIZE (prepare_ack_of rec))
    by apply Z.add_comm.
  rewrite fits_wrap by auto with fds.
  eapply (wp_make_room_tx PrepareAcks PREPARE_ACK_SIZE prepare_acks); [done|auto with fds|done..|].
  intros s' Hh' Hr HP'. wp_steps. eapply (wp_sb_room PrepareAcks); [done|done|]. wp_steps.
  split; [|by apply upd_P]. rewrite proj_upd.
  eapply (holds_push PrepareAcks PREPARE_ACK_SIZE); [auto with fds|exact Hh'|done|..];
    destruct (sb_msg (proj s')) eqn:E; try done. by intros l' [= -> ->].
Qed.

Lemma add_accept_ack_holds base id items rec s :
  sb_holds AcceptAcks ACCEPT_ACK_SIZE base id items (proj s) → P s →
  item_fits ACCEPT_ACK_SIZE rec →
  wp (sendbuf_add_accept_ack proj upd tx_begin tx_end rec)
    (λ _ s', sb_holds AcceptAcks ACCEPT_ACK_SIZE base id (items ++ [rec]) (proj s') ∧ P s') s.
Proof.
  intros Hh HP Hx. unfold sendbuf_add_accept_ack. wp_steps.
  destruct (sh_size _ _ _ _ _ _ Hh) as (l & cs & Hm & _). rewrite Hm. wp_steps.
  rewrite fits_wrap by auto with fds.
  eapply (wp_make_room_tx AcceptAcks ACCEPT_ACK_SIZE accept_acks); [done|auto with fds|done..|].
  intros s' Hh' Hr HP'. wp_steps. eapply (wp_sb_room AcceptAcks); [done|done|]. wp_steps.
  split; [|by apply upd_P]. rewrite proj_upd.
  eapply (holds_push AcceptAcks ACCEPT_ACK_SIZE); [auto with fds|exact Hh'|done|..];
    destruct (sb_msg (proj s')) eqn:E; try done. by intros l' [= -> ->].
Qed.
End acceptor_additions.

(** ** Properties *)

(** The loop of a sender: open a batch, add the requests, send. *)
Definition send_accept_reqs (id : Z) (reqs : list accept_req) : M udp_send_buffer unit :=
  sendbuf_clear accept_reqs id;;
  mfor reqs (λ r, sendbuf_add_accept_req (ar_iid r) (ar_ballot r) (ar_value r));;
  sendbuf_flush.

(** C16. Batching is transparent and bounded: the accept requests that are
    added leave in order, none lost, repeated or split over two packets, in
    packets that are not empty and fit in the buffer of the receiver; no write
    leaves the send buffer. *)
Theorem batching_transparent id reqs sb :
  Forall (item_fits ACCEPT_REQ_SIZE) reqs →
  wp (send_accept_reqs id reqs)
    (λ _ sb', ∃ chunks,
      sent sb' = sent sb ++ map (AcceptReqs id) chunks ∧ concat chunks = reqs ∧
      Forall (λ c, c ≠ [] ∧ PAXOS_MSG_SIZE (AcceptReqs id c) < MAX_UDP_MSG_SIZE) chunks) sb.
Proof.
  intros Hfit. unfold send_accept_reqs. wp_steps.
  apply (wp_clear_holds AcceptReqs ACCEPT_REQ_SIZE); [done|]. intros sb1 Hh. wp_steps.
  apply (wp_mfor (λ dn sb', sb_holds AcceptReqs ACCEPT_REQ_SIZE (sent sb) id dn sb')); [done| |].
  - intros dn [iid b v] rest sb2 -> Hh2. apply add_accept_req_holds; [done|].
    apply Forall_app in Hfit as [_ Hfit]. by inversion Hfit.
  - clear sb1 Hh. intros sb1 Hh. by eapply wp_flush_holds.
Qed.

Lemma batching_transparent_witness :
  wp (send_accept_reqs 3 [mk_accept_req 1 4 [x61]; mk_accept_req 2 4 (pad 4000); mk_accept_req 3 4 (pad 3600)])
    (λ _ sb', ∃ chunks,
      sent sb' = [] ++ map (AcceptReqs 3) chunks ∧
      concat chunks = [mk_accept_req 1 4 [x61]; mk_accept_req 2 4 (pad 4000); mk_accept_req 3 4 (pad 3600)] ∧
      Forall (λ c, c ≠ [] ∧ PAXOS_MSG_SIZE (AcceptReqs 3 c) < MAX_UDP_MSG_SIZE) chunks)
    udp_sendbuf_new.
Proof.
  apply (batching_transparent 3 _ udp_sendbuf_new). repeat constructor.
Defined.

(** [pax_submit_nonblock] sends the value in one packet when it fits in
    the send buffer, and writes beyond the buffer when it does not: the size a
    client gives is compared with nothing, not with [PAXOS_MAX_VALUE_SIZE]
    either. *)
Theorem submit_unchecked v sb :
  0 <= blen v < 2 ^ 63 →
  (sent ∘ snd <$> pax_submit_nonblock v sb) =
  if blen v <=? MAX_UDP_MSG_SIZE - data_offset then Some (sent sb ++ [Submit v]) else None.
Proof.
  intros Hv. unfold pax_submit_nonblock, sendbuf_clear, sendbuf_add_submit_val, sendbuf_flush, sb_grow.
  cbn -[Z.leb]. unfold c_assert, data_offset.
  replace (12 + blen v <=? MAX_UDP_MSG_SIZE) with (blen v <=? MAX_UDP_MSG_SIZE - 12).
  - by destruct (blen v <=? MAX_UDP_MSG_SIZE - 12).
  - apply eq_bool_prop_intro. rewrite !Is_true_true, !Z.leb_le. lia.
Qed.

Lemma submit_unchecked_witness :
  (sent ∘ snd <$> pax_submit_nonblock [x61] udp_sendbuf_new) = Some [Submit [x61]] ∧
  (sent ∘ snd <$> pax_submit_nonblock (pad (Z.to_nat MAX_UDP_MSG_SIZE)) udp_sendbuf_new) = None.
Proof.
  split.
  - apply (submit_unchecked [x61] udp_sendbuf_new). done.
  - apply (submit_unchecked (pad (Z.to_nat MAX_UDP_MSG_SIZE)) udp_sendbuf_new). rewrite blen_pad. done.
Defined.
