(* ===== verification/BenchClient.v ===== *)
(** * The benchmark client of libpaxos2

    [paxos2/tests/benchmark_client.c]: a client that keeps [concurrent_values]
    values under way, submits each again when it is not delivered in time and
    replaces it when it is, and measures the latency.  [gettimeofday] and
    [random] are sequences, of which the client has a position.

    [benchmark_client_refines]: the client is [bench_spec], a client without
    [timeval] arithmetic, and its statistics are those of the latencies. *)
From Stdlib Require Import Init.Byte.
From S2P Require Import Prelude Timers Bytes PaxosWire SendBuffer.

(** [int] *)
Definition int32 (z : Z) : Z := let u := u32 z in if u <? 2 ^ 31 then u else u - 2 ^ 32.

(** ** Parameters *)

Record bench_options := mk_bench_options {
  concurrent_values : Z;      (* unsigned *)
  min_val_size : Z;
  max_val_size : Z;
  duration : Z;
  print_step : Z;
  wait_after_init : Z;
  values_timeout : timeval;
  sample_frequency : Z
}.

(** The defaults, with the timeout that [main] sets. *)
Definition default_options : bench_options :=
  mk_bench_options 30 30 PAXOS_MAX_VALUE_SIZE 40 10 0 (mk_timeval 5 0) 0.

Definition max_samples : Z := 500.

(** An option and [atoi] of its argument; [OptHelp] is [-h] and every other. *)
Inductive bench_option :=
  | OptConcurrent (n : Z) | OptMin (n : Z) | OptMax (n : Z) | OptDuration (n : Z) | OptTimeout (n : Z)
  | OptPrint (n : Z) | OptSample (n : Z) | OptWait (n : Z) | OptHelp.

Definition parse_option (o : bench_options) (c : bench_option) : option bench_options :=
  let '(mk_bench_options cv mi ma d p w t f) := o in
  match c with
  | OptConcurrent n => Some (mk_bench_options (u32 n) mi ma d p w t f)
  | OptMin n => Some (mk_bench_options cv n ma d p w t f)
  | OptMax n => Some (mk_bench_options cv mi n d p w t f)
  | OptDuration n => Some (mk_bench_options cv mi ma n p w t f)
  | OptTimeout n => Some (mk_bench_options cv mi ma d p w (mk_timeval n (tv_usec t)) f)
  | OptPrint n => Some (mk_bench_options cv mi ma d n w t f)
  | OptSample n => Some (mk_bench_options cv mi ma d p w t n)
  | OptWait n => Some (mk_bench_options cv mi ma d p n t f)
  | OptHelp => None
  end.

(** [parse_args]: [None] is [exit(0)]. *)
Fixpoint parse_args (o : bench_options) (cs : list bench_option) : option bench_options :=
  match cs with
  | [] => Some o
  | c :: cs => o ← parse_option o c; parse_args o cs
  end.

(** ** Times *)

Definition sum_timevals (t1 t2 : timeval) : timeval :=
  let usecs := u32 (tv_usec t1 + tv_usec t2) in
  if 1000000 <? usecs then mk_timeval (tv_sec t1 + tv_sec t2 + 1) (usecs mod 1000000)
  else mk_timeval (tv_sec t1 + tv_sec t2) usecs.

Definition is_gt_timeval (t1 t2 : timeval) : bool :=
  (tv_sec t2 <? tv_sec t1) || ((tv_sec t1 =? tv_sec t2) && (tv_usec t2 <? tv_usec t1)).

Definition is_lt_timeval (t1 t2 : timeval) : bool :=
  (tv_sec t1 <? tv_sec t2) || ((tv_sec t1 =? tv_sec t2) && (tv_usec t1 <? tv_usec t2)).

Definition sum_in_place_timevals (t1 t2 : timeval) : timeval :=
  let sec := tv_sec t1 + tv_sec t2 in
  let usec := tv_usec t1 + tv_usec t2 in
  if 1000000 <=? usec then mk_timeval (sec + 1) (Z.rem usec 1000000) else mk_timeval sec usec.

Definition subtract_in_place_timevals (t1 t2 : timeval) : timeval :=
  let sec := tv_sec t1 - tv_sec t2 in
  if tv_usec t2 <? tv_usec t1 then mk_timeval sec (tv_usec t1 - tv_usec t2)
  else mk_timeval (sec - 1) (tv_usec t1 + 1000000 - tv_usec t2).

Definition is_expired (deadline time_now : timeval) : bool :=
  if tv_sec deadline <? tv_sec time_now then true
  else (tv_sec time_now =? tv_sec deadline) && (tv_usec deadline <=? tv_usec time_now).

(** ** The client *)

Record client_value_record := mk_client_value {
  creation_time : timeval;
  expire_time : timeval;
  value : list byte
}.

(** The static variables.  A sample is kept as the time it is made of. *)
Record bench := mk_bench {
  delivered_count : Z;              (* int *)
  submitted_count : Z;
  retried_count : Z;
  values_table : list client_value_record;
  psh : udp_send_buffer;
  min_latency : timeval;
  max_latency : timeval;
  aggregated_latency : timeval;
  aggregated_latency_count : Z;     (* unsigned long *)
  samples : list timeval;
  clock : nat;                      (* the calls of gettimeofday *)
  draws : nat                       (* the calls of random *)
}.

#[export] Instance set_values_table : Setter values_table := λ g r,
  mk_bench (delivered_count r) (submitted_count r) (retried_count r) (g (values_table r)) (psh r) (min_latency r)
    (max_latency r) (aggregated_latency r) (aggregated_latency_count r) (samples r) (clock r) (draws r).
#[global] Arguments set_values_table _ _ /.
#[export] Instance set_psh : Setter psh := λ g r,
  mk_bench (delivered_count r) (submitted_count r) (retried_count r) (values_table r) (g (psh r)) (min_latency r)
    (max_latency r) (aggregated_latency r) (aggregated_latency_count r) (samples r) (clock r) (draws r).
#[global] Arguments set_psh _ _ /.

(** The table after [malloc]. *)
Definition no_record : client_value_record := mk_client_value timeval_zero timeval_zero [].

Section bench.
Context (opts : bench_options) (gettimeofday : nat → timeval) (random : nat → Z).

Abbreviation B := (M bench).

Definition read_clock : B timeval := λ s,
  Some (gettimeofday (clock s), mk_bench (delivered_count s) (submitted_count s) (retried_count s) (values_table s) (psh s)
    (min_latency s) (max_latency s) (aggregated_latency s) (aggregated_latency_count s) (samples s) (S (clock s)) (draws s)).

Definition draw : B Z := λ s,
  Some (random (draws s), mk_bench (delivered_count s) (submitted_count s) (retried_count s) (values_table s) (psh s)
    (min_latency s) (max_latency s) (aggregated_latency s) (aggregated_latency_count s) (samples s) (clock s) (S (draws s))).

Definition count_delivered : B unit := modify (λ s,
  mk_bench (int32 (delivered_count s + 1)) (submitted_count s) (retried_count s) (values_table s) (psh s)
    (min_latency s) (max_latency s) (aggregated_latency s) (aggregated_latency_count s) (samples s) (clock s) (draws s)).

Definition count_submitted : B unit := modify (λ s,
  mk_bench (delivered_count s) (int32 (submitted_count s + 1)) (retried_count s) (values_table s) (psh s)
    (min_latency s) (max_latency s) (aggregated_latency s) (aggregated_latency_count s) (samples s) (clock s) (draws s)).

Definition count_retried : B unit := modify (λ s,
  mk_bench (delivered_count s) (submitted_count s) (int32 (retried_count s + 1)) (values_table s) (psh s)
    (min_latency s) (max_latency s) (aggregated_latency s) (aggregated_latency_count s) (samples s) (clock s) (draws s)).

Definition get_value (i : Z) : B client_value_record := s ← get; lift_opt (arr_get (values_table s) i).
Definition set_value (i : Z) (r : client_value_record) : B unit := modify (λ s, s <| values_table ::= λ t, arr_set t i r |>).
Definition submit_nonblock (v : list byte) : B unit :=
  _ ← zoom psh (λ sb s, s <| psh := sb |>) (pax_submit_nonblock v); mret tt.

(** [save_latency_info] of a record, at [curr_time]. *)
Definition save_latency_info (cvr : client_value_record) (curr_time : timeval) : B unit :=
  let time_taken := subtract_in_place_timevals curr_time (creation_time cvr) in
  modify (λ s,
    let max_l := if is_gt_timeval time_taken (max_latency s) then time_taken else max_latency s in
    let min_l := if is_lt_timeval time_taken (min_latency s) then time_taken else min_latency s in
    let agg := sum_in_place_timevals (aggregated_latency s) time_taken in
    let count := u64 (aggregated_latency_count s + 1) in
    let samp := if negb (sample_frequency opts =? 0) && (Z.of_nat (length (samples s)) <? max_samples) &&
                   (count mod u64 (sample_frequency opts) =? 0)
                then samples s ++ [time_taken] else samples s in
    mk_bench (delivered_count s) (submitted_count s) (retried_count s) (values_table s) (psh s) min_l max_l agg count samp
      (clock s) (draws s)).

Definition submit_old_value (i : Z) : B unit :=
  count_retried;;
  time_now ← read_clock;
  r ← get_value i;
  set_value i (mk_client_value (creation_time r) (sum_timevals time_now (values_timeout opts)) (value r));;
  submit_nonblock (value r).

(** The draw modulo 0 is undefined, and a value beyond the buffer of a record is
    an overflow. *)
Definition random_value_gen : B (list byte) :=
  r ← draw;
  let range := max_val_size opts - min_val_size opts + 1 in
  c_assert (negb (range =? 0));;
  let val_size := Z.rem r range + min_val_size opts in
  let passes := u64 val_size / 8 in
  c_assert (passes * 8 <=? PAXOS_MAX_VALUE_SIZE);;
  mret (concat (replicate (Z.to_nat passes) (le_split 8 r))).

(** [submitted_count % print_step] is undefined for 0. *)
Definition submit_new_value (i : Z) : B unit :=
  count_submitted;;
  c_assert (negb (print_step opts =? 0));;
  v ← random_value_gen;
  now ← read_clock;
  _ ← get_value i;
  set_value i (mk_client_value now (sum_timevals now (values_timeout opts)) v);;
  submit_nonblock v.

Definition cl_periodic_timeout_check : B unit :=
  time_now ← read_clock;
  for_lt 0 (concurrent_values opts) (λ i,
    r ← get_value i;
    if is_expired (expire_time r) time_now then submit_old_value i else mret tt).

(** [cl_init]: the submit handle is made and the table is allocated, or the
    result is -1 ([None]). *)
Definition cl_init (handle_given table_given : bool) : B Z :=
  if negb handle_given then mret (-1)
  else if negb table_given then mret (-1)
  else
    modify (λ s, s <| psh := udp_sendbuf_new |>);;
    modify (λ s, s <| values_table := replicate (Z.to_nat (concurrent_values opts)) no_record |>);;
    for_lt 0 (concurrent_values opts) submit_new_value;;
    mret 0.

(** The loop of [cl_deliver] over the records from [i] on. *)
Fixpoint cl_deliver_loop (fuel : nat) (i : Z) (time_now : timeval) (v : list byte) : B unit :=
  match fuel with
  | O => mret tt
  | S fuel =>
      r ← get_value i;
      if (blen v =? blen (value r)) && bool_decide (v = value r) then
        save_latency_info r time_now;;
        submit_new_value i
      else cl_deliver_loop fuel (i + 1) time_now v
  end.

Definition cl_deliver (v : list byte) (iid : Z) : B unit :=
  count_delivered;;
  s ← get;
  c_assert (int32 iid =? delivered_count s);;
  time_now ← read_clock;
  cl_deliver_loop (Z.to_nat (concurrent_values opts)) 0 time_now v.

(** ** A run *)

Inductive bench_event := BDeliver (v : list byte) (iid : Z) | BCheck.

Definition bench_handle (ev : bench_event) : B unit :=
  match ev with BDeliver v iid => cl_deliver v iid | BCheck => cl_periodic_timeout_check end.

Definition bench_run (evs : list bench_event) : B Z :=
  r ← cl_init true true;
  mfor evs bench_handle;;
  mret r.
End bench.

(** [main] before the learner starts. *)
Definition bench_start : bench :=
  mk_bench 0 0 0 [] udp_sendbuf_new (mk_timeval 999999 999999) (mk_timeval 0 0) (mk_timeval 0 0) 0 [] 0 0.

(** ** Times in microseconds

    The results of the subtraction have from 1 to 1000000 microseconds, not from
    0 to 999999, and a deadline may have 1000000 of them; the comparisons are
    right all the same. *)

Definition taken_ok (t : timeval) : Prop := 0 < tv_usec t ≤ 1000000.
Definition deadline_ok (t : timeval) : Prop := 0 ≤ tv_usec t ≤ 1000000.

Lemma subtract_micros t1 t2 : tv_normal t1 → tv_normal t2 →
  taken_ok (subtract_in_place_timevals t1 t2) ∧ tv_micros (subtract_in_place_timevals t1 t2) = tv_micros t1 - tv_micros t2.
Proof.
  unfold tv_normal, taken_ok, tv_micros, subtract_in_place_timevals. intros H1 H2.
  destruct (Z.ltb_spec (tv_usec t2) (tv_usec t1)); simpl; lia.
Qed.

Lemma sum_micros t1 t2 : tv_normal t1 → tv_normal t2 →
  deadline_ok (sum_timevals t1 t2) ∧ tv_micros (sum_timevals t1 t2) = tv_micros t1 + tv_micros t2.
Proof.
  unfold tv_normal, deadline_ok, tv_micros, sum_timevals. intros H1 H2. rewrite (wrap_small 32) by lia.
  destruct (Z.ltb_spec 1000000 (tv_usec t1 + tv_usec t2)); simpl; [|lia].
  pose proof (Z.mod_pos_bound (tv_usec t1 + tv_usec t2) 1000000). pose proof (Z_div_mod_eq_full (tv_usec t1 + tv_usec t2) 1000000). lia.
Qed.

Lemma sum_in_place_micros t1 t2 : 0 ≤ tv_usec t1 < 1000000 → taken_ok t2 →
  0 ≤ tv_usec (sum_in_place_timevals t1 t2) < 1000000 ∧ tv_micros (sum_in_place_timevals t1 t2) = tv_micros t1 + tv_micros t2.
Proof.
  unfold taken_ok, tv_micros, sum_in_place_timevals. intros H1 H2.
  destruct (Z.leb_spec 1000000 (tv_usec t1 + tv_usec t2)); simpl; [|lia]. rewrite Z.rem_mod_nonneg by lia.
  pose proof (Z.mod_pos_bound (tv_usec t1 + tv_usec t2) 1000000). pose proof (Z_div_mod_eq_full (tv_usec t1 + tv_usec t2) 1000000). lia.
Qed.

Lemma gt_micros t1 t2 : taken_ok t1 → taken_ok t2 ∨ t2 = mk_timeval 0 0 → is_gt_timeval t1 t2 = (tv_micros t2 <? tv_micros t1).
Proof.
  unfold taken_ok, tv_micros, is_gt_timeval. intros H1 H2. apply eq_bool_prop_intro.
  rewrite orb_True, andb_True, !Is_true_true, !Z.ltb_lt, Z.eqb_eq. destruct H2 as [H2| ->]; simpl; lia.
Qed.

Lemma lt_micros t1 t2 : taken_ok t1 → taken_ok t2 → is_lt_timeval t1 t2 = (tv_micros t1 <? tv_micros t2).
Proof.
  unfold taken_ok, tv_micros, is_lt_timeval. intros H1 H2. apply eq_bool_prop_intro.
  rewrite orb_True, andb_True, !Is_true_true, !Z.ltb_lt, Z.eqb_eq. lia.
Qed.

Lemma expired_micros d now : deadline_ok d → tv_normal now → is_expired d now = (tv_micros d <=? tv_micros now).
Proof.
  unfold deadline_ok, tv_normal, tv_micros, is_expired. intros H1 H2. apply eq_bool_prop_intro.
  destruct (Z.ltb_spec (tv_sec d) (tv_sec now)); rewrite ?andb_True, !Is_true_true, ?Z.eqb_eq, !Z.leb_le; intuition lia.
Qed.

(** ** The reference client

    A slot is a value, the time it was first submitted and the time it is
    submitted again, in microseconds. *)

Record bench_slot := mk_slot { sl_value : list byte; sl_created : Z; sl_deadline : Z }.

Record bench_spec := mk_bench_spec {
  bs_slots : list bench_slot;
  bs_sent : list (list byte);
  bs_latencies : list Z;
  bs_resent : nat;
  bs_delivered : nat;
  bs_clock : nat;
  bs_draws : nat
}.

Section bench_spec.
Context (opts : bench_options) (gettimeofday : nat → timeval) (random : nat → Z).

Definition now_at (n : nat) : Z := tv_micros (gettimeofday n).

(** The value made of the [n]th draw. *)
Definition fresh_value (n : nat) : list byte :=
  let r := random n in
  concat (replicate (Z.to_nat ((r mod (max_val_size opts - min_val_size opts + 1) + min_val_size opts) / 8)) (le_split 8 r)).

Definition spec_new (i : nat) (sp : bench_spec) : bench_spec :=
  let v := fresh_value (bs_draws sp) in
  let t := now_at (bs_clock sp) in
  mk_bench_spec (<[i := mk_slot v t (t + tv_micros (values_timeout opts))]> (bs_slots sp)) (bs_sent sp ++ [v]) (bs_latencies sp)
    (bs_resent sp) (bs_delivered sp) (S (bs_clock sp)) (S (bs_draws sp)).

Definition spec_init : bench_spec :=
  let n := Z.to_nat (concurrent_values opts) in
  foldl (λ sp i, spec_new i sp) (mk_bench_spec (replicate n (mk_slot [] 0 0)) [] [] 0 0 0 0) (seq 0 n).

(** A value of the client ends a latency and is replaced; others are not its
    business. *)
Definition spec_deliver (v : list byte) (sp : bench_spec) : bench_spec :=
  let t := now_at (bs_clock sp) in
  let sp := mk_bench_spec (bs_slots sp) (bs_sent sp) (bs_latencies sp) (bs_resent sp) (S (bs_delivered sp)) (S (bs_clock sp)) (bs_draws sp) in
  match list_find (λ sl, sl_value sl = v) (bs_slots sp) with
  | Some (i, sl) =>
      spec_new i (mk_bench_spec (bs_slots sp) (bs_sent sp) (bs_latencies sp ++ [t - sl_created sl]) (bs_resent sp)
        (bs_delivered sp) (bs_clock sp) (bs_draws sp))
  | None => sp
  end.

(** A slot at its deadline is submitted again. *)
Definition spec_resend (t : Z) (i : nat) (sp : bench_spec) : bench_spec :=
  match bs_slots sp !! i with
  | Some sl =>
      if sl_deadline sl <=? t then
        mk_bench_spec (<[i := mk_slot (sl_value sl) (sl_created sl) (now_at (bs_clock sp) + tv_micros (values_timeout opts))]> (bs_slots sp))
          (bs_sent sp ++ [sl_value sl]) (bs_latencies sp) (S (bs_resent sp)) (bs_delivered sp) (S (bs_clock sp)) (bs_draws sp)
      else sp
  | None => sp
  end.

Definition spec_check (sp : bench_spec) : bench_spec :=
  let t := now_at (bs_clock sp) in
  let sp := mk_bench_spec (bs_slots sp) (bs_sent sp) (bs_latencies sp) (bs_resent sp) (bs_delivered sp) (S (bs_clock sp)) (bs_draws sp) in
  foldl (λ sp i, spec_resend t i sp) sp (seq 0 (length (bs_slots sp))).

Definition spec_handle (sp : bench_spec) (ev : bench_event) : bench_spec :=
  match ev with BDeliver v _ => spec_deliver v sp | BCheck => spec_check sp end.

Definition spec_run (evs : list bench_event) : bench_spec := foldl spec_handle spec_init evs.

(** What the reference client keeps. *)
Record spec_good (sp : bench_spec) : Prop := mk_spec_good {
  sg_slots : length (bs_slots sp) = Z.to_nat (concurrent_values opts);
  sg_sent : length (bs_sent sp) = (Z.to_nat (concurrent_values opts) + length (bs_latencies sp) + bs_resent sp)%nat;
  sg_values : Forall (λ sl, sl_value sl ∈ bs_sent sp) (bs_slots sp);
  sg_delivered : (length (bs_latencies sp) ≤ bs_delivered sp)%nat
}.
End bench_spec.

(** ** The client is the reference client *)

(** A loop over indices follows a fold. *)
Lemma for_lt_foldl {St Sp} (R : Sp → St → Prop) (f : Z → M St unit) (g : Sp → nat → Sp) (n : nat) sp s :
  (∀ i sp s, (i < n)%nat → R sp s → wp (f (Z.of_nat i)) (λ _ s', R (g sp i) s') s) → R sp s →
  wp (for_lt 0 (Z.of_nat n) f) (λ _ s', R (foldl g sp (seq 0 n)) s') s.
Proof.
  intros Hf. unfold for_lt, seqZ. rewrite Z.sub_0_r, Nat2Z.id.
  assert (∀ i, i ∈ seq 0 n → (i < n)%nat) as Hl by (intros i; rewrite elem_of_seq; lia). revert Hl sp s.
  generalize (seq 0 n). intros l Hl. induction l as [|i l IH]; intros sp s HR; [by apply wp_ret|].
  rewrite fmap_cons. cbn [mfor foldl]. apply wp_bind. rewrite Z.add_0_r.
  eapply wp_mono; [apply Hf; [apply Hl; left|done]|]. intros [] s' HR'. apply IH; [|done]. intros j Hj. apply Hl. by right.
Qed.

Lemma int32_succ n : int32 (int32 (Z.of_nat n) + 1) = int32 (Z.of_nat (S n)).
Proof.
  unfold int32. cbv zeta. replace (Z.of_nat (S n)) with (Z.of_nat n + 1) by lia. generalize (Z.of_nat n). intros x.
  assert (u32 ((if u32 x <? 2 ^ 31 then u32 x else u32 x - 2 ^ 32) + 1) = u32 (x + 1)) as ->; [|done].
  unfold wrap. destruct (_ <? _); [apply Zplus_mod_idemp_l|].
  rewrite <-(Zplus_mod_idemp_l x 1). replace (x mod 2 ^ 32 - 2 ^ 32 + 1) with (x mod 2 ^ 32 + 1 + -1 * 2 ^ 32) by lia.
  apply Z_mod_plus_full.
Qed.

(** The options a run makes sense with. *)
Record options_ok (o : bench_options) : Prop := mk_options_ok {
  oo_concurrent : 0 < concurrent_values o < 2 ^ 32;
  oo_sizes : 0 ≤ min_val_size o ≤ max_val_size o;
  oo_max : max_val_size o ≤ PAXOS_MAX_VALUE_SIZE;
  oo_print : print_step o ≠ 0;
  oo_timeout : tv_normal (values_timeout o)
}.

Lemma elem_of_snoc {A} (l : list A) x : x ∈ l ++ [x].
Proof. apply elem_of_app. right. left. Qed.

Lemma insert_values i sl (sent : list (list byte)) v (slots : list bench_slot) :
  Forall (λ sl, sl_value sl ∈ sent) slots → sl_value sl = v → Forall (λ sl, sl_value sl ∈ sent ++ [v]) (<[i := sl]> slots).
Proof.
  intros H <-. apply Forall_insert; [|apply elem_of_snoc]. eapply list.Forall_impl; [exact H|].
  intros sl' Hsl. apply elem_of_app. by left.
Qed.

Section refinement.
Context (opts : bench_options) (gettimeofday : nat → timeval) (random : nat → Z).
Context (Hopts : options_ok opts) (clock_normal : ∀ n, tv_normal (gettimeofday n)) (random_range : ∀ n, 0 ≤ random n < 2 ^ 31).
#[local] Abbreviation now_at := (now_at gettimeofday).
#[local] Abbreviation fresh_value := (fresh_value opts random).
#[local] Abbreviation spec_new := (spec_new opts gettimeofday random).

Record slot_rep (sl : bench_slot) (r : client_value_record) : Prop := mk_slot_rep {
  sr_value : value r = sl_value sl;
  sr_size : blen (value r) ≤ PAXOS_MAX_VALUE_SIZE;
  sr_created : tv_normal (creation_time r) ∧ tv_micros (creation_time r) = sl_created sl;
  sr_deadline : deadline_ok (expire_time r) ∧ tv_micros (expire_time r) = sl_deadline sl
}.

(** The state of the client and that of the reference client. *)
Record bench_rep (sp : bench_spec) (s : bench) : Prop := mk_bench_rep {
  br_slots : length (bs_slots sp) = Z.to_nat (concurrent_values opts);
  br_table : Forall2 slot_rep (bs_slots sp) (values_table s);
  br_sent : sent (psh s) = Submit <$> bs_sent sp;
  br_count : aggregated_latency_count s = u64 (Z.of_nat (length (bs_latencies sp)));
  br_sum : 0 ≤ tv_usec (aggregated_latency s) < 1000000 ∧ tv_micros (aggregated_latency s) = foldl Z.add 0 (bs_latencies sp);
  br_min : taken_ok (min_latency s) ∧ tv_micros (min_latency s) = foldl Z.min 999999999999 (bs_latencies sp);
  br_max : (taken_ok (max_latency s) ∨ max_latency s = mk_timeval 0 0) ∧
    tv_micros (max_latency s) = foldl Z.max 0 (bs_latencies sp);
  br_samples : Z.of_nat (length (samples s)) ≤ max_samples;
  br_delivered : delivered_count s = int32 (Z.of_nat (bs_delivered sp));
  br_retried : retried_count s = int32 (Z.of_nat (bs_resent sp));
  br_clock : clock s = bs_clock sp;
  br_draws : draws s = bs_draws sp
}.

Lemma value_range n : min_val_size opts ≤ random n mod (max_val_size opts - min_val_size opts + 1) + min_val_size opts ≤ max_val_size opts.
Proof using Hopts.
  destruct Hopts. pose proof (Z.mod_pos_bound (random n) (max_val_size opts - min_val_size opts + 1) ltac:(lia)). lia.
Qed.

Lemma blen_concat_replicate n (v : list byte) : blen (concat (replicate n v)) = Z.of_nat n * blen v.
Proof using Type. induction n as [|n IH]; [done|]. cbn [replicate concat]. rewrite blen_app, IH. lia. Qed.

Lemma blen_fresh_value n : blen (fresh_value n) ≤ max_val_size opts.
Proof using Hopts.
  unfold BenchClient.fresh_value. cbv zeta. rewrite blen_concat_replicate, blen_le_split. pose proof (value_range n).
  destruct Hopts. set (x := _ mod _ + _) in *. pose proof (Z.mul_div_le x 8 ltac:(lia)).
  assert (0 ≤ x / 8) by (apply Z.div_pos; lia). lia.
Qed.

Lemma random_value_gen_spec s :
  wp (random_value_gen opts random) (λ v s', v = fresh_value (draws s) ∧
    s' = mk_bench (delivered_count s) (submitted_count s) (retried_count s) (values_table s) (psh s) (min_latency s)
      (max_latency s) (aggregated_latency s) (aggregated_latency_count s) (samples s) (clock s) (S (draws s))) s.
Proof using Hopts random_range.
  unfold random_value_gen. apply wp_bind. cbv zeta. pose proof (value_range (draws s)) as Hv. destruct Hopts.
  unfold wp at 1, draw. apply wp_bind, wp_assert; [apply negb_true_iff, Z.eqb_neq; lia|].
  rewrite Z.rem_mod_nonneg by (pose proof (random_range (draws s)); lia).
  unfold PAXOS_MAX_VALUE_SIZE, MAX_UDP_MSG_SIZE in *. rewrite (wrap_small 64) by lia.
  apply wp_bind, wp_assert; [|by apply wp_ret].
  apply Z.leb_le. set (x := _ mod _ + _) in *. pose proof (Z.mul_div_le x 8 ltac:(lia)). lia.
Qed.

Lemma submit_nonblock_spec v s (Q : unit → bench → Prop) : blen v ≤ PAXOS_MAX_VALUE_SIZE →
  (∀ sb, sent sb = sent (psh s) ++ [Submit v] → Q tt (s <| psh := sb |>)) → wp (submit_nonblock v) Q s.
Proof using Type.
  intros Hv HQ. unfold submit_nonblock, PAXOS_MAX_VALUE_SIZE in *. pose proof (blen_nonneg v).
  pose proof (submit_unchecked v (psh s) ltac:(unfold MAX_UDP_MSG_SIZE in *; lia)) as E.
  replace (blen v <=? MAX_UDP_MSG_SIZE - data_offset) with true in E by (unfold data_offset; lia).
  apply wp_bind, wp_zoom. unfold wp. destruct (pax_submit_nonblock v (psh s)) as [[r sb]|]; [|done].
  injection E as E. by apply HQ.
Qed.

Lemma lookup_rep sp s i sl : bench_rep sp s → bs_slots sp !! i = Some sl →
  ∃ r, arr_get (values_table s) (Z.of_nat i) = Some r ∧ slot_rep sl r.
Proof using Type.
  intros Hr Hi. destruct (Forall2_lookup_l _ _ _ _ _ (br_table _ _ Hr) Hi) as (r & Hr1 & Hr2).
  exists r. split; [|done]. apply arr_get_Some. rewrite Nat2Z.id. split; [lia|done].
Qed.

Lemma slot_exists sp s i : bench_rep sp s → (i < Z.to_nat (concurrent_values opts))%nat → is_Some (bs_slots sp !! i).
Proof using Type. intros Hr Hi. apply lookup_lt_is_Some. by rewrite (br_slots _ _ Hr). Qed.

Lemma fresh_deadline n : deadline_ok (sum_timevals (gettimeofday n) (values_timeout opts)) ∧
  tv_micros (sum_timevals (gettimeofday n) (values_timeout opts)) = now_at n + tv_micros (values_timeout opts).
Proof using Hopts clock_normal. apply sum_micros; [done|apply Hopts]. Qed.

(** A new value in slot [i]. *)
Lemma submit_new_value_spec sp s i : (i < Z.to_nat (concurrent_values opts))%nat → bench_rep sp s →
  wp (submit_new_value opts gettimeofday random (Z.of_nat i)) (λ _ s', bench_rep (spec_new i sp) s') s.
Proof using Hopts clock_normal random_range.
  intros Hi Hr. destruct (slot_exists _ _ _ Hr Hi) as [sl Hsl]. destruct (lookup_rep _ _ _ _ Hr Hsl) as (r & Hget & _).
  pose proof (blen_fresh_value (draws s)) as Hsize. pose proof (fresh_deadline (clock s)) as Hdl.
  unfold submit_new_value. apply wp_bind, wp_modify, wp_bind, wp_assert; [apply negb_true_iff, Z.eqb_neq, Hopts|].
  apply wp_bind. eapply wp_mono; [apply random_value_gen_spec|]. intros v s1 [-> ->]. cbn [draws].
  apply wp_bind. unfold wp at 1, read_clock. cbn. unfold get_value. apply wp_bind, wp_bind, wp_get. cbn.
  eapply wp_lift_opt; [exact Hget|]. unfold set_value. apply wp_bind, wp_modify.
  pose proof (oo_max _ Hopts). apply submit_nonblock_spec; [lia|].
  intros sb Hsb. destruct Hr. unfold BenchClient.spec_new. rewrite <-br_clock0, <-br_draws0. cbn in *.
  constructor; cbn; [by rewrite length_insert| | |done..].
  - unfold arr_set. rewrite Nat2Z.id. apply Forall2_insert; [done|]. constructor; cbn; [done|lia|by split|done].
  - rewrite Hsb, br_sent0, fmap_app. done.
Qed.

(** A slot at its deadline. *)
Lemma bench_resend_spec t sp s i : tv_normal t → (i < Z.to_nat (concurrent_values opts))%nat → bench_rep sp s →
  wp (r ← get_value (Z.of_nat i); if is_expired (expire_time r) t then submit_old_value opts gettimeofday (Z.of_nat i) else mret tt)
    (λ _ s', bench_rep (spec_resend opts gettimeofday (tv_micros t) i sp) s') s.
Proof using Hopts clock_normal.
  intros Ht Hi Hr. destruct (slot_exists _ _ _ Hr Hi) as [sl Hsl]. destruct (lookup_rep _ _ _ _ Hr Hsl) as (r & Hget & [H1 H2 H3 [H4 H5]]).
  unfold get_value. apply wp_bind, wp_bind, wp_get. eapply wp_lift_opt; [exact Hget|].
  unfold spec_resend. rewrite Hsl, expired_micros, H5 by done. destruct (sl_deadline sl <=? tv_micros t); [|by apply wp_ret].
  pose proof (fresh_deadline (clock s)) as Hdl. unfold submit_old_value. apply wp_bind, wp_modify, wp_bind.
  unfold wp at 1, read_clock. cbn. apply wp_bind. unfold get_value. apply wp_bind, wp_get. cbn.
  eapply wp_lift_opt; [exact Hget|]. unfold set_value. apply wp_bind, wp_modify, submit_nonblock_spec; [done|].
  intros sb Hsb. destruct Hr. rewrite <-br_clock0. cbn in *.
  constructor; cbn; [by rewrite length_insert| | |done|done|done|done|done|done|by rewrite br_retried0, int32_succ|done|done].
  - unfold arr_set. rewrite Nat2Z.id. apply Forall2_insert; [done|]. by constructor.
  - rewrite Hsb, br_sent0, fmap_app, H1. done.
Qed.

Lemma bench_check_spec sp s : bench_rep sp s →
  wp (cl_periodic_timeout_check opts gettimeofday) (λ _ s', bench_rep (spec_check opts gettimeofday sp) s') s.
Proof using Hopts clock_normal.
  intros Hr. unfold cl_periodic_timeout_check. apply wp_bind. unfold wp at 1, read_clock.
  pose proof (oo_concurrent _ Hopts) as Hc. unfold spec_check. cbv zeta. cbn [bs_slots]. rewrite (br_slots _ _ Hr).
  rewrite <-(Z2Nat.id (concurrent_values opts)) at 1 by lia. unfold now_at. rewrite <-(br_clock _ _ Hr).
  apply (for_lt_foldl bench_rep).
  - intros i sp' s' Hi Hr'. by apply bench_resend_spec.
  - destruct Hr. by constructor.
Qed.

Lemma u64_succ n : u64 (u64 (Z.of_nat n) + 1) = u64 (Z.of_nat (n + 1)).
Proof using Type. unfold wrap. rewrite Zplus_mod_idemp_l. f_equal. lia. Qed.

(** The statistics take the latency of a value that was delivered. *)
Lemma bench_save_latency_spec sp s r t c : tv_normal t → tv_normal (creation_time r) → tv_micros (creation_time r) = c → bench_rep sp s →
  wp (save_latency_info opts r t) (λ _ s', bench_rep (mk_bench_spec (bs_slots sp) (bs_sent sp)
    (bs_latencies sp ++ [tv_micros t - c]) (bs_resent sp) (bs_delivered sp) (bs_clock sp) (bs_draws sp)) s') s.
Proof using Type.
  intros Ht Hc <- Hr. unfold save_latency_info. cbv zeta. apply wp_modify.
  destruct (subtract_micros t (creation_time r) Ht Hc) as [Htk Hm]. revert Htk Hm.
  generalize (subtract_in_place_timevals t (creation_time r)). intros tk Htk Hm.
  destruct Hr as [? ? ? Hcnt [Ha1 Ha2] [Hmi1 Hmi2] [Hma1 Hma2] Hsam ? ? ? ?].
  destruct (sum_in_place_micros _ _ Ha1 Htk) as [Hs1 Hs2].
  constructor; cbn; try done.
  - by rewrite Hcnt, length_app, u64_succ.
  - split; [done|]. by rewrite foldl_app, Hs2, Ha2, Hm.
  - rewrite foldl_app, <-Hmi2, <-Hm, lt_micros by done. cbn [foldl]. destruct (Z.ltb_spec (tv_micros tk) (tv_micros (min_latency s))); (split; [done|lia]).
  - rewrite foldl_app, <-Hma2, <-Hm, gt_micros by done. cbn [foldl]. destruct (Z.ltb_spec (tv_micros (max_latency s)) (tv_micros tk)); (split; [auto|lia]).
  - destruct (_ && (Z.of_nat (length (samples s)) <? max_samples) && _) eqn:E; [|done]. apply andb_prop in E as [E _].
    apply andb_prop in E as [_ E]. apply Z.ltb_lt in E. rewrite length_app. cbn. lia.
Qed.

Lemma same_value v sl r : slot_rep sl r → (blen v =? blen (value r)) && bool_decide (v = value r) = bool_decide (sl_value sl = v).
Proof using Type.
  intros [<- _ _ _]. destruct (decide (value r = v)) as [<-|Hn].
  - by rewrite Z.eqb_refl, !bool_decide_eq_true_2.
  - rewrite !bool_decide_eq_false_2 by congruence. by rewrite andb_false_r.
Qed.

(** The loop ends at the first slot with the value. *)
Lemma bench_deliver_loop_spec v t fuel i sp s : tv_normal t → bench_rep sp s → (i + fuel = Z.to_nat (concurrent_values opts))%nat →
  wp (cl_deliver_loop opts gettimeofday random fuel (Z.of_nat i) t v) (λ _ s', bench_rep
    (match list_find (λ sl, sl_value sl = v) (drop i (bs_slots sp)) with
     | Some (j, sl) => spec_new (i + j) (mk_bench_spec (bs_slots sp) (bs_sent sp) (bs_latencies sp ++ [tv_micros t - sl_created sl])
         (bs_resent sp) (bs_delivered sp) (bs_clock sp) (bs_draws sp))
     | None => sp
     end) s') s.
Proof using Hopts clock_normal random_range.
  intros Ht Hr. revert i. induction fuel as [|fuel IH]; intros i Hi; cbn [cl_deliver_loop].
  - rewrite drop_ge by (rewrite (br_slots _ _ Hr); lia). by apply wp_ret.
  - destruct (slot_exists _ _ i Hr ltac:(lia)) as [sl Hsl]. destruct (lookup_rep _ _ _ _ Hr Hsl) as (r & Hget & Hrep).
    unfold get_value. apply wp_bind, wp_bind, wp_get. eapply wp_lift_opt; [exact Hget|]. rewrite (same_value _ _ _ Hrep).
    rewrite (drop_S _ _ _ Hsl). cbn [list_find]. case_bool_decide as Hv.
    + rewrite decide_True by done. cbn. rewrite Nat.add_0_r. destruct Hrep as [_ _ [Hc1 Hc2] _].
      apply wp_bind. eapply wp_mono; [by apply bench_save_latency_spec|]. intros [] s' Hr'. by apply submit_new_value_spec; [lia|].
    + rewrite decide_False by done. replace (Z.of_nat i + 1) with (Z.of_nat (S i)) by lia.
      eapply wp_mono; [apply IH; lia|]. intros [] s' Hr'. destruct (list_find _ _) as [[j sl']|]; cbn in *; [|done].
      by rewrite Nat.add_succ_r.
Qed.

Lemma deliver_spec v iid sp s : int32 iid = int32 (Z.of_nat (S (bs_delivered sp))) → bench_rep sp s →
  wp (cl_deliver opts gettimeofday random v iid) (λ _ s', bench_rep (spec_deliver opts gettimeofday random v sp) s') s.
Proof using Hopts clock_normal random_range.
  intros Hiid Hr. unfold cl_deliver. apply wp_bind, wp_modify, wp_bind, wp_get. cbn.
  apply wp_bind, wp_assert; [rewrite (br_delivered _ _ Hr), int32_succ; by apply Z.eqb_eq|].
  apply wp_bind. unfold wp at 1, read_clock. cbn.
  pose proof (bench_deliver_loop_spec v (gettimeofday (clock s)) (Z.to_nat (concurrent_values opts)) 0
    (mk_bench_spec (bs_slots sp) (bs_sent sp) (bs_latencies sp) (bs_resent sp) (S (bs_delivered sp)) (S (bs_clock sp)) (bs_draws sp))) as Hloop.
  cbn in Hloop. unfold spec_deliver. cbv zeta. cbn. unfold now_at. rewrite <-(br_clock _ _ Hr). rewrite <-(br_clock _ _ Hr) in Hloop.
  apply Hloop; [done| |done]. destruct Hr. constructor; cbn; try done. by rewrite br_delivered0, int32_succ.
Qed.

Lemma bench_init_spec : wp (cl_init opts gettimeofday random true true)
  (λ r s', r = 0 ∧ bench_rep (spec_init opts gettimeofday random) s') bench_start.
Proof using Hopts clock_normal random_range.
  unfold cl_init. apply wp_bind, wp_modify, wp_bind, wp_modify, wp_bind. pose proof (oo_concurrent _ Hopts).
  rewrite <-(Z2Nat.id (concurrent_values opts)) at 1 by lia. unfold spec_init. cbv zeta.
  eapply wp_mono; [apply (for_lt_foldl bench_rep)|intros [] s Hr; by apply wp_ret].
  - intros i sp s Hi Hr. by apply submit_new_value_spec.
  - constructor; cbn; [by rewrite length_replicate|apply Forall2_replicate; by constructor|done|done|done|done| |done..].
    split; [by right|done].
Qed.

(** The learner delivers the instances one after the other
    ([learner_delivers_quorums]). *)
Fixpoint in_order (n : nat) (evs : list bench_event) : Prop :=
  match evs with
  | [] => True
  | BDeliver v iid :: evs => iid = u32 (Z.of_nat (S n)) ∧ in_order (S n) evs
  | BCheck :: evs => in_order n evs
  end.

Lemma spec_resend_delivered t i sp : bs_delivered (spec_resend opts gettimeofday t i sp) = bs_delivered sp.
Proof using Type. unfold spec_resend. by repeat case_match. Qed.

Lemma foldl_pres {Sp A X} (f : Sp → A) (g : Sp → X → Sp) l sp : (∀ sp x, f (g sp x) = f sp) → f (foldl g sp l) = f sp.
Proof using Type. intros H. revert sp. induction l as [|x l IH]; intros sp; [done|]. cbn. by rewrite IH. Qed.

Lemma spec_check_delivered sp : bs_delivered (spec_check opts gettimeofday sp) = bs_delivered sp.
Proof using Type. unfold spec_check. cbv zeta. by rewrite (foldl_pres bs_delivered) by (intros; apply spec_resend_delivered). Qed.

Lemma spec_deliver_delivered v sp : bs_delivered (spec_deliver opts gettimeofday random v sp) = S (bs_delivered sp).
Proof using Type. unfold spec_deliver. cbv zeta. by destruct (list_find _ _) as [[]|]. Qed.

Lemma events_spec evs sp s : in_order (bs_delivered sp) evs → bench_rep sp s →
  wp (mfor evs (bench_handle opts gettimeofday random)) (λ _ s', bench_rep (foldl (spec_handle opts gettimeofday random) sp evs) s') s.
Proof using Hopts clock_normal random_range.
  revert sp s. induction evs as [|[v iid|] evs IH]; intros sp s Ho Hr; [by apply wp_ret| |]; cbn [mfor foldl bench_handle spec_handle] in *; apply wp_bind.
  - destruct Ho as [-> Ho]. eapply wp_mono; [apply deliver_spec; [|done]|].
    + unfold int32. by rewrite wrap_idemp.
    + intros [] s' Hr'. apply IH; [by rewrite spec_deliver_delivered|done].
  - eapply wp_mono; [by apply bench_check_spec|]. intros [] s' Hr'. apply IH; [by rewrite spec_check_delivered|done].
Qed.

(** ** What the reference client keeps *)

#[local] Abbreviation good := (spec_good opts).

Lemma spec_deliver_good v sp : good sp → good (spec_deliver opts gettimeofday random v sp).
Proof using Type.
  intros [H1 H2 H3 H4]. unfold spec_deliver. cbv zeta. cbn. destruct (list_find _ _) as [[i sl]|]; [|constructor; cbn; auto].
  unfold BenchClient.spec_new. constructor; cbn.
  - by rewrite length_insert.
  - rewrite !length_app. cbn. lia.
  - by apply insert_values.
  - rewrite length_app. cbn. lia.
Qed.

Lemma spec_resend_good t i sp : good sp → good (spec_resend opts gettimeofday t i sp).
Proof using Type.
  intros [H1 H2 H3 H4]. unfold spec_resend. destruct (_ !! i) as [sl|]; [|by constructor].
  destruct (_ <=? _); [|by constructor]. constructor; cbn; [by rewrite length_insert| | |done].
  - rewrite length_app. cbn. lia.
  - by apply insert_values.
Qed.

Lemma spec_check_good sp : good sp → good (spec_check opts gettimeofday sp).
Proof using Type.
  intros [H1 H2 H3 H4]. unfold spec_check. cbv zeta. cbn. set (sp1 := mk_bench_spec _ _ _ _ _ _ _).
  assert (good sp1) as Hg by by constructor. revert Hg. generalize sp1. generalize (seq 0 (length (bs_slots sp))) (now_at (bs_clock sp)).
  intros l t. induction l as [|i l IH]; intros sp2 Hg; [done|]. cbn. by apply IH, spec_resend_good.
Qed.

(** After [k] of the first submissions. *)
Lemma spec_init_good : good (spec_init opts gettimeofday random).
Proof using Type.
  unfold spec_init. cbv zeta. set (n := Z.to_nat (concurrent_values opts)).
  assert (∀ k, (k ≤ n)%nat → let sp := foldl (λ sp i, spec_new i sp) (mk_bench_spec (replicate n (mk_slot [] 0 0)) [] [] 0 0 0 0) (seq 0 k) in
    length (bs_slots sp) = n ∧ length (bs_sent sp) = k ∧ bs_latencies sp = [] ∧ bs_resent sp = 0%nat ∧
    ∀ j sl, (j < k)%nat → bs_slots sp !! j = Some sl → sl_value sl ∈ bs_sent sp) as H.
  { induction k as [|k IH]; intros Hk; [cbn; rewrite length_replicate; split_and!; [done..|lia]|].
    rewrite seq_S, foldl_app. cbv zeta. cbn [foldl]. destruct (IH ltac:(lia)) as (H1 & H2 & H3 & H4 & H5).
    set (sp := foldl _ _ _) in *. unfold BenchClient.spec_new. cbn. rewrite length_insert, length_app, H2. cbn.
    split_and!; [done|lia|done|done|]. intros j sl Hj Hsl. destruct (decide (j = k)) as [->|Hne].
    - rewrite list_lookup_insert_eq in Hsl by lia. injection Hsl as <-. cbn. apply elem_of_snoc.
    - rewrite list_lookup_insert_ne in Hsl by done. apply elem_of_app. left. apply (H5 j); [lia|done]. }
  destruct (H n ltac:(done)) as (H1 & H2 & H3 & H4 & H5). cbv zeta in *. constructor; [done|rewrite H3, H4; cbn; lia| |rewrite H3; cbn; lia].
  apply list.Forall_lookup. intros j sl Hsl. apply (H5 j); [|done]. apply lookup_lt_Some in Hsl. lia.
Qed.

Lemma spec_run_good evs : good (spec_run opts gettimeofday random evs).
Proof using Type.
  unfold spec_run. pose proof spec_init_good as Hg. revert Hg. generalize (spec_init opts gettimeofday random).
  induction evs as [|[v iid|] evs IH]; intros sp Hg; [done| |]; cbn [foldl spec_handle]; apply IH;
    [by apply spec_deliver_good|by apply spec_check_good].
Qed.

(** C36. The benchmark client is a closed loop that measures right.  For all
    options that make sense and every clock, whatever the learner delivers in
    order and whenever the timer fires, the client never fails and is at every
    point the reference client, whose times are integers of microseconds: it has
    [concurrent_values] values under way, each of which it sent; it sent one
    value per slot, one per value of its own that was delivered and one per
    timeout; and the sum, the minimum, the maximum and the number it keeps are
    those of the latencies, although the [timeval]s it computes are not
    normalised. *)
Theorem benchmark_client_refines evs : in_order 0 evs →
  let sp := spec_run opts gettimeofday random evs in
  wp (bench_run opts gettimeofday random evs) (λ r s', r = 0 ∧ bench_rep sp s' ∧ spec_good opts sp) bench_start.
Proof using Hopts clock_normal random_range.
  intros Ho sp. unfold bench_run. apply wp_bind. eapply wp_mono; [apply bench_init_spec|]. intros r s [-> Hr]. apply wp_bind.
  eapply wp_mono; [apply (events_spec evs (spec_init opts gettimeofday random) s); [|done]|].
  - unfold spec_init. cbv zeta. rewrite (foldl_pres bs_delivered); [exact Ho|]. by intros.
  - intros [] s' Hr'. apply wp_ret. split; [done|]. split; [exact Hr'|apply spec_run_good].
Qed.
End refinement.

(** A run: three values under way, one of which is delivered after 4 seconds,
    and the two others submitted again. *)
Definition example_options : bench_options := mk_bench_options 3 16 24 40 10 0 (mk_timeval 5 0) 0.
Definition example_clock (n : nat) : timeval := mk_timeval (Z.of_nat n * 2) (500000 * (Z.of_nat n mod 2)).
Definition example_random (n : nat) : Z := 1000 + Z.of_nat n mod 1000.
Definition example_events : list bench_event :=
  [BDeliver (fresh_value example_options example_random 1) 1; BDeliver [x61] 2; BCheck].

Lemma benchmark_client_refines_witness :
  let sp := spec_run example_options example_clock example_random example_events in
  (bs_latencies sp = [4000000] ∧ bs_resent sp = 2%nat) ∧
  wp (bench_run example_options example_clock example_random example_events)
    (λ r s', r = 0 ∧ bench_rep example_options sp s' ∧ spec_good example_options sp) bench_start.
Proof.
  assert (H1 : options_ok example_options) by (by constructor).
  assert (H2 : ∀ n, tv_normal (example_clock n)).
  { intros n. unfold tv_normal, example_clock. cbn. pose proof (Z.mod_pos_bound (Z.of_nat n) 2 ltac:(lia)). lia. }
  assert (H3 : ∀ n, 0 ≤ example_random n < 2 ^ 31).
  { intros n. unfold example_random. pose proof (Z.mod_pos_bound (Z.of_nat n) 1000 ltac:(lia)). lia. }
  split; [by vm_compute|].
  exact (benchmark_client_refines example_options example_clock example_random H1 H2 H3 example_events ltac:(done)).
Defined.
