(* ===== verification/StableStorage.v ===== *)
(** * The stable storage of an acceptor

    [paxos2/lib/acceptor_stable_storage.c]: one record per instance in a
    Berkeley DB.  The database is a parameter, given by the class
    [RecordStore] (what its functions return) and the class
    [RecordStoreLaws] (what they do); opening and closing it is in [StorageInit].
    Every record is read into and written from one static buffer, and the
    [acceptor_record *] of the source is NULL or that buffer. *)
From Stdlib Require Import Init.Byte.
From S2P Require Import Prelude Bytes PaxosWire.

(** [DB->get]: a record, [DB_NOTFOUND]/[DB_KEYEMPTY], or another error. *)
Inductive db_answer :=
  | DbFound (r : acceptor_record)
  | DbNotFound
  | DbError.

(** The calls of Berkeley DB; [None] is a result other than 0. *)
Class RecordStore (DB : Type) := {
  db_get : DB → Z → db_answer;
  db_put : DB → Z → acceptor_record → option DB;
  db_sync : DB → option DB;
  txn_begin : DB → option DB;
  txn_commit : DB → option DB
}.

(** Record numbers start at 1 with the access method [DB_RECNO]. *)
Class RecordStoreLaws (DB : Type) `{!RecordStore DB} := {
  db_view : DB → gmap Z acceptor_record;
  db_get_view db k : 1 ≤ k →
    db_get db k = match db_view db !! k with Some r => DbFound r | None => DbNotFound end;
  db_put_view db k r : 1 ≤ k →
    ∃ db', db_put db k r = Some db' ∧ db_view db' = <[k:=r]> (db_view db);
  db_sync_view db : ∃ db', db_sync db = Some db' ∧ db_view db' = db_view db;
  txn_begin_view db : ∃ db', txn_begin db = Some db' ∧ db_view db' = db_view db;
  txn_commit_view db : ∃ db', txn_commit db = Some db' ∧ db_view db' = db_view db
}.

(** A store in memory. *)
#[export] Instance gmap_store : RecordStore (gmap Z acceptor_record) := {
  db_get m k := if k <? 1 then DbError
                else match m !! k with Some r => DbFound r | None => DbNotFound end;
  db_put m k r := if k <? 1 then None else Some (<[k:=r]> m);
  db_sync m := Some m;
  txn_begin m := Some m;
  txn_commit m := Some m
}.

#[export] Instance gmap_store_laws : RecordStoreLaws (gmap Z acceptor_record).
Proof.
  refine {| db_view := λ m : gmap Z acceptor_record, m |}; cbn; eauto.
  - intros m k Hk. by destruct (Z.ltb_spec k 1); [lia|].
  - intros m k r Hk. destruct (Z.ltb_spec k 1); [lia|]. eauto.
Defined.

(** The static variables of the module. *)
Record storage (DB : Type) := mk_storage { dbp : DB; record_buffer : acceptor_record }.
Arguments mk_storage {DB}.
Arguments dbp {DB}.
Arguments record_buffer {DB}.

#[export] Instance set_dbp {DB} : Setter (@dbp DB) := λ g r, mk_storage (g (dbp r)) (record_buffer r).
#[global] Arguments set_dbp _ _ _ /.
#[export] Instance set_record_buffer {DB} : Setter (@record_buffer DB) := λ g r,
  mk_storage (dbp r) (g (record_buffer r)).
#[global] Arguments set_record_buffer _ _ _ /.

#[export] Instance set_aa_ballot : Setter aa_ballot := λ g r,
  mk_accept_ack (aa_iid r) (g (aa_ballot r)) (aa_value_ballot r) (aa_is_final r) (aa_value r).
#[global] Arguments set_aa_ballot _ _ /.

Definition empty_record : acceptor_record := mk_accept_ack 0 0 0 0 [].

Section storage_ops.
Context {DB : Type} `{!RecordStore DB}.
(** [DURABILITY_MODE] *)
Context (mode : Z).
Implicit Types (s : storage DB).

Definition on_db (f : DB → option DB) : M (storage DB) unit :=
  s ← get; db ← lift_opt (f (dbp s)); put (s <| dbp := db |>).

Definition stablestorage_tx_begin : M (storage DB) unit :=
  if (mode =? 0) || (mode =? 20) then mret tt
  else on_db txn_begin.

Definition stablestorage_tx_end : M (storage DB) unit :=
  if mode =? 0 then mret tt
  else if mode =? 20 then on_db db_sync
  else on_db txn_commit.

Definition stablestorage_get_record (iid : Z) : M (storage DB) (option acceptor_record) :=
  s ← get;
  match db_get (dbp s) iid with
  | DbNotFound => mret None
  | DbError => mret None
  | DbFound r =>
      modify (λ s, s <| record_buffer := r |>);;
      c_assert (iid =? aa_iid r);;
      mret (Some r)
  end.

(** [dbp->put] of the record buffer, and [return record_buffer]. *)
Definition put_record_buffer (iid : Z) : M (storage DB) acceptor_record :=
  s ← get;
  on_db (λ db, db_put db iid (record_buffer s));;
  mret (record_buffer s).

(** [memcpy] of a value into the record buffer. *)
Definition value_room (v : list byte) : M (storage DB) unit :=
  c_assert (sizeof_accept_ack + blen v <=? MAX_UDP_MSG_SIZE).

Definition stablestorage_save_accept (ar : accept_req) : M (storage DB) acceptor_record :=
  value_room (ar_value ar);;
  modify (λ s, s <| record_buffer :=
    mk_accept_ack (ar_iid ar) (ar_ballot ar) (ar_ballot ar) 0 (ar_value ar) |>);;
  put_record_buffer (ar_iid ar).

(** [rec] is NULL or the record buffer. *)
Definition stablestorage_save_prepare (pr : prepare_req) (rec : option acceptor_record) :
    M (storage DB) acceptor_record :=
  (match rec with
   | None => modify (λ s, s <| record_buffer := mk_accept_ack (pr_iid pr) (pr_ballot pr) 0 0 [] |>)
   | Some _ => modify (λ s, s <| record_buffer ::= (λ r, r <| aa_ballot := pr_ballot pr |>) |>)
   end);;
  put_record_buffer (pr_iid pr).

Definition stablestorage_save_final_value (value : list byte) (iid ballot : Z) :
    M (storage DB) acceptor_record :=
  value_room value;;
  modify (λ s, s <| record_buffer := mk_accept_ack iid ballot ballot 1 value |>);;
  put_record_buffer iid.

(** ** What the operations do to the contents of the database *)

Context `{!RecordStoreLaws DB}.

Definition stored s : gmap Z acceptor_record := db_view (dbp s).

(** Every record is stored under its own instance, and fits in the buffer. *)
Definition records_ok (m : gmap Z acceptor_record) : Prop :=
  map_Forall (λ k r, aa_iid r = k ∧ sizeof_accept_ack + blen (aa_value r) ≤ MAX_UDP_MSG_SIZE) m.

Lemma wp_on_db (f : DB → option DB) s db' (Q : unit → storage DB → Prop) :
  f (dbp s) = Some db' → Q tt (s <| dbp := db' |>) → wp (on_db f) Q s.
Proof. intros Hf HQ. unfold on_db. wp_steps. by eapply wp_lift_opt. Qed.

Lemma tx_begin_spec s :
  wp stablestorage_tx_begin
    (λ _ s', stored s' = stored s ∧ record_buffer s' = record_buffer s) s.
Proof.
  unfold stablestorage_tx_begin. wp_case; [by apply wp_ret|].
  destruct (txn_begin_view (dbp s)) as (db' & ? & ?). by eapply wp_on_db.
Qed.

Lemma tx_end_spec s :
  wp stablestorage_tx_end
    (λ _ s', stored s' = stored s ∧ record_buffer s' = record_buffer s) s.
Proof.
  unfold stablestorage_tx_end. repeat wp_case; [by apply wp_ret| |].
  - destruct (db_sync_view (dbp s)) as (db' & ? & ?). by eapply wp_on_db.
  - destruct (txn_commit_view (dbp s)) as (db' & ? & ?). by eapply wp_on_db.
Qed.

(** A record that is found is in the record buffer too. *)
Lemma get_record_spec iid s :
  1 ≤ iid → records_ok (stored s) →
  wp (stablestorage_get_record iid)
    (λ r s', r = stored s !! iid ∧ stored s' = stored s ∧ ∀ x, r = Some x → record_buffer s' = x) s.
Proof.
  intros Hi Hok. unfold stablestorage_get_record. wp_steps. rewrite db_get_view by done.
  unfold stored. destruct (db_view (dbp s) !! iid) as [r|] eqn:E.
  - wp_steps. apply wp_assert; [apply Z.eqb_eq; symmetry; by apply (Hok _ _ E)|].
    apply wp_ret. split_and!; [done|done|]. by intros x [= ->].
  - by apply wp_ret.
Qed.

Lemma put_record_buffer_spec iid s :
  1 ≤ iid →
  wp (put_record_buffer iid)
    (λ r s', r = record_buffer s ∧ stored s' = <[iid:=r]> (stored s)) s.
Proof.
  intros Hi. unfold put_record_buffer. wp_steps.
  destruct (db_put_view (dbp s) iid (record_buffer s) Hi) as (db' & ? & ?).
  by eapply wp_on_db.
Qed.

Lemma save_accept_spec ar s :
  1 ≤ ar_iid ar → sizeof_accept_ack + blen (ar_value ar) ≤ MAX_UDP_MSG_SIZE →
  wp (stablestorage_save_accept ar)
    (λ r s', r = mk_accept_ack (ar_iid ar) (ar_ballot ar) (ar_ballot ar) 0 (ar_value ar) ∧
             stored s' = <[ar_iid ar:=r]> (stored s)) s.
Proof.
  intros Hi Hv. unfold stablestorage_save_accept, value_room. wp_steps.
  apply wp_assert; [by apply Z.leb_le|]. wp_steps.
  eapply wp_mono; [by apply put_record_buffer_spec|]. by intros r s' [-> ->].
Qed.

Lemma save_prepare_spec pr rec s :
  1 ≤ pr_iid pr → (∀ x, rec = Some x → record_buffer s = x) →
  wp (stablestorage_save_prepare pr rec)
    (λ r s',
      r = match rec with
          | None => mk_accept_ack (pr_iid pr) (pr_ballot pr) 0 0 []
          | Some x => x <| aa_ballot := pr_ballot pr |>
          end ∧ stored s' = <[pr_iid pr:=r]> (stored s)) s.
Proof.
  intros Hi Hrec. unfold stablestorage_save_prepare. destruct rec as [x|]; wp_steps.
  - eapply wp_mono; [by apply put_record_buffer_spec|]. intros r s' [-> ->]. cbn.
    by rewrite (Hrec x eq_refl).
  - eapply wp_mono; [by apply put_record_buffer_spec|]. by intros r s' [-> ->].
Qed.

Lemma save_final_value_spec v iid b s :
  1 ≤ iid → sizeof_accept_ack + blen v ≤ MAX_UDP_MSG_SIZE →
  wp (stablestorage_save_final_value v iid b)
    (λ r s', r = mk_accept_ack iid b b 1 v ∧ stored s' = <[iid:=r]> (stored s)) s.
Proof.
  intros Hi Hv. unfold stablestorage_save_final_value, value_room. wp_steps.
  apply wp_assert; [by apply Z.leb_le|]. wp_steps.
  eapply wp_mono; [by apply put_record_buffer_spec|]. by intros r s' [-> ->].
Qed.
End storage_ops.

(** ** Properties *)


