(* ===== verification/StorageInit.v ===== *)
(** * Opening the stable storage of an acceptor

    The rest of [paxos2/lib/acceptor_stable_storage.c]: [stablestorage_init]
    with its directory, its Berkeley DB environment and its database file, in
    every durability mode, [stablestorage_do_recovery] and
    [stablestorage_shutdown].  The file system and Berkeley DB are parameters:
    [DbSystem] is what their calls return, [DbSystemLaws] what they do whether
    they succeed or not, [DbSystemWorks] that they succeed.

    [init_contents]: what an opened database holds.  [storage_survives_restart]:
    an acceptor that is restarted in recovery mode has its records again, and
    one that is restarted normally has none. *)
From stdpp Require Import strings pretty.
From S2P Require Import Prelude Steps Bytes PaxosWire StableStorage.

(** The handle [dbenv]: NULL, created, or open on its home directory. *)
Inductive db_env := EnvNull | EnvCreated | EnvOpen (home : string).

(** The flags of [set_flags]; the constants are those of [db.h]. *)
Inductive tx_flag := DB_LOG_IN_MEMORY | DB_TXN_NOSYNC | DB_TXN_WRITE_NOSYNC | NO_FLAGS.

(** A call returns 0 or an error, and may change the files in both cases.  The
    flags and sizes that are constants of the source are part of the calls. *)
Class DbSystem (FS DB : Type) := {
  fs_stat : string → FS → Z;
  fs_mkdir : string → FS → Z * FS;
  fs_system : string → FS → Z * FS;
  db_env_create : FS → Z;
  env_set_flags : tx_flag → FS → Z;
  env_set_cachesize : FS → Z;
  env_open : string → FS → Z * FS;
  env_txn_begin : db_env → FS → Z;
  txn_commit_open : db_env → FS → Z;
  env_close : db_env → FS → Z * FS;
  db_create : db_env → FS → Z;
  db_set_cachesize : FS → Z;
  db_open : db_env → string → FS → option DB * FS;
  db_sync_unopened : FS → Z;
  db_close : string → DB → FS → Z * FS
}.

(** The static variables and the files.  An open database is kept with the
    path of its file. *)
Record storage_files (FS DB : Type) := mk_storage_files {
  files : FS;
  dbenv : db_env;
  db_handle : option (string * DB);
  do_recovery : bool
}.
Arguments mk_storage_files {FS DB}.
Arguments files {FS DB}.
Arguments dbenv {FS DB}.
Arguments db_handle {FS DB}.
Arguments do_recovery {FS DB}.

(** ** Paths *)

(** [ACCEPTOR_DB_PATH], [ACCEPTOR_DB_FNAME] and the path of the file. *)
Definition db_env_path (acceptor_id : Z) : string := "/tmp/acceptor_" +:+ pretty acceptor_id.
Definition db_filename (acceptor_id : Z) : string := "acc_db_" +:+ pretty acceptor_id +:+ ".bdb".
Definition in_dir (dir file : string) : string := dir +:+ "/" +:+ file.
Definition db_file_path (acceptor_id : Z) : string := in_dir (db_env_path acceptor_id) (db_filename acceptor_id).

(** Berkeley DB looks for a file in the home of its environment. *)
Definition db_resolve (e : db_env) (path : string) : string :=
  match e with EnvOpen home => in_dir home path | _ => path end.

(** ** The operations *)

Section storage_init.
Context {FS DB : Type} `{!RecordStore DB} `{!DbSystem FS DB}.
(** [DURABILITY_MODE] *)
Context (mode : Z).
Implicit Types (s : storage_files FS DB).

Definition set_files (fs : FS) s : storage_files FS DB := mk_storage_files fs (dbenv s) (db_handle s) (do_recovery s).
Definition set_dbenv (e : db_env) s : storage_files FS DB := mk_storage_files (files s) e (db_handle s) (do_recovery s).
Definition set_db_handle (h : option (string * DB)) s : storage_files FS DB :=
  mk_storage_files (files s) (dbenv s) h (do_recovery s).
Definition set_do_recovery (b : bool) s : storage_files FS DB :=
  mk_storage_files (files s) (dbenv s) (db_handle s) b.

(** A call that reads the files, and one that changes them. *)
Definition fs_query (f : FS → Z) : M (storage_files FS DB) Z := gets (λ s, f (files s)).
Definition fs_call {A} (f : FS → A * FS) : M (storage_files FS DB) A := λ s,
  let '(r, fs) := f (files s) in Some (r, set_files fs s).

Definition stablestorage_do_recovery : M (storage_files FS DB) unit := modify (set_do_recovery true).

Definition bdb_init_tx_handle (acceptor_id : Z) (tx_mode : tx_flag) : M (storage_files FS DB) Z :=
  result ← fs_query db_env_create;
  if negb (result =? 0) then mret (-1)
  else
    modify (set_dbenv EnvCreated);;
    result ← fs_query (env_set_flags tx_mode);
    if negb (result =? 0) then mret (-1)
    else
      result ← fs_query env_set_cachesize;
      if negb (result =? 0) then mret (-1)
      else
        result ← fs_call (env_open (db_env_path acceptor_id));
        if negb (result =? 0) then mret (-1)
        else modify (set_dbenv (EnvOpen (db_env_path acceptor_id)));; mret 0.

(** [stablestorage_tx_begin] and [stablestorage_tx_end] around [dbp->open].  A
    NULL environment is dereferenced. *)
Definition open_tx_begin : M (storage_files FS DB) unit :=
  if (mode =? 0) || (mode =? 20) then mret tt
  else
    s ← get;
    c_assert (match dbenv s with EnvNull => false | _ => true end);;
    result ← fs_query (env_txn_begin (dbenv s));
    c_assert (result =? 0).

Definition open_tx_end : M (storage_files FS DB) unit :=
  if mode =? 0 then mret tt
  else if mode =? 20 then
    s ← get;
    match db_handle s with
    | Some (p, db) => db ← lift_opt (db_sync db); modify (set_db_handle (Some (p, db)))
    | None => result ← fs_query db_sync_unopened; c_assert (result =? 0)
    end
  else
    s ← get;
    result ← fs_query (txn_commit_open (dbenv s));
    c_assert (result =? 0).

Definition bdb_init_db (db_path : string) : M (storage_files FS DB) Z :=
  s ← get;
  result ← fs_query (db_create (dbenv s));
  if negb (result =? 0) then mret (-1)
  else
    result ← (if (mode =? 0) || (mode =? 20) then fs_query db_set_cachesize else mret 0);
    if negb (result =? 0) then mret (-1)
    else
      open_tx_begin;;
      db ← fs_call (db_open (dbenv s) db_path);
      modify (set_db_handle (db ← db; Some (db_resolve (dbenv s) db_path, db)));;
      open_tx_end;;
      mret (if db is Some _ then 0 else -1).

(** The directory of the environment is removed and made again; a failure is
    only printed. *)
Definition recreate_env_dir (acceptor_id : Z) : M (storage_files FS DB) unit :=
  result ← fs_call (fs_system ("rm -r " +:+ db_env_path acceptor_id));
  if negb (result =? 0) then mret tt
  else _ ← fs_call (fs_mkdir (db_env_path acceptor_id)); mret tt.

(** The [switch]: the result of the handle, and the name of the file to open;
    [None] for an unknown mode. *)
Definition open_mode (acceptor_id : Z) : M (storage_files FS DB) (option (Z * string)) :=
  if mode =? 0 then mret (Some (0, db_file_path acceptor_id))
  else if mode =? 10 then ret ← bdb_init_tx_handle acceptor_id DB_LOG_IN_MEMORY; mret (Some (ret, db_filename acceptor_id))
  else if mode =? 11 then ret ← bdb_init_tx_handle acceptor_id DB_TXN_NOSYNC; mret (Some (ret, db_filename acceptor_id))
  else if mode =? 12 then ret ← bdb_init_tx_handle acceptor_id DB_TXN_WRITE_NOSYNC; mret (Some (ret, db_filename acceptor_id))
  else if mode =? 13 then ret ← bdb_init_tx_handle acceptor_id NO_FLAGS; mret (Some (ret, db_filename acceptor_id))
  else if mode =? 20 then mret (Some (0, db_file_path acceptor_id))
  else mret None.

(** A result of the handle other than 0 is only printed. *)
Definition stablestorage_init (acceptor_id : Z) : M (storage_files FS DB) Z :=
  dir ← fs_query (fs_stat (db_env_path acceptor_id));
  db ← fs_query (fs_stat (db_file_path acceptor_id));
  let dir_exists := dir =? 0 in
  let db_exists := db =? 0 in
  s ← get;
  if do_recovery s && (negb dir_exists || negb db_exists) then mret (-1)
  else
    made ← (if negb dir_exists then fs_call (fs_mkdir (db_env_path acceptor_id)) else mret 0);
    if negb (made =? 0) then mret (-1)
    else
      when (negb (do_recovery s) && dir_exists) (recreate_env_dir acceptor_id);;
      file ← open_mode acceptor_id;
      match file with
      | None => mret (-1)
      | Some (ret, db_file) =>
          result ← bdb_init_db db_file;
          mret (if negb (result =? 0) then -1 else 0)
      end.

(** Of an open database; without one there is no result. *)
Definition stablestorage_shutdown : M (storage_files FS DB) Z :=
  s ← get;
  h ← lift_opt (db_handle s);
  closed ← fs_call (db_close h.1 h.2);
  let result := if negb (closed =? 0) then -1 else 0 in
  if (mode =? 0) || (mode =? 20) then mret result
  else if (10 <=? mode) && (mode <=? 13) then
    s ← get;
    closed ← fs_call (env_close (dbenv s));
    mret (if negb (closed =? 0) then -1 else result)
  else mret (-1).

(** A new process, with the files of the old one. *)
Definition new_process s : storage_files FS DB := mk_storage_files (files s) EnvNull None false.

End storage_init.

(** ** What the calls promise

    The contents of a database file are those committed to it.  The first class
    is of what calls do when they return, whatever they return. *)

Class DbSystemLaws (FS DB : Type) `{!RecordStore DB, !RecordStoreLaws DB, !DbSystem FS DB} := {
  file_view : string → FS → option (gmap Z acceptor_record);
  rm_view d f fs fs' : fs_system ("rm -r " +:+ d) fs = (0, fs') → file_view (in_dir d f) fs' = None;
  mkdir_view d p fs : file_view p (fs_mkdir d fs).2 = file_view p fs;
  env_open_view d p fs : file_view p (env_open d fs).2 = file_view p fs;
  env_close_view e p fs : file_view p (env_close e fs).2 = file_view p fs;
  txn_begin_open e fs : env_txn_begin e fs = 0 → ∃ home, e = EnvOpen home;
  db_open_view e p fs db fs' :
    db_open e p fs = (Some db, fs') → db_view db = default ∅ (file_view (db_resolve e p) fs);
  db_close_view p db fs fs' : db_close p db fs = (0, fs') → file_view p fs' = Some (db_view db)
}.

(** The second is of calls that succeed. *)
Class DbSystemWorks (FS DB : Type) `{!RecordStore DB, !RecordStoreLaws DB, !DbSystem FS DB, !DbSystemLaws FS DB} := {
  file_stat p fs : is_Some (file_view p fs) → fs_stat p fs = 0;
  rm_works id fs : fs_stat (db_env_path id) fs = 0 →
    ∃ fs', fs_system ("rm -r " +:+ db_env_path id) fs = (0, fs') ∧ fs_stat (db_env_path id) fs' ≠ 0;
  mkdir_works id fs : fs_stat (db_env_path id) fs ≠ 0 →
    ∃ fs', fs_mkdir (db_env_path id) fs = (0, fs') ∧ fs_stat (db_env_path id) fs' = 0;
  env_create_works fs : db_env_create fs = 0;
  env_set_flags_works fl fs : env_set_flags fl fs = 0;
  env_set_cachesize_works fs : env_set_cachesize fs = 0;
  env_open_works d fs : fs_stat d fs = 0 → ∃ fs', env_open d fs = (0, fs') ∧ fs_stat d fs' = 0;
  txn_begin_works home fs : env_txn_begin (EnvOpen home) fs = 0;
  txn_commit_works home fs : txn_commit_open (EnvOpen home) fs = 0;
  env_close_works home d fs : fs_stat d fs = 0 → ∃ fs', env_close (EnvOpen home) fs = (0, fs') ∧ fs_stat d fs' = 0;
  db_create_works e fs : e ≠ EnvCreated → db_create e fs = 0;
  db_set_cachesize_works fs : db_set_cachesize fs = 0;
  db_open_works id e p fs : db_resolve e p = db_file_path id → fs_stat (db_env_path id) fs = 0 →
    ∃ db fs', db_open e p fs = (Some db, fs') ∧ fs_stat (db_env_path id) fs' = 0;
  db_close_works p db d fs : fs_stat d fs = 0 → ∃ fs', db_close p db fs = (0, fs') ∧ fs_stat d fs' = 0
}.

Section storage_init_specs.
Context {FS DB : Type} `{!RecordStore DB, !RecordStoreLaws DB, !DbSystem FS DB, !DbSystemLaws FS DB}.
Context (mode : Z).
Implicit Types (s : storage_files FS DB).

Lemma wlp_fs_query {A} (f : FS → Z) (k : Z → M (storage_files FS DB) A) Q s :
  wlp (k (f (files s))) Q s → wlp (fs_query f ≫= k) Q s.
Proof. done. Qed.

Lemma wlp_fs_call {A B} (f : FS → A * FS) (k : A → M (storage_files FS DB) B) Q s :
  wlp (k (f (files s)).1) Q (set_files (f (files s)).2 s) → wlp (fs_call f ≫= k) Q s.
Proof. unfold wlp, mbind, M_bind, fs_call. by destruct (f (files s)). Qed.

Lemma wp_fs_query {A} (f : FS → Z) (k : Z → M (storage_files FS DB) A) Q s :
  wp (k (f (files s))) Q s → wp (fs_query f ≫= k) Q s.
Proof. done. Qed.

Lemma wp_fs_call {A B} (f : FS → A * FS) (k : A → M (storage_files FS DB) B) Q s r fs :
  f (files s) = (r, fs) → wp (k r) Q (set_files fs s) → wp (fs_call f ≫= k) Q s.
Proof. intros E. unfold wp, mbind, M_bind, fs_call. by rewrite E. Qed.

(** The files after the directory was made again, if that worked. *)
Definition recreated (id : Z) (fs : FS) : FS :=
  let '(r, fs') := fs_system ("rm -r " +:+ db_env_path id) fs in
  if r =? 0 then (fs_mkdir (db_env_path id) fs').2 else fs'.

Lemma recreate_eq id s : recreate_env_dir id s = Some (tt, set_files (recreated id (files s)) s).
Proof.
  unfold recreate_env_dir, recreated, mbind, M_bind, fs_call. destruct (fs_system _ _) as [r fs']; simpl.
  destruct (r =? 0); simpl; [|done]. by destruct (fs_mkdir _ _).
Qed.

Lemma recreated_view id fs :
  (fs_system ("rm -r " +:+ db_env_path id) fs).1 = 0 → file_view (db_file_path id) (recreated id fs) = None.
Proof.
  unfold recreated, db_file_path. destruct (fs_system _ _) as [r fs'] eqn:E; simpl. intros ->. simpl.
  rewrite mkdir_view. by eapply rm_view.
Qed.

(** The modes without an environment. *)
Definition plain_mode : bool := (mode =? 0) || (mode =? 20).

Definition same_view (fs fs' : FS) : Prop := ∀ p, file_view p fs' = file_view p fs.

(** The environment the handle leaves, whatever fails. *)
Lemma tx_handle_spec id fl s :
  wlp (bdb_init_tx_handle id fl) (λ _ s',
    same_view (files s) (files s') ∧ do_recovery s' = do_recovery s ∧
    ∀ home, dbenv s' = EnvOpen home → dbenv s = EnvOpen home ∨ home = db_env_path id) s.
Proof.
  unfold bdb_init_tx_handle. apply wlp_fs_query. destruct (negb _).
  { apply wlp_ret. split_and!; [done|done|auto]. }
  apply wlp_bind, wlp_modify, wlp_fs_query. destruct (negb _); [by apply wlp_ret|].
  apply wlp_fs_query. destruct (negb _); [by apply wlp_ret|].
  apply wlp_fs_call. destruct (negb _); [apply wlp_ret|apply wlp_bind, wlp_modify, wlp_ret]; simpl;
    (split_and!; [intros p; apply env_open_view|done|naive_solver]).
Qed.

(** What is opened: the file by its path, or by its name in the environment. *)
Lemma open_mode_spec id s :
  dbenv s = EnvNull →
  wlp (open_mode mode id) (λ o s',
    same_view (files s) (files s') ∧ do_recovery s' = do_recovery s ∧
    ∀ ret file, o = Some (ret, file) →
      if plain_mode then file = db_file_path id ∧ dbenv s' = EnvNull
      else file = db_filename id ∧ ∀ home, dbenv s' = EnvOpen home → home = db_env_path id) s.
Proof.
  intros He. unfold open_mode, plain_mode.
  destruct (mode =? 0) eqn:E0; simpl; [apply wlp_ret; (split; [done|split; [done|]]); by intros ? ? [= <- <-]|].
  assert (Htx : ∀ fl, wlp (ret ← bdb_init_tx_handle id fl; mret (Some (ret, db_filename id))) (λ o s',
    same_view (files s) (files s') ∧ do_recovery s' = do_recovery s ∧
    ∀ ret file, o = Some (ret, file) →
      file = db_filename id ∧ ∀ home, dbenv s' = EnvOpen home → home = db_env_path id) s).
  { intros fl. apply wlp_bind. eapply wlp_mono; [apply tx_handle_spec|]. intros ret s' (H1 & H2 & H3).
    apply wlp_ret. split_and!; [done|done|]. intros ? ? [= <- <-]. split; [done|]. intros home Hh.
    destruct (H3 home Hh) as [H|H]; [by rewrite He in H|done]. }
  destruct (Z.eqb_spec mode 20) as [->|E20]; [simpl; apply wlp_ret; (split; [done|split; [done|]]); by intros ? ? [= <- <-]|].
  repeat (case_match; [apply Htx|]). apply wlp_ret. split_and!; done.
Qed.

(** A database that was opened holds what is in its file. *)
Lemma bdb_init_db_spec path s :
  wlp (bdb_init_db mode path) (λ r s', r = 0 →
    (plain_mode = false → ∃ home, dbenv s = EnvOpen home) ∧
    ∃ db, db_handle s' = Some (db_resolve (dbenv s) path, db) ∧
      db_view db = default ∅ (file_view (db_resolve (dbenv s) path) (files s))) s.
Proof.
  unfold bdb_init_db. apply wlp_get, wlp_fs_query. destruct (negb _); [by apply wlp_ret|].
  apply wlp_bind. eapply (wlp_mono _ (λ _ s', s' = s)); [by destruct (_ || _)|]. intros result ? ->.
  destruct (negb _); [by apply wlp_ret|].
  apply wlp_bind. eapply (wlp_mono _ (λ _ s', s' = s ∧ (plain_mode = false → ∃ home, dbenv s = EnvOpen home))).
  { unfold open_tx_begin, plain_mode. destruct (_ || _); [by apply wlp_ret|]. apply wlp_get, wlp_bind, wlp_assert. intros _.
    apply wlp_fs_query, wlp_assert. intros Hb%Z.eqb_eq. split; [done|]. intros _. by eapply txn_begin_open. }
  intros _ ? [-> Henv]. apply wlp_fs_call. destruct (db_open _ _ _) as [[db|] fs'] eqn:Eo; simpl.
  - apply wlp_bind, wlp_modify, wlp_bind. simpl.
    eapply (wlp_mono _ (λ _ s', ∃ db', db_handle s' = Some (db_resolve (dbenv s) path, db') ∧ db_view db' = db_view db)).
    + unfold open_tx_end. destruct (mode =? 0); [apply wlp_ret; eauto|]. destruct (mode =? 20); apply wlp_get; simpl.
      * apply wlp_bind, wlp_lift_opt. intros db' Hs. apply wlp_modify. simpl. exists db'. split; [done|].
        destruct (db_sync_view db) as (? & ? & ?). by simplify_eq.
      * apply wlp_fs_query, wlp_assert. eauto.
    + intros _ s' (db' & H1 & H2). apply wlp_ret. intros _. split; [done|]. exists db'. split; [done|].
      rewrite H2. by eapply db_open_view.
  - apply wlp_bind, wlp_modify, wlp_bind. eapply (wlp_mono _ (λ _ _, True)); [|by intros; apply wlp_ret].
    unfold wlp. by destruct (open_tx_end _ _) as [[]|].
Qed.

(** What an acceptor starts with, whatever fails before.  In particular its old
    records, in recovery mode or not, if the directory could not be removed. *)
Lemma init_contents id s :
  dbenv s = EnvNull →
  wlp (stablestorage_init mode id) (λ r s', r = 0 →
    ∃ db, db_handle s' = Some (db_file_path id, db) ∧
      db_view db = default ∅ (file_view (db_file_path id)
        (if negb (do_recovery s) && (fs_stat (db_env_path id) (files s) =? 0) then recreated id (files s) else files s))) s.
Proof.
  intros He. unfold stablestorage_init. apply wlp_fs_query, wlp_fs_query. cbv zeta. apply wlp_get.
  destruct (_ && _); [by apply wlp_ret|].
  set (dir_exists := _ =? 0). set (fs0 := if _ : bool then recreated _ _ else _).
  apply wlp_bind. eapply (wlp_mono _ (λ _ s', same_view (files s) (files s') ∧ dbenv s' = dbenv s ∧
    do_recovery s' = do_recovery s ∧ (dir_exists = true → s' = s))).
  { destruct dir_exists; simpl; [by apply wlp_ret|]. unfold wlp, fs_call.
    destruct (fs_mkdir _ _) as [r fs'] eqn:E; simpl. split_and!; [|done|done|done].
    intros p. replace fs' with (fs_mkdir (db_env_path id) (files s)).2 by (by rewrite E). apply mkdir_view. }
  intros made s1 (Hv1 & He1 & Hr1 & Hd1). destruct (negb (made =? 0)); [by apply wlp_ret|].
  apply wlp_bind. eapply (wlp_mono _ (λ _ s', same_view fs0 (files s') ∧ dbenv s' = EnvNull)).
  { subst fs0. destruct (negb (do_recovery s) && dir_exists) eqn:Eb; simpl.
    - unfold wlp. rewrite recreate_eq. simpl. apply andb_prop in Eb as [_ Eb]. by rewrite (Hd1 Eb).
    - apply wlp_ret. by rewrite He1. }
  intros _ s2 [Hv2 He2]. apply wlp_bind. eapply wlp_mono; [by apply open_mode_spec|].
  intros [[ret file]|] s3 (Hv3 & _ & Ho); [|by apply wlp_ret]. specialize (Ho _ _ eq_refl).
  apply wlp_bind. eapply wlp_mono; [apply bdb_init_db_spec|]. intros result s4 Hdb. apply wlp_ret.
  destruct (Z.eqb_spec result 0) as [->|]; [|done]. intros _. destruct (Hdb eq_refl) as (Henv & db & H1 & H2).
  assert (Hres : db_resolve (dbenv s3) file = db_file_path id).
  { destruct plain_mode; [by destruct Ho as [-> ->]|]. destruct Ho as [-> Hh]. destruct (Henv eq_refl) as [home Eh].
    rewrite Eh. simpl. by rewrite (Hh _ Eh). }
  rewrite Hres in H1, H2. exists db. split; [done|]. by rewrite H2, Hv3, Hv2.
Qed.
End storage_init_specs.

(** ** Restarting *)

Definition valid_mode (mode : Z) : Prop := mode ∈ [0; 10; 11; 12; 13; 20].

(** The storage of acceptor [id] is open, and has the records [m]. *)
Record storage_open {FS DB} `{RecordStoreLaws DB, !DbSystem FS DB} (mode id : Z) (m : gmap Z acceptor_record)
    (s : storage_files FS DB) : Prop := mk_storage_open {
  so_db : ∃ db, db_handle s = Some (db_file_path id, db) ∧ db_view db = m;
  so_dir : fs_stat (db_env_path id) (files s) = 0;
  so_env : dbenv s = if plain_mode mode then EnvNull else EnvOpen (db_env_path id)
}.

Section restart.
Context {FS DB : Type} `{!RecordStore DB, !RecordStoreLaws DB, !DbSystem FS DB, !DbSystemLaws FS DB, !DbSystemWorks FS DB}.
Context (mode : Z) (Hmode : valid_mode mode).
Implicit Types (s : storage_files FS DB).

(** The directory of the environment is there. *)
Definition dir_made (id : Z) s : Prop := fs_stat (db_env_path id) (files s) = 0.

Lemma tx_handle_works id fl s :
  dir_made id s →
  wp (bdb_init_tx_handle id fl) (λ r s', r = 0 ∧ dir_made id s' ∧ dbenv s' = EnvOpen (db_env_path id)) s.
Proof.
  intros Hd. unfold bdb_init_tx_handle. apply wp_fs_query. rewrite env_create_works. wp_steps.
  apply wp_fs_query. rewrite env_set_flags_works. apply wp_fs_query. rewrite env_set_cachesize_works.
  destruct (env_open_works (db_env_path id) (files s) Hd) as (fs' & E & Hd'). eapply wp_fs_call; [exact E|]. by wp_steps.
Qed.

Lemma open_mode_works id s :
  dir_made id s → dbenv s = EnvNull →
  wp (open_mode mode id) (λ o s', dir_made id s' ∧
    dbenv s' = (if plain_mode mode then EnvNull else EnvOpen (db_env_path id)) ∧
    ∃ ret, o = Some (ret, if plain_mode mode then db_file_path id else db_filename id)) s.
Proof using All.
  intros Hd He. unfold open_mode, plain_mode.
  assert (Htx : ∀ fl, wp (ret ← bdb_init_tx_handle id fl; mret (Some (ret, db_filename id))) (λ o s', dir_made id s' ∧
    dbenv s' = EnvOpen (db_env_path id) ∧ ∃ ret, o = Some (ret, db_filename id)) s).
  { intros fl. apply wp_bind. eapply wp_mono; [by apply tx_handle_works|]. intros ret s' (_ & H1 & H2). apply wp_ret. eauto. }
  unfold valid_mode in Hmode. rewrite !list.elem_of_cons, list.elem_of_nil in Hmode.
  destruct Hmode as [->|[->|[->|[->|[->|[->|[]]]]]]]; simpl; try apply Htx; apply wp_ret; eauto.
Qed.

Lemma bdb_init_db_works id path s :
  dir_made id s → dbenv s = (if plain_mode mode then EnvNull else EnvOpen (db_env_path id)) →
  db_resolve (dbenv s) path = db_file_path id →
  wp (bdb_init_db mode path) (λ r s', r = 0 ∧ dir_made id s' ∧ dbenv s' = dbenv s) s.
Proof.
  intros Hd He Hp. unfold bdb_init_db. apply wp_bind, wp_get, wp_fs_query.
  rewrite db_create_works by (rewrite He; by destruct (plain_mode mode)). simpl.
  apply wp_bind. eapply (wp_mono _ (λ r s', r = 0 ∧ s' = s)).
  { destruct (_ || _); [|by apply wp_ret]. unfold wp, fs_query, gets. by rewrite db_set_cachesize_works. }
  intros ? ? [-> ->]. simpl.
  apply wp_bind. eapply (wp_mono _ (λ _ s', s' = s)).
  { unfold open_tx_begin. unfold plain_mode in He. destruct (_ || _); [by apply wp_ret|]. apply wp_bind, wp_get.
    rewrite He. apply wp_bind, wp_assert; [done|]. apply wp_fs_query. rewrite txn_begin_works. by apply wp_assert. }
  intros _ ? ->. destruct (db_open_works id (dbenv s) path (files s) Hp Hd) as (db & fs' & Eo & Hd').
  eapply wp_fs_call; [exact Eo|]. wp_steps. eapply (wp_mono _ (λ _ s', dir_made id s' ∧ dbenv s' = dbenv s)).
  - unfold open_tx_end. unfold plain_mode in He. destruct (mode =? 0); [by apply wp_ret|].
    destruct (mode =? 20); apply wp_bind, wp_get.
    + destruct (db_sync_view db) as (db' & E & _). apply wp_bind. by eapply wp_lift_opt.
    + apply wp_fs_query. simpl in He |- *. rewrite He, txn_commit_works. by apply wp_assert.
  - intros _ s' H. by apply wp_ret.
Qed.

Lemma recreate_works id s :
  dir_made id s → wp (recreate_env_dir id) (λ _ s', dir_made id s' ∧ dbenv s' = dbenv s) s.
Proof.
  intros Hd. unfold recreate_env_dir. destruct (rm_works id (files s) Hd) as (fs1 & E1 & Hn).
  destruct (mkdir_works id fs1 Hn) as (fs2 & E2 & Hd2).
  eapply wp_fs_call; [exact E1|]. simpl. eapply wp_fs_call; [exact E2|]. by apply wp_ret.
Qed.

(** When all calls work, only a missing file to recover is an error. *)
Lemma init_works id s :
  dbenv s = EnvNull →
  (do_recovery s = true → dir_made id s ∧ fs_stat (db_file_path id) (files s) = 0) →
  wp (stablestorage_init mode id) (λ r s', r = 0 ∧ dir_made id s' ∧
    dbenv s' = if plain_mode mode then EnvNull else EnvOpen (db_env_path id)) s.
Proof using All.
  intros He Hrec. unfold stablestorage_init. apply wp_fs_query, wp_fs_query. cbv zeta. apply wp_bind, wp_get.
  set (dir_exists := fs_stat (db_env_path id) (files s) =? 0).
  replace (do_recovery s && _) with false.
  2:{ destruct (do_recovery s); [|done]. destruct (Hrec eq_refl) as [H1 H2]. subst dir_exists. by rewrite H1, H2. }
  apply wp_bind. eapply (wp_mono _ (λ r s', r = 0 ∧ dir_made id s' ∧ dbenv s' = EnvNull)).
  { destruct dir_exists eqn:E; simpl; [apply wp_ret; split_and!; [done|by apply Z.eqb_eq|done]|].
    destruct (mkdir_works id (files s)) as (fs' & E2 & Hd2); [by apply Z.eqb_neq|].
    unfold wp, fs_call. by rewrite E2. }
  intros made s1 (-> & Hd1 & He1). simpl. apply wp_bind.
  eapply (wp_mono _ (λ _ s', dir_made id s' ∧ dbenv s' = EnvNull)).
  { destruct (_ && _); [|by apply wp_ret]. eapply wp_mono; [by apply recreate_works|]. intros _ s' [? E]. by rewrite E. }
  intros _ s2 [Hd2 He2]. apply wp_bind. eapply wp_mono; [by apply open_mode_works|].
  intros o s3 (Hd3 & He3 & ret & ->). apply wp_bind. eapply wp_mono; [apply (bdb_init_db_works id); [done|done|]|].
  - rewrite He3. by destruct (plain_mode mode).
  - intros r s4 (-> & Hd4 & He4). apply wp_ret. split_and!; [done|done|by rewrite He4].
Qed.

(** The storage an acceptor starts with: empty, or that of the file. *)
Lemma init_opens id s :
  dbenv s = EnvNull →
  (do_recovery s = true → dir_made id s ∧ is_Some (file_view (db_file_path id) (files s))) →
  wp (stablestorage_init mode id) (λ r s', r = 0 ∧
    storage_open mode id (if do_recovery s || negb (fs_stat (db_env_path id) (files s) =? 0)
      then default ∅ (file_view (db_file_path id) (files s)) else ∅) s') s.
Proof using All.
  intros He Hrec. eapply wp_mono; [eapply wp_wlp; [apply (init_works id s He)|apply (init_contents mode id s He)]|].
  { intros Hr. destruct (Hrec Hr). split; [done|by apply file_stat]. }
  intros r s' [(-> & Hd & Hen) Hc]. destruct (Hc eq_refl) as (db & H1 & H2). split; [done|].
  constructor; [|done|done]. exists db. split; [done|]. rewrite H2. destruct (do_recovery s); [done|]. simpl.
  destruct (Z.eqb_spec (fs_stat (db_env_path id) (files s)) 0) as [Hs|]; [|done]. simpl.
  rewrite recreated_view; [done|]. by destruct (rm_works id (files s) Hs) as (? & -> & _).
Qed.

Lemma shutdown_works id m s :
  storage_open mode id m s →
  wp (stablestorage_shutdown mode) (λ r s', r = 0 ∧ dir_made id s' ∧ file_view (db_file_path id) (files s') = Some m) s.
Proof using All.
  intros [(db & Hh & <-) Hd He]. unfold stablestorage_shutdown. apply wp_bind, wp_get, wp_bind. rewrite Hh.
  eapply wp_lift_opt; [done|]. destruct (db_close_works (db_file_path id) db _ _ Hd) as (fs1 & E1 & Hd1).
  pose proof (db_close_view _ _ _ _ E1) as Hv. eapply wp_fs_call; [exact E1|]. cbv zeta.
  destruct (env_close_works (db_env_path id) _ fs1 Hd1) as (fs2 & E2 & Hd2).
  pose proof (env_close_view (EnvOpen (db_env_path id)) (db_file_path id) fs1) as Hv2. rewrite E2 in Hv2.
  unfold valid_mode in Hmode. rewrite !list.elem_of_cons, list.elem_of_nil in Hmode.
  destruct Hmode as [->|[->|[->|[->|[->|[->|[]]]]]]]; simpl in He |- *; try (by apply wp_ret);
    (apply wp_bind, wp_get; eapply wp_fs_call; [simpl; rewrite He; exact E2|]; apply wp_ret; split_and!;
      [done|done|simpl in Hv2 |- *; by rewrite Hv2]).
Qed.

(** An acceptor stops, and a new process opens its storage again. *)
Definition restart (recover : bool) (id : Z) : M (storage_files FS DB) (Z * Z) :=
  closed ← stablestorage_shutdown mode;
  modify new_process;;
  when recover stablestorage_do_recovery;;
  opened ← stablestorage_init mode id;
  mret (closed, opened).

(** In every durability mode, if the calls of the system and of Berkeley DB
    work: an acceptor that is shut down and restarted in recovery mode finds
    exactly the records it had, and one that is restarted without recovery
    starts with none (it forgets what it promised).  Both calls return 0, and
    the storage is open as before, so that this can be repeated. *)
Theorem storage_survives_restart id m s :
  storage_open mode id m s →
  wp (restart true id) (λ r s', r = (0, 0) ∧ storage_open mode id m s') s ∧
  wp (restart false id) (λ r s', r = (0, 0) ∧ storage_open mode id ∅ s') s.
Proof using All.
  intros Hopen. split; unfold restart; apply wp_bind; (eapply wp_mono; [by apply (shutdown_works id m)|]);
    intros ? s1 (-> & Hd & Hv); (apply wp_bind, wp_modify, wp_bind); simpl; [apply wp_modify|apply wp_ret];
    apply wp_bind; (eapply wp_mono; [apply init_opens; [done|simpl; intros; eauto]|]).
  - intros ? s2 [-> H]. apply wp_ret. simpl in H. by rewrite Hv in H.
  - intros ? s2 [-> H]. apply wp_ret. simpl in H. by rewrite Hd in H.
Qed.
End restart.

(** ** A file system in memory

    Directories and database files by their paths; [removable] says whether
    [rm] works. *)

Fixpoint drop_chars (n : nat) (s : string) : string :=
  match n, s with
  | S n, String _ s => drop_chars n s
  | _, _ => s
  end.

Lemma prefix_app (a b : string) : String.prefix a (a +:+ b) = true.
Proof. induction a as [|c a IH]; simpl; [by destruct b|]. by destruct (Ascii.ascii_dec c c). Qed.

Lemma app_string_assoc (a b c : string) : (a +:+ b) +:+ c = a +:+ b +:+ c.
Proof. induction a as [|x a IH]; [done|exact (f_equal (String x) IH)]. Qed.

Record memory_fs := mk_memory_fs { mfs_dirs : list string; mfs_dbs : gmap string (gmap Z acceptor_record) }.

Definition mfs_exists (p : string) (fs : memory_fs) : bool :=
  bool_decide (p ∈ mfs_dirs fs) || bool_decide (is_Some (mfs_dbs fs !! p)).

(** The path is in the directory [d], or is [d] itself. *)
Definition mfs_below (d p : string) : bool := bool_decide (p = d) || String.prefix (in_dir d "") p.

Definition mfs_rm (d : string) (fs : memory_fs) : memory_fs :=
  mk_memory_fs (filter (λ p, p ≠ d) (mfs_dirs fs)) (filter (λ x, mfs_below d x.1 = false) (mfs_dbs fs)).

Definition mfs_mkdir (d : string) (fs : memory_fs) : Z * memory_fs :=
  if mfs_exists d fs then (-1, fs) else (0, mk_memory_fs (d :: mfs_dirs fs) (mfs_dbs fs)).

#[global] Instance memory_system (removable : bool) : DbSystem memory_fs (gmap Z acceptor_record) := {
  fs_stat p fs := if mfs_exists p fs then 0 else -1;
  fs_mkdir := mfs_mkdir;
  fs_system cmd fs := if removable && String.prefix "rm -r " cmd then (0, mfs_rm (drop_chars 6 cmd) fs) else (1, fs);
  db_env_create _ := 0;
  env_set_flags _ _ := 0;
  env_set_cachesize _ := 0;
  env_open d fs := (if mfs_exists d fs then 0 else 2, fs);
  env_txn_begin e _ := match e with EnvOpen _ => 0 | _ => 22 end;
  txn_commit_open e _ := match e with EnvOpen _ => 0 | _ => 22 end;
  env_close _ fs := (0, fs);
  db_create e _ := match e with EnvCreated => 22 | _ => 0 end;
  db_set_cachesize _ := 0;
  db_open e p fs := (Some (default ∅ (mfs_dbs fs !! db_resolve e p)), fs);
  db_sync_unopened _ := 22;
  db_close p db fs := (0, mk_memory_fs (mfs_dirs fs) (<[p:=db]> (mfs_dbs fs)))
}.

Lemma mfs_below_file d f : mfs_below d (in_dir d f) = true.
Proof.
  unfold mfs_below, in_dir. rewrite orb_true_iff. right.
  change (d +:+ "/" +:+ "") with (d +:+ "/"). rewrite <-app_string_assoc. apply prefix_app.
Qed.

Lemma memory_rm removable d fs :
  fs_system (DbSystem := memory_system removable) ("rm -r " +:+ d) fs = if removable then (0, mfs_rm d fs) else (1, fs).
Proof. unfold fs_system, memory_system. rewrite prefix_app. by destruct removable. Qed.

#[global] Instance memory_system_laws removable :
  DbSystemLaws memory_fs (gmap Z acceptor_record) (DbSystem0 := memory_system removable).
Proof.
  refine {| file_view p fs := mfs_dbs fs !! p |}; try done.
  - intros d f fs fs'. rewrite memory_rm. destruct removable; [|done]. intros [= <-]. simpl.
    apply map_lookup_filter_None. right. intros m _. simpl. by rewrite mfs_below_file.
  - intros d p fs. simpl. unfold mfs_mkdir. by destruct (mfs_exists d fs).
  - intros [] fs; [done|done|eauto].
  - intros e p fs db fs' [= <- <-]. done.
  - intros p db fs fs' [= <-]. apply lookup_insert_eq.
Defined.

Lemma memory_stat removable p fs : fs_stat (DbSystem := memory_system removable) p fs = 0 ↔ mfs_exists p fs = true.
Proof. simpl. by destruct (mfs_exists p fs). Qed.

Lemma mfs_exists_true p fs : mfs_exists p fs = true ↔ p ∈ mfs_dirs fs ∨ is_Some (mfs_dbs fs !! p).
Proof. unfold mfs_exists. by rewrite orb_true_iff, !bool_decide_eq_true. Qed.

Lemma mfs_rm_exists d fs : mfs_exists d (mfs_rm d fs) = false.
Proof.
  apply not_true_iff_false. rewrite mfs_exists_true. intros [[? _]%list_elem_of_filter|[m [_ H]%map_lookup_filter_Some]]; [done|].
  simpl in H. unfold mfs_below in H. by rewrite bool_decide_eq_true_2 in H.
Qed.

#[global] Instance memory_system_works :
  DbSystemWorks memory_fs (gmap Z acceptor_record) (DbSystem0 := memory_system true).
Proof.
  constructor; try (by simpl; eauto).
  - intros p fs H. apply memory_stat, mfs_exists_true. by right.
  - intros id fs _. rewrite memory_rm. eexists. split; [done|]. by rewrite memory_stat, mfs_rm_exists.
  - intros id fs H. rewrite memory_stat, not_true_iff_false in H. unfold fs_mkdir, memory_system, mfs_mkdir. rewrite H.
    eexists. split; [done|]. apply memory_stat, mfs_exists_true. left. simpl. left.
  - intros d fs H. exists fs. split; [|done]. apply memory_stat in H. simpl. by rewrite H.
  - by intros [].
  - intros p db d fs H. eexists. split; [done|]. rewrite memory_stat, mfs_exists_true in H |- *. simpl.
    destruct H as [H|H]; [by left|right].
    destruct (decide (p = d)) as [->|]; [by rewrite lookup_insert_eq|by rewrite lookup_insert_ne].
Qed.

(** ** An acceptor with one record *)

Definition one_record : gmap Z acceptor_record := {[ 1 := mk_accept_ack 1 101 101 0 [] ]}.

Definition open_example : storage_files memory_fs (gmap Z acceptor_record) :=
  mk_storage_files (mk_memory_fs [db_env_path 2] ∅) (EnvOpen (db_env_path 2)) (Some (db_file_path 2, one_record)) false.

Lemma storage_survives_restart_witness :
  storage_open (DbSystem0 := memory_system true) 13 2 one_record open_example ∧
  wp (restart (DbSystem0 := memory_system true) 13 true 2)
    (λ r s', r = (0, 0) ∧ storage_open (DbSystem0 := memory_system true) 13 2 one_record s') open_example.
Proof.
  assert (H : storage_open (DbSystem0 := memory_system true) 13 2 one_record open_example).
  { constructor; [by eexists|done|done]. }
  assert (Hm : valid_mode 13) by (unfold valid_mode; set_solver).
  exact (conj H (proj1 (storage_survives_restart (DbSystem0 := memory_system true) 13 Hm 2 one_record open_example H))).
Defined.

(** The directory cannot be removed: the acceptor starts with its old records,
    outside of recovery mode, and reports success. *)
Example failed_removal_keeps_records :
  let s := mk_storage_files (mk_memory_fs [db_env_path 2] {[ db_file_path 2 := one_record ]}) EnvNull None false in
  (λ x, (x.1, db_handle x.2)) <$> stablestorage_init (DbSystem0 := memory_system false) 0 2 s =
  Some (0, Some (db_file_path 2, one_record)).
Proof. vm_compute. reflexivity. Qed.
