(* ===== verification/Acceptor.v ===== *)
(** * The acceptor of libpaxos2

    [paxos2/lib/acceptor.c]: the handlers of the three batches an acceptor
    receives, the periodic repetition of its latest acceptance, and its
    initialisation, on top of the stable storage and of two send buffers.
    The sockets and the libevent timers are not modelled. *)
From Stdlib Require Import Init.Byte.
From S2P Require Import Prelude Bytes PaxosWire SendBuffer StableStorage.

Record acceptor (DB : Type) := mk_acceptor {
  this_acceptor_id : Z;
  to_proposers : udp_send_buffer;
  to_learners : udp_send_buffer;
  acc_storage : storage DB;
  highest_accepted_iid : Z     (* iid_t *)
}.
Arguments mk_acceptor {DB}.
Arguments this_acceptor_id {DB}.
Arguments to_proposers {DB}.
Arguments to_learners {DB}.
Arguments acc_storage {DB}.
Arguments highest_accepted_iid {DB}.

#[export] Instance set_to_proposers {DB} : Setter (@to_proposers DB) := λ g r,
  mk_acceptor (this_acceptor_id r) (g (to_proposers r)) (to_learners r) (acc_storage r)
    (highest_accepted_iid r).
#[global] Arguments set_to_proposers _ _ _ /.
#[export] Instance set_to_learners {DB} : Setter (@to_learners DB) := λ g r,
  mk_acceptor (this_acceptor_id r) (to_proposers r) (g (to_learners r)) (acc_storage r)
    (highest_accepted_iid r).
#[global] Arguments set_to_learners _ _ _ /.
#[export] Instance set_acc_storage {DB} : Setter (@acc_storage DB) := λ g r,
  mk_acceptor (this_acceptor_id r) (to_proposers r) (to_learners r) (g (acc_storage r))
    (highest_accepted_iid r).
#[global] Arguments set_acc_storage _ _ _ /.
#[export] Instance set_highest_accepted_iid {DB} : Setter (@highest_accepted_iid DB) := λ g r,
  mk_acceptor (this_acceptor_id r) (to_proposers r) (to_learners r) (acc_storage r)
    (g (highest_accepted_iid r)).
#[global] Arguments set_highest_accepted_iid _ _ _ /.

Section acceptor.
Context {DB : Type} `{!RecordStore DB}.
(** [DURABILITY_MODE] and whether [ACCEPTOR_UPDATE_ON_DELIVER] is defined. *)
Context (mode : Z) (update_on_deliver : bool).
Implicit Types (s : acceptor DB).

Definition on_storage {A} (m : M (storage DB) A) : M (acceptor DB) A :=
  zoom acc_storage (λ st s, s <| acc_storage := st |>) m.
Definition set_proposers (sb : udp_send_buffer) s : acceptor DB := s <| to_proposers := sb |>.
Definition set_learners (sb : udp_send_buffer) s : acceptor DB := s <| to_learners := sb |>.
Definition on_proposers {A} (m : M udp_send_buffer A) : M (acceptor DB) A :=
  zoom to_proposers set_proposers m.
Definition on_learners {A} (m : M udp_send_buffer A) : M (acceptor DB) A :=
  zoom to_learners set_learners m.

Definition tx_begin : M (acceptor DB) unit := on_storage (stablestorage_tx_begin mode).
Definition tx_end : M (acceptor DB) unit := on_storage (stablestorage_tx_end mode).

Definition add_accept_ack : acceptor_record → M (acceptor DB) unit :=
  sendbuf_add_accept_ack to_learners set_learners tx_begin tx_end.
Definition add_prepare_ack : acceptor_record → M (acceptor DB) unit :=
  sendbuf_add_prepare_ack to_proposers set_proposers tx_begin tx_end.

(** NULL is [None]. *)
Definition acc_apply_accept (ar : accept_req) (rec : option acceptor_record) :
    M (acceptor DB) (option acceptor_record) :=
  if match rec with Some rec => aa_ballot rec <? ar_ballot ar | None => false end then mret None
  else
    rec ← on_storage (stablestorage_save_accept ar);
    modify (λ s, if highest_accepted_iid s <? ar_iid ar
                 then s <| highest_accepted_iid := ar_iid ar |> else s);;
    mret (Some rec).

Definition acc_apply_prepare (pr : prepare_req) (rec : option acceptor_record) :
    M (acceptor DB) (option acceptor_record) :=
  if match rec with Some rec => pr_ballot pr <=? aa_ballot rec | None => false end then mret None
  else if match rec with Some rec => negb (aa_is_final rec =? 0) | None => false end then mret None
  else
    rec ← on_storage (stablestorage_save_prepare pr rec);
    mret (Some rec).

(** A NULL record is dereferenced. *)
Definition acc_retransmit_latest_accept : M (acceptor DB) unit :=
  s ← get;
  on_learners (sendbuf_clear accept_acks (this_acceptor_id s));;
  tx_begin;;
  rec ← on_storage (stablestorage_get_record (highest_accepted_iid s));
  rec ← lift_opt rec;
  add_accept_ack rec;;
  tx_end;;
  on_learners sendbuf_flush.

Definition acc_periodic_repeater : M (acceptor DB) unit :=
  s ← get;
  when (0 <? highest_accepted_iid s) acc_retransmit_latest_accept.

Definition handle_prepare_req_batch (prb : list prepare_req) : M (acceptor DB) unit :=
  s ← get;
  on_proposers (sendbuf_clear prepare_acks (this_acceptor_id s));;
  tx_begin;;
  mfor prb (λ pr,
    rec ← on_storage (stablestorage_get_record (pr_iid pr));
    rec ← acc_apply_prepare pr rec;
    match rec with
    | Some rec => add_prepare_ack rec
    | None => mret tt
    end);;
  tx_end;;
  on_proposers sendbuf_flush.

Definition handle_accept_req_batch (arb : list accept_req) : M (acceptor DB) unit :=
  s ← get;
  on_learners (sendbuf_clear accept_acks (this_acceptor_id s));;
  tx_begin;;
  mfor arb (λ ar,
    rec ← on_storage (stablestorage_get_record (ar_iid ar));
    rec ← acc_apply_accept ar rec;
    match rec with
    | Some rec => add_accept_ack rec
    | None => mret tt
    end);;
  tx_end;;
  on_learners sendbuf_flush.

Definition handle_repeat_req_batch (rrb : list Z) : M (acceptor DB) unit :=
  s ← get;
  on_learners (sendbuf_clear accept_acks (this_acceptor_id s));;
  tx_begin;;
  mfor rrb (λ iid,
    rec ← on_storage (stablestorage_get_record iid);
    match rec with
    | Some rec => if 0 <? blen (aa_value rec) then add_accept_ack rec else mret tt
    | None => mret tt
    end);;
  tx_end;;
  on_learners sendbuf_flush.

(** A packet of [msg_size] bytes is in the receive buffer. *)
Definition acc_handle_newmsg (buf : list byte) (msg_size : Z) : M (acceptor DB) unit :=
  valid ← lift_opt (validate_paxos_msg buf msg_size);
  if negb valid then mret tt
  else
    type ← lift_opt (rd 4 8 buf);
    if (type =? 1) || (type =? 4) || (type =? 16) then
      msg ← lift_opt (dec_msg buf);
      match msg with
      | PrepareReqs _ l => handle_prepare_req_batch l
      | AcceptReqs _ l => handle_accept_req_batch l
      | RepeatReqs l => handle_repeat_req_batch l
      | _ => mret tt
      end
    else mret tt.

Definition acc_deliver_callback (value : list byte) (iid ballot : Z) : M (acceptor DB) unit :=
  if update_on_deliver then
    tx_begin;;
    _ ← on_storage (stablestorage_save_final_value value iid ballot);
    tx_end
  else mret tt.

(** [acceptor_init]: [None] is the return value -1.  The database that
    [stablestorage_init] opens is an argument. *)
Definition acceptor_init (acceptor_id : Z) (db : DB) : option (acceptor DB) :=
  if 32 <=? N_OF_ACCEPTORS then None
  else if (acceptor_id <? 0) || (N_OF_ACCEPTORS <=? acceptor_id) then None
  else Some (mk_acceptor acceptor_id udp_sendbuf_new udp_sendbuf_new
               (mk_storage db empty_record) 0).
End acceptor.

(** ** Specification

    The records are a finite map; a request is refused ([None]) or stores a
    record, which is also what is acknowledged. *)

Abbreviation records := (gmap Z acceptor_record).
Implicit Types (m : records).

Definition apply_record (r : option acceptor_record) m : records :=
  match r with
  | Some r => <[aa_iid r := r]> m
  | None => m
  end.

Definition spec_prepare (pr : prepare_req) m : option acceptor_record :=
  match m !! pr_iid pr with
  | Some r => if (aa_ballot r <? pr_ballot pr) && (aa_is_final r =? 0)
              then Some (r <| aa_ballot := pr_ballot pr |>) else None
  | None => Some (mk_accept_ack (pr_iid pr) (pr_ballot pr) 0 0 [])
  end.

Definition spec_accept (ar : accept_req) m : option acceptor_record :=
  match m !! ar_iid ar with
  | Some r => if aa_ballot r <? ar_ballot ar then None
              else Some (mk_accept_ack (ar_iid ar) (ar_ballot ar) (ar_ballot ar) 0 (ar_value ar))
  | None => Some (mk_accept_ack (ar_iid ar) (ar_ballot ar) (ar_ballot ar) 0 (ar_value ar))
  end.

Definition spec_repeat (iid : Z) m : option acceptor_record :=
  match m !! iid with
  | Some r => if 0 <? blen (aa_value r) then Some r else None
  | None => None
  end.

(** A batch: the records afterwards and the acknowledgements, in order. *)
Fixpoint spec_batch {A} (f : A → records → option acceptor_record) (l : list A) m :
    records * list acceptor_record :=
  match l with
  | [] => (m, [])
  | x :: l =>
      let r := f x m in
      let '(m', acks) := spec_batch f l (apply_record r m) in
      (m', option_list r ++ acks)
  end.

Lemma spec_batch_snoc {A} (f : A → records → option acceptor_record) l x m :
  spec_batch f (l ++ [x]) m =
  let '(m', acks) := spec_batch f l m in
  (apply_record (f x m') m', acks ++ option_list (f x m')).
Proof.
  revert m. induction l as [|y l IH]; intros m; cbn.
  - by rewrite app_nil_r.
  - rewrite IH. destruct (spec_batch f l (apply_record (f y m) m)) as [m' acks].
    by rewrite app_assoc.
Qed.

(** ** Refinement *)

(** The values are small enough for the messages that carry them. *)
Definition value_fits (v : list byte) : Prop :=
  sizeof_batch + (blen v + sizeof_accept_ack) + sizeof_paxos_msg < MAX_UDP_MSG_SIZE.

Definition records_fit m : Prop :=
  map_Forall (λ k r, 1 ≤ k ∧ aa_iid r = k ∧ value_fits (aa_value r)) m.

Lemma records_fit_ok m : records_fit m → records_ok m.
Proof.
  intros H k r Hk. destruct (H k r Hk) as (H1 & H2 & H3). split; [done|].
  unfold value_fits, sizeof_accept_ack, sizeof_batch, sizeof_paxos_msg, MAX_UDP_MSG_SIZE in *. lia.
Qed.

Lemma records_fit_insert m r :
  records_fit m → 1 ≤ aa_iid r → value_fits (aa_value r) → records_fit (<[aa_iid r := r]> m).
Proof. intros Hm Hi Hv. by apply map_Forall_insert_2. Qed.

Section refinement.
Context {DB : Type} `{!RecordStore DB} `{!RecordStoreLaws DB}.
Context (mode : Z).
Implicit Types (s : acceptor DB).

Definition acc_records s : records := stored (acc_storage s).

Record acc_inv s : Prop := {
  ai_records : records_fit (acc_records s);
  ai_highest : 0 < highest_accepted_iid s → is_Some (acc_records s !! highest_accepted_iid s)
}.

Lemma wp_on_storage {A} (mm : M (storage DB) A) (P : A → storage DB → Prop) Q s :
  wp mm P (acc_storage s) → (∀ a st, P a st → Q a (s <| acc_storage := st |>)) →
  wp (on_storage mm) Q s.
Proof. intros H HQ. apply wp_zoom. eapply wp_mono; [done|]. auto. Qed.

(** What the transactions, the reads and the sends leave unchanged. *)
Definition same_but_buffer (s0 s : acceptor DB) : Prop :=
  acc_records s = acc_records s0 ∧ highest_accepted_iid s = highest_accepted_iid s0 ∧
  this_acceptor_id s = this_acceptor_id s0.

Lemma tx_begin_same s0 s :
  same_but_buffer s0 s →
  wp (tx_begin mode) (λ _ s', same_but_buffer s0 s' ∧ to_learners s' = to_learners s ∧
    to_proposers s' = to_proposers s) s.
Proof.
  intros (H1 & H2 & H3). eapply wp_on_storage; [apply tx_begin_spec|].
  intros _ st [Hst _]. split_and!; [|done|done]. split_and!; [|done|done].
  unfold acc_records in *; cbn. by rewrite Hst.
Qed.

Lemma tx_end_same s0 s :
  same_but_buffer s0 s →
  wp (tx_end mode) (λ _ s', same_but_buffer s0 s' ∧ to_learners s' = to_learners s ∧
    to_proposers s' = to_proposers s) s.
Proof.
  intros (H1 & H2 & H3). eapply wp_on_storage; [apply tx_end_spec|].
  intros _ st [Hst _]. split_and!; [|done|done]. split_and!; [|done|done].
  unfold acc_records in *; cbn. by rewrite Hst.
Qed.

Lemma get_record_step iid s :
  1 ≤ iid → records_fit (acc_records s) →
  wp (on_storage (stablestorage_get_record iid))
    (λ r s', r = acc_records s !! iid ∧ same_but_buffer s s' ∧
      to_learners s' = to_learners s ∧ to_proposers s' = to_proposers s ∧
      ∀ x, r = Some x → record_buffer (acc_storage s') = x) s.
Proof.
  intros Hi Hf. eapply wp_on_storage; [apply get_record_spec; [done|by apply records_fit_ok]|].
  intros r st (-> & Hst & Hb). unfold same_but_buffer, acc_records; cbn. by rewrite Hst.
Qed.

Lemma apply_prepare_step pr s0 s r :
  1 ≤ pr_iid pr → acc_inv s0 → same_but_buffer s0 s → r = acc_records s0 !! pr_iid pr →
  (∀ x, r = Some x → record_buffer (acc_storage s) = x) →
  wp (acc_apply_prepare pr r)
    (λ r' s', r' = spec_prepare pr (acc_records s0) ∧
      acc_records s' = apply_record r' (acc_records s0) ∧
      to_learners s' = to_learners s ∧ to_proposers s' = to_proposers s ∧
      this_acceptor_id s' = this_acceptor_id s0 ∧ acc_inv s' ∧
      ∀ x, r' = Some x → value_fits (aa_value x)) s.
Proof.
  intros Hi [Hf Hh] (H1 & H2 & H3) -> Hb. unfold acc_apply_prepare, spec_prepare.
  assert (acc_inv s) as Hs by (constructor; rewrite H1, ?H2; auto).
  destruct (acc_records s0 !! pr_iid pr) as [x|] eqn:E.
  - destruct (Hf _ _ E) as (Hx1 & Hx2 & Hx3).
    rewrite Z.leb_antisym. destruct (aa_ballot x <? pr_ballot pr); cbn; [|by apply wp_ret].
    destruct (aa_is_final x =? 0); cbn; [|by apply wp_ret]. wp_steps.
    eapply wp_on_storage; [by apply (save_prepare_spec pr (Some x))|].
    intros r' st (-> & Hst). wp_steps. cbn.
    assert (stored st = <[aa_iid x := x <| aa_ballot := pr_ballot pr |>]> (acc_records s0)) as Hst'.
    { rewrite Hst, Hx2. unfold acc_records in H1. by rewrite H1. }
    unfold acc_records in *; cbn in *. rewrite Hst'. split_and!; try done; [|by intros ? [= <-]].
    constructor; unfold acc_records; cbn; rewrite Hst'.
    + apply (records_fit_insert _ (mk_accept_ack (aa_iid x) (pr_ballot pr) (aa_value_ballot x)
        (aa_is_final x) (aa_value x))); [done|by cbn; rewrite Hx2|done].
    + rewrite H2. intros Hpos. apply lookup_insert_is_Some'. auto.
  - wp_steps. eapply wp_on_storage; [by apply (save_prepare_spec pr None)|].
    intros r' st (-> & Hst). wp_steps.
    unfold acc_records in *; cbn in *. rewrite H1 in Hst. rewrite Hst. split_and!; try done;
      [|by intros ? [= <-]].
    constructor; unfold acc_records; cbn; rewrite Hst.
    + by apply (records_fit_insert _ (mk_accept_ack (pr_iid pr) (pr_ballot pr) 0 0 [])).
    + rewrite H2. intros Hpos. apply lookup_insert_is_Some'. auto.
Qed.
Lemma apply_accept_step ar s0 s r :
  1 ≤ ar_iid ar → value_fits (ar_value ar) → acc_inv s0 → same_but_buffer s0 s →
  r = acc_records s0 !! ar_iid ar →
  wp (acc_apply_accept ar r)
    (λ r' s', r' = spec_accept ar (acc_records s0) ∧
      acc_records s' = apply_record r' (acc_records s0) ∧
      to_learners s' = to_learners s ∧ to_proposers s' = to_proposers s ∧
      this_acceptor_id s' = this_acceptor_id s0 ∧ acc_inv s' ∧
      ∀ x, r' = Some x → value_fits (aa_value x)) s.
Proof.
  intros Hi Hv [Hf Hh] (H1 & H2 & H3) ->. unfold acc_apply_accept.
  set (new := mk_accept_ack (ar_iid ar) (ar_ballot ar) (ar_ballot ar) 0 (ar_value ar)).
  assert (spec_accept ar (acc_records s0) =
    if match acc_records s0 !! ar_iid ar with Some rec => aa_ballot rec <? ar_ballot ar | None => false end
    then None else Some new) as ->.
  { unfold spec_accept. by destruct (acc_records s0 !! ar_iid ar). }
  wp_case.
  { apply wp_ret. split_and!; try done. constructor; rewrite H1, ?H2; auto. }
  wp_steps. eapply wp_on_storage; [apply save_accept_spec; [done|]|].
  { unfold value_fits, sizeof_batch, sizeof_paxos_msg, MAX_UDP_MSG_SIZE in *. lia. }
  intros r' st (-> & Hst). wp_steps. unfold acc_records in *. rewrite H1 in Hst. cbn.
  set (s1 := if _ <? _ then _ else _).
  assert (acc_storage s1 = st ∧ to_learners s1 = to_learners s ∧ to_proposers s1 = to_proposers s ∧
    this_acceptor_id s1 = this_acceptor_id s ∧
    highest_accepted_iid s1 = Z.max (highest_accepted_iid s) (ar_iid ar))
    as (E1 & E2 & E3 & E4 & E5).
  { unfold s1. destruct (Z.ltb_spec (highest_accepted_iid s) (ar_iid ar)); cbn; split_and!;
      try done; lia. }
  rewrite E1, E2, E3, E4, Hst. split_and!; try done; [|by intros ? [= <-]].
  constructor; unfold acc_records; rewrite E1, Hst.
  - by apply (records_fit_insert _ new).
  - rewrite E5, H2. intros Hpos.
    destruct (Z.max_spec (highest_accepted_iid s0) (ar_iid ar)) as [[? ->]|[? ->]];
      apply lookup_insert_is_Some'; auto. right. apply Hh. lia.
Qed.

(** The additions of acknowledgements, on the whole state. *)
Lemma add_prepare_ack_step base id items rec s :
  sb_holds PrepareAcks PREPARE_ACK_SIZE base id items (to_proposers s) →
  value_fits (aa_value rec) →
  wp (add_prepare_ack mode rec)
    (λ _ s', sb_holds PrepareAcks PREPARE_ACK_SIZE base id (items ++ [prepare_ack_of rec])
        (to_proposers s') ∧ same_but_buffer s s' ∧ to_learners s' = to_learners s) s.
Proof.
  intros Hh Hv. unfold add_prepare_ack.
  eapply (add_prepare_ack_holds to_proposers set_proposers (tx_begin mode) (tx_end mode)
    (λ s', same_but_buffer s s' ∧ to_learners s' = to_learners s)); try done.
  - intros s1 [Hs Hl]. eapply wp_mono; [by apply tx_end_same|].
    intros _ s2 (? & ? & ?). split; [split; [done|congruence]|done].
  - intros s1 [Hs Hl]. eapply wp_mono; [by apply tx_begin_same|].
    intros _ s2 (? & ? & ?). split; [split; [done|congruence]|done].
Qed.

Lemma add_accept_ack_step base id items rec s :
  sb_holds AcceptAcks ACCEPT_ACK_SIZE base id items (to_learners s) →
  value_fits (aa_value rec) →
  wp (add_accept_ack mode rec)
    (λ _ s', sb_holds AcceptAcks ACCEPT_ACK_SIZE base id (items ++ [rec])
        (to_learners s') ∧ same_but_buffer s s' ∧ to_proposers s' = to_proposers s) s.
Proof.
  intros Hh Hv. unfold add_accept_ack.
  eapply (add_accept_ack_holds to_learners set_learners (tx_begin mode) (tx_end mode)
    (λ s', same_but_buffer s s' ∧ to_proposers s' = to_proposers s)); try done.
  - intros s1 [Hs Hl]. eapply wp_mono; [by apply tx_end_same|].
    intros _ s2 (? & ? & ?). split; [split; [done|congruence]|done].
  - intros s1 [Hs Hl]. eapply wp_mono; [by apply tx_begin_same|].
    intros _ s2 (? & ? & ?). split; [split; [done|congruence]|done].
Qed.

Lemma acc_inv_same s s' : same_but_buffer s s' → acc_inv s → acc_inv s'.
Proof. intros (H1 & H2 & _) [Hf Hh]. constructor; rewrite H1, ?H2; auto. Qed.

(** One of the two buffers of the acceptor. *)
Record buffer_of (proj other : acceptor DB → udp_send_buffer)
    (upd : udp_send_buffer → acceptor DB → acceptor DB) : Prop := {
  bo_proj sb s : proj (upd sb s) = sb;
  bo_other sb s : other (upd sb s) = other s;
  bo_same sb s : same_but_buffer s (upd sb s);
  bo_tx s s' : to_learners s' = to_learners s → to_proposers s' = to_proposers s →
    proj s' = proj s ∧ other s' = other s
}.

Lemma learners_buffer : buffer_of to_learners to_proposers set_learners.
Proof. by constructor. Qed.
Lemma proposers_buffer : buffer_of to_proposers to_learners set_proposers.
Proof. by constructor. Qed.

Section handler.
Context {A I : Type} (mk : Z → list I → paxos_msg) (size : I → Z) (ct : clear_type).
Context (ack_of : acceptor_record → I) (f : A → records → option acceptor_record).
Context (proj other : acceptor DB → udp_send_buffer) (upd : udp_send_buffer → acceptor DB → acceptor DB).
Context (body : A → M (acceptor DB) unit) (A_ok : A → Prop).
Hypothesis clear_ct : ∀ id sb, sendbuf_clear ct id sb = Some (tt, cleared mk id sb).
Hypothesis buf : buffer_of proj other upd.

(** One request: the record of [f] is stored and acknowledged. *)
Hypothesis body_ok : ∀ x base id items s,
  A_ok x → acc_inv s → sb_holds mk size base id items (proj s) →
  wp (body x) (λ _ s',
    sb_holds mk size base id (items ++ map ack_of (option_list (f x (acc_records s)))) (proj s') ∧
    acc_records s' = apply_record (f x (acc_records s)) (acc_records s) ∧
    acc_inv s' ∧ this_acceptor_id s' = this_acceptor_id s ∧ other s' = other s) s.

(** What a handler does: its contract. *)
Definition handled (l : list A) s s' : Prop :=
  acc_inv s' ∧ this_acceptor_id s' = this_acceptor_id s ∧ other s' = other s ∧
  acc_records s' = fst (spec_batch f l (acc_records s)) ∧
  sb_sent mk size (sent (proj s)) (this_acceptor_id s)
    (map ack_of (snd (spec_batch f l (acc_records s)))) (sent (proj s')).

Lemma handler_spec l s :
  Forall A_ok l → acc_inv s →
  wp (zoom proj upd (sendbuf_clear ct (this_acceptor_id s));;
      tx_begin mode;; mfor l body;; tx_end mode;; zoom proj upd sendbuf_flush)
    (λ _ s', handled l s s') s.
Proof.
  intros Hl Hinv. wp_steps. apply (wp_clear_holds mk size); [done|]. intros sb1 Hsb1. wp_steps.
  eapply wp_mono; [apply tx_begin_same, (bo_same _ _ _ buf)|]. intros [] s1 (Hs1 & Hl1 & Hp1).
  destruct (bo_tx _ _ _ buf _ _ Hl1 Hp1) as [Hproj1 Hother1].
  rewrite (bo_proj _ _ _ buf) in Hproj1. rewrite (bo_other _ _ _ buf) in Hother1.
  wp_steps.
  apply (wp_mfor (λ dn s', acc_inv s' ∧ this_acceptor_id s' = this_acceptor_id s ∧
    other s' = other s ∧ acc_records s' = fst (spec_batch f dn (acc_records s)) ∧
    sb_holds mk size (sent (proj s)) (this_acceptor_id s)
      (map ack_of (snd (spec_batch f dn (acc_records s)))) (proj s'))).
  - split_and!; [by eapply acc_inv_same|apply Hs1|done|apply Hs1|by rewrite Hproj1].
  - intros dn x rest s2 -> (Hinv2 & Hid2 & Ho2 & Hr2 & Hh2).
    apply Forall_app in Hl as [_ Hl]. inversion Hl as [|? ? Hx _]; subst.
    eapply wp_mono; [by apply body_ok|]. intros _ s3 (Hh3 & Hr3 & Hinv3 & Hid3 & Ho3).
    rewrite spec_batch_snoc. rewrite Hr2 in *.
    destruct (spec_batch f dn (acc_records s)) as [m' acks]; cbn in *.
    rewrite map_app. split_and!; [done|congruence|congruence|done|done].
  - intros s2 (Hinv2 & Hid2 & Ho2 & Hr2 & Hh2). wp_steps.
    eapply wp_mono; [by apply tx_end_same|]. intros [] s3 (Hs3 & Hl3 & Hp3).
    destruct (bo_tx _ _ _ buf _ _ Hl3 Hp3) as [Hproj3 Hother3].
    wp_steps. rewrite <-Hproj3 in Hh2. eapply wp_flush_holds; [done|]. intros sb4 Hsent.
    pose proof (bo_same _ _ _ buf sb4 s3) as Hsame.
    unfold handled. rewrite (bo_proj _ _ _ buf), (bo_other _ _ _ buf).
    split_and!; [|destruct Hsame, Hs3; intuition congruence|congruence|
      destruct Hsame, Hs3; congruence|done].
    eapply acc_inv_same; [done|]. by eapply acc_inv_same.
Qed.
End handler.

Lemma handle_prepare_req_batch_spec l s :
  Forall (λ pr, 1 ≤ pr_iid pr) l → acc_inv s →
  wp (handle_prepare_req_batch mode l)
    (λ _ s', handled PrepareAcks PREPARE_ACK_SIZE prepare_ack_of spec_prepare
      to_proposers to_learners l s s') s.
Proof.
  intros Hl Hinv. unfold handle_prepare_req_batch. apply wp_bind, wp_get.
  apply (handler_spec PrepareAcks PREPARE_ACK_SIZE prepare_acks prepare_ack_of spec_prepare
    to_proposers to_learners set_proposers _ (λ pr, 1 ≤ pr_iid pr)); [done|apply proposers_buffer| |done..].
  clear. intros pr base id items s Hi Hinv Hh. wp_steps.
  eapply wp_mono; [by apply get_record_step; [|apply Hinv]|].
  intros r s1 (Hr & Hs1 & Hl1 & Hp1 & Hb1). wp_steps.
  eapply wp_mono; [by apply (apply_prepare_step pr s)|].
  intros r' s2 (-> & Hr2 & Hl2 & Hp2 & Hid2 & Hinv2 & Hv2).
  destruct (spec_prepare pr (acc_records s)) as [rec|]; cbn in *.
  - eapply wp_mono; [apply add_prepare_ack_step; [by rewrite Hp2, Hp1|by apply Hv2]|].
    intros _ s3 (Hh3 & (Hr3 & ? & Hid3) & Hl3).
    split_and!; [done|congruence|by eapply acc_inv_same|congruence|congruence].
  - apply wp_ret. rewrite app_nil_r. split_and!; congruence || done.
Qed.

Lemma handle_accept_req_batch_spec l s :
  Forall (λ ar, 1 ≤ ar_iid ar ∧ value_fits (ar_value ar)) l → acc_inv s →
  wp (handle_accept_req_batch mode l)
    (λ _ s', handled AcceptAcks ACCEPT_ACK_SIZE id spec_accept to_learners to_proposers l s s') s.
Proof.
  intros Hl Hinv. unfold handle_accept_req_batch. apply wp_bind, wp_get.
  apply (handler_spec AcceptAcks ACCEPT_ACK_SIZE accept_acks id spec_accept
    to_learners to_proposers set_learners _ (λ ar, 1 ≤ ar_iid ar ∧ value_fits (ar_value ar)));
    [done|apply learners_buffer| |done..].
  clear. intros ar base id items s [Hi Hv] Hinv Hh. wp_steps.
  eapply wp_mono; [by apply get_record_step; [|apply Hinv]|].
  intros r s1 (Hr & Hs1 & Hl1 & Hp1 & Hb1). wp_steps.
  eapply wp_mono; [by apply (apply_accept_step ar s)|].
  intros r' s2 (-> & Hr2 & Hl2 & Hp2 & Hid2 & Hinv2 & Hv2).
  destruct (spec_accept ar (acc_records s)) as [rec|]; cbn in *.
  - eapply wp_mono; [apply add_accept_ack_step; [by rewrite Hl2, Hl1|by apply Hv2]|].
    intros _ s3 (Hh3 & (Hr3 & ? & Hid3) & Hl3).
    split_and!; [done|congruence|by eapply acc_inv_same|congruence|congruence].
  - apply wp_ret. rewrite app_nil_r. split_and!; congruence || done.
Qed.

(** A repetition stores nothing: [spec_repeat] gives the record that is there. *)
Lemma spec_repeat_apply iid m : records_fit m → apply_record (spec_repeat iid m) m = m.
Proof.
  intros Hf. unfold spec_repeat. destruct (m !! iid) as [r|] eqn:E; [|done].
  destruct (0 <? blen (aa_value r)); [|done]. cbn. destruct (Hf _ _ E) as (_ & -> & _).
  by apply insert_id.
Qed.

Lemma handle_repeat_req_batch_spec l s :
  Forall (λ iid, 1 ≤ iid) l → acc_inv s →
  wp (handle_repeat_req_batch mode l)
    (λ _ s', handled AcceptAcks ACCEPT_ACK_SIZE id spec_repeat to_learners to_proposers l s s') s.
Proof.
  intros Hl Hinv. unfold handle_repeat_req_batch. apply wp_bind, wp_get.
  apply (handler_spec AcceptAcks ACCEPT_ACK_SIZE accept_acks id spec_repeat
    to_learners to_proposers set_learners _ (λ iid, 1 ≤ iid));
    [done|apply learners_buffer| |done..].
  clear. intros iid base id items s Hi Hinv Hh. wp_steps.
  eapply wp_mono; [by apply get_record_step; [|apply Hinv]|].
  intros r s1 (-> & Hs1 & Hl1 & Hp1 & Hb1). rewrite spec_repeat_apply by apply Hinv.
  assert (acc_inv s1) as Hinv1 by by eapply acc_inv_same.
  rewrite <-Hl1 in Hh. unfold spec_repeat. destruct (acc_records s !! iid) as [r|] eqn:E.
  - destruct (0 <? blen (aa_value r)); cbn.
    + destruct Hinv as [Hf _]. destruct (Hf _ _ E) as (_ & _ & Hv).
      eapply wp_mono; [by apply add_accept_ack_step|].
      intros _ s3 (Hh3 & Hs3 & Hp3). destruct Hs1 as (? & ? & ?), (Hs3) as (? & ? & ?).
      split_and!; [done|congruence|by eapply acc_inv_same|congruence|congruence].
    + apply wp_ret. rewrite app_nil_r. destruct Hs1 as (? & ? & ?). done.
  - apply wp_ret. cbn. rewrite app_nil_r. destruct Hs1 as (? & ? & ?). done.
Qed.

(** The periodic repetition never meets an instance without record. *)
Lemma acc_periodic_repeater_spec s :
  acc_inv s →
  wp (acc_periodic_repeater mode)
    (λ _ s', acc_inv s' ∧ acc_records s' = acc_records s ∧
      sb_sent AcceptAcks ACCEPT_ACK_SIZE (sent (to_learners s)) (this_acceptor_id s)
        (if 0 <? highest_accepted_iid s
         then option_list (acc_records s !! highest_accepted_iid s) else []) (sent (to_learners s'))) s.
Proof.
  intros Hinv. unfold acc_periodic_repeater. wp_steps. apply wp_when; intros Hpos; rewrite Hpos.
  2: { split_and!; [done..|]. exists []. by rewrite app_nil_r. }
  zbool. unfold acc_retransmit_latest_accept, on_learners. wp_steps.
  apply (wp_clear_holds AcceptAcks ACCEPT_ACK_SIZE); [done|]. intros sb1 Hsb1. wp_steps.
  eapply wp_mono; [apply (tx_begin_same s); done|]. intros [] s1 (Hs1 & Hl1 & Hp1). wp_steps.
  assert (acc_inv s1) as Hinv1 by by eapply acc_inv_same.
  destruct (ai_highest _ Hinv Hpos) as [r Hr]. rewrite Hr.
  pose proof Hinv as [Hf _]. destruct (Hf _ _ Hr) as (H1 & _ & Hv).
  eapply wp_mono; [by apply get_record_step; [|apply Hinv1]|].
  intros r' s2 (-> & Hs2 & Hl2 & Hp2 & _). wp_steps.
  destruct Hs1 as (Hr1 & Hh1 & Hi1). rewrite Hr1, Hr. eapply wp_lift_opt; [done|].
  wp_steps. eapply wp_mono; [apply add_accept_ack_step; [by rewrite Hl2, Hl1|done]|].
  intros [] s3 (Hh3 & Hs3 & Hp3). wp_steps.
  eapply wp_mono; [by apply (tx_end_same s3)|]. intros [] s4 (Hs4 & Hl4 & Hp4). wp_steps.
  rewrite <-Hl4 in Hh3. eapply wp_flush_holds; [done|]. intros sb5 Hsent.
  split_and!; [| |done].
  2: { change (acc_records s4 = acc_records s).
       by destruct Hs4 as (-> & _), Hs3 as (-> & _), Hs2 as (-> & _). }
  eapply (acc_inv_same s4); [done|]. eapply acc_inv_same; [done|]. eapply acc_inv_same; [done|].
  by eapply acc_inv_same.
Qed.

(** ** Messages *)

(** The requests of a message are for instances that exist, and carry values
    that the acknowledgements can carry. *)
Definition acc_msg_ok (m : paxos_msg) : Prop :=
  match m with
  | PrepareReqs _ l => Forall (λ pr, 1 ≤ pr_iid pr) l
  | AcceptReqs _ l => Forall (λ ar, 1 ≤ ar_iid ar ∧ value_fits (ar_value ar)) l
  | RepeatReqs l => Forall (λ iid, 1 ≤ iid) l
  | _ => True
  end.

(** What a message does to the records, and the packets it is answered with. *)
Definition acc_msg_spec (m : paxos_msg) s s' : Prop :=
  match m with
  | PrepareReqs _ l =>
      handled PrepareAcks PREPARE_ACK_SIZE prepare_ack_of spec_prepare to_proposers to_learners l s s'
  | AcceptReqs _ l => handled AcceptAcks ACCEPT_ACK_SIZE id spec_accept to_learners to_proposers l s s'
  | RepeatReqs l => handled AcceptAcks ACCEPT_ACK_SIZE id spec_repeat to_learners to_proposers l s s'
  | _ => s' = s
  end.

Lemma acc_msg_spec_inv (m : paxos_msg) s s' : acc_inv s → acc_msg_spec m s s' → acc_inv s'.
Proof. destruct m; cbn; by try (intros _ [? _]); try (intros ? ->). Qed.

Lemma newmsg_spec (m : paxos_msg) rest s :
  msg_ok m → acc_msg_ok m → blen (enc_msg m rest) < 2 ^ 63 → acc_inv s →
  wp (acc_handle_newmsg mode (enc_msg m rest) (PAXOS_MSG_SIZE m))
    (λ _ s', acc_msg_spec m s s') s.
Proof.
  intros Hok Hacc Hb Hinv. unfold acc_handle_newmsg.
  rewrite validate_enc by done. wp_steps. eapply wp_lift_opt; [done|]. cbn [negb].
  destruct (rd_header m rest Hb) as [_ ->]. wp_steps. eapply wp_lift_opt; [done|].
  rewrite dec_enc by done.
  destruct m; cbn [msg_type Z.eqb Pos.eqb orb]; try (by apply wp_ret);
    wp_steps; (eapply wp_lift_opt; [done|]).
  - by apply handle_prepare_req_batch_spec.
  - by apply handle_accept_req_batch_spec.
  - by apply handle_repeat_req_batch_spec.
Qed.
End refinement.

(** ** Facts on the specification *)

(** The record [r'] promises at least as much as [r] and holds the same value. *)
Definition promise_le (r r' : acceptor_record) : Prop :=
  aa_ballot r ≤ aa_ballot r' ∧ aa_value_ballot r' = aa_value_ballot r ∧
  aa_value r' = aa_value r ∧ aa_is_final r' = aa_is_final r.

#[export] Instance promise_le_preorder : PreOrder promise_le.
Proof.
  split; [by intros r; repeat split|]. intros r1 r2 r3 (?&?&?&?) (?&?&?&?).
  repeat split; [lia|congruence..].
Qed.

Lemma spec_prepare_le pr m iid r :
  records_fit m → m !! iid = Some r →
  ∃ r', apply_record (spec_prepare pr m) m !! iid = Some r' ∧ promise_le r r'.
Proof.
  intros Hf Hr. unfold spec_prepare. destruct (m !! pr_iid pr) as [x|] eqn:E.
  - destruct (aa_ballot x <? pr_ballot pr) eqn:Hb, (aa_is_final x =? 0); cbn; try by exists r.
    destruct (Hf _ _ E) as (_ & Hx & _). zbool. destruct (decide (iid = pr_iid pr)) as [->|Hne].
    + simplify_eq. eexists. rewrite Hx, lookup_insert_eq. split; [done|].
      repeat split; cbn; lia.
    + exists r. rewrite Hx, lookup_insert_ne by done. done.
  - exists r. cbn. rewrite lookup_insert_ne by congruence. done.
Qed.

Lemma spec_prepare_fit pr m : 1 ≤ pr_iid pr → records_fit m → records_fit (apply_record (spec_prepare pr m) m).
Proof.
  intros Hi Hf. unfold spec_prepare. destruct (m !! pr_iid pr) as [x|] eqn:E.
  - destruct (_ && _); [|done]. destruct (Hf _ _ E) as (? & Hx & ?). cbn [apply_record].
    apply records_fit_insert; cbn; [done|lia|done].
  - by apply records_fit_insert.
Qed.

Lemma spec_prepare_batch_le l m iid r :
  Forall (λ pr, 1 ≤ pr_iid pr) l → records_fit m → m !! iid = Some r →
  ∃ r', fst (spec_batch spec_prepare l m) !! iid = Some r' ∧ promise_le r r'.
Proof.
  intros Hl. revert m r. induction Hl as [|pr l Hpr Hl IH]; intros m r Hf Hr; cbn; [by exists r|].
  destruct (spec_prepare_le pr m iid r Hf Hr) as (r1 & Hr1 & Hle).
  destruct (IH _ r1 (spec_prepare_fit pr m Hpr Hf) Hr1) as (r' & Hr' & Hle').
  destruct (spec_batch spec_prepare l _) as [m' acks]; cbn in *. exists r'. split; [done|by etrans].
Qed.

(** ** Properties *)


Definition example_acceptor : acceptor records :=
  mk_acceptor 1 udp_sendbuf_new udp_sendbuf_new
    (mk_storage (<[5 := mk_accept_ack 5 20 0 0 []]> (∅ : records)) empty_record) 0.

Lemma example_acceptor_inv : acc_inv example_acceptor.
Proof.
  constructor; [|cbn; lia]. apply map_Forall_insert_2; [done|apply map_Forall_empty].
Qed.


(** C21. Phase 1 keeps promises: whatever batch of prepare requests is
    handled, no record disappears, no promised ballot decreases and no accepted
    value, value ballot or final mark changes. *)
Theorem prepare_keeps_promises {DB} `{RecordStoreLaws DB} mode l (s : acceptor DB) iid r :
  Forall (λ pr, 1 ≤ pr_iid pr) l → acc_inv s → acc_records s !! iid = Some r →
  wp (handle_prepare_req_batch mode l)
    (λ _ s', ∃ r', acc_records s' !! iid = Some r' ∧ promise_le r r') s.
Proof.
  intros Hl Hinv Hr. eapply wp_mono; [by apply handle_prepare_req_batch_spec|].
  intros [] s' (_ & _ & _ & -> & _). apply spec_prepare_batch_le; [done|apply Hinv|done].
Qed.

Lemma prepare_keeps_promises_witness :
  wp (handle_prepare_req_batch 0 [mk_prepare_req 5 11; mk_prepare_req 5 42])
    (λ _ s', ∃ r', acc_records s' !! 5 = Some r' ∧ promise_le (mk_accept_ack 5 20 0 0 []) r')
    example_acceptor.
Proof.
  apply (prepare_keeps_promises 0 [mk_prepare_req 5 11; mk_prepare_req 5 42] example_acceptor 5);
    [repeat constructor; done|apply example_acceptor_inv|done].
Defined.

(** Phase 2 breaks them: the test of [acc_apply_accept] is inverted.  An
    accept request with a ballot below the promised one is applied, lowers the
    record's ballot and replaces its value, and one with a ballot above it is
    dropped. *)
Theorem accept_check_inverted {DB} `{RecordStoreLaws DB} mode ar (s : acceptor DB) r :
  1 ≤ ar_iid ar → value_fits (ar_value ar) → acc_inv s →
  acc_records s !! ar_iid ar = Some r →
  wp (handle_accept_req_batch mode [ar])
    (λ _ s',
      (ar_ballot ar < aa_ballot r → acc_records s' !! ar_iid ar =
         Some (mk_accept_ack (ar_iid ar) (ar_ballot ar) (ar_ballot ar) 0 (ar_value ar))) ∧
      (aa_ballot r < ar_ballot ar → acc_records s' = acc_records s)) s.
Proof.
  intros Hi Hv Hinv Hr.
  eapply wp_mono; [apply handle_accept_req_batch_spec; [by repeat constructor|done]|].
  intros [] s' (_ & _ & _ & -> & _). cbn. unfold spec_accept. rewrite Hr.
  destruct (Z.ltb_spec (aa_ballot r) (ar_ballot ar)); cbn.
  - split; [lia|done].
  - split; [|lia]. intros _. by rewrite lookup_insert_eq.
Qed.

Lemma accept_check_inverted_witness :
  wp (handle_accept_req_batch 0 [mk_accept_req 5 11 [x61]])
    (λ _ s',
      (11 < 20 → acc_records s' !! 5 = Some (mk_accept_ack 5 11 11 0 [x61])) ∧
      (20 < 11 → acc_records s' = acc_records example_acceptor)) example_acceptor.
Proof.
  apply (accept_check_inverted 0 (mk_accept_req 5 11 [x61]) example_acceptor
    (mk_accept_ack 5 20 0 0 [])); [done|done|apply example_acceptor_inv|done].
Defined.

(** The acceptor starts well-formed on an empty database, exactly for the
    ids 0 to [N_OF_ACCEPTORS - 1], and its periodic repetition never fails and
    stores nothing. *)
Theorem acceptor_init_repeats {DB} `{RecordStoreLaws DB} mode id (db : DB) :
  db_view db = ∅ →
  match acceptor_init id db with
  | None => id < 0 ∨ N_OF_ACCEPTORS ≤ id
  | Some s => 0 ≤ id < N_OF_ACCEPTORS ∧ this_acceptor_id s = id ∧
      wp (acc_periodic_repeater mode) (λ _ s', acc_inv s' ∧ acc_records s' = ∅) s
  end.
Proof.
  intros Hdb. unfold acceptor_init, N_OF_ACCEPTORS. cbn.
  destruct ((id <? 0) || (3 <=? id)) eqn:E; zbool; [destruct E; zbool; lia|].
  split_and!; [lia|lia|done|].
  eapply wp_mono; [apply acc_periodic_repeater_spec|].
  - constructor; [|cbn; lia]. unfold acc_records, stored; cbn. rewrite Hdb. apply map_Forall_empty.
  - intros [] s' (Hinv & Hr & _). split; [done|]. rewrite Hr. done.
Qed.

Lemma acceptor_init_repeats_witness :
  match acceptor_init 2 (∅ : records) with
  | None => 2 < 0 ∨ N_OF_ACCEPTORS ≤ 2
  | Some s => 0 ≤ 2 < N_OF_ACCEPTORS ∧ this_acceptor_id s = 2 ∧
      wp (acc_periodic_repeater 0) (λ _ s', acc_inv s' ∧ acc_records s' = ∅) s
  end.
Proof. apply (acceptor_init_repeats 0 2 (∅ : records)). done. Defined.
