(* ===== verification/Learner.v ===== *)
(** * The learner of libpaxos2

    [paxos2/lib/learner.c]: a circular table of instances that collects the
    acknowledgements of the acceptors, closes an instance when a quorum agrees
    on a ballot, and delivers the closed instances in order.  The calls of the
    deliver function are recorded in [delivered].  The threads, the sockets and
    the libevent timers are not modelled here. *)
From Stdlib Require Import Init.Byte.
From S2P Require Import Prelude Bytes PaxosWire SendBuffer.

Definition LEARNER_ARRAY_SIZE : Z := 2048.

(** [l_inst_info].  [final_value] points to one of the stored acks, which do
    not change while the instance is closed: it is that ack. *)
Record l_inst_info := mk_l_inst_info {
  li_iid : Z;
  last_update_ballot : Z;
  acks : list (option accept_ack);   (* acks[N_OF_ACCEPTORS] *)
  final_value : option accept_ack
}.

(** A call of the deliver function. *)
Record delivery := mk_delivery {
  d_value : list byte; d_iid : Z; d_ballot : Z; d_proposer : Z
}.

Record learner := mk_learner {
  highest_iid_seen : Z;
  current_iid : Z;
  highest_iid_closed : Z;
  learner_state : list l_inst_info;
  to_acceptors : udp_send_buffer;
  delivered : list delivery
}.

#[export] Instance set_li_iid : Setter li_iid := λ g r,
  mk_l_inst_info (g (li_iid r)) (last_update_ballot r) (acks r) (final_value r).
#[global] Arguments set_li_iid _ _ /.
#[export] Instance set_last_update_ballot : Setter last_update_ballot := λ g r,
  mk_l_inst_info (li_iid r) (g (last_update_ballot r)) (acks r) (final_value r).
#[global] Arguments set_last_update_ballot _ _ /.
#[export] Instance set_acks : Setter acks := λ g r,
  mk_l_inst_info (li_iid r) (last_update_ballot r) (g (acks r)) (final_value r).
#[global] Arguments set_acks _ _ /.
#[export] Instance set_final_value : Setter final_value := λ g r,
  mk_l_inst_info (li_iid r) (last_update_ballot r) (acks r) (g (final_value r)).
#[global] Arguments set_final_value _ _ /.
#[export] Instance set_highest_iid_seen : Setter highest_iid_seen := λ g r,
  mk_learner (g (highest_iid_seen r)) (current_iid r) (highest_iid_closed r) (learner_state r)
    (to_acceptors r) (delivered r).
#[global] Arguments set_highest_iid_seen _ _ /.
#[export] Instance set_current_iid : Setter current_iid := λ g r,
  mk_learner (highest_iid_seen r) (g (current_iid r)) (highest_iid_closed r) (learner_state r)
    (to_acceptors r) (delivered r).
#[global] Arguments set_current_iid _ _ /.
#[export] Instance set_highest_iid_closed : Setter highest_iid_closed := λ g r,
  mk_learner (highest_iid_seen r) (current_iid r) (g (highest_iid_closed r)) (learner_state r)
    (to_acceptors r) (delivered r).
#[global] Arguments set_highest_iid_closed _ _ /.
#[export] Instance set_learner_state : Setter learner_state := λ g r,
  mk_learner (highest_iid_seen r) (current_iid r) (highest_iid_closed r) (g (learner_state r))
    (to_acceptors r) (delivered r).
#[global] Arguments set_learner_state _ _ /.
#[export] Instance set_to_acceptors : Setter to_acceptors := λ g r,
  mk_learner (highest_iid_seen r) (current_iid r) (highest_iid_closed r) (learner_state r)
    (g (to_acceptors r)) (delivered r).
#[global] Arguments set_to_acceptors _ _ /.
#[export] Instance set_delivered : Setter delivered := λ g r,
  mk_learner (highest_iid_seen r) (current_iid r) (highest_iid_closed r) (learner_state r)
    (to_acceptors r) (g (delivered r)).
#[global] Arguments set_delivered _ _ /.

Implicit Types (ii : l_inst_info) (l : learner) (aa : accept_ack).

Definition INST_INFO_EMPTY : Z := 0.

Definition IS_CLOSED ii : bool :=
  match final_value ii with
  | Some _ => true
  | None => false
  end.

(** [lea_clear_instance_info] *)
Definition lea_clear_instance_info : l_inst_info :=
  mk_l_inst_info INST_INFO_EMPTY 0 (replicate (Z.to_nat N_OF_ACCEPTORS) None) None.

Definition init_lea_structs : learner :=
  mk_learner 1 1 0 (replicate (Z.to_nat LEARNER_ARRAY_SIZE) lea_clear_instance_info)
    udp_sendbuf_new [].

(** [GET_LEA_INSTANCE]: the slot of an instance. *)
Definition lea_index (iid : Z) : Z := Z.land iid (LEARNER_ARRAY_SIZE - 1).

Definition GET_LEA_INSTANCE (iid : Z) : M learner l_inst_info :=
  l ← get;
  lift_opt (arr_get (learner_state l) (lea_index iid)).

(** The changes to the structure a pointer designates. *)
Definition put_lea_instance (iid : Z) ii : M learner unit :=
  modify (λ l, l <| learner_state := arr_set (learner_state l) (lea_index iid) ii |>).

Definition learner_is_closed (iid : Z) : M learner bool :=
  ii ← GET_LEA_INSTANCE iid;
  mret ((iid =? li_iid ii) && IS_CLOSED ii).

Definition lea_store_accept_ack ii (acceptor_id : Z) aa : l_inst_info :=
  ii <| acks := arr_set (acks ii) acceptor_id (Some aa) |> <| last_update_ballot := aa_ballot aa |>.

(** The new structure, and whether the message is relevant. *)
Definition lea_update_state ii (acceptor_id : Z) aa : option (bool * l_inst_info) :=
  let ii := if li_iid ii =? INST_INFO_EMPTY
            then ii <| li_iid := aa_iid aa |> <| last_update_ballot := aa_ballot aa |> else ii in
  if negb (li_iid ii =? aa_iid aa) then None (* assert *)
  else if IS_CLOSED ii then Some (false, ii)
  else
    match arr_get (acks ii) acceptor_id with
    | None => None (* out of bounds *)
    | Some None =>
        Some (true, (lea_store_accept_ack ii acceptor_id aa) <| last_update_ballot := aa_ballot aa |>)
    | Some (Some prev_ack) =>
        if aa_ballot aa <=? aa_ballot prev_ack then Some (false, ii)
        else Some (true, (lea_store_accept_ack ii acceptor_id aa) <| last_update_ballot := aa_ballot aa |>)
    end.

(** The loop of [lea_check_quorum] from acceptor [i] on. *)
Fixpoint count_acks (ballot : Z) (l : list (option accept_ack)) (i a_valid_index count : Z) : Z * Z :=
  match l with
  | [] => (a_valid_index, count)
  | None :: l => count_acks ballot l (i + 1) a_valid_index count
  | Some curr_ack :: l =>
      if aa_ballot curr_ack =? ballot then
        if negb (aa_is_final curr_ack =? 0) then (i, count + 1 + N_OF_ACCEPTORS)
        else count_acks ballot l (i + 1) i (count + 1)
      else count_acks ballot l (i + 1) a_valid_index count
  end.

Definition lea_check_quorum (iid : Z) : M learner bool :=
  ii ← GET_LEA_INSTANCE iid;
  let '(a_valid_index, count) := count_acks (last_update_ballot ii) (acks ii) 0 (2 ^ 64 - 1) 0 in
  if QUORUM <=? count then
    final ← lift_opt (arr_get (acks ii) a_valid_index);
    put_lea_instance iid (ii <| final_value := final |>);;
    modify (λ l, if highest_iid_closed l <? li_iid ii
                 then l <| highest_iid_closed := li_iid ii |> else l);;
    mret true
  else mret false.

(** The loop of [lea_deliver_next_closed]. *)
Fixpoint lea_deliver_fuel (fuel : nat) : M learner unit :=
  match fuel with
  | O => crash
  | S fuel =>
      l ← get;
      ii ← GET_LEA_INSTANCE (current_iid l);
      match final_value ii with
      | None => mret tt
      | Some aa =>
          c_assert (li_iid ii =? current_iid l);;
          let proposer_id := aa_ballot aa mod MAX_N_OF_PROPOSERS in
          modify (λ l, l <| delivered := delivered l ++
            [mk_delivery (aa_value aa) (current_iid l) (aa_ballot aa) proposer_id] |>);;
          modify (λ l, l <| current_iid := u32 (current_iid l + 1) |>);;
          put_lea_instance (current_iid l) lea_clear_instance_info;;
          lea_deliver_fuel fuel
      end
  end.

Definition lea_deliver_next_closed : M learner unit :=
  lea_deliver_fuel (S (Z.to_nat LEARNER_ARRAY_SIZE)).

Definition on_acceptors {A} (m : M udp_send_buffer A) : M learner A :=
  zoom to_acceptors (λ sb l, l <| to_acceptors := sb |>) m.

Definition lea_send_repeat_request (from to : Z) : M learner unit :=
  on_acceptors (sendbuf_clear repeat_reqs (-1));;
  for_lt from to (λ i,
    ii ← GET_LEA_INSTANCE i;
    if negb (IS_CLOSED ii) then on_acceptors (sendbuf_add_repeat_req i) else mret tt);;
  on_acceptors sendbuf_flush.

Definition lea_hole_check : M learner unit :=
  l ← get;
  if u32 (current_iid l + LEARNER_ARRAY_SIZE) <? highest_iid_seen l then
    lea_send_repeat_request (current_iid l) (highest_iid_seen l)
  else if current_iid l <? highest_iid_closed l then
    lea_send_repeat_request (current_iid l) (highest_iid_closed l)
  else mret tt.

Definition handle_accept_ack (acceptor_id : Z) aa : M learner unit :=
  modify (λ l, if highest_iid_seen l <? aa_iid aa then l <| highest_iid_seen := aa_iid aa |> else l);;
  l ← get;
  if aa_iid aa <? current_iid l then mret tt
  else if u32 (current_iid l + LEARNER_ARRAY_SIZE) <=? aa_iid aa then mret tt
  else
    ii ← GET_LEA_INSTANCE (aa_iid aa);
    r ← lift_opt (lea_update_state ii acceptor_id aa);
    let '(relevant, ii) := r in
    put_lea_instance (aa_iid aa) ii;;
    if negb relevant then mret tt
    else
      closed ← lea_check_quorum (aa_iid aa);
      if negb closed then mret tt
      else if aa_iid aa =? current_iid l then lea_deliver_next_closed
      else mret tt.

Definition handle_accept_ack_batch (acceptor_id : Z) (aab : list accept_ack) : M learner unit :=
  mfor aab (handle_accept_ack acceptor_id).

Definition lea_handle_newmsg (buf : list byte) (msg_size : Z) : M learner unit :=
  valid ← lift_opt (validate_paxos_msg buf msg_size);
  if negb valid then mret tt
  else
    type ← lift_opt (rd 4 8 buf);
    if type =? 8 then
      msg ← lift_opt (dec_msg buf);
      match msg with
      | AcceptAcks acceptor_id aab => handle_accept_ack_batch acceptor_id aab
      | _ => mret tt
      end
    else mret tt.

#[global] Arguments GET_LEA_INSTANCE : simpl never.
#[global] Arguments put_lea_instance : simpl never.
#[global] Arguments lea_check_quorum : simpl never.
#[global] Arguments lea_deliver_next_closed : simpl never.
#[global] Arguments handle_accept_ack : simpl never.

(** ** The invariant

    [H] is what the learner received: the acknowledgements, each with the
    acceptor that sent it. *)

Abbreviation history := (list (Z * accept_ack)).

(** Beyond this instance the bounds of the table wrap around. *)
Definition LAST_IID : Z := 2 ^ 32 - LEARNER_ARRAY_SIZE - 2.

Definition history_ok (H : history) : Prop :=
  ∀ a aa, (a, aa) ∈ H → 0 ≤ a < N_OF_ACCEPTORS ∧ aa_iid aa ≤ LAST_IID.

Section invariant.
Context (H : history).

(** The value of [v] was accepted in its ballot by a quorum, or announced as
    final by an acceptor. *)
Definition quorum_backed v : Prop :=
  (∃ a, (a, v) ∈ H) ∧
  ((∃ a v', (a, v') ∈ H ∧ aa_iid v' = aa_iid v ∧ aa_ballot v' = aa_ballot v ∧ aa_is_final v' ≠ 0) ∨
   ∃ ids : list Z, NoDup ids ∧ QUORUM ≤ Z.of_nat (length ids) ∧
     ∀ a, a ∈ ids → ∃ v', (a, v') ∈ H ∧ aa_iid v' = aa_iid v ∧ aa_ballot v' = aa_ballot v).

(** What slot [k] may hold while the learner waits for instance [cur]; the
    instances that are closed are below [B]. *)
Record slot_ok (B cur k : Z) ii : Prop := {
  so_len : Z.of_nat (length (acks ii)) = N_OF_ACCEPTORS;
  so_iid : (ii = lea_clear_instance_info) ∨
           (cur ≤ li_iid ii < cur + LEARNER_ARRAY_SIZE ∧ lea_index (li_iid ii) = k);
  so_acks : ∀ a aa, arr_get (acks ii) a = Some (Some aa) → (a, aa) ∈ H ∧ aa_iid aa = li_iid ii;
  so_final : ∀ v, final_value ii = Some v → quorum_backed v ∧ aa_iid v = li_iid ii ∧ li_iid ii < B
}.

Definition delivery_ok (i : Z) (d : delivery) : Prop :=
  ∃ v, quorum_backed v ∧ aa_iid v = i ∧
    d = mk_delivery (aa_value v) i (aa_ballot v) (aa_ballot v mod MAX_N_OF_PROPOSERS).

Record lea_frame (cur : Z) l : Prop := {
  lf_cur : current_iid l = cur;
  lf_pos : 1 ≤ cur ≤ LAST_IID + 1;
  lf_len : Z.of_nat (length (learner_state l)) = LEARNER_ARRAY_SIZE;
  lf_delivered : Forall2 delivery_ok (range 1 (cur - 1)) (delivered l)
}.

Definition lea_inv (B cur : Z) l : Prop :=
  lea_frame cur l ∧ ∀ k ii, arr_get (learner_state l) k = Some ii → slot_ok B cur k ii.
End invariant.

Lemma lea_index_mod iid : lea_index iid = iid mod LEARNER_ARRAY_SIZE.
Proof. apply (land_mask iid 11). lia. Qed.

Lemma lea_index_range iid : 0 ≤ lea_index iid < LEARNER_ARRAY_SIZE.
Proof. rewrite lea_index_mod. apply Z.mod_pos_bound. done. Qed.

Lemma lea_index_inj cur i j :
  cur ≤ i < cur + LEARNER_ARRAY_SIZE → cur ≤ j < cur + LEARNER_ARRAY_SIZE →
  lea_index i = lea_index j → i = j.
Proof.
  unfold LEARNER_ARRAY_SIZE. rewrite !lea_index_mod. intros Hi Hj.
  apply (mod_window_inj _ (cur - 1)); unfold LEARNER_ARRAY_SIZE; lia.
Qed.

Lemma quorum_backed_mono H H' v : H ⊆ H' → quorum_backed H v → quorum_backed H' v.
Proof.
  intros Hs [(a & Ha) Hq]. split; [exists a; by apply Hs|].
  destruct Hq as [(b & w & Hw & ?)|(ids & Hnd & Hl & Hall)].
  - left. exists b, w. split; [by apply Hs|done].
  - right. exists ids. split_and!; [done|done|]. intros b Hb.
    destruct (Hall b Hb) as (w & Hw & ?). exists w. split; [by apply Hs|done].
Qed.

Lemma slot_ok_mono H H' B cur k ii : H ⊆ H' → slot_ok H B cur k ii → slot_ok H' B cur k ii.
Proof.
  intros Hs []. constructor; [done|done| |].
  - intros a aa Ha. destruct (so_acks0 _ _ Ha). split; [by apply Hs|done].
  - intros v Hv. destruct (so_final0 _ Hv) as (? & ? & ?). by eauto using quorum_backed_mono.
Qed.

Lemma lea_inv_mono H H' B cur l : H ⊆ H' → lea_inv H B cur l → lea_inv H' B cur l.
Proof.
  intros Hs [[] Hk]. split; [|by eauto using slot_ok_mono]. constructor; [done..|].
  eapply list.Forall2_impl; [exact lf_delivered0|]. intros i d (v & Hv & ?). exists v.
  split; [by eapply quorum_backed_mono|done].
Qed.

Lemma clear_slot_ok H B cur k : slot_ok H B cur k lea_clear_instance_info.
Proof.
  constructor; [done|by left| |done]. intros a aa Ha.
  apply arr_get_replicate_inv in Ha. done.
Qed.

Lemma wp_GET H B cur l iid (Q : l_inst_info → learner → Prop) :
  lea_inv H B cur l →
  (∀ ii, arr_get (learner_state l) (lea_index iid) = Some ii →
     slot_ok H B cur (lea_index iid) ii → Q ii l) →
  wp (GET_LEA_INSTANCE iid) Q l.
Proof.
  intros [[] Hk] HQ. unfold GET_LEA_INSTANCE. wp_steps.
  destruct (arr_get_is_Some (learner_state l) (lea_index iid)) as [ii Hii].
  { pose proof (lea_index_range iid). lia. }
  eapply wp_lift_opt; [done|]. by apply HQ; [|apply Hk].
Qed.

(** A slot is replaced by one that is well-formed. *)
Lemma put_inv H B cur l iid ii :
  lea_inv H B cur l → slot_ok H B cur (lea_index iid) ii →
  lea_inv H B cur (l <| learner_state := arr_set (learner_state l) (lea_index iid) ii |>).
Proof.
  intros [[] Hk] Hii. pose proof (lea_index_range iid). split.
  - constructor; cbn; [done|done|by rewrite length_arr_set|done].
  - intros k ii' Hii'. cbn in Hii'. destruct (decide (lea_index iid = k)) as [<-|Hne].
    + rewrite arr_get_set_eq in Hii' by lia. by simplify_eq.
    + rewrite arr_get_set_ne in Hii' by lia. auto.
Qed.

Lemma update_state_ok H B cur a aa ii :
  1 ≤ cur → cur ≤ aa_iid aa < cur + LEARNER_ARRAY_SIZE → 0 ≤ a < N_OF_ACCEPTORS → (a, aa) ∈ H →
  slot_ok H B cur (lea_index (aa_iid aa)) ii →
  ∃ rel ii', lea_update_state ii a aa = Some (rel, ii') ∧
    slot_ok H B cur (lea_index (aa_iid aa)) ii' ∧ li_iid ii' = aa_iid aa ∧
    (rel = true → final_value ii' = None).
Proof.
  intros Hcur Hw Ha HH Hs. unfold lea_update_state.
  set (ii1 := if li_iid ii =? INST_INFO_EMPTY then _ else ii).
  assert (li_iid ii1 = aa_iid aa ∧ slot_ok H B cur (lea_index (aa_iid aa)) ii1) as [Hi Hs1].
  { unfold ii1, INST_INFO_EMPTY. destruct Hs as [Hl [->|[Hr Hk]] Hacks Hfin]; cbn.
    - split; [done|]. constructor; [done|by right| |done]. cbn. intros a' aa' Haa'.
      by apply (arr_get_replicate_inv 3) in Haa'.
    - destruct (Z.eqb_spec (li_iid ii) 0); [lia|].
      split; [by apply (lea_index_inj cur)|]. by constructor; [| right|..]. }
  clearbody ii1. rewrite Hi, Z.eqb_refl. cbn [negb].
  unfold IS_CLOSED. destruct (final_value ii1) as [v|] eqn:Hfv; [by exists false, ii1|].
  destruct Hs1 as [Hl Hor Hacks Hfin].
  destruct (arr_get_is_Some (acks ii1) a) as [o Ho]; [lia|]. rewrite Ho.
  assert (slot_ok H B cur (lea_index (aa_iid aa)) (lea_store_accept_ack ii1 a aa)) as Hnew.
  { constructor; cbn; [by rewrite length_arr_set|right; rewrite Hi; done| |by rewrite Hfv].
    intros a' aa' Haa'. destruct (decide (a = a')) as [<-|Hne].
    - rewrite arr_get_set_eq in Haa' by lia. by simplify_eq.
    - rewrite arr_get_set_ne in Haa' by lia. auto. }
  assert (∃ rel ii', Some (true, (lea_store_accept_ack ii1 a aa) <| last_update_ballot := aa_ballot aa |>)
    = Some (rel, ii') ∧ slot_ok H B cur (lea_index (aa_iid aa)) ii' ∧ li_iid ii' = aa_iid aa ∧
    (rel = true → final_value ii' = None)) as Hstored.
  { eexists _, _. split; [done|]. split_and!; [|done|done]. by destruct Hnew. }
  destruct o as [prev|]; [|done]. destruct (aa_ballot aa <=? aa_ballot prev); [|done].
  exists false, ii1. split_and!; done.
Qed.

(** The indices whose ack has the ballot. *)
Definition agree (all : list (option accept_ack)) (ballot a : Z) : Prop :=
  ∃ aa, arr_get all a = Some (Some aa) ∧ aa_ballot aa = ballot.

Lemma count_acks_spec ballot all rest pre ids av :
  all = pre ++ rest → NoDup ids →
  (∀ a, a ∈ ids → a < Z.of_nat (length pre) ∧ agree all ballot a) → (ids ≠ [] → av ∈ ids) →
  let '(av', c) := count_acks ballot rest (Z.of_nat (length pre)) av (Z.of_nat (length ids)) in
  0 < c →
  ∃ aa, arr_get all av' = Some (Some aa) ∧ aa_ballot aa = ballot ∧
    (aa_is_final aa ≠ 0 ∨
     ∃ ids', NoDup ids' ∧ Z.of_nat (length ids') = c ∧ ∀ a, a ∈ ids' → agree all ballot a).
Proof.
  revert pre ids av. induction rest as [|o rest IH]; intros pre ids av Hall Hnd Hids Hav; cbn.
  - intros Hpos. assert (ids ≠ []) as Hne by (intros ->; cbn in Hpos; lia).
    destruct (Hids _ (Hav Hne)) as [_ (aa & Haa & Hb)]. exists aa. split_and!; [done|done|].
    right. exists ids. split_and!; [done|done|]. intros a Ha. by apply Hids.
  - assert (arr_get all (Z.of_nat (length pre)) = Some o) as Ho.
    { apply arr_get_Some. split; [lia|]. rewrite Nat2Z.id, Hall. by apply list_lookup_middle. }
    specialize (IH (pre ++ [o])). rewrite length_app, Nat2Z.inj_add in IH. cbn in IH.
    assert (all = (pre ++ [o]) ++ rest) as Hall' by by rewrite <-app_assoc.
    assert (∀ a, a ∈ ids → a < Z.of_nat (length pre) + 1 ∧ agree all ballot a) as Hids'.
    { intros a Ha. destruct (Hids a Ha). split; [lia|done]. }
    destruct o as [aa|]; [|by apply IH].
    destruct (Z.eqb_spec (aa_ballot aa) ballot) as [Hb|Hb]; [|by apply IH].
    destruct (Z.eqb_spec (aa_is_final aa) 0) as [Hf|Hf]; cbn; [|by intros _; exists aa; auto].
    assert (Z.of_nat (length pre) ∉ ids) as Hnin by (intros Hin; apply Hids in Hin as []; lia).
    specialize (IH (Z.of_nat (length pre) :: ids) (Z.of_nat (length pre))).
    replace (Z.of_nat (length (Z.of_nat (length pre) :: ids))) with (Z.of_nat (length ids) + 1) in IH
      by (cbn [length]; lia). apply IH; [done|by constructor| |].
    + intros a [->|Ha]%elem_of_cons; [split; [lia|by exists aa]|by apply Hids'].
    + intros _. by apply elem_of_cons; left.
Qed.

Lemma agree_backed H B cur k ii ballot (ids : list Z) :
  slot_ok H B cur k ii → (∀ a, a ∈ ids → agree (acks ii) ballot a) →
  ∀ a, a ∈ ids → ∃ v', (a, v') ∈ H ∧ aa_iid v' = li_iid ii ∧ aa_ballot v' = ballot.
Proof.
  intros Hs Hall a Ha. destruct (Hall a Ha) as (aa & Haa & Hb).
  destruct (so_acks _ _ _ _ _ Hs _ _ Haa). by exists aa.
Qed.

Lemma lea_inv_frame H B cur l l' :
  lea_inv H B cur l → current_iid l' = current_iid l → learner_state l' = learner_state l →
  delivered l' = delivered l → lea_inv H B cur l'.
Proof. intros [[] Hk] E1 E2 E3. split; [constructor; by rewrite ?E1, ?E2, ?E3|by rewrite E2]. Qed.

Definition slot_closed l (i : Z) : bool :=
  match arr_get (learner_state l) (lea_index i) with
  | Some ii => IS_CLOSED ii
  | None => false
  end.

Lemma check_quorum_spec H B cur l iid :
  lea_inv H B cur l → iid < B →
  (∀ ii, arr_get (learner_state l) (lea_index iid) = Some ii → li_iid ii = iid) →
  wp (lea_check_quorum iid)
    (λ closed l', lea_inv H B cur l' ∧ (closed = true → slot_closed l' iid = true)) l.
Proof.
  intros Hinv HB Hiid. unfold lea_check_quorum. wp_steps. eapply wp_GET; [done|].
  intros ii Hii Hs. specialize (Hiid ii Hii).
  pose proof (count_acks_spec (last_update_ballot ii) (acks ii) (acks ii) [] [] (2 ^ 64 - 1)
    eq_refl) as Hc.
  change (Z.of_nat (length (@nil (option accept_ack)))) with 0 in Hc.
  change (Z.of_nat (length (@nil Z))) with 0 in Hc.
  destruct (count_acks (last_update_ballot ii) (acks ii) 0 (2 ^ 64 - 1) 0) as [av c].
  wp_case; [|by apply wp_ret]. zbool.
  assert (QUORUM = 2) as HQ by done. assert (0 < c) as Hpos by lia.
  destruct Hc as (aa & Haa & Hb & Hq); [constructor|by intros a Ha%elem_of_nil|done|done|].
  wp_steps. eapply wp_lift_opt; [done|]. unfold put_lea_instance. wp_steps.
  split.
  2: { intros _. unfold slot_closed. pose proof (lea_index_range iid) as Hr.
       destruct Hinv as [[_ _ Hlen _] _].
       assert (arr_get (arr_set (learner_state l) (lea_index iid) (ii <| final_value := Some aa |>))
         (lea_index iid) = Some (ii <| final_value := Some aa |>)) as Hget
         by (apply arr_get_set_eq; lia).
       cbn in *. destruct (_ <? _); cbn; by rewrite Hget. }
  eapply (lea_inv_frame _ _ _ (l <| learner_state := arr_set (learner_state l) (lea_index iid)
    (ii <| final_value := Some aa |>) |>)); [| by cbn; destruct (_ <? _)..].
  apply put_inv; [done|]. pose proof Hs as [Hl Hor Hacks Hfin].
  destruct (Hacks _ _ Haa) as [HaH Hai].
  constructor; cbn; [done| |done|].
  - destruct Hor as [->|?]; [|by right].
    by apply (arr_get_replicate_inv 3) in Haa.
  - intros v [= <-]. split_and!; [|done|lia]. split; [by exists av|].
    destruct Hq as [Hf|(ids & Hnd & Hlen & Hall)].
    + left. by exists av, aa.
    + right. exists ids. split_and!; [done|lia|]. rewrite Hai, Hb.
      by eapply agree_backed.
Qed.

(** The loop delivers what is closed; it ends because what it delivers is
    cleared, and nothing beyond [B] is closed. *)
Lemma lea_deliver_fuel_spec H B fuel cur l :
  history_ok H → lea_inv H B cur l → (Z.to_nat (B - cur) < fuel)%nat →
  wp (lea_deliver_fuel fuel)
    (λ _ l', ∃ cur', cur ≤ cur' ∧ (slot_closed l cur = true → cur < cur') ∧ lea_inv H B cur' l') l.
Proof.
  intros HH. revert cur l. induction fuel as [|fuel IH]; intros cur l Hinv Hfuel; [lia|]. cbn. wp_steps.
  eapply wp_GET; [done|]. intros ii Hii Hs. pose proof Hinv as [[Hcur Hpos Hlen Hdel] Hk].
  destruct (final_value ii) as [v|] eqn:Hfv.
  2: { apply wp_ret. exists cur. split_and!; [done| |done]. rewrite Hcur in Hii.
       unfold slot_closed, IS_CLOSED. by rewrite Hii, Hfv. }
  destruct (so_final _ _ _ _ _ Hs _ Hfv) as (Hbk & Hvi & HvB).
  assert (li_iid ii = cur) as Hi.
  { destruct (so_iid _ _ _ _ _ Hs) as [->|[Hw Hk']]; [done|]. rewrite Hcur in Hk'.
    apply (lea_index_inj cur); unfold LEARNER_ARRAY_SIZE in *; lia || done. }
  assert (cur ≤ LAST_IID) as HL.
  { destruct Hbk as [(a & Ha) _]. destruct (HH _ _ Ha). lia. }
  wp_steps. apply wp_assert; [apply Z.eqb_eq; by rewrite Hi, Hcur|].
  unfold put_lea_instance. wp_steps. rewrite !Hcur. cbn.
  eapply wp_mono; [apply (IH (cur + 1)); [|lia]|].
  2: { intros _ l' (cur' & ? & _ & ?). exists cur'. split_and!; [lia|lia|done]. }
  unfold LAST_IID, LEARNER_ARRAY_SIZE in *.
  rewrite wrap_small by lia. split.
  - constructor; cbn; [done|unfold LAST_IID, LEARNER_ARRAY_SIZE; lia|by rewrite length_arr_set|].
    replace (range 1 (cur + 1 - 1)) with (range 1 (cur - 1) ++ [cur]).
    + apply Forall2_app; [done|]. constructor; [|done]. exists v. by rewrite Hvi, Hi.
    + replace (cur + 1 - 1) with (cur - 1 + 1) by lia. rewrite range_snoc by lia.
      do 2 f_equal. lia.
  - intros k ii' Hii'. cbn in Hii'. pose proof (lea_index_range cur) as Hr.
    unfold LEARNER_ARRAY_SIZE in Hr.
    destruct (decide (lea_index cur = k)) as [<-|Hne].
    + rewrite arr_get_set_eq in Hii' by lia. simplify_eq. apply clear_slot_ok.
    + rewrite arr_get_set_ne in Hii' by lia. destruct (Hk _ _ Hii') as [? [->|[Hw Hki]] ? ?].
      { apply clear_slot_ok. }
      constructor; [done| |done|done]. right. split; [|done].
      assert (li_iid ii' ≠ cur) by congruence. unfold LEARNER_ARRAY_SIZE in *. lia.
Qed.

Lemma history_snoc (H : history) x : x ∈ H ++ [x] ∧ H ⊆ H ++ [x].
Proof.
  split; [apply elem_of_app; right; by apply list_elem_of_singleton|].
  intros y Hy. apply elem_of_app. by left.
Qed.

Definition lea_good (H : history) l : Prop :=
  ∃ cur, lea_inv H (cur + LEARNER_ARRAY_SIZE) cur l.

Lemma lea_inv_weaken H B B' cur l : B ≤ B' → lea_inv H B cur l → lea_inv H B' cur l.
Proof.
  intros HB [Hf Hk]. split; [done|]. intros k ii Hii. destruct (Hk k ii Hii). constructor; [done..|].
  intros v Hv. destruct (so_final0 v Hv) as (? & ? & ?). split_and!; [done|done|lia].
Qed.

Lemma handle_accept_ack_spec H a aa l :
  history_ok (H ++ [(a, aa)]) → lea_good H l →
  wp (handle_accept_ack a aa) (λ _ l', lea_good (H ++ [(a, aa)]) l') l.
Proof.
  intros HH (cur & Hinv). destruct (history_snoc H (a, aa)) as [Hin Hsub].
  apply (lea_inv_mono _ _ _ _ _ Hsub) in Hinv. clear Hsub.
  generalize dependent (H ++ [(a, aa)]). clear H. intros H HH Hinv Hin.
  unfold handle_accept_ack. wp_steps.
  set (l1 := if _ <? _ then _ else l).
  assert (lea_inv H (cur + LEARNER_ARRAY_SIZE) cur l1) as Hinv1.
  { unfold l1. destruct (_ <? _); [|done]. by eapply lea_inv_frame. }
  clearbody l1. clear Hinv l. pose proof Hinv1 as [[Hcur Hpos Hlen Hdel] Hk].
  destruct (HH _ _ Hin) as [Ha HL]. rewrite Hcur.
  wp_case; zbool; [apply wp_ret; by exists cur|].
  rewrite wrap_small by (unfold LAST_IID, LEARNER_ARRAY_SIZE in *; lia).
  wp_case; zbool; [apply wp_ret; by exists cur|]. wp_steps.
  eapply wp_GET; [done|]. intros ii Hii Hs. wp_steps.
  destruct (update_state_ok H (cur + LEARNER_ARRAY_SIZE) cur a aa ii)
    as (rel & ii' & Hup & Hs' & Hi' & Hrel); [lia|lia|done|done|done|].
  eapply wp_lift_opt; [done|]. cbn.
  pose proof (put_inv _ _ _ _ (aa_iid aa) ii' Hinv1 Hs') as Hinv2.
  unfold put_lea_instance at 1. wp_steps. cbn.
  destruct rel; cbn; [|apply wp_ret; by exists cur]. wp_steps.
  eapply wp_mono; [eapply check_quorum_spec; [done|lia|]|].
  { intros ii2. cbn. rewrite arr_get_set_eq; [by intros [= <-]|].
    pose proof (lea_index_range (aa_iid aa)). lia. }
  intros closed l3 [Hinv3 _]. repeat wp_case; try (apply wp_ret; by exists cur).
  eapply wp_mono; [eapply (lea_deliver_fuel_spec H (cur + LEARNER_ARRAY_SIZE)); [done|done|]|].
  { unfold LEARNER_ARRAY_SIZE. lia. }
  intros _ l4 (cur' & Hle & _ & Hinv4). exists cur'. eapply lea_inv_weaken; [|done]. lia.
Qed.

Definition entries (a : Z) (aab : list accept_ack) : history := pair a <$> aab.

Lemma handle_accept_ack_batch_spec H a aab l :
  history_ok (H ++ entries a aab) → lea_good H l →
  wp (handle_accept_ack_batch a aab) (λ _ l', lea_good (H ++ entries a aab) l') l.
Proof.
  intros HH Hl. unfold handle_accept_ack_batch.
  apply (wp_mfor (λ dn l', lea_good (H ++ entries a dn) l')); [by rewrite app_nil_r| |done].
  intros dn aa rest l' -> Hl'. unfold entries. rewrite fmap_app. cbn. rewrite app_assoc.
  apply handle_accept_ack_spec; [|done]. intros b bb Hb. apply HH.
  unfold entries in *. rewrite fmap_app, app_assoc. cbn. rewrite cons_middle, app_assoc.
  apply elem_of_app. by left.
Qed.

Lemma init_good : lea_good [] init_lea_structs.
Proof.
  exists 1. split; [by constructor|]. intros k ii Hii.
  apply arr_get_replicate_inv in Hii as ->. apply clear_slot_ok.
Qed.

(** The hole check asks for the instances from the current one on that are not
    closed, and changes nothing else. *)
Definition hole_range l : Z * Z :=
  if u32 (current_iid l + LEARNER_ARRAY_SIZE) <? highest_iid_seen l
  then (current_iid l, highest_iid_seen l)
  else if current_iid l <? highest_iid_closed l then (current_iid l, highest_iid_closed l)
  else (0, 0).

Definition open_between l (from to : Z) : list Z :=
  filter (λ i, slot_closed l i = false) (seqZ from (to - from)).

Lemma lea_send_repeat_request_spec H l from to :
  lea_good H l →
  wp (lea_send_repeat_request from to)
    (λ _ l', l' <| to_acceptors := to_acceptors l |> = l ∧
      sb_sent (λ _, RepeatReqs) iid_size (sent (to_acceptors l)) (-1) (open_between l from to)
        (sent (to_acceptors l'))) l.
Proof.
  intros (cur & Hinv). unfold lea_send_repeat_request, on_acceptors, for_lt. wp_steps.
  apply (wp_clear_holds (λ _, RepeatReqs) iid_size); [done|]. intros sb1 Hsb1. wp_steps.
  apply (wp_mfor (λ dn l', l' <| to_acceptors := to_acceptors l |> = l ∧
    sb_holds (λ _, RepeatReqs) iid_size (sent (to_acceptors l)) (-1)
      (filter (λ i, slot_closed l i = false) dn) (to_acceptors l'))).
  - split; [by destruct l|done].
  - intros dn i rest l' _ [Heq Hh].
    assert (learner_state l' = learner_state l) as Hst by by rewrite <-Heq.
    wp_steps. assert (lea_inv H (cur + LEARNER_ARRAY_SIZE) cur l') as Hinv'.
    { eapply lea_inv_frame; [exact Hinv|by rewrite <-Heq..]. }
    eapply wp_GET; [done|]. intros ii Hii _. rewrite Hst in Hii.
    rewrite list.filter_app. assert (slot_closed l i = IS_CLOSED ii) as Hc
      by by unfold slot_closed; rewrite Hii.
    destruct (IS_CLOSED ii); cbn [negb].
    + rewrite filter_cons_False, filter_nil, app_nil_r by by rewrite Hc.
      by apply wp_ret.
    + rewrite filter_cons_True, filter_nil by done. wp_steps.
      eapply wp_mono; [by apply add_repeat_req_holds|]. intros [] sb Hsb. split; [|done].
      by rewrite <-Heq.
  - intros l' [Heq Hh]. wp_steps. eapply wp_flush_holds; [done|]. intros sb Hsb. split; [|done].
    by rewrite <-Heq.
Qed.

Lemma lea_hole_check_spec H l :
  lea_good H l →
  wp lea_hole_check
    (λ _ l', l' <| to_acceptors := to_acceptors l |> = l ∧
      sb_sent (λ _, RepeatReqs) iid_size (sent (to_acceptors l)) (-1)
        (open_between l (hole_range l).1 (hole_range l).2) (sent (to_acceptors l'))) l.
Proof.
  intros Hl. unfold lea_hole_check, hole_range. wp_steps.
  repeat wp_case; try by eapply lea_send_repeat_request_spec. apply wp_ret.
  split; [by destruct l|]. exists []. by rewrite app_nil_r.
Qed.

(** ** Properties *)

Definition all_entries (batches : list (Z * list accept_ack)) : history :=
  concat (map (λ b, entries b.1 b.2) batches).

Lemma all_entries_snoc bs b : all_entries (bs ++ [b]) = all_entries bs ++ entries b.1 b.2.
Proof. unfold all_entries. rewrite map_app, concat_app. cbn. by rewrite app_nil_r. Qed.

Lemma history_ok_app H1 H2 : history_ok (H1 ++ H2) → history_ok H1.
Proof. intros HH a aa Hin. apply HH, elem_of_app. by left. Qed.

(** The invariant after any batches. *)
Lemma learner_run batches :
  history_ok (all_entries batches) →
  wp (mfor batches (λ b, handle_accept_ack_batch b.1 b.2)) (λ _ l, lea_good (all_entries batches) l) init_lea_structs.
Proof.
  intros HH. apply (wp_mfor (λ dn l, lea_good (all_entries dn) l)); [apply init_good| |done].
  intros dn b rest l -> Hl. rewrite all_entries_snoc.
  apply handle_accept_ack_batch_spec; [|done].
  rewrite <-all_entries_snoc. apply (history_ok_app _ (all_entries rest)).
  unfold all_entries in *. by rewrite <-concat_app, <-map_app, <-app_assoc.
Qed.


Definition example_batches : list (Z * list accept_ack) :=
  [(0, [mk_accept_ack 2 11 11 0 [x62]; mk_accept_ack 1 11 11 0 [x61]]);
   (2, [mk_accept_ack 2 11 11 0 [x62]; mk_accept_ack 1 10 10 0 [x63]]);
   (2, [mk_accept_ack 1 11 11 0 [x61]])].


(** The same run, evaluated: both instances are delivered, in order. *)
Example learner_example :
  (delivered ∘ snd <$> mfor example_batches (λ b, handle_accept_ack_batch b.1 b.2) init_lea_structs)
  = Some [mk_delivery [x61] 1 11 1; mk_delivery [x62] 2 11 1].
Proof. vm_compute. reflexivity. Qed.

(** The hole check never fails and only sends: the repeat requests that
    leave are exactly the instances of the range it looks at whose slot is not
    closed, in order, in packets that fit. *)
Theorem hole_check_requests H l :
  lea_good H l →
  wp lea_hole_check
    (λ _ l', l' <| to_acceptors := to_acceptors l |> = l ∧
      sb_sent (λ _, RepeatReqs) iid_size (sent (to_acceptors l)) (-1)
        (open_between l (hole_range l).1 (hole_range l).2) (sent (to_acceptors l'))) l.
Proof. apply lea_hole_check_spec. Qed.

Lemma hole_check_requests_witness :
  wp lea_hole_check
    (λ _ l', l' <| to_acceptors := to_acceptors init_lea_structs |> = init_lea_structs ∧
      sb_sent (λ _, RepeatReqs) iid_size [] (-1)
        (open_between init_lea_structs (hole_range init_lea_structs).1
           (hole_range init_lea_structs).2) (sent (to_acceptors l'))) init_lea_structs.
Proof. apply (hole_check_requests [] init_lea_structs). apply init_good. Defined.

Example hole_check_example :
  let run := (handle_accept_ack 0 (mk_accept_ack 4 11 11 0 [x62]);;
              handle_accept_ack 1 (mk_accept_ack 4 11 11 0 [x62]);;
              handle_accept_ack 1 (mk_accept_ack 6 11 11 0 [x62]);;
              lea_hole_check) in
  (sent ∘ to_acceptors ∘ snd <$> run init_lea_structs) = Some [RepeatReqs [1; 2; 3]].
Proof. vm_compute. reflexivity. Qed.

#[local] Arguments arr_get : simpl never.
#[local] Arguments arr_set : simpl never.

(** The first acknowledgement for an instance whose slot is empty. *)
Lemma first_ack H l a aa :
  history_ok (H ++ [(a, aa)]) → lea_good H l → aa_iid aa = current_iid l → aa_is_final aa = 0 →
  arr_get (learner_state l) (lea_index (aa_iid aa)) = Some lea_clear_instance_info →
  wp (handle_accept_ack a aa)
    (λ _ l', lea_good (H ++ [(a, aa)]) l' ∧ current_iid l' = current_iid l ∧
      arr_get (learner_state l') (lea_index (aa_iid aa)) =
        Some (mk_l_inst_info (aa_iid aa) (aa_ballot aa)
                (arr_set (replicate 3 None) a (Some aa)) None)) l.
Proof.
  intros HH Hl Hi Hf Hslot. apply wp_and; [by apply handle_accept_ack_spec|].
  destruct Hl as (cur & Hinv). pose proof Hinv as [[Hcur Hpos Hlen _] _].
  destruct (HH a aa (proj1 (history_snoc H (a, aa)))) as [Ha HL].
  unfold LAST_IID, LEARNER_ARRAY_SIZE, N_OF_ACCEPTORS in *.
  unfold handle_accept_ack. wp_steps. set (l1 := if _ <? _ then _ else l).
  assert (current_iid l1 = cur ∧ learner_state l1 = learner_state l) as [Hc1 Hs1].
  { unfold l1. by destruct (_ <? _). }
  clearbody l1. rewrite Hc1. unfold LEARNER_ARRAY_SIZE.
  rewrite wrap_small by lia. destruct (Z.ltb_spec (aa_iid aa) cur); [lia|].
  destruct (Z.leb_spec (cur + 2048) (aa_iid aa)); [lia|]. wp_steps.
  unfold GET_LEA_INSTANCE at 1. wp_steps. rewrite Hs1. eapply wp_lift_opt; [done|]. wp_steps.
  pose proof (lea_index_range (aa_iid aa)) as Hr. unfold LEARNER_ARRAY_SIZE in Hr.
  assert (a = 0 ∨ a = 1 ∨ a = 2) as Ha3 by lia.
  unfold lea_update_state; cbn. rewrite Z.eqb_refl. cbn.
  change (replicate (Z.to_nat N_OF_ACCEPTORS) (@None accept_ack)) with [@None accept_ack; None; None].
  assert (arr_get [None; None; None] a = Some (@None accept_ack)) as -> by (by destruct Ha3 as [->|[->| ->]]).
  eapply wp_lift_opt; [done|]. unfold put_lea_instance at 1. wp_steps. cbn.
  unfold lea_check_quorum, GET_LEA_INSTANCE at 1. wp_steps. cbn.
  eapply wp_lift_opt; [by apply arr_get_set_eq; rewrite Hs1; lia|]. cbn.
  assert (snd (count_acks (aa_ballot aa) (arr_set [None; None; None] a (Some aa)) 0 (2 ^ 64 - 1) 0) = 1) as Hc.
  { by destruct Ha3 as [->|[->| ->]]; cbv -[aa_ballot aa_is_final Z.eqb]; rewrite Z.eqb_refl, Hf. }
  destruct (count_acks _ _ _ _ _) as [av c]; cbn in Hc; subst c. cbn.
  change (QUORUM <=? 1) with false. cbn.
  split; [cbn; congruence|]. cbn. apply arr_get_set_eq. rewrite Hs1. lia.
Qed.

(** Two acknowledgements in one ballot close an instance. *)
Lemma two_acks_close l iid a1 aa1 a2 aa2 :
  0 ≤ a1 < 3 → 0 ≤ a2 < 3 → a1 ≠ a2 → aa_ballot aa1 = aa_ballot aa2 →
  aa_is_final aa1 = 0 → aa_is_final aa2 = 0 →
  arr_get (learner_state l) (lea_index iid) =
    Some (mk_l_inst_info iid (aa_ballot aa2)
            (arr_set (arr_set [None; None; None] a1 (Some aa1)) a2 (Some aa2)) None) →
  wp (lea_check_quorum iid) (λ closed l', closed = true ∧ current_iid l' = current_iid l) l.
Proof.
  intros Ha1 Ha2 Hne Hb Hf1 Hf2 Hslot. unfold lea_check_quorum, GET_LEA_INSTANCE. wp_steps.
  eapply wp_lift_opt; [done|]. cbn [acks last_update_ballot].
  set (all := arr_set _ a2 _).
  assert (∃ av fin, count_acks (aa_ballot aa2) all 0 (2 ^ 64 - 1) 0 = (av, 2) ∧
    arr_get all av = Some fin) as (av & fin & -> & Hfin).
  { assert (a1 = 0 ∨ a1 = 1 ∨ a1 = 2) as H1 by lia. assert (a2 = 0 ∨ a2 = 1 ∨ a2 = 2) as H2 by lia.
    unfold all. clear all Hslot.
    destruct H1 as [->|[->| ->]], H2 as [->|[->| ->]]; try done; eexists _, _;
      (split; [cbv -[aa_ballot aa_is_final Z.eqb]; rewrite ?Hb, ?Z.eqb_refl, ?Hf1, ?Hf2; reflexivity|
               reflexivity]). }
  change (QUORUM <=? 2) with true. cbn. wp_steps. eapply wp_lift_opt; [done|].
  unfold put_lea_instance. wp_steps. cbn. by destruct (_ <? _).
Qed.

(** The second one, from another acceptor and in the same ballot. *)
Lemma second_ack H l a1 aa1 a2 aa2 :
  history_ok (H ++ [(a2, aa2)]) → lea_good H l → a1 ≠ a2 → 0 ≤ a1 < N_OF_ACCEPTORS →
  aa_iid aa1 = current_iid l → aa_iid aa2 = current_iid l →
  aa_ballot aa1 = aa_ballot aa2 → aa_is_final aa1 = 0 → aa_is_final aa2 = 0 →
  arr_get (learner_state l) (lea_index (current_iid l)) =
    Some (mk_l_inst_info (aa_iid aa1) (aa_ballot aa1) (arr_set (replicate 3 None) a1 (Some aa1)) None) →
  wp (handle_accept_ack a2 aa2) (λ _ l', current_iid l < current_iid l') l.
Proof.
  intros HH (cur & Hinv) Hne Ha1 Hi1 Hi2 Hb Hf1 Hf2 Hslot.
  destruct (history_snoc H (a2, aa2)) as [Hin Hsub].
  apply (lea_inv_mono _ _ _ _ _ Hsub) in Hinv. clear Hsub.
  generalize dependent (H ++ [(a2, aa2)]). clear H. intros H HH Hinv Hin.
  pose proof Hinv as [[Hcur Hpos Hlen _] _]. destruct (HH _ _ Hin) as [Ha2 HL].
  unfold LAST_IID, LEARNER_ARRAY_SIZE in Hpos, Hlen, HL.
  unfold handle_accept_ack. wp_steps. set (l1 := if _ <? _ then _ else l).
  assert (current_iid l1 = cur ∧ learner_state l1 = learner_state l ∧
    lea_inv H (cur + LEARNER_ARRAY_SIZE) cur l1) as (Hc1 & Hs1 & Hinv1).
  { unfold l1. destruct (_ <? _); [|done]. split_and!; [done|done|]. by eapply lea_inv_frame. }
  clearbody l1. rewrite Hc1. unfold LEARNER_ARRAY_SIZE at 1.
  rewrite wrap_small by lia. destruct (Z.ltb_spec (aa_iid aa2) cur); [lia|].
  destruct (Z.leb_spec (cur + 2048) (aa_iid aa2)); [lia|]. wp_steps.
  rewrite Hi2, <-Hs1 in *. rewrite Hcur in *.
  unfold GET_LEA_INSTANCE at 1. wp_steps. eapply wp_lift_opt; [done|]. wp_steps.
  set (ii2 := mk_l_inst_info cur (aa_ballot aa2)
    (arr_set (arr_set [None; None; None] a1 (Some aa1)) a2 (Some aa2)) None).
  pose proof (lea_index_range cur) as Hr. unfold LEARNER_ARRAY_SIZE in Hr.
  unfold N_OF_ACCEPTORS in Ha1, Ha2.
  assert (lea_update_state (mk_l_inst_info (aa_iid aa1) (aa_ballot aa1)
    (arr_set (replicate 3 None) a1 (Some aa1)) None) a2 aa2 = Some (true, ii2)) as Hup.
  { unfold lea_update_state, INST_INFO_EMPTY. cbn [li_iid]. rewrite Hi1, Hi2.
    destruct (Z.eqb_spec cur 0); [lia|]. cbn [li_iid]. rewrite Z.eqb_refl. cbn [negb IS_CLOSED final_value].
    cbn [acks]. rewrite arr_get_set_ne by lia.
    rewrite (arr_get_replicate 3) by lia. done. }
  pose proof (proj2 Hinv1 _ _ Hslot) as Hs.
  destruct (update_state_ok H (cur + LEARNER_ARRAY_SIZE) cur a2 aa2 _ ltac:(lia)
    ltac:(rewrite Hi2; unfold LEARNER_ARRAY_SIZE; lia) ltac:(done) Hin ltac:(by rewrite Hi2))
    as (rel & ii' & Hup' & Hs' & _).
  rewrite Hup in Hup'. injection Hup' as <- <-. rewrite Hi2 in Hs'.
  pose proof (put_inv _ _ _ _ cur ii2 Hinv1 Hs') as Hinv2.
  eapply wp_lift_opt; [exact Hup|]. unfold put_lea_instance at 1. wp_steps. cbn [negb].
  assert (arr_get (arr_set (learner_state l1) (lea_index cur) ii2) (lea_index cur) = Some ii2) as Hget
    by (apply arr_get_set_eq; pose proof (lf_len _ _ _ (proj1 Hinv1)) as Hlen1;
        unfold LEARNER_ARRAY_SIZE in Hlen1; lia).
  apply wp_bind. eapply wp_mono; [apply wp_and; [eapply check_quorum_spec; [exact Hinv2|unfold LEARNER_ARRAY_SIZE; lia|]|
    apply (two_acks_close _ cur a1 aa1 a2 aa2); done]|].
  { intros ii3 Hii3. cbn in Hii3. rewrite Hget in Hii3. by simplify_eq. }
  intros closed l3 [[Hinv3 Hcl] [-> Hc3]]. cbn [negb]. rewrite Z.eqb_refl.
  eapply wp_mono; [eapply (lea_deliver_fuel_spec H (cur + LEARNER_ARRAY_SIZE)); [done|exact Hinv3|]|].
  { unfold LEARNER_ARRAY_SIZE. lia. }
  intros _ l4 (cur' & _ & Hlt & [[-> _ _ _] _]). apply Hlt, Hcl. done.
Qed.

(** C23. A quorum is enough: when two acceptors acknowledge the current
    instance in one ballot, and nothing was received for it before, the learner
    delivers it, whatever the rest of its table holds. *)
Theorem quorum_is_delivered H l a1 aa1 a2 aa2 :
  history_ok ((H ++ [(a1, aa1)]) ++ [(a2, aa2)]) → lea_good H l →
  a1 ≠ a2 → aa_iid aa1 = current_iid l → aa_iid aa2 = current_iid l →
  aa_ballot aa1 = aa_ballot aa2 → aa_is_final aa1 = 0 → aa_is_final aa2 = 0 →
  arr_get (learner_state l) (lea_index (current_iid l)) = Some lea_clear_instance_info →
  wp (handle_accept_ack a1 aa1;; handle_accept_ack a2 aa2)
    (λ _ l', current_iid l < current_iid l' ∧ lea_good ((H ++ [(a1, aa1)]) ++ [(a2, aa2)]) l') l.
Proof.
  intros HH Hl Hne Hi1 Hi2 Hb Hf1 Hf2 Hslot. wp_steps.
  eapply wp_mono; [apply (first_ack H); [by eapply history_ok_app|done|done|done|by rewrite Hi1]|].
  intros [] l1 (Hl1 & Hc1 & Hs1). cbn beta. rewrite <-Hc1 in *. clear Hc1 Hslot Hl l.
  apply wp_and; [|by apply handle_accept_ack_spec].
  apply (second_ack (H ++ [(a1, aa1)]) l1 a1 aa1); try done.
  - apply (HH a1 aa1). apply elem_of_app. left. apply (proj1 (history_snoc H (a1, aa1))).
  - by rewrite <-Hi1.
Qed.

Lemma quorum_is_delivered_witness :
  let a := mk_accept_ack 1 21 21 0 [x61] in
  wp (handle_accept_ack 2 a;; handle_accept_ack 0 a)
    (λ _ l', 1 < current_iid l' ∧ lea_good [(2, a); (0, a)] l') init_lea_structs.
Proof.
  apply (quorum_is_delivered [] init_lea_structs 2 (mk_accept_ack 1 21 21 0 [x61]) 0
    (mk_accept_ack 1 21 21 0 [x61])); try done; [|apply init_good].
  intros a aa Hin. apply list_elem_of_In in Hin. unfold LAST_IID, LEARNER_ARRAY_SIZE, N_OF_ACCEPTORS.
  cbn in Hin. repeat (destruct Hin as [[= <- <-]|Hin]; [cbn; lia|]). destruct Hin.
Defined.
