(* ===== verification/Monitor.v ===== *)
(** * The throughput monitors

    [paxos2/tests/tp_monitor.c] and [tp_sampler.c]: learners that count what is
    delivered and report it from time to time.  They differ in the interval of
    the reports and in what of a report they print.

    [monitor_counts_deliveries]: whatever a monitor's learner receives and
    whenever its timer fires, its assertion holds, and each delivery is counted
    in one report.  [secs_overstated]: the reports overstate the time. *)
From Stdlib Require Import Init.Byte.
From S2P Require Import Prelude Steps Timers Bytes PaxosWire SendBuffer Learner.

(** What a report has: the sample, and the total with it.  [secs] is computed
    in floating point and printed with one digit; here it is the number before
    rounding, in units of 1/100000. *)
Record sample := mk_sample {
  sa_secs : Z; sa_delivered : Z; sa_bytes : Z;
  sa_total_secs : Z; sa_total_delivered : Z; sa_total_bytes : Z
}.

(** The global variables, the next reading of the clock and the reports. *)
Record monitor := mk_monitor {
  last_sample_bytes : Z;               (* unsigned long *)
  last_sample_delivered : Z;
  total_bytes : Z;
  total_delivered : Z;
  monitor_start : timeval;
  sample_start : timeval;
  monitor_initialized : bool;
  mon_clock : nat;
  reports : list sample
}.

Definition monitor_new : monitor := mk_monitor 0 0 0 0 timeval_zero timeval_zero false 0 [].

Definition timeval_subtract (t1 t2 : timeval) : timeval :=
  let sec := tv_sec t1 - tv_sec t2 in
  if tv_usec t2 <? tv_usec t1 then mk_timeval sec (tv_usec t1 - tv_usec t2)
  else mk_timeval (sec - 1) (tv_usec t1 + 1000000 - tv_usec t2).

(** [(float) tv_usec / 100000 + tv_sec] *)
Definition secs (t : timeval) : Z := tv_usec t + 100000 * tv_sec t.

Section monitor.
(** [UPDATE_INTERVAL] is 10 in [tp_monitor.c] and 1 in [tp_sampler.c]. *)
Context (UPDATE_INTERVAL : Z) (gettimeofday : nat → timeval).
Implicit Types (s : monitor).

Definition mon_now : M monitor timeval := λ s,
  Some (gettimeofday (mon_clock s),
    mk_monitor (last_sample_bytes s) (last_sample_delivered s) (total_bytes s) (total_delivered s)
      (monitor_start s) (sample_start s) (monitor_initialized s) (S (mon_clock s)) (reports s)).

(** [forced]: the argument of the callback is not NULL. *)
Definition periodic_check (forced : bool) : M monitor unit :=
  s ← get;
  if negb (monitor_initialized s) then mret tt
  else
    current_time ← mon_now;
    let elapsed_time := timeval_subtract current_time (sample_start s) in
    if (UPDATE_INTERVAL <=? tv_sec elapsed_time) || forced then
      modify (λ s,
        let tot_delivered := u64 (total_delivered s + last_sample_delivered s) in
        let tot_bytes := u64 (total_bytes s + last_sample_bytes s) in
        let sa := mk_sample (secs elapsed_time) (last_sample_delivered s) (last_sample_bytes s)
          (secs (timeval_subtract current_time (monitor_start s))) tot_delivered tot_bytes in
        mk_monitor 0 0 tot_bytes tot_delivered (monitor_start s) (sample_start s) (monitor_initialized s) (mon_clock s)
          (reports s ++ [sa]));;
      now ← mon_now;
      modify (λ s, mk_monitor (last_sample_bytes s) (last_sample_delivered s) (total_bytes s) (total_delivered s)
        (monitor_start s) now (monitor_initialized s) (mon_clock s) (reports s))
    else mret tt.

Definition my_deliver_fun (d : delivery) : M monitor unit :=
  s ← get;
  (if negb (monitor_initialized s) then
    now ← mon_now;
    modify (λ s, mk_monitor (last_sample_bytes s) (last_sample_delivered s) (total_bytes s) (total_delivered s)
      now now true (mon_clock s) (reports s))
   else mret tt);;
  modify (λ s, mk_monitor (u64 (last_sample_bytes s + blen (d_value d))) (u64 (last_sample_delivered s + 1)) (total_bytes s)
    (total_delivered s) (monitor_start s) (sample_start s) (monitor_initialized s) (mon_clock s) (reports s));;
  s ← get;
  c_assert (u64 (total_delivered s + last_sample_delivered s) =? d_iid d).

(** [handle_cltr_c]: the last report, and the number that is printed. *)
Definition handle_cltr_c : M monitor Z :=
  periodic_check true;;
  s ← get;
  mret (total_delivered s).

(** ** The learner with its deliver function *)

Record monitoring := mk_monitoring { mo_learner : learner; mo_monitor : monitor }.

Inductive monitor_event := MonAcks (acceptor_id : Z) (aab : list accept_ack) | MonTimer.

(** The deliver function reads and writes nothing of the learner, so it can be
    called once the batch is handled. *)
Definition mon_handle (ev : monitor_event) : M monitoring unit :=
  match ev with
  | MonAcks a aab =>
      o ← get;
      zoom mo_learner (λ l o, mk_monitoring l (mo_monitor o)) (handle_accept_ack_batch a aab);;
      o' ← get;
      zoom mo_monitor (λ m o, mk_monitoring (mo_learner o) m)
        (mfor (drop (length (delivered (mo_learner o))) (delivered (mo_learner o'))) my_deliver_fun)
  | MonTimer => zoom mo_monitor (λ m o, mk_monitoring (mo_learner o) m) (periodic_check false)
  end.

(** The program, until it is interrupted. *)
Definition mon_run (evs : list monitor_event) : M monitoring Z :=
  mfor evs mon_handle;;
  zoom mo_monitor (λ m o, mk_monitoring (mo_learner o) m) handle_cltr_c.
End monitor.

(** [tp_sampler.c]: the line of a report in its log file, and its callbacks. *)
Definition sampler_line (sa : sample) : Z * Z := (sa_secs sa, sa_delivered sa).
Definition sampler_check (gettimeofday : nat → timeval) : bool → M monitor unit := periodic_check 1 gettimeofday.

(** ** Times *)

(** The difference has at least one microsecond over its seconds. *)
Lemma timeval_subtract_micros t1 t2 : tv_normal t1 → tv_normal t2 →
  0 < tv_usec (timeval_subtract t1 t2) ≤ 1000000 ∧ tv_micros (timeval_subtract t1 t2) = tv_micros t1 - tv_micros t2.
Proof.
  unfold tv_normal, tv_micros, timeval_subtract. intros H1 H2.
  destruct (Z.ltb_spec (tv_usec t2) (tv_usec t1)); simpl; lia.
Qed.

(** The seconds of a report are always more than the time that passed, by up
    to nine seconds: the microseconds are divided by 100000. *)
Lemma secs_overstated t1 t2 : tv_normal t1 → tv_normal t2 →
  let passed := tv_micros t1 - tv_micros t2 in
  let reported := 10 * secs (timeval_subtract t1 t2) in
  passed < reported ≤ passed + 9000000.
Proof.
  intros H1 H2. destruct (timeval_subtract_micros t1 t2 H1 H2) as [Hu <-]. revert Hu.
  generalize (timeval_subtract t1 t2). intros t Hu. unfold tv_micros, secs. cbv zeta. lia.
Qed.

Example half_a_second_is_five : secs (timeval_subtract (mk_timeval 11 200000) (mk_timeval 10 700000)) = 5 * 100000.
Proof. reflexivity. Qed.

(** Equal microseconds make a whole interval one second short. *)
Example interval_missed : tv_sec (timeval_subtract (mk_timeval 20 5) (mk_timeval 10 5)) = 9.
Proof. reflexivity. Qed.

(** ** What is counted *)

Definition bytes_of (ds : list delivery) : Z := u64 (foldr (λ d n, blen (d_value d) + n) 0 ds).

Lemma bytes_of_app ds ds' : bytes_of (ds ++ ds') = u64 (bytes_of ds + bytes_of ds').
Proof.
  unfold bytes_of. rewrite foldr_app. unfold wrap. rewrite <-Zplus_mod. f_equal.
  induction ds as [|d ds IH]; cbn; [done|]. rewrite IH. lia.
Qed.

Definition len_of (ds : list delivery) : Z := Z.of_nat (length ds).

(** The counters of the reports on consecutive parts of the deliveries. *)
Fixpoint counts (before : list delivery) (segs : list (list delivery)) : list (Z * Z * Z * Z) :=
  match segs with
  | [] => []
  | seg :: segs => (len_of seg, bytes_of seg, len_of (before ++ seg), bytes_of (before ++ seg)) :: counts (before ++ seg) segs
  end.

Definition sample_counts (sa : sample) : Z * Z * Z * Z :=
  (sa_delivered sa, sa_bytes sa, sa_total_delivered sa, sa_total_bytes sa).

Lemma counts_snoc before segs seg :
  let dn := before ++ concat segs in
  counts before (segs ++ [seg]) = counts before segs ++ [(len_of seg, bytes_of seg, len_of (dn ++ seg), bytes_of (dn ++ seg))].
Proof.
  revert before. induction segs as [|sg segs IH]; intros before; cbn; [by rewrite app_nil_r|].
  f_equal. rewrite IH. cbn. by rewrite !app_assoc.
Qed.

(** Each delivery is in one report, or waits for the next. *)
Record mon_inv (ds : list delivery) (segs : list (list delivery)) (rest : list delivery) (s : monitor) : Prop := mk_mon_inv {
  mi_split : concat segs ++ rest = ds;
  mi_reports : map sample_counts (reports s) = counts [] segs;
  mi_last : last_sample_delivered s = len_of rest;
  mi_last_bytes : last_sample_bytes s = bytes_of rest;
  mi_total : total_delivered s = len_of (concat segs);
  mi_total_bytes : total_bytes s = bytes_of (concat segs);
  mi_init : monitor_initialized s = false → ds = []
}.

Definition mon_good (ds : list delivery) (s : monitor) : Prop := ∃ segs rest, mon_inv ds segs rest s.

Section counting.
Context (UPDATE_INTERVAL : Z) (gettimeofday : nat → timeval).

Lemma wp_mon_now (Q : timeval → monitor → Prop) s :
  (∀ s', last_sample_bytes s' = last_sample_bytes s → last_sample_delivered s' = last_sample_delivered s → total_bytes s' = total_bytes s →
    total_delivered s' = total_delivered s → monitor_initialized s' = monitor_initialized s → reports s' = reports s →
    Q (gettimeofday (mon_clock s)) s') → wp (mon_now gettimeofday) Q s.
Proof. intros H. by apply H. Qed.

(** A change of the times only. *)
Lemma mon_inv_times ds segs rest s s' : mon_inv ds segs rest s →
  reports s' = reports s → last_sample_delivered s' = last_sample_delivered s → last_sample_bytes s' = last_sample_bytes s →
  total_delivered s' = total_delivered s → total_bytes s' = total_bytes s →
  (monitor_initialized s' = false → monitor_initialized s = false) → mon_inv ds segs rest s'.
Proof. intros [] E1 E2 E3 E4 E5 Hi. constructor; rewrite ?E1, ?E2, ?E3, ?E4, ?E5; auto. Qed.

Lemma len_of_app ds ds' : len_of (ds ++ ds') = len_of ds + len_of ds'.
Proof. unfold len_of. rewrite length_app. lia. Qed.

(** A report closes the sample. *)
Lemma mon_check_spec forced ds s : mon_good ds s → len_of ds < 2 ^ 32 →
  wp (periodic_check UPDATE_INTERVAL gettimeofday forced)
    (λ _ s', mon_good ds s' ∧ (forced = true → total_delivered s' = len_of ds)) s.
Proof.
  intros (segs & rest & Hs) Hlen. unfold periodic_check. apply wp_bind, wp_get.
  destruct (monitor_initialized s) eqn:Ei; cbn [negb].
  2:{ apply wp_ret. split; [by exists segs, rest|]. intros _. pose proof (mi_init _ _ _ _ Hs Ei) as Hds.
      rewrite (mi_total _ _ _ _ Hs), <-(mi_split _ _ _ _ Hs) in *. by apply app_nil in Hds as [-> ->]. }
  apply wp_bind, wp_mon_now. intros s1 E1 E2 E3 E4 E5 E6.
  apply (mon_inv_times _ _ _ _ s1) in Hs; [|by rewrite ?E1, ?E2, ?E3, ?E4, ?E5, ?E6..]. clear E1 E2 E3 E4 E6. rewrite Ei in E5.
  destruct (_ || forced) eqn:Ec.
  2:{ apply wp_ret. split; [by exists segs, rest|]. by apply orb_false_iff in Ec as [_ ->]. }
  apply wp_bind, wp_modify, wp_bind, wp_mon_now. cbn. intros s2 F1 F2 F3 F4 F5 F6. apply wp_modify.
  destruct Hs as [<- H2 H3 H4 H5 H6 H7]. pose proof (len_of_app (concat segs) rest) as Hl.
  assert (u64 (total_delivered s1 + last_sample_delivered s1) = len_of (concat segs ++ rest)) as Et.
  { rewrite H5, H3, Hl. apply wrap_small. unfold len_of in *. lia. }
  assert (u64 (total_bytes s1 + last_sample_bytes s1) = bytes_of (concat segs ++ rest)) as Eb by by rewrite H6, H4, bytes_of_app.
  cbn. rewrite F4, Et. split; [|done]. exists (segs ++ [rest]), [].
  constructor; cbn; rewrite ?F1, ?F2, ?F3, ?F4, ?F5, ?F6, ?concat_app, ?E5; cbn; rewrite ?app_nil_r; try done.
  rewrite map_app, H2, counts_snoc. cbn. unfold sample_counts. cbn. by rewrite Et, Eb, H3, H4.
Qed.

(** A delivery is added to the sample. *)
Lemma my_deliver_spec ds d s : mon_good ds s → d_iid d = len_of ds + 1 → len_of ds + 1 < 2 ^ 32 →
  wp (my_deliver_fun gettimeofday d) (λ _ s', mon_good (ds ++ [d]) s') s.
Proof.
  intros (segs & rest & Hs) Hd Hlen. unfold my_deliver_fun. apply wp_bind, wp_get, wp_bind.
  assert (wp (if negb (monitor_initialized s) then now ← mon_now gettimeofday; modify (λ s, mk_monitor (last_sample_bytes s)
    (last_sample_delivered s) (total_bytes s) (total_delivered s) now now true (mon_clock s) (reports s)) else mret tt)
    (λ _ s', mon_inv ds segs rest s' ∧ monitor_initialized s' = true) s) as Hw.
  { destruct (monitor_initialized s) eqn:Ei; cbn [negb]; [by apply wp_ret|].
    apply wp_bind, wp_mon_now. intros s1 E1 E2 E3 E4 E5 E6. apply wp_modify. split; [|done].
    by eapply mon_inv_times. }
  eapply wp_mono; [exact Hw|]. clear dependent s. intros _ s [[<- H2 H3 H4 H5 H6 H7] Ei].
  apply wp_bind, wp_modify, wp_bind, wp_get. cbn. rewrite len_of_app in *.
  assert (u64 (last_sample_delivered s + 1) = len_of (rest ++ [d])) as El.
  { rewrite H3, len_of_app. unfold len_of in *. cbn. apply wrap_small; lia. }
  apply wp_assert.
  - apply Z.eqb_eq. rewrite El, H5, Hd, len_of_app. unfold len_of in *. cbn. rewrite wrap_small; lia.
  - exists segs, (rest ++ [d]). constructor; cbn; [by rewrite app_assoc|done|done| |done|done|by rewrite Ei].
    rewrite H4, bytes_of_app. unfold bytes_of at 3. cbn. rewrite Z.add_0_r. unfold wrap. by rewrite Zplus_mod_idemp_r.
Qed.

Lemma my_deliver_all ds new s : mon_good ds s → map d_iid (ds ++ new) = range 1 (len_of (ds ++ new)) → len_of (ds ++ new) < 2 ^ 32 →
  wp (mfor new (my_deliver_fun gettimeofday)) (λ _ s', mon_good (ds ++ new) s') s.
Proof.
  intros Hs Hid Hlen. apply (wp_mfor (λ dn s', mon_good (ds ++ dn) s')); [by rewrite app_nil_r| |done].
  intros dn d rest s' -> Hs'. rewrite app_assoc. pose proof (len_of_app (ds ++ dn) (d :: rest)) as Hl. rewrite <-app_assoc in Hl.
  assert (len_of (d :: rest) = 1 + len_of rest) as Hr by (unfold len_of; cbn; lia).
  apply my_deliver_spec; [done| |unfold len_of in *; lia].
  assert (map d_iid (ds ++ dn ++ d :: rest) !! length (ds ++ dn) = Some (d_iid d)) as Hk.
  { rewrite app_assoc, list_lookup_fmap, list_lookup_middle by done. done. }
  rewrite Hid in Hk. apply lookup_range in Hk. unfold len_of. lia.
Qed.
End counting.

(** ** The learner *)

(** Nothing is taken back from what was delivered. *)
Definition delivers_more (l l' : learner) : Prop := delivered l `prefix_of` delivered l'.
#[local] Instance delivers_more_preorder : PreOrder delivers_more.
Proof. split; [by intros l; unfold delivers_more|]. intros l1 l2 l3. unfold delivers_more. by etrans. Qed.

Ltac delivers_tac := apply steps_modify; intros ?; unfold delivers_more; repeat case_match; cbn; first [done|by apply prefix_app_r].

Lemma deliver_delivers fuel : steps delivers_more (lea_deliver_fuel fuel).
Proof.
  induction fuel; cbn [lea_deliver_fuel]; unfold GET_LEA_INSTANCE, put_lea_instance; solve_steps_with delivers_tac.
Qed.

Lemma batch_delivers a aab : steps delivers_more (handle_accept_ack_batch a aab).
Proof.
  pose proof (deliver_delivers (S (Z.to_nat LEARNER_ARRAY_SIZE))).
  unfold handle_accept_ack_batch, handle_accept_ack, lea_deliver_next_closed, lea_check_quorum, GET_LEA_INSTANCE, put_lea_instance.
  solve_steps_with delivers_tac.
Qed.

Definition acks_of (evs : list monitor_event) : list (Z * list accept_ack) :=
  omap (λ ev, match ev with MonAcks a aab => Some (a, aab) | MonTimer => None end) evs.

Lemma lea_good_iids H l : lea_good H l → map d_iid (delivered l) = range 1 (len_of (delivered l)) ∧ len_of (delivered l) < 2 ^ 32.
Proof.
  intros (cur & [[Hcur Hpos _ Hd] _]). pose proof (list.Forall2_length _ _ _ Hd) as Hl. rewrite length_range in Hl. unfold len_of.
  rewrite <-Hl. unfold LAST_IID, LEARNER_ARRAY_SIZE in Hpos. split; [|lia].
  replace (Z.of_nat (Z.to_nat (cur - 1 - 1 + 1))) with (cur - 1) by lia. clear Hl Hpos Hcur.
  induction Hd as [|i d js ds (v & _ & _ & ->) _ IH]; cbn; [done|]. by rewrite IH.
Qed.

Section monitoring.
Context (UPDATE_INTERVAL : Z) (gettimeofday : nat → timeval).

Definition monitoring_good (H : history) (o : monitoring) : Prop :=
  lea_good H (mo_learner o) ∧ mon_good (delivered (mo_learner o)) (mo_monitor o).

Lemma mon_handle_spec evs ev o : history_ok (all_entries (acks_of (evs ++ [ev]))) → monitoring_good (all_entries (acks_of evs)) o →
  wp (mon_handle UPDATE_INTERVAL gettimeofday ev) (λ _ o', monitoring_good (all_entries (acks_of (evs ++ [ev]))) o') o.
Proof.
  unfold acks_of. rewrite omap_app. intros HH [Hl Hm]. destruct ev as [a aab|]; cbn [omap list_omap] in *.
  - rewrite all_entries_snoc in *. cbn [mon_handle]. apply wp_bind, wp_get, wp_bind, wp_zoom.
    eapply wp_mono; [apply wp_wlp; [by apply handle_accept_ack_batch_spec|apply batch_delivers]|].
    intros _ l' [Hl' [new Hnew]]. apply wp_bind, wp_get, wp_zoom. cbn [mo_learner mo_monitor]. rewrite Hnew, drop_app_length.
    destruct (lea_good_iids _ _ Hl') as [Hid Hlen]. rewrite Hnew in Hid, Hlen.
    eapply wp_mono; [by apply my_deliver_all|]. intros ? m' Hm'. split; [done|]. cbn. by rewrite Hnew.
  - rewrite app_nil_r. cbn [mon_handle]. apply wp_zoom. destruct (lea_good_iids _ _ Hl) as [_ Hlen].
    eapply wp_mono; [by apply mon_check_spec|]. intros ? m' [Hm' _]. by split.
Qed.

Lemma mon_inv_new : mon_good [] monitor_new.
Proof. exists [], []. by constructor. Qed.

(** C39. The monitors count every delivery once.  Whatever acknowledgements the
    learner of a monitor receives, and whenever its timer fires in between and
    whatever the clock says, its assertion that the instances are delivered
    without a gap holds; the reports have the numbers of values and of bytes of
    consecutive parts of the deliveries, and the totals so far; the last report,
    made when the program is interrupted, covers the rest, and the number it
    prints is that of the deliveries. *)
Theorem monitor_counts_deliveries evs :
  history_ok (all_entries (acks_of evs)) →
  wp (mon_run UPDATE_INTERVAL gettimeofday evs)
    (λ total o, let ds := delivered (mo_learner o) in
      total = len_of ds ∧ map d_iid ds = range 1 (len_of ds) ∧
      ∃ segs, concat segs = ds ∧ map sample_counts (reports (mo_monitor o)) = counts [] segs)
    (mk_monitoring init_lea_structs monitor_new).
Proof.
  intros HH. unfold mon_run. apply wp_bind.
  apply (wp_mfor (λ dn o, monitoring_good (all_entries (acks_of dn)) o)); [split; [apply init_good|apply mon_inv_new]| |].
  - intros dn ev rest o -> Ho. apply mon_handle_spec; [|done].
    apply (history_ok_app _ (all_entries (acks_of rest))). unfold all_entries, acks_of in *.
    by rewrite <-concat_app, <-map_app, <-omap_app, <-app_assoc.
  - intros o [Hl Hm]. destruct (lea_good_iids _ _ Hl) as [Hid Hlen]. apply wp_zoom. unfold handle_cltr_c. apply wp_bind.
    eapply wp_mono; [by apply mon_check_spec|]. intros ? m' [(segs & rest & Hs) Ht]. apply wp_bind, wp_get, wp_ret.
    specialize (Ht eq_refl). split_and!; [done..|]. exists segs. destruct Hs as [Hsp Hr _ _ Htot _ _]. split; [|done]. cbn.
    rewrite <-Hsp in Ht. rewrite Htot, len_of_app in Ht. unfold len_of in Ht. destruct rest; [|cbn in Ht; lia].
    by rewrite <-Hsp, app_nil_r.
Qed.
End monitoring.

(** ** A concrete run *)

Definition mon_ack (iid : Z) (v : list byte) : accept_ack := mk_accept_ack iid 11 11 0 v.
Definition mon_evs : list monitor_event :=
  [MonTimer; MonAcks 0 [mon_ack 1 [x61; x61]; mon_ack 2 [x62]]; MonAcks 2 [mon_ack 2 [x62]; mon_ack 1 [x61; x61]];
   MonTimer; MonAcks 0 [mon_ack 3 [x63]]; MonAcks 1 [mon_ack 3 [x63]]].
Definition mon_time (n : nat) : timeval := mk_timeval (10 + Z.of_nat n) (500000 * (Z.of_nat n mod 2)).

Lemma monitor_counts_deliveries_witness :
  wp (mon_run 1 mon_time mon_evs)
    (λ total o, let ds := delivered (mo_learner o) in
      total = len_of ds ∧ map d_iid ds = range 1 (len_of ds) ∧
      ∃ segs, concat segs = ds ∧ map sample_counts (reports (mo_monitor o)) = counts [] segs)
    (mk_monitoring init_lea_structs monitor_new).
Proof.
  refine (monitor_counts_deliveries 1 mon_time mon_evs _). intros a aa Hin. apply list_elem_of_In in Hin.
  unfold LAST_IID, LEARNER_ARRAY_SIZE, N_OF_ACCEPTORS. cbn in Hin.
  repeat (destruct Hin as [[= <- <-]|Hin]; [cbn; lia|]). destruct Hin.
Defined.

(** The same run, evaluated: two values in 1.5 seconds, of which the report says
    that they are 6, and one in the last sample. *)
Example monitor_example :
  (λ r, (r.1, map (λ sa, (sa_secs sa, sample_counts sa)) (reports (mo_monitor r.2)))) <$>
    mon_run 1 mon_time mon_evs (mk_monitoring init_lea_structs monitor_new)
  = Some (3, [(600000, (2, 3, 2, 3)); (600000, (1, 1, 3, 4))]).
Proof. vm_compute. reflexivity. Qed.
