(* ===== verification/LearnerInit.v ===== *)
(** * Starting a learner

    [learner_init] of libpaxos2's [learner.c]: the caller creates a thread that
    initializes the learner, and waits for its status under [ready_lock] and
    [ready_cond].  The two threads are a transition system whose moves are
    steps of either one, or a spurious wake-up of [pthread_cond_wait].

    [learner_init_outcome]: every schedule ends, with the right result or with
    the caller asleep after the only signal was sent. *)
From stdpp Require Import strings.
From S2P Require Import Prelude Bytes PaxosWire SendBuffer Learner.

Definition LEARNER_ERROR : Z := -1.
Definition LEARNER_READY : Z := 0.
Definition LEARNER_STARTING : Z := 1.

(** ** The initialization *)

(** What the calls of the thread that leave the file return: the sockets of the
    send buffer and of the receiver, libevent, the function the client passes
    (NULL or its result), [pthread_create].  A pointer is NULL or not. *)
Record init_env := mk_init_env {
  create_rc : Z;
  deliver_given : bool;
  event_init_given : bool;
  sendbuf_given : bool;
  receiver_given : bool;
  hole_event_rc : Z;
  custom_init : option Z;
  ready_event_rc : Z
}.

(** [init_lea_network] *)
Definition init_lea_network (env : init_env) : Z :=
  if negb (sendbuf_given env) then LEARNER_ERROR
  else if negb (receiver_given env) then LEARNER_ERROR
  else 0.

(** [init_lea_timers] *)
Definition init_lea_timers (env : init_env) : Z := if negb (hole_event_rc env =? 0) then -1 else 0.

(** [init_lea_signal_ready] *)
Definition init_lea_signal_ready (env : init_env) : Z := if negb (ready_event_rc env =? 0) then -1 else 0.

(** [init_learner_thread] up to [event_dispatch]: the message of the call of
    [init_lea_failure], or the learner the loop starts with.
    [init_lea_structs] returns 0 always. *)
Definition init_learner_thread (env : init_env) : string + learner :=
  if negb (deliver_given env) then inl "Error in libevent init"%string
  else if negb (event_init_given env) then inl "Error in libevent init"%string
  else
    let l := init_lea_structs in
    if negb (init_lea_network env =? 0) then inl "Error in learner network init"%string
    else if negb (init_lea_timers env =? 0) then inl "Error in learner timers initialization"%string
    else if (match custom_init env with Some rc => negb (rc =? 0) | None => false end)
    then inl "Error in custom_init_function"%string
    else if negb (init_lea_signal_ready env =? 0) then inl "Error in learner timers initialization"%string
    else inr l.

(** ** The two threads *)

Inductive thread_id := Caller | LearnerThread.

(** Where the caller is: before [pthread_create]; in [init_lea_wait_ready]
    before the lock, with the lock before [pthread_cond_wait], in it until it
    is woken, woken but without the lock, after it, and before the unlock; and
    after [learner_init] returned. *)
Inductive caller_pc :=
  | CCreate | CLock | CWait | CAsleep | CWoken | CTest
  | CUnlock (status : Z) | CReturned (rc : Z).

(** Where the other thread is: not created; before the initialization; in the
    event loop before its first event, [init_lea_success]; in
    [init_lea_failure] or [init_lea_success], which differ in the status [v]
    they store; after that. *)
Inductive thread_pc :=
  | TNone | TInit | TDispatch
  | TLock (v : Z) | TStore (v : Z) | TSignal (v : Z) | TUnlock (v : Z) | TDone (v : Z).

Record init_state := mk_init_state {
  caller : caller_pc;
  thread : thread_pc;
  learner_ready : Z;
  ready_lock : option thread_id
}.

Definition init_start : init_state := mk_init_state CCreate TNone LEARNER_STARTING None.

(** [pthread_mutex_lock]: blocks while the lock is taken. *)
Definition mutex_lock (t : thread_id) (s : init_state) : option init_state :=
  match ready_lock s with
  | None => Some (mk_init_state (caller s) (thread s) (learner_ready s) (Some t))
  | Some _ => None
  end.

Definition mutex_unlock (s : init_state) : init_state :=
  mk_init_state (caller s) (thread s) (learner_ready s) None.

Definition caller_at (pc : caller_pc) (s : init_state) : init_state :=
  mk_init_state pc (thread s) (learner_ready s) (ready_lock s).

Definition thread_at (pc : thread_pc) (s : init_state) : init_state :=
  mk_init_state (caller s) pc (learner_ready s) (ready_lock s).

Definition set_learner_ready (v : Z) (s : init_state) : init_state :=
  mk_init_state (caller s) (thread s) v (ready_lock s).

(** [pthread_cond_signal]: wakes the caller if it waits, and else nobody. *)
Definition cond_signal (s : init_state) : init_state :=
  match caller s with CAsleep => caller_at CWoken s | _ => s end.

(** [learner_init] and [init_lea_wait_ready], a step of the caller. *)
Definition caller_step (env : init_env) (s : init_state) : option init_state :=
  match caller s with
  | CCreate =>
      if negb (create_rc env =? 0) then Some (caller_at (CReturned (-1)) s)
      else Some (caller_at CLock (thread_at TInit s))
  | CLock => caller_at CWait <$> mutex_lock Caller s
  | CWait => Some (caller_at CAsleep (mutex_unlock s))
  | CAsleep => None
  | CWoken => caller_at CTest <$> mutex_lock Caller s
  | CTest =>
      let status := learner_ready s in
      if status =? LEARNER_STARTING then Some (caller_at CWait s)
      else if negb (status =? LEARNER_READY) && negb (status =? LEARNER_ERROR)
      then Some (caller_at (CUnlock LEARNER_ERROR) s)
      else Some (caller_at (CUnlock status) s)
  | CUnlock status =>
      Some (caller_at (CReturned (if status =? LEARNER_ERROR then -1 else 0)) (mutex_unlock s))
  | CReturned _ => None
  end.

(** A step of the other thread: [init_learner_thread], [init_lea_failure] and
    [init_lea_success]. *)
Definition thread_step (env : init_env) (s : init_state) : option init_state :=
  match thread s with
  | TNone => None
  | TInit =>
      match init_learner_thread env with
      | inl _ => Some (thread_at (TLock LEARNER_ERROR) s)
      | inr _ => Some (thread_at TDispatch s)
      end
  | TDispatch => Some (thread_at (TLock LEARNER_READY) s)
  | TLock v => thread_at (TStore v) <$> mutex_lock LearnerThread s
  | TStore v => Some (thread_at (TSignal v) (set_learner_ready v s))
  | TSignal v => Some (thread_at (TUnlock v) (cond_signal s))
  | TUnlock v => Some (thread_at (TDone v) (mutex_unlock s))
  | TDone _ => None
  end.

(** POSIX lets [pthread_cond_wait] return without a signal. *)
Definition spurious_wakeup (s : init_state) : option init_state :=
  match caller s with CAsleep => Some (caller_at CWoken s) | _ => None end.

Inductive init_move := CallerMoves | ThreadMoves | Spurious.

#[export] Instance init_move_eq_dec : EqDecision init_move.
Proof. solve_decision. Defined.

Definition init_step (env : init_env) (m : init_move) (s : init_state) : option init_state :=
  match m with
  | CallerMoves => caller_step env s
  | ThreadMoves => thread_step env s
  | Spurious => spurious_wakeup s
  end.

Fixpoint init_run (env : init_env) (ms : list init_move) (s : init_state) : option init_state :=
  match ms with
  | [] => Some s
  | m :: ms => init_step env m s ≫= init_run env ms
  end.

(** ** What is promised *)

(** Nothing the thread does fails. *)
Definition init_succeeds (env : init_env) : bool :=
  deliver_given env && event_init_given env && sendbuf_given env && receiver_given env &&
  (hole_event_rc env =? 0) && (default 0 (custom_init env) =? 0) && (ready_event_rc env =? 0).

(** What [learner_init] is to return. *)
Definition init_result (env : init_env) : Z :=
  if (create_rc env =? 0) && init_succeeds env then 0 else -1.

(** No thread can move. *)
Definition init_stuck (env : init_env) (s : init_state) : Prop :=
  caller_step env s = None ∧ thread_step env s = None.

(** The caller sleeps, the status is set, and nobody will send a signal. *)
Definition lost_wakeup (s : init_state) : Prop :=
  caller s = CAsleep ∧ (∃ v, thread s = TDone v) ∧ learner_ready s ≠ LEARNER_STARTING.

(** The moves that are not spurious wake-ups, and those that are. *)
Definition own_moves (ms : list init_move) : nat := length (filter (λ m, m ≠ Spurious) ms).
Definition spurious_moves (ms : list init_move) : nat := length (filter (λ m, m = Spurious) ms).

(** ** The invariant *)

Definition init_status (env : init_env) : Z := if init_succeeds env then LEARNER_READY else LEARNER_ERROR.

Lemma init_learner_thread_status env :
  match init_learner_thread env with inl _ => init_succeeds env = false | inr _ => init_succeeds env = true end.
Proof.
  unfold init_learner_thread, init_succeeds, init_lea_network, init_lea_timers, init_lea_signal_ready.
  destruct env as [? [] [] [] [] h c r]; simpl; try done.
  destruct (h =? 0); simpl; [|done].
  destruct c as [c|]; simpl; [destruct (c =? 0); simpl; [|done]|]; by destruct (r =? 0).
Qed.

(** The lock is held by the thread that is between its lock and its unlock. *)
Definition lock_ok (s : init_state) : Prop :=
  (ready_lock s = Some Caller ↔ match caller s with CWait | CTest | CUnlock _ => True | _ => False end) ∧
  (ready_lock s = Some LearnerThread ↔
    match thread s with TStore _ | TSignal _ | TUnlock _ => True | _ => False end).

(** The status is set once, to what the initialization ended with. *)
Definition status_ok (env : init_env) (s : init_state) : Prop :=
  match thread s with
  | TNone | TInit => learner_ready s = LEARNER_STARTING
  | TDispatch => learner_ready s = LEARNER_STARTING ∧ init_status env = LEARNER_READY
  | TLock v | TStore v => learner_ready s = LEARNER_STARTING ∧ v = init_status env
  | TSignal v | TUnlock v | TDone v => learner_ready s = init_status env ∧ v = init_status env
  end.

Definition caller_ok (env : init_env) (s : init_state) : Prop :=
  match caller s with
  | CCreate => thread s = TNone
  | CUnlock st => create_rc env = 0 ∧ thread s ≠ TNone ∧ st = init_status env
  | CReturned rc => rc = init_result env
  | _ => create_rc env = 0 ∧ thread s ≠ TNone
  end.

Record init_good (env : init_env) (s : init_state) : Prop := mk_init_good {
  ig_lock : lock_ok s;
  ig_status : status_ok env s;
  ig_caller : caller_ok env s
}.

Lemma init_good_start env : init_good env init_start.
Proof. by split. Qed.

Lemma init_status_cases env : init_status env = LEARNER_READY ∨ init_status env = LEARNER_ERROR.
Proof. unfold init_status. case_match; auto. Qed.

Lemma init_result_status env :
  create_rc env = 0 → (if init_status env =? LEARNER_ERROR then -1 else 0) = init_result env.
Proof. unfold init_status, init_result. intros ->. by destruct (init_succeeds env). Qed.

(** Takes a state apart and computes. *)
Ltac init_cases := unfold lock_ok, status_ok, caller_ok, mutex_lock, mutex_unlock, caller_at, thread_at,
  set_learner_ready, cond_signal in *; simpl in *.

(** What the caller reads after it was woken. *)
Lemma caller_reads_status env s :
  init_good env s → learner_ready s ≠ LEARNER_STARTING → thread s ≠ TNone ∧ learner_ready s = init_status env.
Proof. intros [_ H _] Hr. unfold status_ok in H. destruct (thread s); intuition congruence. Qed.

Lemma caller_step_good env s s' : init_good env s → caller_step env s = Some s' → init_good env s'.
Proof.
  intros Hg Hstep. pose proof (caller_reads_status _ _ Hg) as Hread. destruct Hg as [Hl Hs Hc].
  destruct s as [c t r o]. unfold caller_step in Hstep. destruct c; init_cases.
  - destruct (Z.eqb_spec (create_rc env) 0) as [E|E]; simplify_eq/=; split; init_cases; try intuition congruence.
    unfold init_result. by destruct (Z.eqb_spec (create_rc env) 0).
  - destruct o; simplify_eq/=. split; init_cases; intuition congruence.
  - simplify_eq/=. split; init_cases; intuition congruence.
  - done.
  - destruct o; simplify_eq/=. split; init_cases; intuition congruence.
  - destruct (Z.eqb_spec r LEARNER_STARTING) as [->|E]; [simplify_eq/=; split; init_cases; intuition congruence|].
    destruct (Hread E) as [Hn ->].
    replace (negb _ && negb _) with false in Hstep by (by destruct (init_status_cases env) as [-> | ->]).
    simplify_eq/=. split; init_cases; intuition congruence.
  - simplify_eq/=. destruct Hc as (Hcr & Hn & ->). split; init_cases; [intuition congruence|done|by apply init_result_status].
  - done.
Qed.

Lemma thread_step_good env s s' : init_good env s → thread_step env s = Some s' → init_good env s'.
Proof.
  intros [Hl Hs Hc] Hstep. destruct s as [c t r o]. unfold thread_step in Hstep. destruct t; init_cases.
  - done.
  - assert (He : init_status env = if init_learner_thread env is inl _ then LEARNER_ERROR else LEARNER_READY).
    { unfold init_status. pose proof (init_learner_thread_status env) as He.
      destruct (init_learner_thread env); by rewrite He. }
    destruct (init_learner_thread env); simplify_eq/=; split; init_cases; destruct c; intuition congruence.
  - simplify_eq/=. split; init_cases; destruct c; intuition congruence.
  - destruct o; simplify_eq/=. split; init_cases; destruct c; intuition congruence.
  - simplify_eq/=. split; init_cases; destruct c; intuition congruence.
  - destruct c; simplify_eq/=; split; init_cases; intuition congruence.
  - simplify_eq/=. split; init_cases; destruct c; intuition congruence.
  - done.
Qed.

Lemma init_step_good env m s s' : init_good env s → init_step env m s = Some s' → init_good env s'.
Proof.
  destruct m; [apply caller_step_good|apply thread_step_good|].
  intros [Hl Hs Hc] Hstep. destruct s as [c t r o]. unfold init_step, spurious_wakeup in Hstep.
  destruct c; simplify_eq/=. by split.
Qed.

Lemma init_run_good env ms s s' : init_good env s → init_run env ms s = Some s' → init_good env s'.
Proof.
  revert s. induction ms as [|m ms IH]; intros s Hg Hrun; simplify_eq/=; [done|].
  destruct (init_step env m s) as [s1|] eqn:E; simplify_eq/=. eapply IH; [|done]. by eapply init_step_good.
Qed.

(** Where nobody can move, the lock is free. *)
Lemma stuck_lock_free env s : lock_ok s → init_stuck env s → ready_lock s = None.
Proof.
  intros [[Hc _] [Ht _]] [H1 H2]. destruct s as [c t r [[]|]]; [| |done]; simpl in *; exfalso.
  - specialize (Hc eq_refl). unfold caller_step in H1. destruct c; try done.
    simpl in H1. destruct (r =? LEARNER_STARTING); [done|]. by destruct (_ && _).
  - specialize (Ht eq_refl). by destruct t.
Qed.

(** The caller has returned then, or sleeps for ever. *)
Lemma init_good_stuck env s : init_good env s → init_stuck env s → caller s = CReturned (init_result env) ∨ lost_wakeup s.
Proof.
  intros [Hl Hs Hc] Hst. pose proof (stuck_lock_free _ _ Hl Hst) as Ho. destruct Hst as [H1 H2].
  destruct s as [c t r o]; simpl in Ho; subst o. unfold caller_step in H1. destruct c; init_cases; try done.
  - by destruct (create_rc env =? 0).
  - right. destruct Hc as [_ Hn]. unfold thread_step in H2. destruct t; try done; simpl in *.
    { by destruct (init_learner_thread env). }
    destruct Hs as [-> ->]. split; [done|]. split; [eauto|]. by destruct (init_status_cases env) as [E|E]; simpl; rewrite E.
  - destruct (r =? LEARNER_STARTING); [done|]. by destruct (_ && _).
  - left. by rewrite Hc.
Qed.

(** ** Every schedule ends *)

Definition caller_weight (pc : caller_pc) : nat :=
  match pc with
  | CCreate => 14 | CLock => 2 | CWait => 1 | CAsleep => 0 | CWoken => 5 | CTest => 4 | CUnlock _ => 1 | CReturned _ => 0
  end.

Definition thread_weight (pc : thread_pc) : nat :=
  match pc with
  | TNone => 0 | TInit => 11 | TDispatch => 10 | TLock _ => 9 | TStore _ => 8 | TSignal _ => 7 | TUnlock _ => 1 | TDone _ => 0
  end.

Definition init_weight (s : init_state) : nat := caller_weight (caller s) + thread_weight (thread s).

Lemma init_step_weight env m s s' :
  init_good env s → init_step env m s = Some s' →
  (match m with Spurious => init_weight s' = init_weight s + 5 | _ => init_weight s' < init_weight s end)%nat.
Proof.
  intros [_ _ Hc]. destruct s as [c t r o]. unfold init_weight, init_step, caller_step, thread_step, spurious_wakeup.
  destruct m; init_cases.
  - destruct c; simpl; intros; repeat case_match; simplify_eq/=; try lia; destruct o; simplify_eq/=; lia.
  - destruct t; simpl; intros; repeat case_match; simplify_eq/=; try lia; destruct o; simplify_eq/=; lia.
  - destruct c; simpl; intros; simplify_eq/=. lia.
Qed.

Lemma init_run_length env ms s s' :
  init_good env s → init_run env ms s = Some s' → (own_moves ms ≤ init_weight s + 5 * spurious_moves ms)%nat.
Proof.
  revert s. induction ms as [|m ms IH]; intros s Hg Hrun; simplify_eq/=; [cbn; lia|].
  destruct (init_step env m s) as [s1|] eqn:E; simplify_eq/=.
  pose proof (init_step_weight _ _ _ _ Hg E) as Hw. specialize (IH s1 ltac:(by eapply init_step_good) Hrun).
  unfold own_moves, spurious_moves in *. rewrite !filter_cons. destruct m; simpl in *; lia.
Qed.

(** ** The schedules of the two outcomes *)

(** What the thread does before it takes the lock: the failure comes earlier
    than the first event of the loop. *)
Definition thread_starts (env : init_env) : list init_move :=
  if init_succeeds env then [ThreadMoves; ThreadMoves] else [ThreadMoves].

(** The thread is faster than the caller: it is done before the caller takes
    the lock. *)
Definition thread_first (env : init_env) : list init_move :=
  [CallerMoves] ++ thread_starts env ++ replicate 4 ThreadMoves ++ [CallerMoves; CallerMoves].

(** The caller waits before the thread takes the lock. *)
Definition caller_first (env : init_env) : list init_move :=
  replicate 3 CallerMoves ++ thread_starts env ++ replicate 4 ThreadMoves ++ replicate 3 CallerMoves.

Lemma thread_starts_run env c r o ms :
  init_run env (thread_starts env ++ ms) (mk_init_state c TInit r o) =
  init_run env ms (mk_init_state c (TLock (init_status env)) r o).
Proof.
  pose proof (init_learner_thread_status env) as He. unfold thread_starts, init_status.
  destruct (init_learner_thread env) eqn:E; rewrite He; simpl; unfold thread_step; simpl; by rewrite E.
Qed.

Lemma caller_creates env :
  create_rc env = 0 → caller_step env init_start = Some (mk_init_state CLock TInit LEARNER_STARTING None).
Proof. unfold caller_step. simpl. by intros ->. Qed.

Lemma thread_first_run env :
  create_rc env = 0 →
  init_run env (thread_first env) init_start = Some (mk_init_state CAsleep (TDone (init_status env)) (init_status env) None).
Proof.
  intros E. unfold thread_first. simpl. rewrite caller_creates by done. simpl. by rewrite thread_starts_run.
Qed.

Lemma caller_first_run env :
  create_rc env = 0 →
  init_run env (caller_first env) init_start =
  Some (mk_init_state (CReturned (init_result env)) (TDone (init_status env)) (init_status env) None).
Proof.
  intros E. unfold caller_first. simpl. rewrite caller_creates by done. cbn -[thread_starts app]. unfold caller_at, mutex_unlock.
  cbn -[thread_starts app]. rewrite thread_starts_run. simpl. rewrite <- (init_result_status env E). by destruct (init_status_cases env) as [-> | ->].
Qed.

(** C24. Every schedule of [learner_init] is finite, at most fourteen steps and five
    more for every spurious wake-up.  If [learner_init] returns, it returns 0
    exactly when the thread was created and nothing it did failed, and -1 else.
    A schedule that cannot go on has returned, or it has lost the wake-up: the
    signal was sent before the caller waited for it, and since the caller does
    not look at [learner_ready] before it waits, it sleeps with the status set.
    Whenever the thread can be created, there is a schedule of either kind. *)
Theorem learner_init_outcome env :
  (∀ ms s, init_run env ms init_start = Some s →
    (own_moves ms ≤ 14 + 5 * spurious_moves ms)%nat ∧
    (∀ rc, caller s = CReturned rc → rc = init_result env) ∧
    (init_stuck env s → caller s = CReturned (init_result env) ∨ lost_wakeup s)) ∧
  (create_rc env = 0 →
    (∃ ms s, spurious_moves ms = 0%nat ∧ init_run env ms init_start = Some s ∧ init_stuck env s ∧ lost_wakeup s) ∧
    (∃ ms s, spurious_moves ms = 0%nat ∧ init_run env ms init_start = Some s ∧ init_stuck env s ∧
      caller s = CReturned (init_result env))).
Proof.
  split.
  - intros ms s Hrun. pose proof (init_run_good _ _ _ _ (init_good_start env) Hrun) as Hg.
    split; [by apply (init_run_length _ _ _ _ (init_good_start env) Hrun)|]. split; [|by apply init_good_stuck].
    intros rc E. destruct Hg as [_ _ Hc]. unfold caller_ok in Hc. by rewrite E in Hc.
  - intros E. split.
    + exists (thread_first env). eexists. split; [|split; [by apply thread_first_run|]].
      { unfold thread_first, thread_starts. by destruct (init_succeeds env). }
      split; [done|]. split; [done|]. split; [eauto|]. by destruct (init_status_cases env) as [E' | E']; simpl; rewrite E'.
    + exists (caller_first env). eexists. split; [|split; [by apply caller_first_run|done]].
      unfold caller_first, thread_starts. by destruct (init_succeeds env).
Qed.

(** All calls succeed. *)
Definition example_env : init_env := mk_init_env 0 true true true true 0 None 0.

Lemma learner_init_outcome_witness :
  ∃ ms s, spurious_moves ms = 0%nat ∧ init_run example_env ms init_start = Some s ∧ lost_wakeup s.
Proof.
  destruct (proj1 (proj2 (learner_init_outcome example_env) eq_refl)) as (ms & s & H1 & H2 & _ & H3).
  by exists ms, s.
Defined.
