(* ===== verification/AcceptorInit.v ===== *)
(** * Starting and stopping an acceptor

    The initialization of [paxos2/lib/acceptor.c]: [acceptor_init] starts a
    learner ([LearnerInit]) whose custom initialization is [init_acceptor],
    which opens the stable storage ([StorageInit]); [acceptor_init_recover] and
    [acceptor_exit].

    [acceptor_restart]: what an acceptor knows after it was stopped and started
    again. *)
From stdpp Require Import strings.
From S2P Require Import Prelude Steps Bytes PaxosWire SendBuffer StableStorage StorageInit Learner LearnerInit Acceptor.

(** What the calls of [init_acceptor] return that leave the file. *)
Record acceptor_env := mk_acceptor_env {
  to_proposers_given : bool;
  to_learners_given : bool;
  for_acceptor_given : bool;
  repeat_event_rc : Z
}.

Definition ACCEPTOR_ERROR : Z := -1.

(** [init_acc_network] *)
Definition init_acc_network (ae : acceptor_env) : Z :=
  if negb (to_proposers_given ae) then ACCEPTOR_ERROR
  else if negb (to_learners_given ae) then ACCEPTOR_ERROR
  else if negb (for_acceptor_given ae) then ACCEPTOR_ERROR
  else 0.

(** [init_acc_timers] *)
Definition init_acc_timers (ae : acceptor_env) : Z := if negb (repeat_event_rc ae =? 0) then -1 else 0.

(** The environment of the learner, with the result of the custom
    initialization. *)
Definition with_custom (env : init_env) (rc : Z) : init_env :=
  mk_init_env (create_rc env) (deliver_given env) (event_init_given env) (sendbuf_given env) (receiver_given env)
    (hole_event_rc env) (Some rc) (ready_event_rc env).

(** The thread comes to the custom initialization. *)
Definition reaches_custom (env : init_env) : bool :=
  (create_rc env =? 0) && deliver_given env && event_init_given env &&
  (init_lea_network env =? 0) && (init_lea_timers env =? 0).

(** What [learner_init] returns if it returns, and what [custom] does on the way
    ([learner_init_returns]). *)
Definition learner_init_with {St} (env : init_env) (custom : M St Z) : M St Z :=
  if negb (reaches_custom env) then mret (-1)
  else rc ← custom; mret (init_result (with_custom env rc)).

Section acceptor_start.
Context {FS DB : Type} `{!RecordStore DB, !DbSystem FS DB}.
(** [DURABILITY_MODE], and what the calls return. *)
Context (mode : Z) (env : init_env) (ae : acceptor_env).

(** [init_acceptor]: [learner_suspend] only closes the socket of the learner. *)
Definition init_acceptor (acceptor_id : Z) : M (storage_files FS DB) Z :=
  if negb (init_acc_network ae =? 0) then mret (-1)
  else if negb (init_acc_timers ae =? 0) then mret (-1)
  else
    r ← stablestorage_init mode acceptor_id;
    if negb (r =? 0) then mret (-1) else mret 0.

(** [acceptor_init] as the caller sees it; what it leaves in memory is
    [Acceptor.acceptor_init]. *)
Definition acceptor_start (acceptor_id : Z) : M (storage_files FS DB) Z :=
  if 32 <=? N_OF_ACCEPTORS then mret (-1)
  else if (acceptor_id <? 0) || (N_OF_ACCEPTORS <=? acceptor_id) then mret (-1)
  else
    r ← learner_init_with env (init_acceptor acceptor_id);
    if negb (r =? 0) then mret (-1) else mret 0.

Definition acceptor_init_recover (acceptor_id : Z) : M (storage_files FS DB) Z :=
  stablestorage_do_recovery;;
  acceptor_start acceptor_id.

(** A failure is only printed. *)
Definition acceptor_exit : M (storage_files FS DB) Z :=
  _ ← stablestorage_shutdown mode;
  mret 0.
End acceptor_start.

(** When the custom initialization is not reached its result does not matter. *)
Lemma reaches_custom_not env rc : reaches_custom env = false → init_result (with_custom env rc) = -1.
Proof.
  intros E. unfold init_result. replace (_ && _) with false; [done|]. symmetry. apply not_true_iff_false. intros H.
  apply not_true_iff_false in E. apply E. unfold init_succeeds in H. simpl in H. unfold reaches_custom, init_lea_network, init_lea_timers.
  rewrite !andb_true_iff in H. destruct H as [H1 [[[[[[H2 H3] H4] H5] H6] _] _]]. by rewrite H1, H2, H3, H4, H5, H6.
Qed.

Lemma succeeds_custom env rc : init_succeeds (with_custom env rc) = true → rc = 0.
Proof. unfold init_succeeds. simpl. rewrite !andb_true_iff. intros [[_ H] _]. by apply Z.eqb_eq. Qed.

(** [learner_init_with] is what every schedule of [learner_init] returns that
    returns. *)
Lemma learner_init_returns env rc ms s r :
  init_run (with_custom env rc) ms init_start = Some s → caller s = CReturned r →
  r = if reaches_custom env then init_result (with_custom env rc) else -1.
Proof.
  intros Hrun Hr. destruct (init_run_good _ _ _ _ (init_good_start _) Hrun) as [_ _ Hc].
  unfold caller_ok in Hc. rewrite Hr in Hc. subst r. destruct (reaches_custom env) eqn:E; [done|]. by apply reaches_custom_not.
Qed.

(** ** Restarting *)

(** The process has the storage of [acceptor_id] open with the records [m], and
    the acceptor starts from them.  It does not know its latest acceptance: the
    periodic repetition sends nothing. *)
Definition acceptor_started {FS DB} `{RecordStoreLaws DB, !DbSystem FS DB} (mode acceptor_id : Z) (m : records)
    (s : storage_files FS DB) : Prop :=
  storage_open mode acceptor_id m s ∧
  ∃ db a, db_handle s = Some (db_file_path acceptor_id, db) ∧ acceptor_init acceptor_id db = Some a ∧
    acc_records a = m ∧ acc_periodic_repeater mode a = Some (tt, a).

(** Nothing of the initialization fails outside of the storage. *)
Definition start_works (env : init_env) (ae : acceptor_env) : Prop :=
  create_rc env = 0 ∧ init_succeeds (with_custom env 0) = true ∧ init_acc_network ae = 0 ∧ init_acc_timers ae = 0.

Lemma start_works_custom env ae :
  start_works env ae → reaches_custom env = true ∧ init_result (with_custom env 0) = 0.
Proof.
  intros (E & H & _). split; [|unfold init_result; simpl; by rewrite E, H].
  unfold init_succeeds in H. simpl in H. unfold reaches_custom, init_lea_network, init_lea_timers.
  rewrite !andb_true_iff in H. destruct H as [[[[[[H1 H2] H3] H4] H5] _] _]. by rewrite E, H1, H2, H3, H4, H5.
Qed.

Section acceptor_restart.
Context {FS DB : Type} `{!RecordStore DB, !RecordStoreLaws DB, !DbSystem FS DB, !DbSystemLaws FS DB, !DbSystemWorks FS DB}.
Context (mode : Z) (Hmode : valid_mode mode) (env : init_env) (ae : acceptor_env) (Hworks : start_works env ae).
Implicit Types (s : storage_files FS DB).

Lemma started_open id m s : 0 ≤ id < N_OF_ACCEPTORS → storage_open mode id m s → acceptor_started mode id m s.
Proof.
  intros Hid Hopen. split; [done|]. destruct (so_db _ _ _ _ Hopen) as (db & Hh & Hv). unfold acceptor_init.
  replace (32 <=? N_OF_ACCEPTORS) with false by done.
  replace ((id <? 0) || (N_OF_ACCEPTORS <=? id)) with false by lia. by eexists _, _.
Qed.

(** [acceptor_init] opens the storage like [stablestorage_init]. *)
Lemma acceptor_start_works id s :
  0 ≤ id < N_OF_ACCEPTORS → dbenv s = EnvNull →
  (do_recovery s = true → dir_made id s ∧ is_Some (file_view (db_file_path id) (files s))) →
  wp (acceptor_start mode env ae id) (λ r s', r = 0 ∧
    acceptor_started mode id (if do_recovery s || negb (fs_stat (db_env_path id) (files s) =? 0)
      then default ∅ (file_view (db_file_path id) (files s)) else ∅) s') s.
Proof using All.
  intros Hid He Hrec. destruct (start_works_custom _ _ Hworks) as [Hc Hr]. destruct Hworks as (_ & _ & Hn & Ht).
  unfold acceptor_start. replace (32 <=? N_OF_ACCEPTORS) with false by done.
  replace ((id <? 0) || (N_OF_ACCEPTORS <=? id)) with false by lia.
  unfold learner_init_with, init_acceptor. rewrite Hc, Hn, Ht. simpl. apply wp_bind, wp_bind, wp_bind.
  eapply wp_mono; [by apply init_opens|]. intros r s' [-> Hopen]. simpl. apply wp_ret, wp_ret. rewrite Hr. simpl.
  apply wp_ret. split; [done|]. by apply started_open.
Qed.

(** [acceptor_exit], and a new process on the same files. *)
Definition stop_and (start : M (storage_files FS DB) Z) : M (storage_files FS DB) Z :=
  _ ← acceptor_exit mode;
  modify new_process;;
  start.

Lemma stop_and_spec start id m s (Q : Z → storage_files FS DB → Prop) :
  storage_open mode id m s →
  (∀ s', dir_made id s' → file_view (db_file_path id) (files s') = Some m → dbenv s' = EnvNull → do_recovery s' = false →
    wp start Q s') →
  wp (stop_and start) Q s.
Proof using All.
  intros Hopen Hstart. unfold stop_and, acceptor_exit. apply wp_bind, wp_bind.
  eapply wp_mono; [by apply (shutdown_works mode Hmode id m)|]. intros ? s1 (_ & Hd & Hv).
  apply wp_ret, wp_bind, wp_modify. by apply Hstart.
Qed.

End acceptor_restart.

