(* ===== verification/ValuesHandler.v ===== *)
(** * The pending values of the leader

    [paxos2/lib/proposer_values_handler.c] and [values_handler.h]: the linked
    list of client values that wait for an instance.  The wrappers live in an
    explicit heap, because the list, the instances of the leader and the
    caller share pointers to them: an access to or a [free] of a wrapper that
    is not allocated has no result.  Every function runs under the list's
    mutex; the socket and libevent are not modelled. *)
From Stdlib Require Import Init.Byte.
From S2P Require Import Prelude Bytes PaxosWire.

Definition LEADER_MAX_QUEUE_LENGTH : Z := 50.

(** A pointer that is not NULL. *)
Abbreviation loc := positive.

(** [vh_value_wrapper] *)
Record vh_value_wrapper := mk_wrapper { vw_value : list byte; vw_next : option loc }.

(** The static variables, the heap of the wrappers, and the calls of
    [vh_notify_client]. *)
Record values_handler := mk_vh {
  heap : gmap loc vh_value_wrapper;
  vh_list_size : Z;            (* int *)
  vh_list_head : option loc;
  vh_list_tail : option loc;
  dropped_count : Z;           (* long unsigned int *)
  notified : list (Z * list byte)
}.

#[export] Instance set_vw_next : Setter vw_next := λ g r, mk_wrapper (vw_value r) (g (vw_next r)).
#[global] Arguments set_vw_next _ _ /.
#[export] Instance set_heap : Setter heap := λ g r,
  mk_vh (g (heap r)) (vh_list_size r) (vh_list_head r) (vh_list_tail r) (dropped_count r) (notified r).
#[global] Arguments set_heap _ _ /.
#[export] Instance set_vh_list_size : Setter vh_list_size := λ g r,
  mk_vh (heap r) (g (vh_list_size r)) (vh_list_head r) (vh_list_tail r) (dropped_count r) (notified r).
#[global] Arguments set_vh_list_size _ _ /.
#[export] Instance set_vh_list_head : Setter vh_list_head := λ g r,
  mk_vh (heap r) (vh_list_size r) (g (vh_list_head r)) (vh_list_tail r) (dropped_count r) (notified r).
#[global] Arguments set_vh_list_head _ _ /.
#[export] Instance set_vh_list_tail : Setter vh_list_tail := λ g r,
  mk_vh (heap r) (vh_list_size r) (vh_list_head r) (g (vh_list_tail r)) (dropped_count r) (notified r).
#[global] Arguments set_vh_list_tail _ _ /.
#[export] Instance set_dropped_count : Setter dropped_count := λ g r,
  mk_vh (heap r) (vh_list_size r) (vh_list_head r) (vh_list_tail r) (g (dropped_count r)) (notified r).
#[global] Arguments set_dropped_count _ _ /.
#[export] Instance set_notified : Setter notified := λ g r,
  mk_vh (heap r) (vh_list_size r) (vh_list_head r) (vh_list_tail r) (dropped_count r) (g (notified r)).
#[global] Arguments set_notified _ _ /.

Implicit Types (s : values_handler) (vw : loc).

(** ** Pointers *)

(** [*p] *)
Definition deref vw : M values_handler vh_value_wrapper :=
  s ← get; lift_opt (heap s !! vw).

Definition set_next vw (next : option loc) : M values_handler unit :=
  w ← deref vw;
  modify (λ s, s <| heap ::= <[vw := w <| vw_next := next |>]> |>).

Definition PAX_FREE vw : M values_handler unit :=
  _ ← deref vw;
  modify (λ s, s <| heap ::= delete vw |>).

(** [PAX_MALLOC] exits the process when there is no memory; it gives a wrapper
    that is not allocated yet. *)
Definition vh_wrap_value (value : list byte) : M values_handler loc :=
  s ← get;
  let vw := fresh (dom (heap s)) in
  put (s <| heap ::= <[vw := mk_wrapper value None]> |>);;
  mret vw.

(** 0 is [true]. *)
Definition vh_value_compare vw1 vw2 : M values_handler bool :=
  w1 ← deref vw1; w2 ← deref vw2;
  if negb (blen (vw_value w1) =? blen (vw_value w2)) then mret false
  else mret (bool_decide (vw_value w1 = vw_value w2)).

(** ** The list *)

Definition vh_init : values_handler → values_handler := λ s,
  s <| vh_list_size := 0 |> <| vh_list_head := None |> <| vh_list_tail := None |>
    <| dropped_count := 0 |>.

Definition vh_pending_list_size : M values_handler Z := gets vh_list_size.

(** [int dc = dropped_count] *)
Definition signed32 (z : Z) : Z :=
  let x := z mod 2 ^ 32 in if x <? 2 ^ 31 then x else x - 2 ^ 32.

Definition vh_get_dropped_count : M values_handler Z :=
  s ← get; mret (u64 (signed32 (dropped_count s))).

Definition is_null (p : option loc) : bool :=
  match p with
  | None => true
  | Some _ => false
  end.

Definition vh_enqueue_value (value : list byte) : M values_handler unit :=
  s ← get;
  if LEADER_MAX_QUEUE_LENGTH <? vh_list_size s then
    modify (λ s, s <| dropped_count := u64 (dropped_count s + 1) |>)
  else
    new_vw ← vh_wrap_value value;
    if is_null (vh_list_head s) && is_null (vh_list_tail s) then
      modify (λ s, s <| vh_list_head := Some new_vw |> <| vh_list_tail := Some new_vw |>
                     <| vh_list_size := 1 |>)
    else
      tail ← lift_opt (vh_list_tail s);
      set_next tail (Some new_vw);;
      modify (λ s, s <| vh_list_tail := Some new_vw |> <| vh_list_size := vh_list_size s + 1 |>).

Definition vh_get_next_pending : M values_handler (option loc) :=
  s ← get;
  if is_null (vh_list_head s) && is_null (vh_list_tail s) then mret None
  else
    first_vw ← lift_opt (vh_list_head s);
    w ← deref first_vw;
    modify (λ s, s <| vh_list_head := vw_next w |>);;
    modify (λ s, if bool_decide (vh_list_tail s = Some first_vw)
                 then s <| vh_list_tail := None |> else s);;
    modify (λ s, s <| vh_list_size := vh_list_size s - 1 |>);;
    mret (Some first_vw).

Definition vh_push_back_value vw : M values_handler unit :=
  s ← get;
  set_next vw (vh_list_head s);;
  if is_null (vh_list_head s) && is_null (vh_list_tail s) then
    modify (λ s, s <| vh_list_head := Some vw |> <| vh_list_tail := Some vw |>
                   <| vh_list_size := 1 |>)
  else
    modify (λ s, s <| vh_list_head := Some vw |> <| vh_list_size := vh_list_size s + 1 |>).

Definition vh_notify_client (result : Z) vw : M values_handler unit :=
  w ← deref vw;
  modify (λ s, s <| notified := notified s ++ [(result, vw_value w)] |>).

(** The loop of [vh_shutdown]; one iteration per pending value. *)
Fixpoint vh_shutdown_fuel (fuel : nat) : M values_handler unit :=
  match fuel with
  | O => crash
  | S fuel =>
      vw ← vh_get_next_pending;
      match vw with
      | None => mret tt
      | Some vw => vh_notify_client (u32 (-1)) vw;; PAX_FREE vw;; vh_shutdown_fuel fuel
      end
  end.

Definition vh_shutdown : M values_handler unit :=
  s ← get; vh_shutdown_fuel (S (Z.to_nat (vh_list_size s))).

(** A submitted value is in the receive buffer of the leader. *)
Definition vh_handle_newmsg (buf : list byte) (msg_size : Z) : M values_handler unit :=
  valid ← lift_opt (validate_paxos_msg buf msg_size);
  if negb valid then mret tt
  else
    type ← lift_opt (rd 4 8 buf);
    if type =? 32 then
      msg ← lift_opt (dec_msg buf);
      match msg with
      | Submit value => vh_enqueue_value value
      | _ => mret tt
      end
    else mret tt.

Definition pax_submit_sharedmem (value : list byte) : M values_handler unit :=
  vh_enqueue_value value.

#[global] Arguments deref : simpl never.
#[global] Arguments set_next : simpl never.
#[global] Arguments PAX_FREE : simpl never.
#[global] Arguments vh_wrap_value : simpl never.

(** ** Representation

    The pointers of [l], with the values they hold, form the linked list from
    [p] to NULL. *)
Fixpoint linked (h : gmap loc vh_value_wrapper) (p : option loc) (l : list (loc * list byte)) : Prop :=
  match l with
  | [] => p = None
  | (vw, v) :: l => p = Some vw ∧ ∃ next, h !! vw = Some (mk_wrapper v next) ∧ linked h next l
  end.

Record vh_rep (l : list (loc * list byte)) s : Prop := {
  vr_linked : linked (heap s) (vh_list_head s) l;
  vr_nodup : NoDup l.*1;
  vr_tail : vh_list_tail s = list.last (l.*1);
  vr_size : vh_list_size s = Z.of_nat (length l)
}.

Implicit Types (l : list (loc * list byte)).

Lemma linked_alloc h p l vw v : linked h p l → (vw, v) ∈ l → ∃ next, h !! vw = Some (mk_wrapper v next).
Proof.
  revert p. induction l as [|[q x] l IH]; intros p; [by intros _ ?%not_elem_of_nil|].
  intros (_ & next & Hq & Hl) [[= -> ->]|Hin]%elem_of_cons; eauto.
Qed.

Lemma linked_dom h p l vw : linked h p l → vw ∈ l.*1 → is_Some (h !! vw).
Proof.
  intros Hl ([? v] & -> & Hin)%list_elem_of_fmap.
  destruct (linked_alloc _ _ _ _ _ Hl Hin) as [next Hn]. by eexists.
Qed.

(** A heap that agrees on the wrappers of the list has the list. *)
Lemma linked_frame h h' p l :
  (∀ q, q ∈ l.*1 → h' !! q = h !! q) → linked h p l → linked h' p l.
Proof.
  revert p. induction l as [|[q x] l IH]; intros p Heq; [done|].
  intros (-> & next & Hq & Hl). split; [done|]. exists next.
  rewrite Heq by (cbn; left). split; [done|].
  apply IH; [|done]. intros r Hr. apply Heq. cbn. by right.
Qed.

Lemma last_pointer x y l : list.last ((x :: y :: l).*1) = list.last ((y :: l).*1).
Proof. done. Qed.

Lemma last_snoc_pointer l q v : list.last ((l ++ [(q, v)]).*1) = Some q.
Proof. rewrite fmap_app. apply list.last_snoc. Qed.

Lemma nodup_snoc l q v : NoDup l.*1 → q ∉ l.*1 → NoDup (l ++ [(q, v)]).*1.
Proof.
  intros Hnd Hq. rewrite fmap_app. apply list.NoDup_app. split; [done|].
  split; [|apply list.NoDup_singleton]. by intros x Hx ->%list_elem_of_singleton.
Qed.

(** Setting the [next] of the last wrapper appends. *)
Lemma linked_snoc h p l q v t w :
  linked h p l → NoDup l.*1 → list.last (l.*1) = Some t → q ∉ l.*1 →
  h !! t = Some w → h !! q = Some (mk_wrapper v None) →
  linked (<[t := w <| vw_next := Some q |>]> h) p (l ++ [(q, v)]).
Proof.
  revert p. induction l as [|[r x] l IH]; intros p; [done|].
  intros (-> & next & Hr & Hl) [Hnr Hnd]%list.NoDup_cons Hlast [Hqr Hq]%not_elem_of_cons Ht Hhq.
  cbn. split; [done|]. destruct l as [|[r' x'] l].
  - cbn in *. injection Hlast as <-. rewrite Hr in Ht. injection Ht as <-.
    exists (Some q). rewrite lookup_insert_eq. cbn. split; [done|].
    split; [done|]. exists None. rewrite lookup_insert_ne by done. done.
  - exists next. assert (t ∈ (((r', x') :: l).*1)) as Htl.
    { apply last_Some_elem_of. by rewrite last_pointer in Hlast. }
    rewrite lookup_insert_ne by (by intros ->). split; [done|].
    apply IH; try done.
Qed.

Lemma vh_empty l s : vh_rep l s →
  is_null (vh_list_head s) && is_null (vh_list_tail s) = match l with [] => true | _ => false end.
Proof.
  intros [Hl _ Ht _]. destruct l as [|[q v] l]; cbn in *.
  - by rewrite Hl, Ht.
  - by destruct Hl as [-> _].
Qed.

(** ** What each operation does *)

Lemma wp_deref vw w (Q : vh_value_wrapper → values_handler → Prop) s :
  heap s !! vw = Some w → Q w s → wp (deref vw) Q s.
Proof. intros Hw HQ. unfold deref. wp_steps. by eapply wp_lift_opt. Qed.

Lemma wp_set_next vw next w (Q : unit → values_handler → Prop) s :
  heap s !! vw = Some w →
  Q tt (s <| heap ::= <[vw := w <| vw_next := next |>]> |>) →
  wp (set_next vw next) Q s.
Proof. intros Hw HQ. unfold set_next. wp_steps. eapply wp_deref; [done|]. by wp_steps. Qed.

Lemma wp_PAX_FREE vw (Q : unit → values_handler → Prop) s :
  is_Some (heap s !! vw) → Q tt (s <| heap ::= delete vw |>) → wp (PAX_FREE vw) Q s.
Proof. intros [w Hw] HQ. unfold PAX_FREE. wp_steps. eapply wp_deref; [done|]. by wp_steps. Qed.

(** The wrapper of a value is new. *)
Lemma wp_vh_wrap_value value (Q : loc → values_handler → Prop) s :
  (∀ vw, heap s !! vw = None → Q vw (s <| heap ::= <[vw := mk_wrapper value None]> |>)) →
  wp (vh_wrap_value value) Q s.
Proof.
  intros HQ. unfold vh_wrap_value. wp_steps. apply HQ. apply not_elem_of_dom, is_fresh.
Qed.

(** A new value goes to the end of the list, or is counted as dropped. *)
Lemma vh_enqueue_value_spec value l s :
  vh_rep l s →
  wp (vh_enqueue_value value) (λ _ s',
    notified s' = notified s ∧
    if LEADER_MAX_QUEUE_LENGTH <? Z.of_nat (length l)
    then s' = s <| dropped_count := u64 (dropped_count s + 1) |>
    else ∃ vw, heap s !! vw = None ∧ vh_rep (l ++ [(vw, value)]) s' ∧
         dropped_count s' = dropped_count s ∧
         ∀ q, q ∉ l.*1 → q ≠ vw → heap s' !! q = heap s !! q) s.
Proof.
  intros Hrep. pose proof (vh_empty l s Hrep) as He. destruct Hrep as [Hl Hnd Ht Hsz].
  unfold vh_enqueue_value. wp_steps. rewrite Hsz.
  destruct (LEADER_MAX_QUEUE_LENGTH <? Z.of_nat (length l)); [by wp_steps|].
  wp_steps. apply wp_vh_wrap_value. intros vw Hvw.
  assert (vw ∉ l.*1) as Hin.
  { intros [w Hw]%(linked_dom _ _ _ _ Hl). congruence. }
  rewrite He. destruct l as [|[q v] l].
  - wp_steps. cbn. split; [done|]. exists vw. split; [done|]. split; [|split; [done|]].
    + split; cbn; [|apply list.NoDup_singleton|done|done].
      split; [done|]. exists None. by rewrite lookup_insert_eq.
    + intros q _ Hq. by rewrite lookup_insert_ne.
  - rewrite Ht. destruct (list.last (((q, v) :: l).*1)) as [t|] eqn:Elast; [|by apply last_None in Elast].
    pose proof (last_Some_elem_of _ _ Elast) as Htin.
    destruct (linked_dom _ _ _ _ Hl Htin) as [w Hw].
    assert (vw ≠ t) as Hne by congruence.
    wp_steps. eapply wp_lift_opt; [done|]. wp_steps.
    eapply wp_set_next; [cbn; by rewrite lookup_insert_ne|]. wp_steps. cbn. split; [done|].
    exists vw. split; [done|]. split; [|split; [done|]].
    + split.
      * apply (linked_snoc _ _ ((q, v) :: l) vw value t w); [|done|done|done| |].
        -- eapply linked_frame; [|done]. intros r Hr. rewrite lookup_insert_ne; [done|]. by intros ->.
        -- by rewrite lookup_insert_ne.
        -- by rewrite lookup_insert_eq.
      * by apply (nodup_snoc ((q, v) :: l)).
      * symmetry. exact (last_snoc_pointer ((q, v) :: l) vw value).
      * cbn in *. rewrite Hsz, length_app. cbn. lia.
    + intros r Hr Hrv. rewrite !lookup_insert_ne; [done|done|]. by intros ->.
Qed.

(** The oldest value of the list; it stays allocated. *)
Lemma vh_get_next_pending_spec l s :
  vh_rep l s →
  wp vh_get_next_pending (λ r s',
    heap s' = heap s ∧ notified s' = notified s ∧ dropped_count s' = dropped_count s ∧
    match l with
    | [] => r = None ∧ s' = s
    | (vw, v) :: l => r = Some vw ∧ vh_rep l s'
    end) s.
Proof.
  intros Hrep. pose proof (vh_empty l s Hrep) as He. destruct Hrep as [Hl Hnd Ht Hsz].
  unfold vh_get_next_pending. wp_steps. rewrite He.
  destruct l as [|[q v] l]; [by wp_steps|].
  destruct Hl as (Hh & next & Hq & Hl). rewrite Hh.
  wp_steps. eapply wp_lift_opt; [done|]. wp_steps. eapply wp_deref; [done|]. wp_steps.
  cbn. cbn in Hnd. apply list.NoDup_cons in Hnd as [Hnq Hnd].
  rewrite Ht. destruct l as [|[q' v'] l].
  - cbn. rewrite bool_decide_eq_true_2 by done. cbn. repeat split; try done.
    cbn in *. by rewrite Hsz.
  - rewrite last_pointer.
    rewrite bool_decide_eq_false_2.
    + cbn in *. rewrite Hsz. split; [done|]. split; [done|]. split; [done|]. split; [done|]. split; cbn; try done; lia.
    + intros [= Hlast]. destruct Hnq. by apply last_Some_elem_of in Hlast.
Qed.

(** A value that could not be delivered goes back to the front. *)
Lemma vh_push_back_value_spec l vw v next s :
  vh_rep l s → heap s !! vw = Some (mk_wrapper v next) → vw ∉ l.*1 →
  wp (vh_push_back_value vw) (λ _ s',
    notified s' = notified s ∧ dropped_count s' = dropped_count s ∧
    vh_rep ((vw, v) :: l) s' ∧ ∀ q, q ≠ vw → heap s' !! q = heap s !! q) s.
Proof.
  intros Hrep Hvw Hin. pose proof (vh_empty l s Hrep) as He. destruct Hrep as [Hl Hnd Ht Hsz].
  unfold vh_push_back_value. wp_steps. eapply wp_set_next; [done|].
  cbn. rewrite He.
  assert (linked (<[vw:=mk_wrapper v (vh_list_head s)]> (heap s)) (Some vw) ((vw, v) :: l)) as Hl'.
  { split; [done|]. exists (vh_list_head s). rewrite lookup_insert_eq. split; [done|].
    eapply linked_frame; [|done]. intros r Hr. rewrite lookup_insert_ne; [done|]. by intros ->. }
  assert (∀ q, q ≠ vw → <[vw:=mk_wrapper v (vh_list_head s)]> (heap s) !! q = heap s !! q) as Hfr.
  { intros q Hq. by rewrite lookup_insert_ne. }
  destruct l as [|[q' v'] l]; wp_steps;
    (split; [done|]; split; [done|]; split; [split; [exact Hl'|..]; cbn|exact Hfr]); try done.
  - apply list.NoDup_singleton.
  - by apply list.NoDup_cons.
  - cbn in Hsz. lia.
Qed.

Lemma vh_init_rep s : vh_rep [] (vh_init s).
Proof. split; cbn; [done|apply base.NoDup_nil_2|done|done]. Qed.

(** ** A bounded deque

    What the leader relies on: the values come out in the order they were
    submitted, a value pushed back comes out first, and a value submitted when
    more than [LEADER_MAX_QUEUE_LENGTH] values wait is dropped and counted. *)

Inductive vh_op :=
  | OpEnqueue (value : list byte)
  | OpNextPending
  | OpPushBack (vw : loc).

Definition run_op (op : vh_op) : M values_handler (option loc) :=
  match op with
  | OpEnqueue value => vh_enqueue_value value;; mret None
  | OpNextPending => vh_get_next_pending
  | OpPushBack vw => vh_push_back_value vw;; mret None
  end.

(** The values that wait and the count of the dropped ones; the value that
    [vh_push_back_value] is given is the one its pointer holds. *)
Definition spec_op (op : vh_op) (pushed : list byte) (st : list (list byte) * Z) :
    option (list byte) * (list (list byte) * Z) :=
  let '(q, dropped) := st in
  match op with
  | OpEnqueue value =>
      if LEADER_MAX_QUEUE_LENGTH <? Z.of_nat (length q) then (None, (q, u64 (dropped + 1)))
      else (None, (q ++ [value], dropped))
  | OpNextPending =>
      match q with
      | [] => (None, (q, dropped))
      | value :: q => (Some value, (q, dropped))
      end
  | OpPushBack _ => (None, (pushed :: q, dropped))
  end.

(** The wrapper that is pushed back is allocated and is not on the list. *)
Definition op_ok (op : vh_op) (pushed : list byte) l s : Prop :=
  match op with
  | OpPushBack vw => vw_value <$> heap s !! vw = Some pushed ∧ vw ∉ l.*1
  | _ => True
  end.


Definition vh_start : values_handler := mk_vh ∅ 0 None None 0 [].

Lemma vh_start_rep : vh_rep [] vh_start.
Proof. split; cbn; [done|apply base.NoDup_nil_2|done|done]. Qed.


(** ** Shutdown *)

Lemma vh_notify_client_spec result vw w (Q : unit → values_handler → Prop) s :
  heap s !! vw = Some w → Q tt (s <| notified := notified s ++ [(result, vw_value w)] |>) →
  wp (vh_notify_client result vw) Q s.
Proof. intros Hw HQ. unfold vh_notify_client. wp_steps. eapply wp_deref; [done|]. by wp_steps. Qed.

Lemma vh_shutdown_fuel_spec fuel l s :
  vh_rep l s → (length l < fuel)%nat →
  wp (vh_shutdown_fuel fuel) (λ _ s',
    vh_rep [] s' ∧ notified s' = notified s ++ ((λ v, (u32 (-1), v)) <$> l.*2) ∧
    ∀ q, heap s' !! q = if decide (q ∈ l.*1) then None else heap s !! q) s.
Proof.
  revert l s. induction fuel as [|fuel IH]; intros l s Hrep Hlen; [lia|].
  cbn [vh_shutdown_fuel]. apply wp_bind.
  eapply wp_mono; [by apply vh_get_next_pending_spec|].
  intros r s' (Hh & Hn & _ & H). destruct l as [|[vw v] l].
  - destruct H as [-> ->]. wp_steps. split; [done|]. rewrite app_nil_r. split; [done|].
    intros q. by rewrite decide_False by apply not_elem_of_nil.
  - destruct H as [-> [Hl' Hnd' Ht' Hsz']].
    pose proof (vr_nodup _ _ Hrep) as Hnd. cbn in Hnd. apply list.NoDup_cons in Hnd as [Hin _].
    destruct (linked_alloc _ _ _ vw v (vr_linked _ _ Hrep)) as [next Hvw]; [left|].
    wp_steps. eapply vh_notify_client_spec; [by rewrite Hh|].
    wp_steps. apply wp_PAX_FREE; [cbn; rewrite Hh; eauto|].
    eapply wp_mono; [apply (IH l)|].
    + split; cbn; try done. eapply linked_frame; [|done].
      intros q Hq. rewrite lookup_delete_ne; [done|]. by intros ->.
    + cbn in Hlen. lia.
    + intros [] s'' (H1 & H2 & H3). split; [done|]. cbn in H2, H3. split.
      * rewrite H2, Hn. cbn. by rewrite <-app_assoc.
      * intros q. rewrite H3, Hh. cbn. destruct (decide (q = vw)) as [->|Hne].
        -- rewrite (decide_False (P := vw ∈ l.*1)) by done.
           rewrite decide_True by left. by rewrite lookup_delete_eq.
        -- rewrite lookup_delete_ne by done.
           destruct (decide (q ∈ l.*1)); [rewrite decide_True by (by right)|]; [done|].
           by rewrite decide_False by (by rewrite not_elem_of_cons).
Qed.

(** C30. [vh_shutdown] ends: every value that waits is reported to its client
    as failed, once and in order, its wrapper is freed exactly once, and the
    wrappers that are not on the list are untouched. *)
Theorem vh_shutdown_frees_all l s :
  vh_rep l s →
  wp vh_shutdown (λ _ s',
    vh_rep [] s' ∧ notified s' = notified s ++ ((λ v, (u32 (-1), v)) <$> l.*2) ∧
    ∀ q, heap s' !! q = if decide (q ∈ l.*1) then None else heap s !! q) s.
Proof.
  intros Hrep. unfold vh_shutdown. wp_steps. apply vh_shutdown_fuel_spec; [done|].
  rewrite (vr_size _ _ Hrep). lia.
Qed.

Definition vh_one : values_handler := mk_vh {[1%positive := mk_wrapper ["a"%byte] None]} 1 (Some 1%positive) (Some 1%positive) 0 [].

Lemma vh_one_rep : vh_rep [(1%positive, ["a"%byte])] vh_one.
Proof.
  split; cbn; [|apply list.NoDup_singleton|done|done].
  split; [done|]. exists None. by rewrite lookup_singleton_eq.
Qed.

Lemma vh_shutdown_frees_all_witness :
  wp vh_shutdown (λ _ s',
    vh_rep [] s' ∧ notified s' = [] ++ [(u32 (-1), ["a"%byte])] ∧
    ∀ q, heap s' !! q = if decide (q ∈ [1%positive]) then None else heap vh_one !! q) vh_one.
Proof. exact (vh_shutdown_frees_all _ _ vh_one_rep). Defined.
