(* ===== verification/Leader.v ===== *)
(** * The proposer and its leader: state and phases

    [paxos2/lib/proposer.c] (the state and [pro_clear_instance_info]) and
    [paxos2/lib/proposer_leader.c], which proposer.c includes: opening and
    restarting phase 1, executing and restarting phase 2, delivery, becoming
    and ceasing to be the leader.

    The state of the proposer contains the list of pending values with the heap
    of the value wrappers ([ValuesHandler]), the learner the proposer runs on
    ([Learner]), and its two send buffers.  A pointer to an instance is the
    index of its slot.  [time_of n] is what the [n]-th call of [gettimeofday]
    returns; [armed] says which timers are pending. *)
From Stdlib Require Import Init.Byte.
From S2P Require Import Prelude Bytes PaxosWire SendBuffer Learner ValuesHandler.

(** ** Configuration (paxos_config.h) *)

Definition PROPOSER_ARRAY_SIZE : Z := 2048.
Definition PROPOSER_PREEXEC_WIN_SIZE : Z := 300.
Definition PROPOSER_P2_CONCURRENCY : Z := 3.
Definition P1_TIMEOUT_INTERVAL : Z := 30000.
Definition P2_TIMEOUT_INTERVAL : Z := 35000.

(** ** State *)

Inductive i_status := empty | p1_pending | p1_ready | p2_pending | p2_completed.

#[export] Instance i_status_eq_dec : EqDecision i_status.
Proof. solve_decision. Defined.

(** [struct timeval] *)
Record timeval := mk_timeval { tv_sec : Z; tv_usec : Z }.

Record p_inst_info := mk_inst {
  ii_iid : Z;
  ii_status : i_status;
  my_ballot : Z;
  promises_bitvector : Z;
  promises_count : Z;
  p1_value : option loc;
  p1_value_ballot : Z;
  p2_value : option loc;
  ii_timeout : timeval
}.

Record phase1_info := mk_phase1 { pending_count : Z; ready_count : Z; highest_open : Z }.
Record phase2_info := mk_phase2 { next_unused_iid : Z; open_count : Z }.
Record leader_event_counters := mk_counters { p1_timeout : Z; p2_timeout : Z; p2_waits_p1 : Z }.

(** The libevent timers. *)
Inductive timer := p1_check_event | p2_check_event | print_events_event | fe_ping_event.

#[export] Instance timer_eq_dec : EqDecision timer.
Proof. solve_decision. Defined.

(** The static variables of proposer.c and proposer_leader.c, and the parts
    they use. *)
Record proposer := mk_proposer {
  current_iid : Z;
  this_proposer_id : Z;
  current_leader_id : Z;
  alive_ping_seqno : Z;
  to_oracle : udp_send_buffer;
  to_acceptors : udp_send_buffer;
  proposer_state : list p_inst_info;
  p1_info : phase1_info;
  p2_info : phase2_info;
  lead_counters : leader_event_counters;
  vh : values_handler;
  lea : Learner.learner;
  armed : timer → bool;
  time_of : nat → timeval;
  ticks : nat
}.

#[export] Instance set_ii_iid : Setter ii_iid := λ g r,
  mk_inst (g (ii_iid r)) (ii_status r) (my_ballot r) (promises_bitvector r) (promises_count r)
    (p1_value r) (p1_value_ballot r) (p2_value r) (ii_timeout r).
#[global] Arguments set_ii_iid _ _ /.
#[export] Instance set_ii_status : Setter ii_status := λ g r,
  mk_inst (ii_iid r) (g (ii_status r)) (my_ballot r) (promises_bitvector r) (promises_count r)
    (p1_value r) (p1_value_ballot r) (p2_value r) (ii_timeout r).
#[global] Arguments set_ii_status _ _ /.
#[export] Instance set_my_ballot : Setter my_ballot := λ g r,
  mk_inst (ii_iid r) (ii_status r) (g (my_ballot r)) (promises_bitvector r) (promises_count r)
    (p1_value r) (p1_value_ballot r) (p2_value r) (ii_timeout r).
#[global] Arguments set_my_ballot _ _ /.
#[export] Instance set_promises_bitvector : Setter promises_bitvector := λ g r,
  mk_inst (ii_iid r) (ii_status r) (my_ballot r) (g (promises_bitvector r)) (promises_count r)
    (p1_value r) (p1_value_ballot r) (p2_value r) (ii_timeout r).
#[global] Arguments set_promises_bitvector _ _ /.
#[export] Instance set_promises_count : Setter promises_count := λ g r,
  mk_inst (ii_iid r) (ii_status r) (my_ballot r) (promises_bitvector r) (g (promises_count r))
    (p1_value r) (p1_value_ballot r) (p2_value r) (ii_timeout r).
#[global] Arguments set_promises_count _ _ /.
#[export] Instance set_p1_value : Setter p1_value := λ g r,
  mk_inst (ii_iid r) (ii_status r) (my_ballot r) (promises_bitvector r) (promises_count r) (g
    (p1_value r)) (p1_value_ballot r) (p2_value r) (ii_timeout r).
#[global] Arguments set_p1_value _ _ /.
#[export] Instance set_p1_value_ballot : Setter p1_value_ballot := λ g r,
  mk_inst (ii_iid r) (ii_status r) (my_ballot r) (promises_bitvector r) (promises_count r)
    (p1_value r) (g (p1_value_ballot r)) (p2_value r) (ii_timeout r).
#[global] Arguments set_p1_value_ballot _ _ /.
#[export] Instance set_p2_value : Setter p2_value := λ g r,
  mk_inst (ii_iid r) (ii_status r) (my_ballot r) (promises_bitvector r) (promises_count r)
    (p1_value r) (p1_value_ballot r) (g (p2_value r)) (ii_timeout r).
#[global] Arguments set_p2_value _ _ /.
#[export] Instance set_ii_timeout : Setter ii_timeout := λ g r,
  mk_inst (ii_iid r) (ii_status r) (my_ballot r) (promises_bitvector r) (promises_count r)
    (p1_value r) (p1_value_ballot r) (p2_value r) (g (ii_timeout r)).
#[global] Arguments set_ii_timeout _ _ /.
#[export] Instance set_pending_count : Setter pending_count := λ g r,
  mk_phase1 (g (pending_count r)) (ready_count r) (highest_open r).
#[global] Arguments set_pending_count _ _ /.
#[export] Instance set_ready_count : Setter ready_count := λ g r,
  mk_phase1 (pending_count r) (g (ready_count r)) (highest_open r).
#[global] Arguments set_ready_count _ _ /.
#[export] Instance set_highest_open : Setter highest_open := λ g r,
  mk_phase1 (pending_count r) (ready_count r) (g (highest_open r)).
#[global] Arguments set_highest_open _ _ /.
#[export] Instance set_next_unused_iid : Setter next_unused_iid := λ g r,
  mk_phase2 (g (next_unused_iid r)) (open_count r).
#[global] Arguments set_next_unused_iid _ _ /.
#[export] Instance set_open_count : Setter open_count := λ g r,
  mk_phase2 (next_unused_iid r) (g (open_count r)).
#[global] Arguments set_open_count _ _ /.
#[export] Instance set_p1_timeout : Setter p1_timeout := λ g r,
  mk_counters (g (p1_timeout r)) (p2_timeout r) (p2_waits_p1 r).
#[global] Arguments set_p1_timeout _ _ /.
#[export] Instance set_p2_timeout : Setter p2_timeout := λ g r,
  mk_counters (p1_timeout r) (g (p2_timeout r)) (p2_waits_p1 r).
#[global] Arguments set_p2_timeout _ _ /.
#[export] Instance set_p2_waits_p1 : Setter p2_waits_p1 := λ g r,
  mk_counters (p1_timeout r) (p2_timeout r) (g (p2_waits_p1 r)).
#[global] Arguments set_p2_waits_p1 _ _ /.
#[export] Instance set_current_iid : Setter current_iid := λ g r,
  mk_proposer (g (current_iid r)) (this_proposer_id r) (current_leader_id r) (alive_ping_seqno
    r) (to_oracle r) (to_acceptors r) (proposer_state r) (p1_info r) (p2_info r) (lead_counters
    r) (vh r) (lea r) (armed r) (time_of r) (ticks r).
#[global] Arguments set_current_iid _ _ /.
#[export] Instance set_this_proposer_id : Setter this_proposer_id := λ g r,
  mk_proposer (current_iid r) (g (this_proposer_id r)) (current_leader_id r) (alive_ping_seqno
    r) (to_oracle r) (to_acceptors r) (proposer_state r) (p1_info r) (p2_info r) (lead_counters
    r) (vh r) (lea r) (armed r) (time_of r) (ticks r).
#[global] Arguments set_this_proposer_id _ _ /.
#[export] Instance set_current_leader_id : Setter current_leader_id := λ g r,
  mk_proposer (current_iid r) (this_proposer_id r) (g (current_leader_id r)) (alive_ping_seqno
    r) (to_oracle r) (to_acceptors r) (proposer_state r) (p1_info r) (p2_info r) (lead_counters
    r) (vh r) (lea r) (armed r) (time_of r) (ticks r).
#[global] Arguments set_current_leader_id _ _ /.
#[export] Instance set_alive_ping_seqno : Setter alive_ping_seqno := λ g r,
  mk_proposer (current_iid r) (this_proposer_id r) (current_leader_id r) (g (alive_ping_seqno
    r)) (to_oracle r) (to_acceptors r) (proposer_state r) (p1_info r) (p2_info r)
    (lead_counters r) (vh r) (lea r) (armed r) (time_of r) (ticks r).
#[global] Arguments set_alive_ping_seqno _ _ /.
#[export] Instance set_to_oracle : Setter to_oracle := λ g r,
  mk_proposer (current_iid r) (this_proposer_id r) (current_leader_id r) (alive_ping_seqno r)
    (g (to_oracle r)) (to_acceptors r) (proposer_state r) (p1_info r) (p2_info r)
    (lead_counters r) (vh r) (lea r) (armed r) (time_of r) (ticks r).
#[global] Arguments set_to_oracle _ _ /.
#[export] Instance set_to_acceptors : Setter to_acceptors := λ g r,
  mk_proposer (current_iid r) (this_proposer_id r) (current_leader_id r) (alive_ping_seqno r)
    (to_oracle r) (g (to_acceptors r)) (proposer_state r) (p1_info r) (p2_info r)
    (lead_counters r) (vh r) (lea r) (armed r) (time_of r) (ticks r).
#[global] Arguments set_to_acceptors _ _ /.
#[export] Instance set_proposer_state : Setter proposer_state := λ g r,
  mk_proposer (current_iid r) (this_proposer_id r) (current_leader_id r) (alive_ping_seqno r)
    (to_oracle r) (to_acceptors r) (g (proposer_state r)) (p1_info r) (p2_info r)
    (lead_counters r) (vh r) (lea r) (armed r) (time_of r) (ticks r).
#[global] Arguments set_proposer_state _ _ /.
#[export] Instance set_p1_info : Setter p1_info := λ g r,
  mk_proposer (current_iid r) (this_proposer_id r) (current_leader_id r) (alive_ping_seqno r)
    (to_oracle r) (to_acceptors r) (proposer_state r) (g (p1_info r)) (p2_info r)
    (lead_counters r) (vh r) (lea r) (armed r) (time_of r) (ticks r).
#[global] Arguments set_p1_info _ _ /.
#[export] Instance set_p2_info : Setter p2_info := λ g r,
  mk_proposer (current_iid r) (this_proposer_id r) (current_leader_id r) (alive_ping_seqno r)
    (to_oracle r) (to_acceptors r) (proposer_state r) (p1_info r) (g (p2_info r))
    (lead_counters r) (vh r) (lea r) (armed r) (time_of r) (ticks r).
#[global] Arguments set_p2_info _ _ /.
#[export] Instance set_lead_counters : Setter lead_counters := λ g r,
  mk_proposer (current_iid r) (this_proposer_id r) (current_leader_id r) (alive_ping_seqno r)
    (to_oracle r) (to_acceptors r) (proposer_state r) (p1_info r) (p2_info r) (g (lead_counters
    r)) (vh r) (lea r) (armed r) (time_of r) (ticks r).
#[global] Arguments set_lead_counters _ _ /.
#[export] Instance set_vh : Setter vh := λ g r,
  mk_proposer (current_iid r) (this_proposer_id r) (current_leader_id r) (alive_ping_seqno r)
    (to_oracle r) (to_acceptors r) (proposer_state r) (p1_info r) (p2_info r) (lead_counters r)
    (g (vh r)) (lea r) (armed r) (time_of r) (ticks r).
#[global] Arguments set_vh _ _ /.
#[export] Instance set_lea : Setter lea := λ g r,
  mk_proposer (current_iid r) (this_proposer_id r) (current_leader_id r) (alive_ping_seqno r)
    (to_oracle r) (to_acceptors r) (proposer_state r) (p1_info r) (p2_info r) (lead_counters r)
    (vh r) (g (lea r)) (armed r) (time_of r) (ticks r).
#[global] Arguments set_lea _ _ /.
#[export] Instance set_armed : Setter armed := λ g r,
  mk_proposer (current_iid r) (this_proposer_id r) (current_leader_id r) (alive_ping_seqno r)
    (to_oracle r) (to_acceptors r) (proposer_state r) (p1_info r) (p2_info r) (lead_counters r)
    (vh r) (lea r) (g (armed r)) (time_of r) (ticks r).
#[global] Arguments set_armed _ _ /.
#[export] Instance set_ticks : Setter ticks := λ g r,
  mk_proposer (current_iid r) (this_proposer_id r) (current_leader_id r) (alive_ping_seqno r)
    (to_oracle r) (to_acceptors r) (proposer_state r) (p1_info r) (p2_info r) (lead_counters r)
    (vh r) (lea r) (armed r) (time_of r) (g (ticks r)).
#[global] Arguments set_ticks _ _ /.

Implicit Types (ii : p_inst_info) (s : proposer) (k : Z).

Abbreviation P := (M proposer).

(** ** The parts of the state *)

Definition on_vh {A} (m : M values_handler A) : P A := zoom vh (λ v s, s <| vh := v |>) m.
Definition on_acceptors {A} (m : M udp_send_buffer A) : P A :=
  zoom to_acceptors (λ sb s, s <| to_acceptors := sb |>) m.
Definition on_oracle {A} (m : M udp_send_buffer A) : P A :=
  zoom to_oracle (λ sb s, s <| to_oracle := sb |>) m.
Definition on_learner {A} (m : M Learner.learner A) : P A := zoom lea (λ l s, s <| lea := l |>) m.

Definition gettimeofday : P timeval :=
  s ← get; modify (λ s, s <| ticks := S (ticks s) |>);; mret (time_of s (ticks s)).

Definition event_add (t : timer) : P unit :=
  modify (λ s, s <| armed ::= λ f t', if decide (t' = t) then true else f t' |>).
Definition evtimer_del (t : timer) : P unit :=
  modify (λ s, s <| armed ::= λ f t', if decide (t' = t) then false else f t' |>).

Definition LEADER_IS_ME s : bool := this_proposer_id s =? current_leader_id s.
Definition FIRST_BALLOT s : Z := u32 (MAX_N_OF_PROPOSERS + this_proposer_id s).
Definition NEXT_BALLOT (b : Z) : Z := u32 (b + MAX_N_OF_PROPOSERS).

(** [GET_PRO_INSTANCE]: the slot of an instance. *)
Definition pro_index (iid : Z) : Z := Z.land iid (PROPOSER_ARRAY_SIZE - 1).

(** [*ii], and an assignment through [ii]. *)
Definition get_ii k : P p_inst_info := s ← get; lift_opt (arr_get (proposer_state s) k).
Definition upd_ii k (f : p_inst_info → p_inst_info) : P unit :=
  ii ← get_ii k; modify (λ s, s <| proposer_state ::= λ l, arr_set l k (f ii) |>).

Definition free_opt (p : option loc) : P unit :=
  match p with
  | Some vw => on_vh (PAX_FREE vw)
  | None => mret tt
  end.

Definition pro_clear_instance_info k : P unit :=
  upd_ii k (λ ii, ii <| ii_iid := 0 |> <| ii_status := empty |> <| my_ballot := 0 |>
                     <| p1_value_ballot := 0 |> <| promises_bitvector := 0 |>
                     <| promises_count := 0 |>);;
  ii ← get_ii k;
  free_opt (p1_value ii);;
  upd_ii k (λ ii, ii <| p1_value := None |>);;
  free_opt (p2_value ii);;
  upd_ii k (λ ii, ii <| p2_value := None |>).

(** ** Timing routines *)

Definition a_second : Z := 1000000.

(** The deadline [leader_set_expiration] computes from the current time. *)
Definition deadline_from (now : timeval) (usec_interval : Z) : timeval :=
  let usec_sum := u32 (tv_usec now + usec_interval mod a_second) in
  mk_timeval (tv_sec now + usec_interval / a_second + (if a_second <? usec_sum then 1 else 0))
    (usec_sum mod a_second).

Definition leader_set_expiration k (usec_interval : Z) : P unit :=
  current_time ← gettimeofday;
  upd_ii k (λ ii, ii <| ii_timeout := deadline_from current_time usec_interval |>).

Definition leader_is_expired (deadline time_now : timeval) : bool :=
  (tv_sec deadline <? tv_sec time_now)
  || ((tv_sec deadline =? tv_sec time_now) && (tv_usec deadline <? tv_usec time_now)).

(** ** Event counters *)

Definition clear_event_counters : P unit := modify (λ s, s <| lead_counters := mk_counters 0 0 0 |>).

(** The report is not modelled; the timer is set again. *)
Definition leader_print_event_counters : P unit :=
  _ ← on_vh vh_get_dropped_count;
  event_add print_events_event.

(** ** Phase 1 *)

(** The body of the loop of [leader_check_p1_pending]. *)
Definition check_p1_pending_body (time_now : timeval) (iid_iterator : Z) : P unit :=
  let k := pro_index iid_iterator in
  ii ← get_ii k;
  c_assert (ii_iid ii =? iid_iterator);;
  if bool_decide (ii_status ii = p1_pending) && leader_is_expired (ii_timeout ii) time_now then
    upd_ii k (λ ii, ii <| promises_bitvector := 0 |> <| promises_count := 0 |>
                       <| p1_value_ballot := 0 |>);;
    free_opt (p1_value ii);;
    upd_ii k (λ ii, ii <| p1_value := None |>);;
    upd_ii k (λ ii, ii <| my_ballot := NEXT_BALLOT (my_ballot ii) |>);;
    ii ← get_ii k;
    on_acceptors (sendbuf_add_prepare_req (ii_iid ii) (my_ballot ii));;
    leader_set_expiration k P1_TIMEOUT_INTERVAL;;
    modify (λ s, s <| lead_counters ::= λ c, c <| p1_timeout := u64 (p1_timeout c + 1) |> |>)
  else mret tt.

Definition leader_check_p1_pending : P unit :=
  s ← get;
  on_acceptors (sendbuf_clear prepare_reqs (this_proposer_id s));;
  time_now ← gettimeofday;
  for_le 32 (current_iid s) (highest_open (p1_info s)) (check_p1_pending_body time_now);;
  on_acceptors sendbuf_flush.

(** The body of the loop of [leader_open_instances_p1]. *)
Definition open_instances_p1_body (i : Z) : P unit :=
  s ← get;
  let curr_iid := u32 (i + highest_open (p1_info s)) in
  let k := pro_index curr_iid in
  ii ← get_ii k;
  c_assert (bool_decide (ii_status ii = empty));;
  upd_ii k (λ ii, ii <| ii_iid := curr_iid |> <| ii_status := p1_pending |>
                     <| my_ballot := FIRST_BALLOT s |>);;
  ii ← get_ii k;
  on_acceptors (sendbuf_add_prepare_req (ii_iid ii) (my_ballot ii));;
  leader_set_expiration k P1_TIMEOUT_INTERVAL.

Definition leader_open_instances_p1 : P unit :=
  s ← get;
  let active_count := signed32 (u32 (pending_count (p1_info s) + ready_count (p1_info s))) in
  c_assert (0 <=? active_count);;
  if PROPOSER_PREEXEC_WIN_SIZE / 2 <=? active_count then mret tt
  else
    on_acceptors (sendbuf_clear prepare_reqs (this_proposer_id s));;
    let to_open := u32 (PROPOSER_PREEXEC_WIN_SIZE - active_count) in
    c_assert (PROPOSER_PREEXEC_WIN_SIZE / 2 <=? to_open);;
    for_le 32 1 to_open open_instances_p1_body;;
    on_acceptors sendbuf_flush;;
    modify (λ s, s <| p1_info ::= λ p, p <| pending_count := u32 (pending_count p + to_open) |>
                                         <| highest_open := u32 (highest_open p + to_open) |> |>).

Definition leader_periodic_p1_check : P unit :=
  leader_check_p1_pending;;
  leader_open_instances_p1;;
  event_add p1_check_event.

(** ** Phase 2 *)

Definition leader_execute_p2 k : P unit :=
  ii ← get_ii k;
  (if is_null (p1_value ii) && is_null (p2_value ii) then
     vw ← on_vh vh_get_next_pending;
     upd_ii k (λ ii, ii <| p2_value := vw |>);;
     c_assert (negb (is_null vw))
   else if negb (is_null (p1_value ii)) then
     upd_ii k (λ ii, ii <| p2_value := p1_value ii |> <| p1_value := None |> <| p1_value_ballot := 0 |>)
   else if negb (is_null (p2_value ii)) then mret tt
   else
     vw1 ← lift_opt (p1_value ii); vw2 ← lift_opt (p2_value ii);
     same ← on_vh (vh_value_compare vw1 vw2);
     if same : bool then
       on_vh (PAX_FREE vw1);;
       upd_ii k (λ ii, ii <| p1_value := None |> <| p1_value_ballot := 0 |>)
     else
       on_vh (vh_push_back_value vw2);;
       upd_ii k (λ ii, ii <| p2_value := p1_value ii |> <| p1_value := None |> <| p1_value_ballot := 0 |>));;
  upd_ii k (λ ii, ii <| ii_status := p2_pending |>);;
  ii ← get_ii k;
  vw ← lift_opt (p2_value ii);
  w ← on_vh (deref vw);
  on_acceptors (sendbuf_add_accept_req (ii_iid ii) (my_ballot ii) (vw_value w));;
  leader_set_expiration k P2_TIMEOUT_INTERVAL.

(** [for(iid = ...)] with its local [count]. *)
Fixpoint open_p2_expired_loop (iids : list Z) (count : Z) : P Z :=
  match iids with
  | [] => mret count
  | iid :: iids =>
      let k := pro_index iid in
      ii ← get_ii k;
      c_assert (ii_iid ii =? iid);;
      if decide (ii_status ii = p1_ready) then
        c_assert (negb (is_null (p2_value ii)) || negb (is_null (p2_value ii)));;
        leader_execute_p2 k;;
        open_p2_expired_loop iids (u32 (count + 1))
      else open_p2_expired_loop iids count
  end.

Definition leader_open_instances_p2_expired : P unit :=
  s ← get;
  on_acceptors (sendbuf_clear accept_reqs (this_proposer_id s));;
  count ← open_p2_expired_loop
    (seqZ (current_iid s) (next_unused_iid (p2_info s) - current_iid s)) 0;
  modify (λ s, s <| p1_info ::= λ p, p <| ready_count := u32 (ready_count p - count) |> |>);;
  on_acceptors sendbuf_flush.

(** The loop of [leader_open_instances_p2_new]; at most
    [PROPOSER_P2_CONCURRENCY + 1] instances are opened. *)
Fixpoint open_p2_new_loop (fuel : nat) (count : Z) : P Z :=
  match fuel with
  | O => crash
  | S fuel =>
      s ← get;
      if u32 (count + open_count (p2_info s)) <=? PROPOSER_P2_CONCURRENCY then
        let k := pro_index (next_unused_iid (p2_info s)) in
        ii ← get_ii k;
        c_assert (is_null (p2_value ii));;
        if is_null (p1_value ii) && (vh_list_size (vh s) =? 0) then mret count
        else if bool_decide (ii_status ii ≠ p1_ready)
                || negb (ii_iid ii =? next_unused_iid (p2_info s)) then
          modify (λ s, s <| lead_counters ::= λ c, c <| p2_waits_p1 := u64 (p2_waits_p1 c + 1) |> |>);;
          mret count
        else
          leader_execute_p2 k;;
          modify (λ s, s <| p2_info ::= λ p, p <| next_unused_iid := u32 (next_unused_iid p + 1) |> |>);;
          open_p2_new_loop fuel (u32 (count + 1))
      else mret count
  end.

Definition leader_open_instances_p2_new : P unit :=
  s ← get;
  let treshold := PROPOSER_P2_CONCURRENCY / 3 * 2 in
  if treshold <? open_count (p2_info s) then mret tt
  else
    on_acceptors (sendbuf_clear accept_reqs (this_proposer_id s));;
    count ← open_p2_new_loop (Z.to_nat (PROPOSER_P2_CONCURRENCY + 2)) 0;
    modify (λ s, s <| p1_info ::= λ p, p <| ready_count := u32 (ready_count p - count) |> |>);;
    modify (λ s, s <| p2_info ::= λ p, p <| open_count := u32 (open_count p + count) |> |>);;
    on_acceptors sendbuf_flush.

(** The body of the loop of [leader_periodic_p2_check]. *)
Definition p2_check_body (now : timeval) (i : Z) : P unit :=
  let k := pro_index i in
  ii ← get_ii k;
  if decide (ii_status ii ≠ p2_pending) then mret tt
  else
    closed ← on_learner (Learner.learner_is_closed i);
    if closed : bool then
      upd_ii k (λ ii, ii <| ii_status := p2_completed |>);;
      modify (λ s, s <| p2_info ::= λ p, p <| open_count := u32 (open_count p - 1) |> |>)
    else if negb (leader_is_expired (ii_timeout ii) now) then mret tt
    else
      upd_ii k (λ ii, ii <| ii_status := p1_pending |>);;
      modify (λ s, s <| p1_info ::= λ p, p <| pending_count := u32 (pending_count p + 1) |> |>);;
      upd_ii k (λ ii, ii <| my_ballot := NEXT_BALLOT (my_ballot ii) |>);;
      ii ← get_ii k;
      on_acceptors (sendbuf_add_prepare_req (ii_iid ii) (my_ballot ii));;
      leader_set_expiration k P1_TIMEOUT_INTERVAL;;
      modify (λ s, s <| lead_counters ::= λ c, c <| p2_timeout := u64 (p2_timeout c + 1) |> |>).

Definition leader_periodic_p2_check : P unit :=
  s ← get;
  on_acceptors (sendbuf_clear prepare_reqs (this_proposer_id s));;
  now ← gettimeofday;
  for_lt (current_iid s) (next_unused_iid (p2_info s)) (p2_check_body now);;
  on_acceptors sendbuf_flush;;
  leader_open_instances_p2_new;;
  event_add p2_check_event.

(** ** Delivery *)

Definition leader_deliver (value : list byte) (iid : Z) : P unit :=
  let k := pro_index iid in
  ii ← get_ii k;
  if negb (ii_iid ii =? iid) then mret tt
  else
    (if decide (ii_status ii = p1_pending) then
       modify (λ s, s <| p1_info ::= λ p, p <| pending_count := u32 (pending_count p - 1) |> |>)
     else mret tt);;
    modify (λ s, if next_unused_iid (p2_info s) =? iid
                 then s <| p2_info ::= λ p, p <| next_unused_iid := u32 (next_unused_iid p + 1) |> |>
                 else s);;
    let opened_by_me :=
      (bool_decide (ii_status ii = p1_pending) && negb (is_null (p2_value ii)))
      || (bool_decide (ii_status ii = p1_ready) && negb (is_null (p2_value ii)))
      || bool_decide (ii_status ii = p2_pending) in
    (if opened_by_me then
       modify (λ s, s <| p2_info ::= λ p, p <| open_count := u32 (open_count p - 1) |> |>)
     else mret tt);;
    match p2_value ii with
    | Some vw =>
        w ← on_vh (deref vw);
        if decide (vw_value w = value) then on_vh (vh_notify_client 0 vw)
        else
          on_vh (vh_push_back_value vw);;
          upd_ii k (λ ii, ii <| p2_value := None |>)
    | None => mret tt
    end;;
    pro_clear_instance_info k;;
    leader_open_instances_p2_new.

(** ** Becoming and ceasing to be the leader *)

Definition leader_init : P Z :=
  clear_event_counters;;
  leader_print_event_counters;;
  on_vh (modify vh_init);;
  s ← get;
  modify (λ s, s <| p1_info := mk_phase1 0 0 (u32 (current_iid s - 1)) |>);;
  leader_periodic_p1_check;;
  modify (λ s, s <| p2_info := mk_phase2 (current_iid s) 0 |>);;
  event_add p2_check_event;;
  mret 0.

(** The body of the loop of [leader_shutdown]. *)
Definition shutdown_body (i : Z) : P unit :=
  let k := pro_index i in
  ii ← get_ii k;
  match p2_value ii with
  | Some vw =>
      if decide (ii_status ii ≠ p2_completed) then
        on_vh (vh_push_back_value vw);;
        upd_ii k (λ ii, ii <| p2_value := None |>)
      else mret tt
  | None => mret tt
  end;;
  pro_clear_instance_info k.

Definition leader_shutdown : P unit :=
  evtimer_del p1_check_event;;
  evtimer_del p2_check_event;;
  evtimer_del print_events_event;;
  s ← get;
  for_le 32 (current_iid s) (highest_open (p1_info s)) shutdown_body;;
  on_vh vh_shutdown.
