(* ===== verification/Proposer.v ===== *)
(** * The proposer: messages and initialization

    [paxos2/lib/proposer.c]: the promises of the acceptors, the announcements
    of the leader oracle, the pings, the delivered values, and
    [proposer_init].  The phases of the leader are in [Leader]. *)
From Stdlib Require Import Init.Byte.
From S2P Require Import Prelude Bytes PaxosWire SendBuffer Learner ValuesHandler Leader.

(** [1 << acceptor_id], for the shifts that C defines. *)
Definition acceptor_bit (acceptor_id : Z) : option Z :=
  if decide (0 ≤ acceptor_id < 31) then Some (Z.shiftl 1 acceptor_id) else None.

Definition pro_save_prepare_ack (k : Z) (pa : prepare_ack) (acceptor_id : Z) : P unit :=
  ii ← get_ii k;
  bit ← lift_opt (acceptor_bit acceptor_id);
  if negb (Z.land (promises_bitvector ii) bit =? 0) then mret tt
  else
    upd_ii k (λ ii, ii <| promises_bitvector := Z.land (promises_bitvector ii) bit |>
                       <| promises_count := u32 (promises_count ii + 1) |>);;
    if blen (pa_value pa) =? 0 then mret tt
    else if pa_value_ballot pa <=? p1_value_ballot ii then mret tt
    else
      same ← match p1_value ii with
             | None => mret false
             | Some vw => w ← on_vh (deref vw); mret (bool_decide (vw_value w = pa_value pa))
             end;
      if same : bool then upd_ii k (λ ii, ii <| p1_value_ballot := pa_value_ballot pa |>)
      else
        free_opt (p1_value ii);;
        vw ← on_vh (vh_wrap_value (pa_value pa));
        upd_ii k (λ ii, ii <| p1_value := Some vw |>);;
        upd_ii k (λ ii, ii <| p1_value_ballot := pa_value_ballot pa |>).

Definition pro_deliver_callback (value : list byte) (iid : Z) : P unit :=
  s ← get;
  (if LEADER_IS_ME s then leader_deliver value iid else mret tt);;
  modify (λ s, s <| current_iid := u32 (iid + 1) |>).

Definition handle_prepare_ack (acceptor_id : Z) (pa : prepare_ack) : P bool :=
  let k := pro_index (pa_iid pa) in
  ii ← get_ii k;
  if decide (ii_status ii ≠ p1_pending) then mret false
  else if negb (pa_ballot pa =? my_ballot ii) then mret false
  else
    pro_save_prepare_ack k pa acceptor_id;;
    ii ← get_ii k;
    if promises_count ii <? QUORUM then mret false
    else
      upd_ii k (λ ii, ii <| ii_status := p1_ready |>);;
      modify (λ s, s <| p1_info ::= λ p, p <| pending_count := u32 (pending_count p - 1) |>
                                           <| ready_count := u32 (ready_count p + 1) |> |>);;
      mret true.

(** The loop over the batch; [ready] is a [short int]. *)
Fixpoint handle_prepare_acks (acceptor_id : Z) (pab : list prepare_ack) (ready : Z) : P Z :=
  match pab with
  | [] => mret ready
  | pa :: pab =>
      r ← handle_prepare_ack acceptor_id pa;
      handle_prepare_acks acceptor_id pab (signed16 ((ready + Z.b2z r) mod 2 ^ 16))
  end.

Definition handle_prepare_ack_batch (acceptor_id : Z) (pab : list prepare_ack) : P unit :=
  s ← get;
  if negb (LEADER_IS_ME s) then mret tt
  else
    ready ← handle_prepare_acks acceptor_id pab 0;
    if 0 <? ready then
      leader_open_instances_p2_expired;;
      leader_open_instances_p2_new
    else mret tt.

Definition pro_handle_newmsg (buf : list byte) (msg_size : Z) : P unit :=
  valid ← lift_opt (validate_paxos_msg buf msg_size);
  if negb valid then mret tt
  else
    type ← lift_opt (rd 4 8 buf);
    if type =? 2 then
      msg ← lift_opt (dec_msg buf);
      match msg with
      | PrepareAcks acceptor_id pab => handle_prepare_ack_batch acceptor_id pab
      | _ => mret tt
      end
    else mret tt.

(** The branch of [pro_handle_oracle_msg] for a [leader_announce]. *)
Definition handle_leader_announce (current_leader : Z) : P unit :=
  s ← get;
  (if LEADER_IS_ME s && negb (current_leader =? this_proposer_id s) then leader_shutdown
   else if negb (LEADER_IS_ME s) && (current_leader =? this_proposer_id s) then
     _ ← leader_init; mret tt
   else mret tt);;
  modify (λ s, s <| current_leader_id := current_leader |>).

Definition pro_handle_oracle_msg (buf : list byte) (msg_size : Z) : P unit :=
  valid ← lift_opt (validate_paxos_msg buf msg_size);
  if negb valid then mret tt
  else
    type ← lift_opt (rd 4 8 buf);
    if type =? 64 then
      msg ← lift_opt (dec_msg buf);
      match msg with
      | LeaderAnnounce current_leader => handle_leader_announce current_leader
      | _ => mret tt
      end
    else mret tt.

Definition pro_ping_failure_detector : P unit :=
  modify (λ s, s <| alive_ping_seqno := u64 (alive_ping_seqno s + 1) |>);;
  s ← get;
  on_oracle (sendbuf_send_ping (this_proposer_id s) (alive_ping_seqno s));;
  event_add fe_ping_event.

(** ** Initialization *)

(** [memset] to 0; the pointers are NULL and [empty] is 0. *)
Definition inst_zero : p_inst_info := mk_inst 0 empty 0 0 0 None 0 None (mk_timeval 0 0).

Definition init_pro_structs : P Z :=
  if negb (Z.land PROPOSER_ARRAY_SIZE (PROPOSER_ARRAY_SIZE - 1) =? 0) then mret (-1)
  else if PROPOSER_ARRAY_SIZE <=? PROPOSER_PREEXEC_WIN_SIZE then mret (-1)
  else
    modify (λ s, s <| proposer_state := replicate (Z.to_nat PROPOSER_ARRAY_SIZE) inst_zero |>);;
    for_lt 0 PROPOSER_ARRAY_SIZE pro_clear_instance_info;;
    mret 0.

(** The sockets are created and the first ping is sent; they are assumed to
    succeed. *)
Definition init_proposer : P Z :=
  modify (λ s, s <| to_acceptors := udp_sendbuf_new |> <| to_oracle := udp_sendbuf_new |>);;
  pro_ping_failure_detector;;
  r ← init_pro_structs;
  if negb (r =? 0) then mret (-1)
  else
    s ← get;
    if LEADER_IS_ME s then leader_init else mret 0.

(** The static variables when the process starts, and the learner that
    [learner_init] initialized; [time_of] is the clock. *)
Definition proposer_start (clock : nat → timeval) : proposer :=
  mk_proposer 1 (-1) 0 0 udp_sendbuf_new udp_sendbuf_new
    (replicate (Z.to_nat PROPOSER_ARRAY_SIZE) inst_zero) (mk_phase1 0 0 0) (mk_phase2 0 0)
    (mk_counters 0 0 0) vh_start init_lea_structs (λ _, false) clock 0.

Definition proposer_init (proposer_id : Z) : P Z :=
  if (proposer_id <? 0) || (MAX_N_OF_PROPOSERS <=? proposer_id) then mret (-1)
  else
    modify (λ s, s <| this_proposer_id := proposer_id |>);;
    r ← init_proposer;
    if negb (r =? 0) then mret (-1) else mret 0.
