(* ===== verification/ProposerInv.v ===== *)
(** * The invariant of the proposer

    Who owns a value wrapper ([mem_ok]), what a slot of [proposer_state] may
    hold ([win]), the counters, and that every routine of the leader and every
    handler of the proposer keeps the invariant and reaches its end. *)
From Stdlib Require Import Init.Byte.
From S2P Require Import Prelude Bytes PaxosWire SendBuffer Learner ValuesHandler Leader Proposer.

Implicit Types (ii : p_inst_info) (s : proposer) (k : Z) (vw : loc)
  (st : list p_inst_info) (v : values_handler) (l : list (loc * list byte)).

(** ** Ownership

    A wrapper belongs to an instance, as its [p1_value] or its [p2_value], or
    to the pending list. *)
Inductive owner := Own1 (k : Z) | Own2 (k : Z) | OwnList.

Definition owns st l (o : owner) vw : Prop :=
  match o with
  | Own1 k => ∃ ii, arr_get st k = Some ii ∧ p1_value ii = Some vw
  | Own2 k => ∃ ii, arr_get st k = Some ii ∧ p2_value ii = Some vw
  | OwnList => vw ∈ l.*1
  end.

Definition unowned st l vw : Prop := ∀ o, ¬ owns st l o vw.

Definition value_ok (value : list byte) : Prop := blen value ≤ PAXOS_MAX_VALUE_SIZE.

Record mem_ok l st v : Prop := {
  mo_rep : vh_rep l v;
  mo_alloc : ∀ o vw, owns st l o vw → is_Some (heap v !! vw);
  mo_uniq : ∀ o o' vw, owns st l o vw → owns st l o' vw → o = o';
  mo_values : ∀ vw w, heap v !! vw = Some w → value_ok (vw_value w)
}.

Lemma owns_set st l k ii o vw :
  owns (arr_set st k ii) l o vw → 0 ≤ k →
  match o with
  | Own1 k' => (k' = k ∧ p1_value ii = Some vw) ∨ (k' ≠ k ∧ owns st l o vw)
  | Own2 k' => (k' = k ∧ p2_value ii = Some vw) ∨ (k' ≠ k ∧ owns st l o vw)
  | OwnList => owns st l o vw
  end.
Proof.
  intros Ho Hk. destruct o as [k'|k'|]; cbn in *; [..|done];
    destruct Ho as (jj & Hj & Hp); destruct (decide (k' = k)) as [->|Hne].
  1, 3: left; split; [done|]; pose proof (arr_get_lt _ _ _ Hj) as Hlt;
    rewrite length_arr_set in Hlt; rewrite arr_get_set_eq in Hj by done; by simplify_eq.
  all: right; split; [done|]; rewrite arr_get_set_ne in Hj by done; eauto.
Qed.

(** Replacing an instance by one with fewer pointers. *)
Lemma owns_drop l st k ii ii' o vw :
  arr_get st k = Some ii →
  (p1_value ii' = p1_value ii ∨ p1_value ii' = None) →
  (p2_value ii' = p2_value ii ∨ p2_value ii' = None) →
  owns (arr_set st k ii') l o vw → owns st l o vw.
Proof.
  intros Hk H1 H2 Ho. pose proof (arr_get_lt _ _ _ Hk) as [Hk0 _].
  apply owns_set in Ho; [|done]. destruct o as [k'|k'|]; [..|done];
    destruct Ho as [[-> Hp]|[_ Ho]]; try done; exists ii; (split; [done|]).
  - destruct H1 as [<-|H1]; [done|congruence].
  - destruct H2 as [<-|H2]; [done|congruence].
Qed.

Lemma mem_ok_drop l st v k ii ii' :
  mem_ok l st v → arr_get st k = Some ii →
  (p1_value ii' = p1_value ii ∨ p1_value ii' = None) →
  (p2_value ii' = p2_value ii ∨ p2_value ii' = None) →
  mem_ok l (arr_set st k ii') v.
Proof.
  intros [Hr Ha Hu Hv] Hk H1 H2. constructor; [done|..|done].
  - intros o vw Ho. eapply Ha, owns_drop; eauto.
  - intros o o' vw Ho Ho'. eapply Hu; eapply owns_drop; eauto.
Qed.

Lemma mem_ok_same l st v k ii ii' :
  mem_ok l st v → arr_get st k = Some ii →
  p1_value ii' = p1_value ii → p2_value ii' = p2_value ii → mem_ok l (arr_set st k ii') v.
Proof. intros. eapply mem_ok_drop; eauto. Qed.

Lemma mem_ok_reset l st v k jj ii ii' :
  arr_get st k = Some jj → mem_ok l (arr_set st k ii) v →
  p1_value ii' = p1_value ii → p2_value ii' = p2_value ii → mem_ok l (arr_set st k ii') v.
Proof.
  intros Hk Hm H1 H2. rewrite <-(arr_set_set st k ii ii').
  eapply mem_ok_same; [done| |done|done]. by eapply arr_get_set_eq, arr_get_lt.
Qed.

(** What an instance loses has no other owner. *)
Lemma drop_unowned1 l st v k ii ii' vw :
  mem_ok l st v → arr_get st k = Some ii → p1_value ii = Some vw → p1_value ii' = None →
  p2_value ii' = p2_value ii → unowned (arr_set st k ii') l vw.
Proof.
  intros [Hr Ha Hu Hv] Hk H1 H1' H2 o Ho. pose proof (arr_get_lt _ _ _ Hk) as [Hk0 _].
  assert (owns st l (Own1 k) vw) as H0 by (by exists ii).
  apply owns_set in Ho; [|done]. destruct o as [k'|k'|].
  - destruct Ho as [[-> Hp]|[Hne Ho]]; [congruence|]. pose proof (Hu _ _ _ H0 Ho). congruence.
  - destruct Ho as [[-> Hp]|[Hne Ho]]; [|by pose proof (Hu _ _ _ H0 Ho)].
    assert (owns st l (Own2 k) vw) as H3 by (exists ii; split; [done|congruence]).
    by pose proof (Hu _ _ _ H0 H3).
  - by pose proof (Hu _ _ _ H0 Ho).
Qed.

Lemma drop_unowned2 l st v k ii ii' vw :
  mem_ok l st v → arr_get st k = Some ii → p2_value ii = Some vw → p2_value ii' = None →
  p1_value ii' = p1_value ii → unowned (arr_set st k ii') l vw.
Proof.
  intros [Hr Ha Hu Hv] Hk H1 H1' H2 o Ho. pose proof (arr_get_lt _ _ _ Hk) as [Hk0 _].
  assert (owns st l (Own2 k) vw) as H0 by (by exists ii).
  apply owns_set in Ho; [|done]. destruct o as [k'|k'|].
  - destruct Ho as [[-> Hp]|[Hne Ho]]; [|by pose proof (Hu _ _ _ H0 Ho)].
    assert (owns st l (Own1 k) vw) as H3 by (exists ii; split; [done|congruence]).
    by pose proof (Hu _ _ _ H0 H3).
  - destruct Ho as [[-> Hp]|[Hne Ho]]; [congruence|]. pose proof (Hu _ _ _ H0 Ho). congruence.
  - by pose proof (Hu _ _ _ H0 Ho).
Qed.

(** An instance takes an unowned wrapper. *)
Lemma mem_ok_take1 l st v k ii ii' vw :
  mem_ok l st v → arr_get st k = Some ii → unowned st l vw → is_Some (heap v !! vw) →
  p1_value ii' = Some vw → p2_value ii' = p2_value ii → mem_ok l (arr_set st k ii') v.
Proof.
  intros [Hr Ha Hu Hv] Hk Hun Hal H1 H2. pose proof (arr_get_lt _ _ _ Hk) as [Hk0 _].
  assert (∀ o vw', owns (arr_set st k ii') l o vw' →
    (o = Own1 k ∧ vw' = vw) ∨ owns st l o vw') as Hsub.
  { intros o vw' Ho. apply owns_set in Ho; [|done]. destruct o as [k'|k'|].
    - destruct Ho as [[-> Hp]|[_ Ho]]; [left; split; congruence|by right].
    - destruct Ho as [[-> Hp]|[_ Ho]]; [right; exists ii; split; congruence|by right].
    - by right. }
  constructor; [done| | |done].
  - intros o vw' [[_ ->]|Ho]%Hsub; eauto.
  - intros o o' vw' [[-> ->]|Ho]%Hsub [[-> Heq]|Ho']%Hsub; try done.
    + by destruct (Hun o').
    + subst. by destruct (Hun o).
    + eauto.
Qed.

Lemma mem_ok_take2 l st v k ii ii' vw :
  mem_ok l st v → arr_get st k = Some ii → unowned st l vw → is_Some (heap v !! vw) →
  p2_value ii' = Some vw → p1_value ii' = p1_value ii → mem_ok l (arr_set st k ii') v.
Proof.
  intros [Hr Ha Hu Hv] Hk Hun Hal H1 H2. pose proof (arr_get_lt _ _ _ Hk) as [Hk0 _].
  assert (∀ o vw', owns (arr_set st k ii') l o vw' →
    (o = Own2 k ∧ vw' = vw) ∨ owns st l o vw') as Hsub.
  { intros o vw' Ho. apply owns_set in Ho; [|done]. destruct o as [k'|k'|].
    - destruct Ho as [[-> Hp]|[_ Ho]]; [right; exists ii; split; congruence|by right].
    - destruct Ho as [[-> Hp]|[_ Ho]]; [left; split; congruence|by right].
    - by right. }
  constructor; [done| | |done].
  - intros o vw' [[_ ->]|Ho]%Hsub; eauto.
  - intros o o' vw' [[-> ->]|Ho]%Hsub [[-> Heq]|Ho']%Hsub; try done.
    + by destruct (Hun o').
    + subst. by destruct (Hun o).
    + eauto.
Qed.

(** A new value of [p1_value] becomes the [p2_value]: the old [p2_value], if
    any, has no owner any more. *)
Lemma mem_ok_move l st v k ii ii' :
  mem_ok l st v → arr_get st k = Some ii → p1_value ii' = None → p2_value ii' = p1_value ii →
  mem_ok l (arr_set st k ii') v.
Proof.
  intros Hm Hk H1 H2. pose proof (arr_get_lt _ _ _ Hk) as Hlt.
  set (i0 := ii <| p1_value := None |> <| p2_value := None |>).
  assert (mem_ok l (arr_set st k i0) v) as H0.
  { eapply mem_ok_drop; [done..| |]; by right. }
  destruct (p1_value ii) as [vw|] eqn:E.
  - assert (unowned (arr_set st k i0) l vw) as Hun.
    { set (i1 := ii <| p1_value := None |>). intros o Ho.
      rewrite <-(arr_set_set st k i1 i0) in Ho.
      eapply owns_drop in Ho; [|by apply arr_get_set_eq|by left|by right].
      by eapply (drop_unowned1 l st v k ii i1). }
    rewrite <-(arr_set_set st k i0 ii').
    eapply (mem_ok_take2 l _ v k i0 ii' vw); [done|by apply arr_get_set_eq|done| |done|done].
    destruct Hm as [_ Ha _ _]. apply (Ha (Own1 k)). by exists ii.
  - rewrite <-(arr_set_set st k i0 ii').
    eapply (mem_ok_drop l _ v k i0 ii'); [done|by apply arr_get_set_eq|by right|by right].
Qed.

(** Freeing a wrapper without an owner. *)
Lemma mem_ok_free l st v vw :
  mem_ok l st v → unowned st l vw → mem_ok l st (v <| heap ::= delete vw |>).
Proof.
  intros [[Hl Hnd Ht Hs] Ha Hu Hv] Hun. constructor; [|..|done|].
  - constructor; cbn; try done. eapply linked_frame; [|done].
    intros q Hq. rewrite lookup_delete_ne; [done|]. intros <-. by apply (Hun OwnList).
  - intros o q Ho. cbn. rewrite lookup_delete_ne; [eauto|]. intros <-. by apply (Hun o).
  - intros q w. cbn. intros [_ ?]%lookup_delete_Some. eauto.
Qed.

(** ** Reading and writing an instance, and its wrappers *)

Lemma wp_get_ii k ii (Q : p_inst_info → proposer → Prop) s :
  arr_get (proposer_state s) k = Some ii → Q ii s → wp (get_ii k) Q s.
Proof. intros Hk HQ. unfold get_ii. wp_steps. by eapply wp_lift_opt. Qed.

Lemma wp_upd_ii k ii f (Q : unit → proposer → Prop) s :
  arr_get (proposer_state s) k = Some ii →
  Q tt (s <| proposer_state := arr_set (proposer_state s) k (f ii) |>) → wp (upd_ii k f) Q s.
Proof. intros Hk HQ. unfold upd_ii. wp_steps. eapply wp_get_ii; [done|]. by wp_steps. Qed.

Lemma wp_on_vh {A} (m : M values_handler A) (Q : A → proposer → Prop) s :
  wp m (λ a v', Q a (s <| vh := v' |>)) (vh s) → wp (on_vh m) Q s.
Proof. intros H. unfold on_vh. by apply wp_zoom. Qed.

Lemma wp_on_acceptors {A} (m : M udp_send_buffer A) (Q : A → proposer → Prop) s :
  wp m (λ a sb, Q a (s <| to_acceptors := sb |>)) (to_acceptors s) → wp (on_acceptors m) Q s.
Proof. intros H. unfold on_acceptors. by apply wp_zoom. Qed.

(** Every wrapper of an instance can be read. *)
Lemma wp_deref_owned l st v o vw (Q : vh_value_wrapper → values_handler → Prop) :
  mem_ok l st v → owns st l o vw →
  (∀ w, heap v !! vw = Some w → value_ok (vw_value w) → Q w v) → wp (deref vw) Q v.
Proof.
  intros [_ Ha _ Hv] Ho HQ. destruct (Ha _ _ Ho) as [w Hw]. eapply wp_deref; eauto.
Qed.

(** Setting the pointers of an instance to NULL, with its memory freed. *)
Lemma wp_free_p1 l k ii p (Q : unit → proposer → Prop) s :
  p = p1_value ii →
  arr_get (proposer_state s) k = Some ii → mem_ok l (proposer_state s) (vh s) →
  (∀ v', mem_ok l (arr_set (proposer_state s) k (ii <| p1_value := None |>)) v' →
     notified v' = notified (vh s) → Q tt (s <| vh := v' |>)) →
  wp (free_opt p) Q s.
Proof.
  intros -> Hk Hm HQ. assert (mem_ok l (arr_set (proposer_state s) k (ii <| p1_value := None |>)) (vh s)).
  { eapply mem_ok_drop; [done..|by right|by left]. }
  destruct (p1_value ii) as [vw|] eqn:E; cbn [free_opt].
  - apply wp_on_vh, wp_PAX_FREE.
    + apply (mo_alloc _ _ _ Hm (Own1 k)). by exists ii.
    + apply HQ; [|done]. apply mem_ok_free; [done|]. by eapply drop_unowned1.
  - apply wp_ret. specialize (HQ (vh s)). destruct s. by apply HQ.
Qed.

Lemma wp_free_p2 l k ii p (Q : unit → proposer → Prop) s :
  p = p2_value ii →
  arr_get (proposer_state s) k = Some ii → mem_ok l (proposer_state s) (vh s) →
  (∀ v', mem_ok l (arr_set (proposer_state s) k (ii <| p2_value := None |>)) v' →
     notified v' = notified (vh s) → Q tt (s <| vh := v' |>)) →
  wp (free_opt p) Q s.
Proof.
  intros -> Hk Hm HQ. assert (mem_ok l (arr_set (proposer_state s) k (ii <| p2_value := None |>)) (vh s)).
  { eapply mem_ok_drop; [done..|by left|by right]. }
  destruct (p2_value ii) as [vw|] eqn:E; cbn [free_opt].
  - apply wp_on_vh, wp_PAX_FREE.
    + apply (mo_alloc _ _ _ Hm (Own2 k)). by exists ii.
    + apply HQ; [|done]. apply mem_ok_free; [done|]. by eapply drop_unowned2.
  - apply wp_ret. specialize (HQ (vh s)). destruct s. by apply HQ.
Qed.

(** The wrapper of [p2_value] goes to the front of the pending list. *)
Lemma wp_push_back_p2 l k ii vw (Q : unit → proposer → Prop) s :
  arr_get (proposer_state s) k = Some ii → mem_ok l (proposer_state s) (vh s) →
  p2_value ii = Some vw →
  (∀ w v', heap (vh s) !! vw = Some w →
     mem_ok ((vw, vw_value w) :: l) (arr_set (proposer_state s) k (ii <| p2_value := None |>)) v' →
     notified v' = notified (vh s) → Q tt (s <| vh := v' |>)) →
  wp (on_vh (vh_push_back_value vw)) Q s.
Proof.
  intros Hk Hm H2 HQ.
  assert (owns (proposer_state s) l (Own2 k) vw) as Ho by (by exists ii).
  set (st' := arr_set (proposer_state s) k (ii <| p2_value := None |>)) in *.
  assert (mem_ok l st' (vh s)) as Hm'.
  { eapply mem_ok_drop; [done..|by left|by right]. }
  assert (unowned st' l vw) as Hun by (by eapply drop_unowned2).
  destruct Hm' as [Hr Ha Hu Hv]. destruct (mo_alloc _ _ _ Hm _ _ Ho) as [[x next] Hw].
  apply wp_on_vh. eapply wp_mono.
  - apply (vh_push_back_value_spec l vw x next); [done|done|]. apply (Hun OwnList).
  - intros [] v' (Hn & Hd & Hr' & Hfr). apply (HQ (mk_wrapper x next)); [done| |done].
    assert (∀ o q, owns st' ((vw, x) :: l) o q → (o = OwnList ∧ q = vw) ∨ owns st' l o q) as Hsub.
    { intros [k'|k'|] q Ho'; [by right|by right|]. cbn in Ho'.
      apply elem_of_cons in Ho' as [->|Ho']; [by left|by right]. }
    assert (∀ q w, heap v' !! q = Some w → q = vw ∨ heap (vh s) !! q = Some w) as Hh.
    { intros q w. destruct (decide (q = vw)) as [->|Hne]; [by left|]. rewrite Hfr by done. by right. }
    destruct (linked_alloc _ _ _ vw x (vr_linked _ _ Hr')) as [nx Hnx]; [left|].
    constructor; [done|..].
    + intros o q [[-> ->]|Ho']%Hsub; [eauto|]. destruct (decide (q = vw)) as [->|Hne]; [eauto|].
      rewrite Hfr by done. eauto.
    + intros o o' q [[-> ->]|H]%Hsub [[-> Heq]|H']%Hsub; try done.
      * by destruct (Hun o').
      * subst. by destruct (Hun o).
      * eauto.
    + intros q w Hq. destruct (Hh _ _ Hq) as [->|Hq']; [|eauto].
      rewrite Hnx in Hq. injection Hq as <-. exact (Hv _ _ Hw).
Qed.

(** The oldest pending value is taken, or there is none. *)
Lemma wp_next_pending l (Q : option loc → proposer → Prop) s :
  mem_ok l (proposer_state s) (vh s) →
  (l = [] → Q None s) →
  (∀ vw x l' v', l = (vw, x) :: l' → mem_ok l' (proposer_state s) v' →
     unowned (proposer_state s) l' vw → is_Some (heap v' !! vw) → heap v' = heap (vh s) →
     Q (Some vw) (s <| vh := v' |>)) →
  wp (on_vh vh_get_next_pending) Q s.
Proof.
  intros [Hr Ha Hu Hv] H0 H1. apply wp_on_vh. eapply wp_mono; [by apply vh_get_next_pending_spec|].
  intros r v' (Hh & Hn & Hd & H). destruct l as [|[vw x] l].
  - destruct H as [-> ->]. specialize (H0 eq_refl). by destruct s.
  - destruct H as [-> Hr']. pose proof (vr_nodup _ _ Hr) as Hnd. cbn in Hnd.
    apply list.NoDup_cons in Hnd as [Hin Hnd].
    assert (∀ o q, owns (proposer_state s) l o q → owns (proposer_state s) ((vw, x) :: l) o q) as Hsub.
    { intros [k'|k'|] q Ho; [done|done|]. cbn. by right. }
    apply (H1 vw x l); [done| | | |].
    + constructor; [done|..]; rewrite ?Hh; eauto.
    + assert (owns (proposer_state s) ((vw, x) :: l) OwnList vw) as Ho by (cbn; left).
      intros o Ho'. pose proof (Hu _ _ _ Ho (Hsub _ _ Ho')). by subst.
    + rewrite Hh. apply (Ha OwnList). cbn. left.
    + done.
Qed.

(** A wrapper for a new value. *)
Lemma fresh_unowned l st v vw : mem_ok l st v → heap v !! vw = None → unowned st l vw.
Proof. intros Hm Hvw o [w Hw]%(mo_alloc _ _ _ Hm). congruence. Qed.

Lemma mem_ok_wrap l st v vw value :
  mem_ok l st v → heap v !! vw = None → value_ok value →
  mem_ok l st (v <| heap ::= <[vw := mk_wrapper value None]> |>).
Proof.
  intros Hm Hvw Hval. pose proof (fresh_unowned _ _ _ _ Hm Hvw) as Hun.
  destruct Hm as [[Hl Hnd Ht Hs] Ha Hu Hv]. constructor; [|..|done|].
  - constructor; cbn; try done. eapply linked_frame; [|done].
    intros q Hq. rewrite lookup_insert_ne; [done|]. intros <-. by apply (Hun OwnList).
  - intros o q Ho. cbn. destruct (decide (q = vw)) as [->|Hne].
    + rewrite lookup_insert_eq. eauto.
    + rewrite lookup_insert_ne by done. eauto.
  - intros q w. cbn. intros [[<- <-]|[_ ?]]%lookup_insert_Some; eauto.
Qed.

(** [pro_clear_instance_info] *)
Definition cleared_inst ii : p_inst_info := mk_inst 0 empty 0 0 0 None 0 None (ii_timeout ii).

Lemma wp_clear l k ii (Q : unit → proposer → Prop) s :
  arr_get (proposer_state s) k = Some ii → mem_ok l (proposer_state s) (vh s) →
  (∀ v', mem_ok l (arr_set (proposer_state s) k (cleared_inst ii)) v' →
     notified v' = notified (vh s) →
     Q tt (s <| proposer_state := arr_set (proposer_state s) k (cleared_inst ii) |> <| vh := v' |>)) →
  wp (pro_clear_instance_info k) Q s.
Proof.
  intros Hk Hm HQ. pose proof (arr_get_lt _ _ _ Hk) as Hlt.
  assert (∀ st x, length st = length (proposer_state s) → arr_get (arr_set st k x) k = Some x) as Hget.
  { intros st x Hst. apply arr_get_set_eq. by rewrite Hst. }
  unfold pro_clear_instance_info. wp_steps. eapply wp_upd_ii; [done|]. wp_steps.
  eapply wp_get_ii; [by apply Hget|]. wp_steps.
  eapply wp_free_p1; [done|by apply Hget|by eapply mem_ok_same|]. cbn. intros v1 Hm1 Hn1.
  wp_steps. eapply wp_upd_ii; [by apply Hget|]. wp_steps.
  rewrite !arr_set_set in Hm1. cbn in Hm1 |- *. rewrite arr_set_set.
  eapply (wp_free_p2 l k (mk_inst 0 empty 0 0 0 None 0 (p2_value ii) (ii_timeout ii)));
    [done|by apply Hget|done|].
  cbn. intros v2 Hm2 Hn2. wp_steps.
  eapply wp_upd_ii; [by apply Hget|]. cbn. rewrite !arr_set_set in Hm2. rewrite arr_set_set.
  apply HQ; [done|congruence].
Qed.

(** ** Counting instances *)

Definition tally (f : p_inst_info → bool) st : Z := foldr (λ ii n, Z.b2z (f ii) + n) 0 st.

Lemma tally_insert f st (i : nat) ii ii' :
  st !! i = Some ii → tally f (<[i := ii']> st) = tally f st - Z.b2z (f ii) + Z.b2z (f ii').
Proof.
  revert i. induction st as [|x st IH]; intros i; [done|].
  destruct i as [|i]; cbn; [intros [= ->]; unfold tally; lia|].
  intros H. change (Z.b2z (f x) + tally f (<[i:=ii']> st) =
    Z.b2z (f x) + tally f st - Z.b2z (f ii) + Z.b2z (f ii')). rewrite (IH _ H). lia.
Qed.

Lemma tally_set f st k ii ii' :
  arr_get st k = Some ii → tally f (arr_set st k ii') = tally f st - Z.b2z (f ii) + Z.b2z (f ii').
Proof. intros [_ H]%arr_get_Some. by apply tally_insert. Qed.

Lemma tally_set_same f st k ii ii' :
  arr_get st k = Some ii → f ii' = f ii → tally f (arr_set st k ii') = tally f st.
Proof. intros H Hf. rewrite (tally_set _ _ _ _ _ H), Hf. lia. Qed.

#[global] Arguments tally : simpl never.

Lemma tally_range f st n : Z.of_nat (length st) = n → 0 ≤ tally f st ≤ n.
Proof.
  intros <-. induction st as [|x st IH]; unfold tally in *; cbn; [lia|]. destruct (f x); cbn; lia.
Qed.

Lemma tally_set_to a b f st k ii ii' :
  arr_get st k = Some ii → f ii = a → f ii' = b →
  tally f (arr_set st k ii') = tally f st - Z.b2z a + Z.b2z b.
Proof. intros H <- <-. by apply tally_set. Qed.

Definition is_pending ii : bool := bool_decide (ii_status ii = p1_pending).

(** The instances a value of this leader was proposed for, and that are not
    known to be closed. *)
Definition is_open ii : bool :=
  bool_decide (ii_status ii = p2_pending)
  || (bool_decide (ii_status ii = p1_pending) || bool_decide (ii_status ii = p1_ready))
     && negb (is_null (p2_value ii)).

Lemma u32_plus_l a b : u32 (u32 a + b) = u32 (a + b).
Proof. unfold wrap. by rewrite Zplus_mod_idemp_l. Qed.

Lemma u32_minus_l a b : u32 (u32 a - b) = u32 (a - b).
Proof. unfold wrap. by rewrite Zminus_mod_idemp_l. Qed.

(** ** The window of instances

    [cur] is the lowest instance that is not delivered, [hi] the highest that
    was opened, [nxt] the lowest one phase 2 was not started for. *)

Definition ballot_ok (id b : Z) : Prop :=
  ∃ n, 0 ≤ n ∧ b = u32 (MAX_N_OF_PROPOSERS + id + MAX_N_OF_PROPOSERS * n).

Record active (id nxt iid : Z) ii : Prop := {
  ac_iid : ii_iid ii = iid;
  ac_status : ii_status ii ≠ empty;
  ac_ballot : ballot_ok id (my_ballot ii);
  ac_value : iid < nxt → p2_value ii ≠ None;
  ac_fresh : nxt ≤ iid → p2_value ii = None ∧ (ii_status ii = p1_pending ∨ ii_status ii = p1_ready)
}.

Definition clear ii : Prop := ∃ t, ii = mk_inst 0 empty 0 0 0 None 0 None t.

Definition slot_good (id cur hi nxt k : Z) ii : Prop :=
  (∃ iid, cur ≤ iid ≤ hi ∧ pro_index iid = k ∧ active id nxt iid ii) ∨
  (clear ii ∧ ∀ iid, cur ≤ iid ≤ hi → pro_index iid ≠ k).

Record win (id cur hi nxt : Z) st : Prop := {
  wn_len : Z.of_nat (length st) = PROPOSER_ARRAY_SIZE;
  wn_range : 1 ≤ cur ≤ nxt ∧ nxt ≤ hi + 1 ∧ hi + 1 < cur + PROPOSER_ARRAY_SIZE ∧ hi < 2 ^ 32 - 1;
  wn_slots : ∀ k ii, arr_get st k = Some ii → slot_good id cur hi nxt k ii
}.

Lemma pro_index_mod iid : pro_index iid = iid mod PROPOSER_ARRAY_SIZE.
Proof. apply (land_mask iid 11). lia. Qed.

Lemma pro_index_range iid : 0 ≤ pro_index iid < PROPOSER_ARRAY_SIZE.
Proof. rewrite pro_index_mod. by apply Z.mod_pos_bound. Qed.

Lemma pro_index_inj cur i j :
  cur ≤ i < cur + PROPOSER_ARRAY_SIZE → cur ≤ j < cur + PROPOSER_ARRAY_SIZE →
  pro_index i = pro_index j → i = j.
Proof.
  unfold PROPOSER_ARRAY_SIZE. rewrite !pro_index_mod. intros Hi Hj.
  apply (mod_window_inj _ (cur - 1)); unfold PROPOSER_ARRAY_SIZE; lia.
Qed.

Section window.
Context (id cur hi nxt : Z) (st : list p_inst_info).
Hypothesis W : win id cur hi nxt st.

Lemma win_slot iid : ∃ ii, arr_get st (pro_index iid) = Some ii.
Proof. apply arr_get_is_Some. rewrite (wn_len _ _ _ _ _ W). apply pro_index_range. Qed.

Lemma win_get iid : cur ≤ iid ≤ hi →
  ∃ ii, arr_get st (pro_index iid) = Some ii ∧ active id nxt iid ii.
Proof.
  intros Hi. destruct (win_slot iid) as [ii Hii]. exists ii. split; [done|].
  pose proof (wn_range _ _ _ _ _ W).
  destruct (wn_slots _ _ _ _ _ W _ _ Hii) as [(j & Hj & Hij & Ha)|[_ Hn]]; [|by destruct (Hn iid)].
  assert (j = iid) as <-; [|done]. apply (pro_index_inj cur); [lia|lia|done].
Qed.

Lemma win_out iid : hi < iid < cur + PROPOSER_ARRAY_SIZE →
  ∃ ii, arr_get st (pro_index iid) = Some ii ∧ clear ii.
Proof.
  intros Hi. destruct (win_slot iid) as [ii Hii]. exists ii. split; [done|].
  pose proof (wn_range _ _ _ _ _ W).
  destruct (wn_slots _ _ _ _ _ W _ _ Hii) as [(j & Hj & Hij & Ha)|[? _]]; [|done].
  assert (j = iid) as ->; [|lia]. apply (pro_index_inj cur); [lia|lia|done].
Qed.

Lemma arr_set_get {A} (x : list A) i j a b :
  arr_get (arr_set x i a) j = Some b → 0 ≤ i →
  (j = i ∧ b = a) ∨ (j ≠ i ∧ arr_get x j = Some b).
Proof.
  intros H Hi. destruct (decide (j = i)) as [->|Hne].
  - left. split; [done|]. pose proof (arr_get_lt _ _ _ H) as Hlt. rewrite length_arr_set in Hlt.
    rewrite arr_get_set_eq in H by done. congruence.
  - right. split; [done|]. by rewrite arr_get_set_ne in H by done.
Qed.

Lemma win_set iid ii : cur ≤ iid ≤ hi → active id nxt iid ii →
  win id cur hi nxt (arr_set st (pro_index iid) ii).
Proof.
  intros Hi Ha. destruct W as [Hlen Hr Hs]. constructor; [by rewrite length_arr_set|done|].
  intros k x [[-> ->]|[Hne Hk]]%arr_set_get; [|by apply Hs|apply pro_index_range].
  left. by exists iid.
Qed.

(** Phase 2 is started for [nxt]. *)
Lemma win_next ii : nxt ≤ hi → active id (nxt + 1) nxt ii →
  win id cur hi (nxt + 1) (arr_set st (pro_index nxt) ii).
Proof.
  intros Hi Ha. destruct W as [Hlen Hr Hs]. constructor; [by rewrite length_arr_set|lia|].
  intros k x [[-> ->]|[Hne Hk]]%arr_set_get; [|destruct (Hs _ _ Hk) as [(j & Hj & Hij & Hx)|H]|apply pro_index_range].
  - left. exists nxt. split; [lia|done].
  - left. exists j. split_and!; [lia|lia|done|]. destruct Hx. assert (j ≠ nxt) by congruence.
    constructor; [done..| |]; intros; [apply ac_value0|apply ac_fresh0]; lia.
  - by right.
Qed.

(** The instance above [hi] is opened. *)
Lemma win_open ii : hi + 2 < cur + PROPOSER_ARRAY_SIZE → hi + 1 < 2 ^ 32 - 1 →
  active id nxt (hi + 1) ii → win id cur (hi + 1) nxt (arr_set st (pro_index (hi + 1)) ii).
Proof.
  intros Hi Hmax Ha. destruct W as [Hlen Hr Hs]. constructor; [by rewrite length_arr_set|lia|].
  intros k x [[-> ->]|[Hne Hk]]%arr_set_get; [|destruct (Hs _ _ Hk) as [(j & Hj & Hij & Hx)|[Hc Hn]]|apply pro_index_range].
  - left. exists (hi + 1). split; [lia|done].
  - left. exists j. split; [lia|done].
  - right. split; [done|]. intros j Hj. destruct (decide (j = hi + 1)) as [->|]; [done|].
    apply Hn. lia.
Qed.

(** [cur] is delivered. *)
Lemma win_deliver ii : cur ≤ hi → clear ii →
  win id (cur + 1) hi (Z.max nxt (cur + 1)) (arr_set st (pro_index cur) ii).
Proof.
  intros Hi Ha. destruct W as [Hlen Hr Hs]. constructor; [by rewrite length_arr_set|lia|].
  intros k x [[-> ->]|[Hne Hk]]%arr_set_get; [|destruct (Hs _ _ Hk) as [(j & Hj & Hij & Hx)|[Hc Hn]]|apply pro_index_range].
  - right. split; [done|]. intros j Hj Heq.
    assert (j = cur); [|lia]. apply (pro_index_inj cur); [lia|lia|done].
  - left. exists j. assert (j ≠ cur) by congruence. split_and!; [lia|lia|done|].
    destruct Hx. constructor; [done..| |]; intros; [apply ac_value0|apply ac_fresh0]; lia.
  - right. split; [done|]. intros j Hj. apply Hn. lia.
Qed.
End window.

(** ** The routines of the leader *)

Record lead_ok l (cur hi nxt : Z) s : Prop := {
  lo_mem : mem_ok l (proposer_state s) (vh s);
  lo_win : win (this_proposer_id s) cur hi nxt (proposer_state s)
}.

(** What no routine of the phases changes. *)
Definition frame s s' : Prop :=
  this_proposer_id s' = this_proposer_id s ∧ current_leader_id s' = current_leader_id s ∧
  current_iid s' = current_iid s ∧ lea s' = lea s.

#[export] Instance frame_preorder : PreOrder frame.
Proof.
  split; [by intros s; repeat split|]. intros s1 s2 s3 (?&?&?&?) (?&?&?&?).
  repeat split; congruence.
Qed.

(** The counters of the instances agree, and so do the phase infos. *)
Definition same_counts s s' : Prop :=
  p1_info s' = p1_info s ∧ p2_info s' = p2_info s ∧
  tally is_pending (proposer_state s') = tally is_pending (proposer_state s) ∧
  tally is_open (proposer_state s') = tally is_open (proposer_state s).

#[export] Instance same_counts_preorder : PreOrder same_counts.
Proof.
  split; [by intros s; repeat split|]. intros s1 s2 s3 (?&?&?&?) (?&?&?&?).
  repeat split; congruence.
Qed.

Abbreviation preps := (sb_holds PrepareReqs prepare_req_size).
Abbreviation accs := (sb_holds AcceptReqs ACCEPT_REQ_SIZE).

Lemma wp_set_expiration k ii usec (Q : unit → proposer → Prop) s :
  arr_get (proposer_state s) k = Some ii →
  (∀ t n, Q tt (s <| proposer_state := arr_set (proposer_state s) k (ii <| ii_timeout := t |>) |>
                  <| ticks := n |>)) →
  wp (leader_set_expiration k usec) Q s.
Proof.
  intros Hk HQ. unfold leader_set_expiration, gettimeofday. wp_steps.
  eapply wp_upd_ii; [done|]. apply HQ.
Qed.

Lemma wp_add_prepare base id items iid ballot (Q : unit → proposer → Prop) s :
  preps base id items (to_acceptors s) →
  (∀ sb, preps base id (items ++ [mk_prepare_req iid ballot]) sb → Q tt (s <| to_acceptors := sb |>)) →
  wp (on_acceptors (sendbuf_add_prepare_req iid ballot)) Q s.
Proof.
  intros Hh HQ. apply wp_on_acceptors. eapply wp_mono; [by eapply add_prepare_req_holds|].
  intros [] sb Hsb. by apply HQ.
Qed.

Lemma value_ok_fits iid ballot x : value_ok x → item_fits ACCEPT_REQ_SIZE (mk_accept_req iid ballot x).
Proof.
  unfold value_ok, item_fits, ACCEPT_REQ_SIZE, PAXOS_MAX_VALUE_SIZE, MAX_UDP_MSG_SIZE,
    sizeof_batch, sizeof_accept_req, sizeof_paxos_msg. cbn. lia.
Qed.

Lemma wp_add_accept base id items iid ballot x (Q : unit → proposer → Prop) s :
  accs base id items (to_acceptors s) → value_ok x →
  (∀ sb, accs base id (items ++ [mk_accept_req iid ballot x]) sb → Q tt (s <| to_acceptors := sb |>)) →
  wp (on_acceptors (sendbuf_add_accept_req iid ballot x)) Q s.
Proof.
  intros Hh Hx HQ. apply wp_on_acceptors.
  eapply wp_mono; [eapply add_accept_req_holds; [done|by apply value_ok_fits]|].
  intros [] sb Hsb. by apply HQ.
Qed.

Lemma wp_flush {A} base mk (size : A → Z) id items (Q : unit → proposer → Prop) s :
  sb_holds mk size base id items (to_acceptors s) →
  (∀ sb, sb_sent mk size base id items (sent sb) → Q tt (s <| to_acceptors := sb |>)) →
  wp (on_acceptors sendbuf_flush) Q s.
Proof.
  intros Hh HQ. apply wp_on_acceptors. eapply wp_flush_holds; [done|]. intros sb Hsb. by apply HQ.
Qed.

Lemma next_ballot_ok id b : ballot_ok id b → ballot_ok id (NEXT_BALLOT b).
Proof.
  intros (n & Hn & ->). exists (n + 1). split; [lia|]. unfold NEXT_BALLOT. rewrite u32_plus_l.
  f_equal. lia.
Qed.

Lemma first_ballot_ok s : ballot_ok (this_proposer_id s) (FIRST_BALLOT s).
Proof. exists 0. split; [lia|]. unfold FIRST_BALLOT. f_equal. lia. Qed.

(** [active] only depends on the instance number, the status, the ballot and
    the value of phase 2. *)
Lemma active_same id nxt iid ii ii' :
  active id nxt iid ii → ii_iid ii' = ii_iid ii → ii_status ii' = ii_status ii →
  ballot_ok id (my_ballot ii') → p2_value ii' = p2_value ii → active id nxt iid ii'.
Proof.
  intros [] H1 H2 H3 H4. constructor; rewrite ?H1, ?H2, ?H4; done.
Qed.

(** Phase 1 of one instance: its ballot grows and it is prepared again when
    the deadline of its promise is over. *)
Lemma check_p1_pending_body_spec base id l cur hi nxt iid now items s :
  lead_ok l cur hi nxt s → cur ≤ iid ≤ hi → preps base id items (to_acceptors s) →
  wp (check_p1_pending_body now iid) (λ _ s',
    lead_ok l cur hi nxt s' ∧ frame s s' ∧ same_counts s s' ∧
    ∃ items', preps base id items' (to_acceptors s')) s.
Proof.
  intros [Hm W] Hi Hh. destruct (win_get _ _ _ _ _ W iid Hi) as (ii & Hii & Ha).
  assert (∀ st x, length st = length (proposer_state s) →
    arr_get (arr_set st (pro_index iid) x) (pro_index iid) = Some x) as Hget.
  { intros st x Hst. apply arr_get_set_eq. rewrite Hst. by apply (arr_get_lt _ _ ii). }
  unfold check_p1_pending_body. wp_steps. eapply wp_get_ii; [done|]. wp_steps.
  apply wp_assert; [apply Z.eqb_eq, (ac_iid _ _ _ _ Ha)|].
  wp_case; [|apply wp_ret; split; [done|]; split; [done|]; split; [done|]; eauto].
  wp_steps. eapply wp_upd_ii; [done|]. wp_steps.
  eapply (wp_free_p1 l (pro_index iid) (ii <| promises_bitvector := 0 |> <| promises_count := 0 |>
    <| p1_value_ballot := 0 |>)); [done|by apply Hget|by eapply mem_ok_same|].
  intros v' Hm' _. wp_steps. eapply wp_upd_ii; [by apply Hget|]. wp_steps.
  eapply wp_upd_ii; [cbn; apply Hget; by rewrite !length_arr_set|]. wp_steps.
  eapply wp_get_ii; [cbn; apply Hget; by rewrite !length_arr_set|]. wp_steps.
  eapply wp_add_prepare; [done|]. intros sb Hsb. wp_steps.
  eapply wp_set_expiration; [cbn; apply Hget; by rewrite !length_arr_set|]. intros t n.
  wp_steps. cbn in *. rewrite !arr_set_set in *. zbool.
  assert (∀ f : p_inst_info → bool,
    (∀ x, ii_status x = ii_status ii → p2_value x = p2_value ii → f x = f ii) →
    ∀ x, ii_status x = ii_status ii → p2_value x = p2_value ii →
    tally f (arr_set (proposer_state s) (pro_index iid) x) = tally f (proposer_state s)) as Htally.
  { intros f Hf x H1 H2. eapply tally_set_same; [done|]. by apply Hf. }
  split; [|split; [done|split; [|by eexists]]].
  - constructor; cbn.
    + by eapply mem_ok_reset.
    + eapply win_set; [done|done|]. eapply active_same; [done|done|done| |done]. cbn.
      apply next_ballot_ok, Ha.
  - split_and!; [done|done|..]; cbn; apply Htally; try done;
      intros x Hx Hy; unfold is_pending, is_open; by rewrite Hx, ?Hy.
Qed.

Lemma leader_check_p1_pending_spec l nxt s :
  lead_ok l (current_iid s) (highest_open (p1_info s)) nxt s →
  wp leader_check_p1_pending (λ _ s',
    lead_ok l (current_iid s) (highest_open (p1_info s)) nxt s' ∧ frame s s' ∧ same_counts s s') s.
Proof.
  intros Hok. unfold leader_check_p1_pending. wp_steps. apply wp_on_acceptors.
  apply (wp_clear_holds PrepareReqs prepare_req_size); [done|]. intros sb Hsb.
  unfold gettimeofday. wp_steps. unfold for_le.
  pose proof (wn_range _ _ _ _ _ (lo_win _ _ _ _ _ Hok)) as Hr.
  rewrite decide_False by lia.
  apply (wp_mfor_inv (λ s', lead_ok l (current_iid s) (highest_open (p1_info s)) nxt s' ∧
    frame s s' ∧ same_counts s s' ∧
    ∃ items, preps (sent (to_acceptors s)) (this_proposer_id s) items (to_acceptors s'))).
  - split; [|split; [done|split; [done|by eexists]]]. destruct Hok. by constructor.
  - intros iid s1 Hin (Hok1 & Hf & Hc & items & Hp). apply elem_of_range in Hin. cbn in Hin.
    eapply wp_mono; [by eapply check_p1_pending_body_spec|].
    intros _ s2 (Hok2 & Hf2 & Hc2 & Hp2). split; [done|]. split; [by etrans|]. split; [by etrans|done].
  - intros s1 ([Hm W] & Hf & Hc & items & Hp). eapply wp_flush; [done|]. intros sb' _.
    split; [by constructor|]. split; [done|done].
Qed.

(** One more instance is opened in phase 1, after [i - 1] others. *)
Lemma open_instances_p1_body_spec base id l cur nxt i items s :
  let hi := highest_open (p1_info s) + (i - 1) in
  lead_ok l cur hi nxt s → hi + 2 < cur + PROPOSER_ARRAY_SIZE → hi + 1 < 2 ^ 32 - 1 →
  preps base id items (to_acceptors s) →
  wp (open_instances_p1_body i) (λ _ s',
    lead_ok l cur (hi + 1) nxt s' ∧ frame s s' ∧ p1_info s' = p1_info s ∧ p2_info s' = p2_info s ∧
    tally is_pending (proposer_state s') = tally is_pending (proposer_state s) + 1 ∧
    tally is_open (proposer_state s') = tally is_open (proposer_state s) ∧
    preps base id (items ++ [mk_prepare_req (hi + 1) (FIRST_BALLOT s)]) (to_acceptors s')) s.
Proof.
  intros hi [Hm W] Hroom Hmax Hh. pose proof (wn_range _ _ _ _ _ W) as Hr.
  unfold open_instances_p1_body. wp_steps.
  replace (i + highest_open (p1_info s)) with (hi + 1) by (unfold hi; lia).
  rewrite (wrap_small 32 (hi + 1)) by lia.
  destruct (win_out _ _ _ _ _ W (hi + 1)) as (ii & Hii & t0 & ->); [lia|].
  assert (∀ st x, length st = length (proposer_state s) →
    arr_get (arr_set st (pro_index (hi + 1)) x) (pro_index (hi + 1)) = Some x) as Hget.
  { intros st x Hst. apply arr_get_set_eq. rewrite Hst. by apply (arr_get_lt _ _ _ Hii). }
  eapply wp_get_ii; [done|]. wp_steps. apply wp_assert; [done|]. wp_steps.
  eapply wp_upd_ii; [done|]. wp_steps. eapply wp_get_ii; [cbn; by apply Hget|]. wp_steps.
  eapply wp_add_prepare; [done|]. intros sb Hsb. cbn in Hsb.
  eapply wp_set_expiration; [cbn; by apply Hget|]. intros t n. cbn. rewrite arr_set_set.
  split; [|split; [done|split; [done|split; [done|split; [|split; [|done]]]]]].
  - constructor; cbn; [by eapply mem_ok_same|]. apply win_open; [done|done|done|].
    constructor; cbn; [done|done|apply first_ballot_ok|lia|by intros; auto].
  - rewrite (tally_set_to false true _ _ _ _ _ Hii) by done. cbn. lia.
  - rewrite (tally_set_to false false _ _ _ _ _ Hii) by done. cbn. lia.
Qed.

(** The instances a call of [leader_open_instances_p1] opens. *)
Definition p1_to_open (p : phase1_info) : Z :=
  if PROPOSER_PREEXEC_WIN_SIZE / 2 <=? pending_count p + ready_count p then 0
  else PROPOSER_PREEXEC_WIN_SIZE - (pending_count p + ready_count p).

Lemma signed32_small z : 0 ≤ z < 2 ^ 31 → signed32 (u32 z) = z.
Proof.
  intros. unfold signed32, wrap. rewrite Z.mod_mod, Z.mod_small by lia.
  destruct (Z.ltb_spec z (2 ^ 31)); lia.
Qed.

Lemma p1_to_open_range p : 0 ≤ pending_count p → 0 ≤ ready_count p →
  0 ≤ p1_to_open p ≤ PROPOSER_PREEXEC_WIN_SIZE.
Proof.
  intros H1 H2. unfold p1_to_open, PROPOSER_PREEXEC_WIN_SIZE. assert (300 / 2 = 150) as -> by done.
  destruct (Z.leb_spec 150 (pending_count p + ready_count p)); lia.
Qed.

(** What the opened instances are prepared with. *)
Definition opened_reqs s (n : Z) : list prepare_req :=
  map (λ i, mk_prepare_req (highest_open (p1_info s) + i) (FIRST_BALLOT s)) (range 1 n).

Lemma leader_open_instances_p1_spec l cur nxt s :
  let hi := highest_open (p1_info s) in
  let n := p1_to_open (p1_info s) in
  lead_ok l cur hi nxt s → 0 ≤ pending_count (p1_info s) → 0 ≤ ready_count (p1_info s) →
  pending_count (p1_info s) + ready_count (p1_info s) < 2 ^ 31 →
  hi + PROPOSER_PREEXEC_WIN_SIZE + 1 < cur + PROPOSER_ARRAY_SIZE →
  hi + PROPOSER_PREEXEC_WIN_SIZE < 2 ^ 32 - 1 →
  wp leader_open_instances_p1 (λ _ s',
    lead_ok l cur (hi + n) nxt s' ∧ frame s s' ∧ p2_info s' = p2_info s ∧
    p1_info s' = mk_phase1 (u32 (pending_count (p1_info s) + n)) (ready_count (p1_info s)) (hi + n) ∧
    tally is_pending (proposer_state s') = tally is_pending (proposer_state s) + n ∧
    tally is_open (proposer_state s') = tally is_open (proposer_state s) ∧
    (0 < n → sb_sent PrepareReqs prepare_req_size (sent (to_acceptors s)) (this_proposer_id s)
       (opened_reqs s n) (sent (to_acceptors s')))) s.
Proof.
  intros hi n Hok Hp Hrd Hsum Hroom Hmax. pose proof (p1_to_open_range _ Hp Hrd) as Hn.
  pose proof (wn_range _ _ _ _ _ (lo_win _ _ _ _ _ Hok)) as Hr.
  unfold leader_open_instances_p1. wp_steps. rewrite signed32_small by lia.
  apply wp_assert; [lia|]. fold n in Hn.
  assert (n = p1_to_open (p1_info s)) as En by done. unfold p1_to_open in En.
  destruct (Z.leb_spec (PROPOSER_PREEXEC_WIN_SIZE / 2) (pending_count (p1_info s) + ready_count (p1_info s))) as [Hge|Hlt].
  { wp_steps. rewrite En, !Z.add_0_r. split; [done|split; [done|split; [done|]]].
    rewrite (wrap_small 32) by lia. split; [by destruct (p1_info s)|]. split_and!; [lia|done|lia]. }
  assert (PROPOSER_PREEXEC_WIN_SIZE = 300) as E300 by done.
  assert (PROPOSER_PREEXEC_WIN_SIZE / 2 = 150) as E150 by done.
  wp_steps. apply wp_on_acceptors.
  apply (wp_clear_holds PrepareReqs prepare_req_size); [done|]. intros sb Hsb.
  rewrite <-En, (wrap_small 32 n) by lia. wp_steps. apply wp_assert; [lia|]. wp_steps.
  unfold for_le. rewrite decide_False by lia.
  apply (wp_mfor (λ dn s', let m := Z.of_nat (length dn) in
    lead_ok l cur (hi + m) nxt s' ∧ frame s s' ∧ p1_info s' = p1_info s ∧ p2_info s' = p2_info s ∧
    tally is_pending (proposer_state s') = tally is_pending (proposer_state s) + m ∧
    tally is_open (proposer_state s') = tally is_open (proposer_state s) ∧
    preps (sent (to_acceptors s)) (this_proposer_id s)
      (map (λ i, mk_prepare_req (hi + i) (FIRST_BALLOT s)) dn) (to_acceptors s'))).
  - cbn. rewrite !Z.add_0_r. split; [destruct Hok; by constructor|]. done.
  - intros dn i rest s1 Heq (Hok1 & Hf & H1 & H2 & Ht1 & Ht2 & Hh).
    apply range_split in Heq as [Hi Hile].
    assert (highest_open (p1_info s1) + (i - 1) = hi + Z.of_nat (length dn)) as Ehi.
    { rewrite H1. unfold hi. lia. }
    eapply wp_mono.
    + eapply (open_instances_p1_body_spec _ _ l cur nxt i); rewrite ?Ehi; [done|lia|lia|done].
    + rewrite Ehi. intros _ s2 (Hok2 & Hf2 & H12 & H22 & Ht12 & Ht22 & Hh2).
      rewrite length_app. cbn. split; [by replace (hi + _) with (hi + Z.of_nat (length dn) + 1) by lia|].
      split; [by etrans|]. split_and!; [congruence|congruence|lia|lia|].
      rewrite map_app. cbn. replace (FIRST_BALLOT s1) with (FIRST_BALLOT s) in Hh2.
      * replace (hi + i) with (hi + Z.of_nat (length dn) + 1) by lia. done.
      * unfold FIRST_BALLOT. by destruct Hf as [-> _].
  - intros s1 (Hok1 & Hf & H1 & H2 & Ht1 & Ht2 & Hh).
    assert (Z.of_nat (length (range 1 n)) = n) as Elen.
    { unfold range. rewrite length_seqZ. lia. }
    rewrite Elen in *. wp_steps. eapply wp_flush; [done|]. intros sb' Hsent. wp_steps. cbn.
    split; [destruct Hok1; by constructor|]. split; [done|]. split; [done|].
    rewrite H1. rewrite (wrap_small 32 (highest_open _ + _)) by (fold hi; lia).
    split_and!; done.
Qed.

(** The wrapper phase 2 of an instance is executed with: the value a promise
    reported, or the value of the instance, or the oldest pending one. *)
Definition chosen_value l ii vw l' : Prop :=
  match p1_value ii with
  | Some q => vw = q ∧ l' = l
  | None =>
      match p2_value ii with
      | Some q => vw = q ∧ l' = l
      | None => ∃ x, l = (vw, x) :: l'
      end
  end.

Lemma mem_ok_p2 l st v k ii vw :
  mem_ok l st v → arr_get st k = Some ii → p2_value ii = Some vw →
  ∃ w, heap v !! vw = Some w ∧ value_ok (vw_value w).
Proof.
  intros [_ Ha _ Hv] Hk H2. destruct (Ha (Own2 k) vw) as [w Hw]; [by exists ii|]. eauto.
Qed.

Lemma leader_execute_p2_spec base id l k ii items s :
  mem_ok l (proposer_state s) (vh s) → arr_get (proposer_state s) k = Some ii →
  (p1_value ii ≠ None ∨ p2_value ii ≠ None ∨ l ≠ []) →
  accs base id items (to_acceptors s) →
  wp (leader_execute_p2 k) (λ _ s', ∃ l' ii' vw w,
    mem_ok l' (proposer_state s') (vh s') ∧ proposer_state s' = arr_set (proposer_state s) k ii' ∧
    (ii_iid ii' = ii_iid ii ∧ ii_status ii' = p2_pending ∧ my_ballot ii' = my_ballot ii ∧
     p1_value ii' = None ∧ p2_value ii' = Some vw) ∧
    (chosen_value l ii vw l' ∧ heap (vh s') !! vw = Some w ∧ heap (vh s') = heap (vh s)) ∧
    accs base id (items ++ [mk_accept_req (ii_iid ii) (my_ballot ii) (vw_value w)]) (to_acceptors s') ∧
    frame s s' ∧ p1_info s' = p1_info s ∧ p2_info s' = p2_info s) s.
Proof.
  intros Hm Hk Hval Hh. pose proof (arr_get_lt _ _ _ Hk) as Hlt.
  assert (∀ st x, length st = length (proposer_state s) → arr_get (arr_set st k x) k = Some x) as Hget.
  { intros st x Hst. apply arr_get_set_eq. by rewrite Hst. }
  unfold leader_execute_p2. wp_steps. eapply wp_get_ii; [done|]. wp_steps.
  apply (wp_mono _ (λ _ s1, ∃ l' ii' vw v', mem_ok l' (arr_set (proposer_state s) k ii') v' ∧
    heap v' = heap (vh s) ∧
    (ii_iid ii' = ii_iid ii ∧ my_ballot ii' = my_ballot ii ∧
     p1_value ii' = None ∧ p2_value ii' = Some vw) ∧ chosen_value l ii vw l' ∧
    s1 = s <| proposer_state := arr_set (proposer_state s) k ii' |> <| vh := v' |>)).
  - unfold chosen_value. destruct (p1_value ii) as [q|] eqn:E1; [|destruct (p2_value ii) as [q|] eqn:E2]; cbn [is_null negb andb].
    + eapply wp_upd_ii; [done|].
      exists l, (ii <| p2_value := p1_value ii |> <| p1_value := None |> <| p1_value_ballot := 0 |>), q, (vh s).
      split; [by eapply mem_ok_move|]. by destruct s.
    + apply wp_ret. exists l, ii, q, (vh s). rewrite arr_set_same by done. split; [done|].
      split; [done|]. split; [done|]. split; [done|]. by destruct s.
    + wp_steps. eapply wp_next_pending; [done| |].
      { intros ->. exfalso. destruct Hval as [Hv|[Hv|Hv]]; done. }
      intros vw x l' v' -> Hm' Hun Hal Hheap. wp_steps. eapply wp_upd_ii; [done|].
      apply wp_assert; [done|].
      exists l', (ii <| p2_value := Some vw |>), vw, v'. split; [by eapply mem_ok_take2|].
      split; [done|]. split; [done|]. by split; [exists x|].
  - intros [] s1 (l' & ii' & vw & v' & Hm' & Hheap & (H1 & H2 & H3 & H4) & Hc & ->). wp_steps.
    eapply wp_upd_ii; [cbn; by apply Hget|]. wp_steps. eapply wp_get_ii; [cbn; apply Hget, length_arr_set|].
    wp_steps. eapply wp_lift_opt; [done|]. wp_steps.
    destruct (mem_ok_p2 _ _ _ k ii' vw Hm') as (w & Hw & Hok); [by apply Hget|done|].
    apply wp_on_vh. eapply wp_deref; [done|]. wp_steps.
    eapply wp_add_accept; [done|done|]. intros sb Hsb. cbn in Hsb.
    eapply wp_set_expiration; [cbn; apply Hget, length_arr_set|]. intros t n. cbn.
    rewrite !arr_set_set. exists l', (ii' <| ii_status := p2_pending |> <| ii_timeout := t |>), vw, w.
    split; [by eapply mem_ok_reset|]. split; [done|]. split; [done|]. split; [done|].
    split; [by rewrite <-H1, <-H2|]. done.
Qed.

(** [active] after phase 2 is executed. *)
Lemma active_p2 id nxt nxt' iid ii ii' :
  active id nxt iid ii → ii_iid ii' = ii_iid ii → ii_status ii' = p2_pending →
  my_ballot ii' = my_ballot ii → p2_value ii' ≠ None → iid < nxt' → active id nxt' iid ii'.
Proof. intros [] H1 H2 H3 H4 Hlt. constructor; rewrite ?H1, ?H2, ?H3; done || lia. Qed.

Lemma open_p2_expired_loop_spec base id l cur hi nxt iids count items s :
  lead_ok l cur hi nxt s → Forall (λ iid, cur ≤ iid < nxt) iids →
  accs base id items (to_acceptors s) →
  wp (open_p2_expired_loop iids count) (λ _ s',
    lead_ok l cur hi nxt s' ∧ frame s s' ∧ same_counts s s' ∧
    ∃ items', accs base id items' (to_acceptors s')) s.
Proof.
  revert count items s. induction iids as [|iid iids IH]; intros count items s [Hm W] Hall Hh.
  { apply wp_ret. split; [done|]. split; [done|]. split; [done|]. by eexists. }
  apply list.Forall_cons in Hall as [Hi Hall]. pose proof (wn_range _ _ _ _ _ W) as Hr.
  destruct (win_get _ _ _ _ _ W iid) as (ii & Hii & Ha); [lia|].
  cbn [open_p2_expired_loop]. wp_steps. eapply wp_get_ii; [done|]. wp_steps.
  apply wp_assert; [apply Z.eqb_eq, (ac_iid _ _ _ _ Ha)|].
  destruct (decide (ii_status ii = p1_ready)) as [Hst|Hst]; [|by eapply IH].
  pose proof (ac_value _ _ _ _ Ha ltac:(lia)) as Hv.
  wp_steps. apply wp_assert; [by destruct (p2_value ii)|]. wp_steps.
  eapply wp_mono; [eapply leader_execute_p2_spec; [done|done|by auto|done]|].
  intros _ s1 (l' & ii' & vw & w & Hm1 & Hs1 & (E1 & E2 & E3 & E4 & E5) & (Hc & Hw & _) & Hh1 & Hf1 & Hp1 & Hp2).
  assert (l' = l) as ->.
  { unfold chosen_value in Hc. destruct (p1_value ii); [by destruct Hc|].
    destruct (p2_value ii); [by destruct Hc|done]. }
  eapply wp_mono; [eapply IH; [|done|done]|].
  - constructor; [done|]. pose proof Hf1 as [-> _]. rewrite Hs1. apply win_set; [done|lia|].
    eapply active_p2; [done|done|done|done|by rewrite E5|lia].
  - intros _ s2 (Hok2 & Hf2 & Hc2 & Hh2). split; [done|]. split; [by etrans|]. split; [|done].
    etrans; [|done]. split_and!; [done|done|..]; rewrite Hs1.
    + rewrite (tally_set_to false false _ _ _ _ _ Hii); [lia|..]; unfold is_pending; by rewrite ?Hst, ?E2.
    + rewrite (tally_set_to true true _ _ _ _ _ Hii); [lia|..]; unfold is_open; rewrite ?Hst, ?E2; [|done].
      by destruct (p2_value ii).
Qed.

Lemma seqZ_Forall m n (Pz : Z → Prop) : (∀ i, m ≤ i < m + n → Pz i) → Forall Pz (seqZ m n).
Proof. intros H. apply list.Forall_forall. intros i [? ?]%elem_of_seqZ. apply H. lia. Qed.

Lemma leader_open_instances_p2_expired_spec l hi s :
  lead_ok l (current_iid s) hi (next_unused_iid (p2_info s)) s →
  wp leader_open_instances_p2_expired (λ _ s',
    lead_ok l (current_iid s) hi (next_unused_iid (p2_info s)) s' ∧ frame s s' ∧
    pending_count (p1_info s') = pending_count (p1_info s) ∧
    highest_open (p1_info s') = highest_open (p1_info s) ∧ p2_info s' = p2_info s ∧
    tally is_pending (proposer_state s') = tally is_pending (proposer_state s) ∧
    tally is_open (proposer_state s') = tally is_open (proposer_state s)) s.
Proof.
  intros Hok. unfold leader_open_instances_p2_expired. wp_steps. apply wp_on_acceptors.
  apply (wp_clear_holds AcceptReqs ACCEPT_REQ_SIZE); [done|]. intros sb Hsb. wp_steps.
  eapply wp_mono; [eapply (open_p2_expired_loop_spec _ _ l (current_iid s) hi (next_unused_iid (p2_info s)))|].
  - destruct Hok. by constructor.
  - apply seqZ_Forall. intros i Hi. lia.
  - done.
  - intros c s1 ([Hm W] & Hf & (Hp1 & Hp2 & Ht1 & Ht2) & items & Hh). wp_steps.
    eapply wp_flush; [done|]. intros sb' _. cbn. split; [by constructor|].
    split; [done|]. rewrite Hp1. done.
Qed.

(** The slot of [nxt]: an instance phase 1 was opened for, or a free slot. *)
Lemma win_nxt id cur hi nxt st :
  win id cur hi nxt st → ∃ ii, arr_get st (pro_index nxt) = Some ii ∧ p2_value ii = None ∧
    (ii_status ii = p1_ready → nxt ≤ hi ∧ active id nxt nxt ii).
Proof.
  intros W. pose proof (wn_range _ _ _ _ _ W) as Hr. destruct (decide (nxt ≤ hi)) as [Hle|Hgt].
  - destruct (win_get _ _ _ _ _ W nxt) as (ii & Hii & Ha); [lia|]. exists ii. split; [done|].
    split; [|done]. by apply (ac_fresh _ _ _ _ Ha).
  - destruct (win_out _ _ _ _ _ W nxt) as (ii & Hii & t & ->); [lia|]. by eexists.
Qed.

(** [n] is the number of instances the loop opens. *)
Lemma open_p2_new_loop_spec base id l cur hi fuel count items s :
  lead_ok l cur hi (next_unused_iid (p2_info s)) s →
  0 ≤ count → 0 ≤ open_count (p2_info s) → count + open_count (p2_info s) ≤ PROPOSER_P2_CONCURRENCY + 1 →
  PROPOSER_P2_CONCURRENCY + 1 < count + open_count (p2_info s) + Z.of_nat fuel →
  accs base id items (to_acceptors s) →
  wp (open_p2_new_loop fuel count) (λ c s', ∃ l' n,
    c = count + n ∧ 0 ≤ n ∧ count + n + open_count (p2_info s) ≤ PROPOSER_P2_CONCURRENCY + 1 ∧
    lead_ok l' cur hi (next_unused_iid (p2_info s')) s' ∧ frame s s' ∧ p1_info s' = p1_info s ∧
    p2_info s' = mk_phase2 (next_unused_iid (p2_info s) + n) (open_count (p2_info s)) ∧
    tally is_pending (proposer_state s') = tally is_pending (proposer_state s) ∧
    tally is_open (proposer_state s') = tally is_open (proposer_state s) + n ∧
    ∃ items', accs base id items' (to_acceptors s')) s.
Proof.
  revert l count items s. induction fuel as [|fuel IH]; intros l count items s Hok Hc Ho Hsum Hfuel Hh; [lia|].
  assert (∀ s', lead_ok l cur hi (next_unused_iid (p2_info s)) s' → p2_info s' = p2_info s →
    proposer_state s' = proposer_state s → p1_info s' = p1_info s → frame s s' →
    to_acceptors s' = to_acceptors s → wp (mret count) (λ c s', ∃ l' n,
    c = count + n ∧ 0 ≤ n ∧ count + n + open_count (p2_info s) ≤ PROPOSER_P2_CONCURRENCY + 1 ∧
    lead_ok l' cur hi (next_unused_iid (p2_info s')) s' ∧ frame s s' ∧ p1_info s' = p1_info s ∧
    p2_info s' = mk_phase2 (next_unused_iid (p2_info s) + n) (open_count (p2_info s)) ∧
    tally is_pending (proposer_state s') = tally is_pending (proposer_state s) ∧
    tally is_open (proposer_state s') = tally is_open (proposer_state s) + n ∧
    ∃ items', accs base id items' (to_acceptors s')) s') as Hstop.
  { intros s' Hok' H2 Hst H1 Hf Hto. apply wp_ret. exists l, 0. rewrite !Z.add_0_r, H2, Hst, Hto.
    split_and!; try done; [by destruct (p2_info s)|by eexists]. }
  cbn [open_p2_new_loop]. wp_steps.
  unfold PROPOSER_P2_CONCURRENCY in *. rewrite (wrap_small 32 (count + _)) by lia.
  destruct (Z.leb_spec (count + open_count (p2_info s)) 3) as [Hle|Hgt]; [|by apply Hstop].
  destruct Hok as [Hm W]. pose proof (wn_range _ _ _ _ _ W) as Hr.
  destruct (win_nxt _ _ _ _ _ W) as (ii & Hii & Hp2 & Hready).
  wp_steps. eapply wp_get_ii; [done|]. wp_steps. apply wp_assert; [by rewrite Hp2|].
  destruct (is_null (p1_value ii) && (vh_list_size (vh s) =? 0)) eqn:Eval; [by apply Hstop|].
  assert (p1_value ii ≠ None ∨ p2_value ii ≠ None ∨ l ≠ []) as Hval.
  { rewrite (vr_size _ _ (mo_rep _ _ _ Hm)) in Eval.
    destruct (p1_value ii); [by left|]. right; right. by intros ->. }
  wp_case; [wp_steps; by apply Hstop|]. zbool.
  match goal with H : ¬ (_ ≠ _) |- _ => apply dec_stable in H; rename H into Hst end.
  destruct (Hready Hst) as [Hnh Ha].
  wp_steps. eapply wp_mono; [eapply leader_execute_p2_spec; [done|done|exact Hval|done]|].
  intros _ s1 (l' & ii' & vw & w & Hm1 & Hs1 & (E1 & E2 & E3 & E4 & E5) & _ & Hh1 & Hf1 & Hp1 & Hp2').
  wp_steps. rewrite (wrap_small 32 (count + 1)) by lia.
  set (s2 := s1 <| p2_info ::= λ p, p <| next_unused_iid := u32 (next_unused_iid p + 1) |> |>).
  assert (p2_info s2 = mk_phase2 (next_unused_iid (p2_info s) + 1) (open_count (p2_info s))) as Ep2.
  { unfold s2. cbn. rewrite Hp2', wrap_small by lia. done. }
  eapply wp_mono; [eapply (IH l')|]; rewrite ?Ep2; cbn [next_unused_iid open_count]; try lia; [|done|].
  - constructor; [done|]. cbn. pose proof Hf1 as [-> _]. rewrite Hs1. apply win_next; [done|lia|].
    eapply active_p2; [done|done|done|done|by rewrite E5|lia].
  - intros c s3 (l3 & n & Hc3 & Hn3 & Hsum3 & Hok3 & Hf3 & Hp13 & Hp23 & Ht1 & Ht2 & Hit).
    exists l3, (n + 1). cbn [next_unused_iid open_count] in *.
    split; [lia|]. split; [lia|]. split; [lia|]. split; [done|]. split; [by etrans|].
    split; [by rewrite Hp13|]. split; [rewrite Hp23; f_equal; lia|]. rewrite Ht1, Ht2.
    unfold s2. cbn. rewrite Hs1. split; [|split; [|done]].
    + rewrite (tally_set_to false false _ _ _ _ _ Hii); [lia|..]; unfold is_pending; by rewrite ?Hst, ?E2.
    + rewrite (tally_set_to false true _ _ _ _ _ Hii); [cbn; lia|..]; unfold is_open; by rewrite ?Hst, ?E2, ?Hp2.
Qed.

(** The state a leader is in, with the counters; [cur] is the instance that is
    delivered next. *)
Record leading l (cur : Z) s : Prop := {
  ld_ok : lead_ok l cur (highest_open (p1_info s)) (next_unused_iid (p2_info s)) s;
  ld_pending : pending_count (p1_info s) = u32 (tally is_pending (proposer_state s));
  ld_open : open_count (p2_info s) = u32 (tally is_open (proposer_state s))
}.

Lemma leader_open_instances_p2_new_spec l cur s :
  leading l cur s →
  wp leader_open_instances_p2_new (λ _ s', ∃ l', leading l' cur s' ∧ frame s s' ∧
    highest_open (p1_info s') = highest_open (p1_info s)) s.
Proof.
  intros [Hok Hpc Hoc]. unfold leader_open_instances_p2_new. wp_steps.
  assert (0 ≤ open_count (p2_info s)) as Hpos.
  { rewrite Hoc. apply (wrap_range 32). lia. }
  destruct (PROPOSER_P2_CONCURRENCY / 3 * 2 <? open_count (p2_info s)) eqn:Eth.
  { wp_steps. exists l. split; [by constructor|done]. }
  assert (open_count (p2_info s) ≤ 2) as Hle.
  { apply Z.ltb_ge in Eth. assert (PROPOSER_P2_CONCURRENCY / 3 * 2 = 2) as E by done. lia. }
  wp_steps. apply wp_on_acceptors.
  apply (wp_clear_holds AcceptReqs ACCEPT_REQ_SIZE); [done|]. intros sb Hsb. wp_steps.
  eapply wp_mono.
  - eapply (open_p2_new_loop_spec _ _ l cur (highest_open (p1_info s))); cbn;
      [destruct Hok; by constructor|lia|done|unfold PROPOSER_P2_CONCURRENCY; lia|unfold PROPOSER_P2_CONCURRENCY; lia|done].
  - cbn. intros c s1 (l' & n & -> & Hn & Hsum & [Hm W] & Hf & Hp1 & Hp2 & Ht1 & Ht2 & items & Hh).
    wp_steps. eapply wp_flush; [done|]. intros sb' _. exists l'. split; [|split; [done|by cbn; rewrite Hp1]].
    constructor; cbn.
    + constructor; cbn; [done|]. rewrite Hp1. done.
    + rewrite Hp1, Ht1. done.
    + rewrite Hp2, Ht2. cbn. rewrite Hoc. apply u32_plus_l.
Qed.

Lemma wp_learner_is_closed i (Q : bool → proposer → Prop) s :
  Z.of_nat (length (learner_state (lea s))) = LEARNER_ARRAY_SIZE →
  (∀ b, Q b s) → wp (on_learner (Learner.learner_is_closed i)) Q s.
Proof.
  intros Hlen HQ. unfold on_learner, Learner.learner_is_closed, GET_LEA_INSTANCE. wp_steps.
  destruct (arr_get_is_Some (learner_state (lea s)) (lea_index i)) as [x Hx].
  { rewrite Hlen. apply lea_index_range. }
  eapply wp_lift_opt; [done|]. wp_steps. specialize (HQ ((i =? li_iid x) && IS_CLOSED x)).
  by destruct s.
Qed.

(** One instance in phase 2 is found closed, or restarts from phase 1. *)
Lemma p2_check_body_spec base id l cur now i items s :
  leading l cur s → cur ≤ i < next_unused_iid (p2_info s) →
  Z.of_nat (length (learner_state (lea s))) = LEARNER_ARRAY_SIZE →
  preps base id items (to_acceptors s) →
  wp (p2_check_body now i) (λ _ s',
    leading l cur s' ∧ frame s s' ∧ next_unused_iid (p2_info s') = next_unused_iid (p2_info s) ∧
    highest_open (p1_info s') = highest_open (p1_info s) ∧
    ∃ items', preps base id items' (to_acceptors s')) s.
Proof.
  intros Hl Hi Hlea Hh. pose proof Hl as [[Hm W] Hpc Hoc].
  pose proof (wn_range _ _ _ _ _ W) as Hr.
  destruct (win_get _ _ _ _ _ W i) as (ii & Hii & Ha); [lia|].
  pose proof (ac_value _ _ _ _ Ha ltac:(lia)) as Hv.
  assert (∀ st x, length st = length (proposer_state s) →
    arr_get (arr_set st (pro_index i) x) (pro_index i) = Some x) as Hget.
  { intros st x Hst. apply arr_get_set_eq. rewrite Hst. by apply (arr_get_lt _ _ _ Hii). }
  assert (leading l cur s ∧ frame s s ∧ next_unused_iid (p2_info s) = next_unused_iid (p2_info s) ∧
    highest_open (p1_info s) = highest_open (p1_info s) ∧
    ∃ items', preps base id items' (to_acceptors s)) as Hsame by (split_and!; try done; by eexists).
  unfold p2_check_body. wp_steps. eapply wp_get_ii; [done|]. wp_steps.
  destruct (decide (ii_status ii ≠ p2_pending)) as [Hst|Hst]; [by apply wp_ret|].
  apply dec_stable in Hst. wp_steps. apply wp_learner_is_closed; [done|]. intros [|].
  - wp_steps. eapply wp_upd_ii; [done|]. wp_steps. split; [|split; [done|split; [done|split; [done|by eexists]]]].
    constructor; cbn.
    + constructor; cbn; [by eapply mem_ok_same|]. apply win_set; [done|lia|].
      destruct Ha. constructor; cbn; [done..|]. lia.
    + rewrite (tally_set_to false false _ _ _ _ _ Hii); [rewrite Hpc; f_equal; lia|..]; unfold is_pending; by rewrite ?Hst.
    + rewrite (tally_set_to true false _ _ _ _ _ Hii); [|by unfold is_open; rewrite Hst|done].
      rewrite Hoc, u32_minus_l. f_equal. cbn. lia.
  - wp_case; [by apply wp_ret|]. wp_steps. eapply wp_upd_ii; [done|]. wp_steps.
    eapply wp_upd_ii; [cbn; by apply Hget|]. wp_steps.
    eapply wp_get_ii; [cbn; apply Hget, length_arr_set|]. wp_steps.
    eapply wp_add_prepare; [done|]. intros sb Hsb. wp_steps.
    eapply wp_set_expiration; [cbn; apply Hget, length_arr_set|]. intros t n. wp_steps. cbn.
    rewrite !arr_set_set. split; [|split; [done|split; [done|split; [done|by eexists]]]].
    constructor; cbn.
    + constructor; cbn; [by eapply mem_ok_same|]. apply win_set; [done|lia|].
      destruct Ha. constructor; cbn; [done|done|by apply next_ballot_ok|done|lia].
    + rewrite (tally_set_to false true _ _ _ _ _ Hii); [|by unfold is_pending; rewrite Hst|done].
      rewrite Hpc, u32_plus_l. f_equal. cbn. lia.
    + rewrite (tally_set_to true true _ _ _ _ _ Hii); [rewrite Hoc; f_equal; lia|by unfold is_open; rewrite Hst|].
      unfold is_open. cbn. by destruct (p2_value ii).
Qed.

(** The parts of the learner the proposer relies on. *)
Definition lea_ok s : Prop := Z.of_nat (length (learner_state (lea s))) = LEARNER_ARRAY_SIZE.

Lemma leading_proj l cur s s' :
  leading l cur s → this_proposer_id s' = this_proposer_id s →
  proposer_state s' = proposer_state s → vh s' = vh s → p1_info s' = p1_info s → p2_info s' = p2_info s →
  leading l cur s'.
Proof.
  intros [[Hm W] Hp Ho] H1 H2 H3 H4 H5.
  constructor; [constructor|..]; rewrite ?H1, ?H2, ?H3, ?H4, ?H5; done.
Qed.

Lemma leader_periodic_p2_check_spec l s :
  leading l (current_iid s) s → lea_ok s →
  wp leader_periodic_p2_check (λ _ s', ∃ l', leading l' (current_iid s) s' ∧ frame s s' ∧
    highest_open (p1_info s') = highest_open (p1_info s)) s.
Proof.
  intros Hl Hlea. unfold leader_periodic_p2_check, gettimeofday, event_add. wp_steps.
  apply wp_on_acceptors.
  apply (wp_clear_holds PrepareReqs prepare_req_size); [done|]. intros sb Hsb. wp_steps.
  unfold for_lt.
  apply (wp_mfor_inv (λ s', leading l (current_iid s) s' ∧ frame s s' ∧
    next_unused_iid (p2_info s') = next_unused_iid (p2_info s) ∧
    highest_open (p1_info s') = highest_open (p1_info s) ∧
    ∃ items, preps (sent (to_acceptors s)) (this_proposer_id s) items (to_acceptors s'))).
  - split; [by eapply leading_proj|]. split_and!; try done. by eexists.
  - intros i s1 Hin (Hl1 & Hf & Hn & Hhi & items & Hp). apply elem_of_seqZ in Hin. cbn in Hin.
    eapply wp_mono; [eapply p2_check_body_spec; [done|lia| |done]|].
    + unfold lea_ok in Hlea. by destruct Hf as (_ & _ & _ & ->).
    + intros _ s2 (Hl2 & Hf2 & Hn2 & Hhi2 & Hp2). split; [done|]. split; [by etrans|].
      split_and!; [congruence|congruence|done].
  - intros s1 (Hl1 & Hf & Hn & Hhi & items & Hp). wp_steps. eapply wp_flush; [done|]. intros sb' _.
    wp_steps. eapply wp_mono; [eapply (leader_open_instances_p2_new_spec l (current_iid s))|].
    { by eapply leading_proj. }
    intros _ s2 (l' & Hl2 & Hf2 & Hhi2). wp_steps. exists l'. split; [by eapply leading_proj|].
    split; [by do 2 (etrans; [done|])|]. cbn in *. congruence.
Qed.

(** [leader_periodic_p1_check] runs while the window has room. *)
Record p1_room (cur : Z) s : Prop := {
  pm_ready : 0 ≤ ready_count (p1_info s);
  pm_sum : pending_count (p1_info s) + ready_count (p1_info s) < 2 ^ 31;
  pm_slots : highest_open (p1_info s) + PROPOSER_PREEXEC_WIN_SIZE + 1 < cur + PROPOSER_ARRAY_SIZE;
  pm_max : highest_open (p1_info s) + PROPOSER_PREEXEC_WIN_SIZE < 2 ^ 32 - 1
}.

Lemma leader_periodic_p1_check_spec l nxt s :
  lead_ok l (current_iid s) (highest_open (p1_info s)) nxt s → p1_room (current_iid s) s →
  pending_count (p1_info s) = u32 (tally is_pending (proposer_state s)) →
  wp leader_periodic_p1_check (λ _ s',
    lead_ok l (current_iid s) (highest_open (p1_info s')) nxt s' ∧ frame s s' ∧
    p2_info s' = p2_info s ∧
    pending_count (p1_info s') = u32 (tally is_pending (proposer_state s')) ∧
    tally is_open (proposer_state s') = tally is_open (proposer_state s) ∧
    p1_info s' = mk_phase1 (u32 (pending_count (p1_info s) + p1_to_open (p1_info s)))
      (ready_count (p1_info s)) (highest_open (p1_info s) + p1_to_open (p1_info s))) s.
Proof.
  intros Hok [Hr1 Hr2 Hr3 Hr4] Hpc. unfold leader_periodic_p1_check, event_add. wp_steps.
  eapply wp_mono; [by eapply leader_check_p1_pending_spec|].
  intros _ s1 (Hok1 & Hf1 & (Hp1 & Hp2 & Ht1 & Ht2)). wp_steps.
  pose proof Hf1 as (_ & _ & Hcur & _).
  assert (0 ≤ pending_count (p1_info s)) as Hpos.
  { rewrite Hpc. apply (wrap_range 32). lia. }
  eapply wp_mono.
  - apply (leader_open_instances_p1_spec l (current_iid s) nxt); rewrite ?Hp1; done.
  - intros _ s2 (Hok2 & Hf2 & Hp22 & Hp12 & Ht12 & Ht22 & _). wp_steps. cbn.
    rewrite Hp1 in *. rewrite Hp12. cbn. split; [by destruct Hok2; constructor|].
    split; [by etrans|]. split_and!; [congruence| |congruence|done].
    rewrite Ht12, Ht1, Hpc, u32_plus_l. done.
Qed.

(** An instance leaves the window: its value goes back to the pending list or
    is freed. *)
Lemma wp_clear_window l cur hi nxt ii (Q : unit → proposer → Prop) s :
  lead_ok l cur hi nxt s → cur ≤ hi → arr_get (proposer_state s) (pro_index cur) = Some ii →
  (∀ v', lead_ok l (cur + 1) hi (Z.max nxt (cur + 1))
      (s <| proposer_state := arr_set (proposer_state s) (pro_index cur) (cleared_inst ii) |> <| vh := v' |>) →
     Q tt (s <| proposer_state := arr_set (proposer_state s) (pro_index cur) (cleared_inst ii) |> <| vh := v' |>)) →
  wp (pro_clear_instance_info (pro_index cur)) Q s.
Proof.
  intros [Hm W] Hle Hii HQ. eapply wp_clear; [done|done|]. intros v' Hm' Hn. apply HQ.
  constructor; [done|]. apply win_deliver; [done|done|by eexists].
Qed.

(** The same, after its [p2_value] was pushed back. *)
Lemma wp_push_clear l cur hi nxt ii vw (Q : unit → proposer → Prop) s :
  lead_ok l cur hi nxt s → cur ≤ hi → arr_get (proposer_state s) (pro_index cur) = Some ii →
  p2_value ii = Some vw →
  (∀ w v', heap (vh s) !! vw = Some w →
     lead_ok ((vw, vw_value w) :: l) (cur + 1) hi (Z.max nxt (cur + 1))
      (s <| proposer_state := arr_set (proposer_state s) (pro_index cur) (cleared_inst ii) |> <| vh := v' |>) →
     Q tt (s <| proposer_state := arr_set (proposer_state s) (pro_index cur) (cleared_inst ii) |> <| vh := v' |>)) →
  wp (on_vh (vh_push_back_value vw)) (λ _ s1,
    wp (upd_ii (pro_index cur) (λ ii, ii <| p2_value := None |>)) (λ _ s2,
      wp (pro_clear_instance_info (pro_index cur)) Q s2) s1) s.
Proof.
  intros [Hm W] Hle Hii H2 HQ.
  pose proof (arr_get_lt _ _ _ Hii) as Hlt.
  eapply wp_push_back_p2; [done|done|done|]. intros w v' Hw Hm' Hn. wp_steps.
  eapply wp_upd_ii; [done|]. wp_steps.
  eapply wp_clear; [cbn; by apply arr_get_set_eq|done|]. intros v2 Hm2 _. cbn in *.
  rewrite !arr_set_set in *. apply (HQ w); [done|]. constructor; [done|]. cbn.
  apply win_deliver; [done|done|by eexists].
Qed.

Lemma shutdown_body_spec l cur hi nxt s :
  lead_ok l cur hi nxt s → cur ≤ hi →
  wp (shutdown_body cur) (λ _ s', ∃ l',
    lead_ok l' (cur + 1) hi (Z.max nxt (cur + 1)) s' ∧ frame s s' ∧ armed s' = armed s) s.
Proof.
  intros Hok Hle. pose proof Hok as [Hm W].
  destruct (win_get _ _ _ _ _ W cur) as (ii & Hii & Ha); [lia|].
  unfold shutdown_body. wp_steps. eapply wp_get_ii; [done|].
  destruct (p2_value ii) as [vw|] eqn:E2; [destruct (decide (ii_status ii ≠ p2_completed))|]; wp_steps.
  - eapply wp_push_clear; [done|done|done|done|]. intros w v' _ Hok'. by eexists.
  - eapply wp_clear_window; [done|done|done|]. intros v' Hok'. by eexists.
  - eapply wp_clear_window; [done|done|done|]. intros v' Hok'. by eexists.
Qed.

Lemma lead_ok_proj l cur hi nxt s s' :
  lead_ok l cur hi nxt s → this_proposer_id s' = this_proposer_id s →
  proposer_state s' = proposer_state s → vh s' = vh s → lead_ok l cur hi nxt s'.
Proof. intros [Hm W] H1 H2 H3. constructor; by rewrite ?H1, ?H2, ?H3. Qed.

(** The counters after [leader_deliver] looked at the instance. *)
Definition deliver_counts iid ii s : proposer :=
  s <| p1_info ::= λ p, p <| pending_count := u32 (pending_count p - Z.b2z (is_pending ii)) |> |>
    <| p2_info := mk_phase2 (if next_unused_iid (p2_info s) =? iid
                             then u32 (next_unused_iid (p2_info s) + 1) else next_unused_iid (p2_info s))
                    (u32 (open_count (p2_info s) - Z.b2z (is_open ii))) |>.

(** The same, with the instance cleared: the rest of the window is in order. *)
Lemma deliver_leading l l' cur ii s s2 v' :
  leading l cur s → cur ≤ highest_open (p1_info s) →
  arr_get (proposer_state s) (pro_index cur) = Some ii → s2 = deliver_counts cur ii s →
  lead_ok l' (cur + 1) (highest_open (p1_info s)) (Z.max (next_unused_iid (p2_info s)) (cur + 1))
    (s2 <| proposer_state := arr_set (proposer_state s2) (pro_index cur) (cleared_inst ii) |> <| vh := v' |>) →
  leading l' (cur + 1)
    (s2 <| proposer_state := arr_set (proposer_state s2) (pro_index cur) (cleared_inst ii) |> <| vh := v' |>).
Proof.
  intros [[Hm W] Hpc Hoc] Hle Hii -> Hok. pose proof (wn_range _ _ _ _ _ W) as Hr.
  constructor; cbn in *.
  - replace (if next_unused_iid (p2_info s) =? cur then _ else _)
      with (Z.max (next_unused_iid (p2_info s)) (cur + 1)); [by eapply lead_ok_proj|].
    destruct (Z.eqb_spec (next_unused_iid (p2_info s)) cur); [rewrite wrap_small; lia|lia].
  - rewrite (tally_set _ _ _ _ _ Hii), Hpc, u32_minus_l. f_equal.
    change (is_pending (cleared_inst ii)) with false. cbn. lia.
  - rewrite (tally_set _ _ _ _ _ Hii), Hoc, u32_minus_l. f_equal.
    change (is_open (cleared_inst ii)) with false. cbn. lia.
Qed.

Lemma wp_deliver_counts iid ii (rest : P unit) (Q : unit → proposer → Prop) s :
  0 ≤ pending_count (p1_info s) < 2 ^ 32 → 0 ≤ open_count (p2_info s) < 2 ^ 32 →
  wp rest Q (deliver_counts iid ii s) →
  wp ((if decide (ii_status ii = p1_pending)
       then modify (λ s, s <| p1_info ::= λ p, p <| pending_count := u32 (pending_count p - 1) |> |>)
       else mret tt);;
      modify (λ s, if next_unused_iid (p2_info s) =? iid
                   then s <| p2_info ::= λ p, p <| next_unused_iid := u32 (next_unused_iid p + 1) |> |>
                   else s);;
      (if (bool_decide (ii_status ii = p1_pending) && negb (is_null (p2_value ii)))
          || (bool_decide (ii_status ii = p1_ready) && negb (is_null (p2_value ii)))
          || bool_decide (ii_status ii = p2_pending)
       then modify (λ s, s <| p2_info ::= λ p, p <| open_count := u32 (open_count p - 1) |> |>)
       else mret tt);;
      rest) Q s.
Proof.
  intros Hp Ho HQ.
  replace ((bool_decide (ii_status ii = p1_pending) && negb (is_null (p2_value ii)))
             || (bool_decide (ii_status ii = p1_ready) && negb (is_null (p2_value ii)))
             || bool_decide (ii_status ii = p2_pending)) with (is_open ii).
  2: { unfold is_open. destruct (ii_status ii), (p2_value ii); done. }
  unfold deliver_counts in HQ. destruct s as [? ? ? ? ? ? ? [pc rc ho] [nu oc] ? ? ? ? ? ?]. cbn in Hp, Ho, HQ.
  unfold is_pending in HQ. destruct (decide (ii_status ii = p1_pending)) as [E|E].
  - rewrite bool_decide_eq_true_2 in HQ by done. wp_steps. cbn.
    destruct (nu =? iid), (is_open ii); wp_steps; cbn in HQ |- *; rewrite ?Z.sub_0_r, ?(wrap_small 32 oc) in HQ by done; done.
  - rewrite bool_decide_eq_false_2 in HQ by done. wp_steps. cbn in *.
    rewrite Z.sub_0_r, (wrap_small 32 pc) in HQ by done.
    destruct (nu =? iid), (is_open ii); wp_steps; cbn in HQ |- *; rewrite ?Z.sub_0_r, ?(wrap_small 32 oc) in HQ by done; done.
Qed.

Lemma leader_deliver_spec l cur value s :
  leading l cur s → cur ≤ highest_open (p1_info s) →
  wp (leader_deliver value cur) (λ _ s', ∃ l', leading l' (cur + 1) s' ∧ frame s s' ∧
    highest_open (p1_info s') = highest_open (p1_info s)) s.
Proof.
  intros Hl Hle. pose proof Hl as [[Hm W] Hpc Hoc].
  destruct (win_get _ _ _ _ _ W cur) as (ii & Hii & Ha); [lia|].
  unfold leader_deliver. cbv zeta. wp_steps. eapply wp_get_ii; [done|].
  rewrite (proj2 (Z.eqb_eq _ _) (ac_iid _ _ _ _ Ha)). cbn [negb].
  apply (wp_deliver_counts cur ii); [rewrite Hpc; by apply (wrap_range 32)|rewrite Hoc; by apply (wrap_range 32)|].
  assert (lead_ok l cur (highest_open (p1_info s)) (next_unused_iid (p2_info s)) (deliver_counts cur ii s)) as Hok1.
  { by eapply lead_ok_proj. }
  set (s1 := deliver_counts cur ii s) in *.
  assert (arr_get (proposer_state s1) (pro_index cur) = Some ii) as Hii1 by done.
  assert (∀ l' v', lead_ok l' (cur + 1) (highest_open (p1_info s)) (Z.max (next_unused_iid (p2_info s)) (cur + 1))
    (s1 <| proposer_state := arr_set (proposer_state s1) (pro_index cur) (cleared_inst ii) |> <| vh := v' |>) →
    wp leader_open_instances_p2_new (λ _ s', ∃ l', leading l' (cur + 1) s' ∧ frame s s' ∧
      highest_open (p1_info s') = highest_open (p1_info s))
      (s1 <| proposer_state := arr_set (proposer_state s1) (pro_index cur) (cleared_inst ii) |> <| vh := v' |>)) as Hfin.
  { intros l' v' Hok'. eapply wp_mono.
    - eapply leader_open_instances_p2_new_spec, deliver_leading; done.
    - intros _ s' (l2 & Hl2 & Hf2 & Hhi). exists l2. done. }
  destruct (p2_value ii) as [vw|] eqn:E2.
  - destruct (mem_ok_p2 _ _ _ _ _ _ Hm Hii E2) as (w & Hw & _).
    wp_steps. apply wp_on_vh. eapply wp_deref; [done|].
    destruct (decide (vw_value w = value)); wp_steps.
    + apply wp_on_vh. eapply vh_notify_client_spec; [done|]. wp_steps.
      eapply (wp_clear_window l cur _ (next_unused_iid (p2_info s))); [|done|done|].
      * destruct Hok1 as [Hm1 W1]. constructor; [|done]. destruct Hm1 as [[] ? ? ?]. done.
      * intros v' Hok'. wp_steps. by eapply Hfin.
    + eapply wp_mono.
      * eapply (wp_push_clear l cur _ (next_unused_iid (p2_info s)) ii vw
          (λ _ s3, wp leader_open_instances_p2_new _ s3)); [by eapply lead_ok_proj|done|done|done|].
        intros w' v' _ Hok'. by eapply Hfin.
      * intros [] s2 H. eapply wp_mono; [exact H|]. intros [] s3 H3. by apply wp_bind.
  - wp_steps. eapply wp_clear_window; [done|done|done|]. intros v' Hok'. by eapply Hfin.
Qed.

(** ** Becoming and ceasing to be the leader *)

Definition all_clear st : Prop :=
  Z.of_nat (length st) = PROPOSER_ARRAY_SIZE ∧ ∀ k ii, arr_get st k = Some ii → clear ii.

Lemma all_clear_win id cur st : all_clear st → 1 ≤ cur < 2 ^ 32 → win id cur (cur - 1) cur st.
Proof.
  intros [Hlen Hc] Hcur. constructor; [done|unfold PROPOSER_ARRAY_SIZE; lia|].
  intros k ii Hk. right. split; [by eapply Hc|]. lia.
Qed.

Lemma win_all_clear id hi nxt st : win id (hi + 1) hi nxt st → all_clear st.
Proof.
  intros [Hlen Hr Hs]. split; [done|]. intros k ii Hk.
  destruct (Hs _ _ Hk) as [(j & Hj & _)|[Hc _]]; [lia|done].
Qed.

Lemma all_clear_tally f st :
  all_clear st → (∀ ii, clear ii → f ii = false) → tally f st = 0.
Proof.
  intros [_ Hc] Hf. assert (Forall clear st) as Hall.
  { apply list.Forall_lookup. intros i ii Hi. apply (Hc (Z.of_nat i)). apply arr_get_Some.
    rewrite Nat2Z.id. split; [lia|done]. }
  clear Hc. induction Hall as [|ii st Hii Hall IH]; [done|].
  unfold tally in *. cbn. rewrite IH, Hf by done. done.
Qed.

Lemma clear_not_pending ii : clear ii → is_pending ii = false.
Proof. by intros [t ->]. Qed.

Lemma clear_not_open ii : clear ii → is_open ii = false.
Proof. by intros [t ->]. Qed.

Lemma mem_ok_init l st v : mem_ok l st v → mem_ok [] st (vh_init v).
Proof.
  intros [_ Ha Hu Hv]. assert (∀ o vw, owns st [] o vw → owns st l o vw) as Hsub.
  { intros [k|k|] vw; [done|done|]. cbn. by intros ?%not_elem_of_nil. }
  constructor; [apply vh_init_rep|..|done]; cbn; eauto.
Qed.

Lemma mem_ok_notified l st v x : mem_ok l st v → mem_ok l st (v <| notified := x |>).
Proof. intros [[] Ha Hu Hv]. by repeat constructor. Qed.

(** A new leader opens its first window. *)
Lemma leader_init_spec l s :
  mem_ok l (proposer_state s) (vh s) → all_clear (proposer_state s) →
  1 ≤ current_iid s → current_iid s + PROPOSER_PREEXEC_WIN_SIZE < 2 ^ 32 →
  wp leader_init (λ r s', r = 0 ∧ ∃ l', leading l' (current_iid s) s' ∧ frame s s') s.
Proof.
  intros Hm Hc Hcur Hmax. unfold PROPOSER_PREEXEC_WIN_SIZE in Hmax.
  unfold leader_init, clear_event_counters, leader_print_event_counters, event_add. wp_steps.
  apply wp_on_vh. unfold vh_get_dropped_count. wp_steps. apply wp_on_vh. wp_steps.
  cbn. rewrite wrap_small by lia.
  eapply wp_mono; [apply (leader_periodic_p1_check_spec [] (current_iid s))|].
  - constructor; cbn; [by apply mem_ok_init in Hm|]. apply all_clear_win; [done|lia].
  - constructor; cbn; unfold PROPOSER_PREEXEC_WIN_SIZE, PROPOSER_ARRAY_SIZE; lia.
  - cbn. rewrite all_clear_tally; [done|done|apply clear_not_pending].
  - cbn. intros _ s1 ([Hm1 W1] & Hf1 & Hp2 & Hpc & Hop & Hp1). pose proof Hf1 as (Hid & _ & Hcur1 & _).
    cbn in Hcur1. wp_steps. split; [done|].
    exists []. split; [|done]. constructor; cbn; [|done|].
    + constructor; cbn; [done|]. rewrite Hcur1. done.
    + rewrite Hop. rewrite all_clear_tally; [done|done|apply clear_not_open].
Qed.

Lemma leader_shutdown_spec l nxt s :
  lead_ok l (current_iid s) (highest_open (p1_info s)) nxt s →
  wp leader_shutdown (λ _ s', mem_ok [] (proposer_state s') (vh s') ∧ all_clear (proposer_state s') ∧
    frame s s' ∧ armed s' p1_check_event = false ∧ armed s' p2_check_event = false) s.
Proof.
  intros Hok. pose proof (wn_range _ _ _ _ _ (lo_win _ _ _ _ _ Hok)) as Hr.
  unfold leader_shutdown, evtimer_del. wp_steps. cbn.
  unfold for_le. rewrite decide_False by lia.
  set (hi := highest_open (p1_info s)) in *. set (cur := current_iid s) in *.
  apply (wp_mfor (λ dn s', let i := cur + Z.of_nat (length dn) in ∃ l', 
    lead_ok l' i hi (Z.max nxt i) s' ∧ frame s s' ∧
    armed s' p1_check_event = false ∧ armed s' p2_check_event = false)).
  - cbn. rewrite Z.add_0_r, Z.max_l by lia. exists l. split; [by eapply lead_ok_proj|]. done.
  - intros dn i rest s1 Heq (l1 & Hok1 & Hf1 & Ha1 & Ha2). apply range_split in Heq as [-> Hle].
    eapply wp_mono; [eapply shutdown_body_spec; [done|lia]|].
    intros _ s2 (l2 & Hok2 & Hf2 & Ha). rewrite length_app. cbn. exists l2.
      split; [|split; [by etrans|by rewrite Ha]].
      replace (cur + Z.of_nat (length dn + 1)) with (cur + Z.of_nat (length dn) + 1) by lia.
      replace (Z.max nxt (cur + Z.of_nat (length dn) + 1)) with
        (Z.max (Z.max nxt (cur + Z.of_nat (length dn))) (cur + Z.of_nat (length dn) + 1)) by lia. done.
  - intros s1 (l1 & [Hm1 W1] & Hf1 & Ha1 & Ha2).
    assert (Z.of_nat (length (range cur hi)) = hi - cur + 1) as Elen.
    { unfold range. rewrite length_seqZ. lia. }
    rewrite Elen in *. replace (cur + (hi - cur + 1)) with (hi + 1) in W1 by lia.
    pose proof (win_all_clear _ _ _ _ W1) as Hc. apply wp_on_vh.
    unfold vh_shutdown. wp_steps.
    eapply wp_mono; [apply (vh_shutdown_fuel_spec _ l1); [apply Hm1|]|].
    { rewrite (vr_size _ _ (mo_rep _ _ _ Hm1)). lia. }
    intros [] v' (Hr' & Hn' & Hh'). split; [|done]. constructor; cbn; [done|..].
    + intros [k|k|] vw; [intros (ii & Hii & Hp); destruct Hc as [_ Hc]; destruct (Hc _ _ Hii) as [t ->]; done..|].
      cbn. by intros ?%not_elem_of_nil.
    + intros [k|k|] o' vw; [intros (ii & Hii & Hp); destruct Hc as [_ Hc]; destruct (Hc _ _ Hii) as [t ->]; done..|].
      cbn. by intros ?%not_elem_of_nil.
    + intros vw w Hw. rewrite Hh' in Hw. destruct (decide (vw ∈ l1.*1)); [done|].
      by eapply (mo_values _ _ _ Hm1).
Qed.
