(* ===== verification/ProposerProps.v ===== *)
(** * What the proposer promises

    The promises of phase 1, the whole proposer as an event-driven machine
    that never stops, and the properties of the leader one by one. *)
From Stdlib Require Import Init.Byte.
From S2P Require Import Prelude Bytes PaxosWire SendBuffer Learner ValuesHandler Leader Proposer ProposerInv.

Implicit Types (ii : p_inst_info) (s : proposer) (k : Z) (vw : loc)
  (st : list p_inst_info) (v : values_handler) (l : list (loc * list byte)).

(** ** Promises *)

(** The value phase 1 found, with its ballot. *)
Definition found s ii : Z * option (list byte) :=
  (p1_value_ballot ii, p1_value ii ≫= λ vw, vw_value <$> heap (vh s) !! vw).

(** What one promise makes of it. *)
Definition pick (f : Z * option (list byte)) (pa : prepare_ack) : Z * option (list byte) :=
  if blen (pa_value pa) =? 0 then f
  else if pa_value_ballot pa <=? f.1 then f
  else (pa_value_ballot pa, Some (pa_value pa)).

(** A promise that is counted. *)
Definition counted_promise s pa ii ii' s' : Prop :=
  promises_count ii' = u32 (promises_count ii + 1) ∧ found s' ii' = pick (found s ii) pa.

Lemma acceptor_bit_ok a : 0 ≤ a < 31 → acceptor_bit a = Some (Z.shiftl 1 a).
Proof. intros H. unfold acceptor_bit. by rewrite decide_True. Qed.

(** The last branch: a new value replaces the one that was found before. *)
Lemma replace_found_spec l k ii (value : list byte) (b : Z) s :
  mem_ok l (proposer_state s) (vh s) → arr_get (proposer_state s) k = Some ii → value_ok value →
  wp (free_opt (p1_value ii);;
      vw ← on_vh (vh_wrap_value value);
      upd_ii k (λ ii, ii <| p1_value := Some vw |>);;
      upd_ii k (λ ii, ii <| p1_value_ballot := b |>))
    (λ _ s', ∃ vw v', let ii' := ii <| p1_value := Some vw |> <| p1_value_ballot := b |> in
      s' = s <| proposer_state := arr_set (proposer_state s) k ii' |> <| vh := v' |> ∧
      mem_ok l (arr_set (proposer_state s) k ii') v' ∧ heap v' !! vw = Some (mk_wrapper value None)) s.
Proof.
  intros Hm Hk Hv. pose proof (arr_get_lt _ _ _ Hk) as Hlt.
  wp_steps. eapply (wp_free_p1 l k ii); [done..|]. intros v1 Hm2 _.
  wp_steps. apply wp_on_vh, wp_vh_wrap_value. intros vw Hvw. cbn in Hvw.
  set (ii2 := ii <| p1_value := None |>). set (v2 := v1 <| heap ::= <[vw := mk_wrapper value None]> |>).
  assert (heap v2 !! vw = Some (mk_wrapper value None)) as Hnew by (unfold v2; cbn; by rewrite lookup_insert_eq).
  assert (mem_ok l (arr_set (proposer_state s) k ii2) v2) as Hm3 by by apply mem_ok_wrap.
  assert (unowned (arr_set (proposer_state s) k ii2) l vw) as Hun by by apply (fresh_unowned _ _ v1).
  wp_steps. eapply wp_upd_ii; [cbn; exact Hk|]. wp_steps.
  eapply wp_upd_ii; [cbn; by apply arr_get_set_eq|]. cbn. rewrite !arr_set_set.
  exists vw, v2. split; [done|]. split; [|done].
  eapply (mem_ok_reset l _ v2 k ii (ii2 <| p1_value := Some vw |>)); [done| |done|done].
  rewrite <-(arr_set_set (proposer_state s) k ii2 (ii2 <| p1_value := Some vw |>)).
  eapply mem_ok_take1; [exact Hm3|by apply arr_get_set_eq|done|by rewrite Hnew|done|done].
Qed.

Lemma pro_save_prepare_ack_spec l k ii pa a s :
  mem_ok l (proposer_state s) (vh s) → arr_get (proposer_state s) k = Some ii →
  0 ≤ a < 31 → value_ok (pa_value pa) →
  wp (pro_save_prepare_ack k pa a) (λ _ s', ∃ ii' v',
    s' = s <| proposer_state := arr_set (proposer_state s) k ii' |> <| vh := v' |> ∧
    mem_ok l (arr_set (proposer_state s) k ii') v' ∧
    (ii_iid ii' = ii_iid ii ∧ ii_status ii' = ii_status ii ∧ my_ballot ii' = my_ballot ii ∧
     p2_value ii' = p2_value ii) ∧
    let bit := Z.shiftl 1 a in
    if Z.land (promises_bitvector ii) bit =? 0
    then promises_bitvector ii' = Z.land (promises_bitvector ii) bit ∧ counted_promise s pa ii ii' s'
    else ii' = ii) s.
Proof.
  intros Hm Hk Ha Hv. pose proof (arr_get_lt _ _ _ Hk) as Hlt.
  assert (∀ st x, length st = length (proposer_state s) → arr_get (arr_set st k x) k = Some x) as Hget.
  { intros st x Hst. apply arr_get_set_eq. by rewrite Hst. }
  unfold pro_save_prepare_ack. wp_steps. eapply wp_get_ii; [done|]. wp_steps.
  eapply wp_lift_opt; [by apply acceptor_bit_ok|].
  destruct (Z.land (promises_bitvector ii) (Z.shiftl 1 a) =? 0) eqn:Ebit; cbn [negb].
  2: { wp_steps. exists ii, (vh s). rewrite arr_set_same by done. destruct s. done. }
  set (ii1 := ii <| promises_bitvector := Z.land (promises_bitvector ii) (Z.shiftl 1 a) |>
                 <| promises_count := u32 (promises_count ii + 1) |>).
  assert (mem_ok l (arr_set (proposer_state s) k ii1) (vh s)) as Hm1 by (by eapply mem_ok_same).
  wp_steps. eapply wp_upd_ii; [done|]. fold ii1.
  assert (∀ f : Z * option (list byte), pick f pa = f → f = found s ii → 
    ∃ ii' v', s <| proposer_state := arr_set (proposer_state s) k ii1 |> =
      s <| proposer_state := arr_set (proposer_state s) k ii' |> <| vh := v' |> ∧
      mem_ok l (arr_set (proposer_state s) k ii') v' ∧
      (ii_iid ii' = ii_iid ii ∧ ii_status ii' = ii_status ii ∧ my_ballot ii' = my_ballot ii ∧
       p2_value ii' = p2_value ii) ∧ promises_bitvector ii' = Z.land (promises_bitvector ii) (Z.shiftl 1 a) ∧
      counted_promise s pa ii ii' (s <| proposer_state := arr_set (proposer_state s) k ii1 |>)) as Hskip.
  { intros f Hf ->. exists ii1, (vh s). split; [done|]. split; [done|]. split; [done|]. split; [done|].
    split; [done|]. by rewrite Hf. }
  destruct (blen (pa_value pa) =? 0) eqn:Elen.
  { wp_steps. eapply Hskip; [|done]. unfold pick. by rewrite Elen. }
  destruct (pa_value_ballot pa <=? p1_value_ballot ii) eqn:Evb.
  { wp_steps. eapply Hskip; [|done]. unfold pick. by rewrite Elen; cbn; rewrite Evb. }
  assert (pick (found s ii) pa = (pa_value_ballot pa, Some (pa_value pa))) as Hpick.
  { unfold pick. rewrite Elen. cbn. by rewrite Evb. }
  wp_steps.
  apply (wp_mono _ (λ (same : bool) s1, s1 = s <| proposer_state := arr_set (proposer_state s) k ii1 |> ∧
    (same = true → (found s ii).2 = Some (pa_value pa)))).
  { destruct (p1_value ii) as [q|] eqn:E1; [|by apply wp_ret].
    destruct (mo_alloc _ _ _ Hm (Own1 k) q) as [w Hw]; [by exists ii|].
    wp_steps. apply wp_on_vh. eapply wp_deref; [done|]. wp_steps. split; [done|].
    intros Hsame%bool_decide_eq_true. unfold found. cbn. by rewrite E1, <-Hsame; cbn; rewrite Hw. }
  intros same s1 [-> Hsame]. destruct same.
  - eapply wp_upd_ii; [cbn; by apply Hget|]. cbn. rewrite arr_set_set.
    exists (ii1 <| p1_value_ballot := pa_value_ballot pa |>), (vh s). split; [done|].
    split; [by eapply mem_ok_reset|]. split; [done|]. split; [done|]. split; [done|].
    rewrite Hpick. unfold found in Hsame |- *. cbn in Hsame |- *. by rewrite Hsame.
  - eapply wp_mono; [apply (replace_found_spec l k ii1); [done|by apply Hget|done]|].
    intros [] s' (vw & v' & -> & Hm2 & Hnew). cbn in *. rewrite arr_set_set in *.
    exists (ii1 <| p1_value := Some vw |> <| p1_value_ballot := pa_value_ballot pa |>), v'.
    split; [done|]. split; [done|]. split; [done|]. split; [done|]. split; [done|].
    rewrite Hpick. unfold found. cbn. by rewrite Hnew.
Qed.

(** Changing an instance of the window that is known by its slot. *)
Lemma win_set_slot id cur hi nxt st k ii ii' :
  win id cur hi nxt st → arr_get st k = Some ii → ii_status ii ≠ empty →
  (∀ iid, active id nxt iid ii → active id nxt iid ii') → win id cur hi nxt (arr_set st k ii').
Proof.
  intros W Hk Hst Hact. destruct (wn_slots _ _ _ _ _ W _ _ Hk) as [(iid & Hi & <- & Ha)|[[t ->] _]]; [|done].
  apply win_set; [done|done|by apply Hact].
Qed.

(** Updates of an instance that phase 1 is pending for. *)
Lemma leading_upd l cur s k ii ii' v' :
  leading l cur s → arr_get (proposer_state s) k = Some ii → ii_status ii = p1_pending →
  mem_ok l (arr_set (proposer_state s) k ii') v' →
  ii_iid ii' = ii_iid ii → ii_status ii' = ii_status ii → my_ballot ii' = my_ballot ii →
  p2_value ii' = p2_value ii →
  leading l cur (s <| proposer_state := arr_set (proposer_state s) k ii' |> <| vh := v' |>).
Proof.
  intros [[Hm W] Hpc Hoc] Hk Hst Hm' H1 H2 H3 H4. constructor; [constructor; [done|]|..]; cbn.
  - eapply win_set_slot; [done|done|by rewrite Hst|]. intros iid Ha.
    eapply active_same; [done|done|done| |done]. rewrite H3. apply Ha.
  - rewrite (tally_set_same _ _ _ _ _ Hk); [done|]. unfold is_pending. by rewrite H2.
  - rewrite (tally_set_same _ _ _ _ _ Hk); [done|]. unfold is_open. by rewrite H2, H4.
Qed.

Definition pa_ok (pa : prepare_ack) : Prop := value_ok (pa_value pa).

Lemma handle_prepare_ack_spec l cur a pa s :
  leading l cur s → 0 ≤ a < 31 → pa_ok pa →
  wp (handle_prepare_ack a pa) (λ _ s', leading l cur s' ∧ frame s s' ∧ p2_info s' = p2_info s ∧
    highest_open (p1_info s') = highest_open (p1_info s)) s.
Proof.
  intros Hl Ha Hv. pose proof Hl as [[Hm W] Hpc Hoc].
  destruct (win_slot _ _ _ _ _ W (pa_iid pa)) as [ii Hii]. pose proof (arr_get_lt _ _ _ Hii) as Hlt.
  unfold handle_prepare_ack. wp_steps. eapply wp_get_ii; [done|].
  destruct (decide (ii_status ii ≠ p1_pending)) as [Hst|Hst]; [by apply wp_ret|].
  apply dec_stable in Hst. destruct (negb (pa_ballot pa =? my_ballot ii)); [by apply wp_ret|]. wp_steps.
  eapply wp_mono; [by eapply pro_save_prepare_ack_spec|].
  intros _ s1 (ii' & v' & -> & Hm' & (H1 & H2 & H3 & H4) & _). wp_steps.
  eapply wp_get_ii; [by apply arr_get_set_eq|]. 
  assert (leading l cur (s <| proposer_state := arr_set (proposer_state s) (pro_index (pa_iid pa)) ii' |>
    <| vh := v' |>)) as Hl1 by (by eapply leading_upd).
  wp_case; [by apply wp_ret|]. wp_steps. eapply wp_upd_ii; [by apply arr_get_set_eq|]. wp_steps. cbn.
  rewrite arr_set_set. split; [|done]. constructor; [constructor|..]; cbn.
  - by eapply mem_ok_reset.
  - eapply win_set_slot; [done|done|by rewrite Hst|]. intros iid [].
    constructor; cbn; [congruence|done|congruence|by rewrite H4|].
    rewrite H4. intros Hn. split; [by apply ac_fresh|by right].
  - rewrite (tally_set_to true false _ _ _ _ _ Hii); [|by unfold is_pending; rewrite Hst|done].
    rewrite Hpc, u32_minus_l. f_equal. cbn. lia.
  - rewrite (tally_set_same _ _ _ _ _ Hii); [done|]. unfold is_open. rewrite Hst. cbn. by rewrite H4.
Qed.

Lemma handle_prepare_acks_spec l cur a pab ready s :
  leading l cur s → 0 ≤ a < 31 → Forall pa_ok pab →
  wp (handle_prepare_acks a pab ready) (λ _ s', leading l cur s' ∧ frame s s' ∧
    p2_info s' = p2_info s ∧ highest_open (p1_info s') = highest_open (p1_info s)) s.
Proof.
  intros Hl Ha Hall. revert ready s Hl. induction Hall as [|pa pab Hpa Hall IH]; intros ready s Hl.
  { by apply wp_ret. }
  cbn [handle_prepare_acks]. wp_steps. eapply wp_mono; [by eapply handle_prepare_ack_spec|].
  intros r s1 (Hl1 & Hf1 & Hp1 & Hh1). eapply wp_mono; [by eapply IH|].
  intros _ s2 (Hl2 & Hf2 & Hp2 & Hh2). split; [done|]. split; [by etrans|]. split; congruence.
Qed.

Lemma handle_prepare_ack_batch_spec l a pab s :
  leading l (current_iid s) s → LEADER_IS_ME s = true → 0 ≤ a < 31 → Forall pa_ok pab →
  wp (handle_prepare_ack_batch a pab) (λ _ s', ∃ l', leading l' (current_iid s) s' ∧ frame s s' ∧
    highest_open (p1_info s') = highest_open (p1_info s)) s.
Proof.
  intros Hl Hme Ha Hall. unfold handle_prepare_ack_batch. wp_steps. rewrite Hme. cbn [negb]. wp_steps.
  eapply wp_mono; [by eapply handle_prepare_acks_spec|].
  intros ready s1 (Hl1 & Hf1 & Hp1 & Hh1). pose proof Hf1 as (_ & _ & Hcur & _).
  wp_case; [|apply wp_ret; by exists l]. wp_steps.
  pose proof Hl1 as [Hok1 Hpc1 Hoc1].
  eapply wp_mono; [apply (leader_open_instances_p2_expired_spec l (highest_open (p1_info s1))); by rewrite Hcur|].
  intros _ s2 (Hok2 & Hf2 & Hp2 & Hh2 & Hp22 & Ht1 & Ht2). rewrite Hcur in Hok2.
  eapply wp_mono; [apply (leader_open_instances_p2_new_spec l (current_iid s))|].
  - constructor; [|by rewrite Hp2, Ht1|by rewrite Hp22, Ht2]. by rewrite Hh2, Hp22.
  - intros _ s3 (l3 & Hl3 & Hf3 & Hh3). exists l3. split; [done|].
    split; [by do 2 (etrans; [done|])|congruence].
Qed.

(** ** The proposer as a machine *)

(** What the event loop of the proposer can do next. *)
Inductive event :=
  | EvPrepareAcks (acceptor_id : Z) (pab : list prepare_ack)
  | EvLeaderAnnounce (current_leader : Z)
  | EvDeliver (value : list byte) (iid : Z)
  | EvSubmit (value : list byte)
  | EvP1Check | EvP2Check | EvPrint | EvPing.

Definition run_event (ev : event) : P unit :=
  match ev with
  | EvPrepareAcks a pab => handle_prepare_ack_batch a pab
  | EvLeaderAnnounce id => handle_leader_announce id
  | EvDeliver value iid => pro_deliver_callback value iid
  | EvSubmit value => on_vh (vh_enqueue_value value)
  | EvP1Check => leader_periodic_p1_check
  | EvP2Check => leader_periodic_p2_check
  | EvPrint => leader_print_event_counters
  | EvPing => pro_ping_failure_detector
  end.

(** The state between two events. *)
Record pro_inv l s : Prop := {
  pv_id : 0 ≤ this_proposer_id s < MAX_N_OF_PROPOSERS;
  pv_cur : 1 ≤ current_iid s;
  pv_lea : lea_ok s;
  pv_lead : LEADER_IS_ME s = true → leading l (current_iid s) s;
  pv_idle : LEADER_IS_ME s = false →
    mem_ok l (proposer_state s) (vh s) ∧ all_clear (proposer_state s) ∧
    armed s p1_check_event = false ∧ armed s p2_check_event = false
}.

(** When an event can happen: promises come from acceptors with an id that can
    be shifted and values fit in a packet, an instance is delivered after the
    one before it and, at the leader, inside its window; the timers that fire
    are pending; a window is only extended while the table has room for it and
    the instance numbers do not overflow. *)
Definition ev_ok (ev : event) s : Prop :=
  match ev with
  | EvPrepareAcks a pab => 0 ≤ a < 31 ∧ Forall pa_ok pab
  | EvLeaderAnnounce _ => current_iid s + PROPOSER_PREEXEC_WIN_SIZE < 2 ^ 32
  | EvDeliver value iid => iid = current_iid s ∧ iid < 2 ^ 32 - 1 ∧
      (LEADER_IS_ME s = true → iid ≤ highest_open (p1_info s))
  | EvSubmit value => value_ok value
  | EvP1Check => armed s p1_check_event = true ∧ p1_room (current_iid s) s
  | EvP2Check => armed s p2_check_event = true
  | EvPrint | EvPing => True
  end.

Lemma frame_leader s s' : frame s s' → LEADER_IS_ME s' = LEADER_IS_ME s.
Proof. intros (H1 & H2 & _). unfold LEADER_IS_ME. by rewrite H1, H2. Qed.

(** The leader keeps the invariant when it keeps leading. *)
Lemma pro_inv_lead l l' s s' :
  pro_inv l s → LEADER_IS_ME s = true → frame s s' → leading l' (current_iid s) s' → pro_inv l' s'.
Proof.
  intros [] Hme Hf Hl. pose proof (frame_leader _ _ Hf) as Hme'. destruct Hf as (H1 & H2 & H3 & H4).
  constructor; rewrite ?H1, ?H3; try done; [unfold lea_ok; by rewrite H4|].
  intros Hb. by rewrite Hme', Hme in Hb.
Qed.

(** An event that only changes what the invariant does not mention. *)
Lemma pro_inv_proj l s s' :
  pro_inv l s → frame s s' → proposer_state s' = proposer_state s → vh s' = vh s →
  p1_info s' = p1_info s → p2_info s' = p2_info s →
  (∀ t, t ≠ print_events_event → t ≠ fe_ping_event → armed s' t = armed s t) → pro_inv l s'.
Proof.
  intros [] Hf H1 H2 H3 H4 Ha. pose proof (frame_leader _ _ Hf) as Hme. destruct Hf as (F1 & F2 & F3 & F4).
  constructor; rewrite ?F1, ?F3; try done; [unfold lea_ok; by rewrite F4|..]; rewrite Hme.
  - intros Hlead. eapply leading_proj; [by apply pv_lead0|done..].
  - intros Hidle. rewrite H1, H2, !Ha by done. by apply pv_idle0.
Qed.

(** Becoming the leader, ceasing to be it, or neither. *)
Lemma handle_leader_announce_inv l id s :
  pro_inv l s → ev_ok (EvLeaderAnnounce id) s →
  wp (handle_leader_announce id) (λ _ s', ∃ l', pro_inv l' s') s.
Proof.
  intros Hinv Hmax. pose proof Hinv as [Hid Hcur Hlea Hlead Hidle]. cbn in Hmax.
  unfold handle_leader_announce. wp_steps.
  assert (∀ s1, frame s s1 → LEADER_IS_ME (s1 <| current_leader_id := id |>) = (id =? this_proposer_id s)) as Hme.
  { intros s1 (F1 & _). unfold LEADER_IS_ME. cbn. rewrite F1. apply Z.eqb_sym. }
  destruct (LEADER_IS_ME s) eqn:E, (id =? this_proposer_id s) eqn:Eid; cbn [negb andb].
  - wp_steps. exists l. assert (id = current_leader_id s) as ->.
    { unfold LEADER_IS_ME in E. zbool. congruence. }
    by destruct s.
  - wp_steps. eapply wp_mono; [by eapply (leader_shutdown_spec l), ld_ok, Hlead|].
    intros _ s1 (Hm & Hc & Hf & Ha1 & Ha2). wp_steps. exists [].
    pose proof Hf as (F1 & F2 & F3 & F4).
    constructor; [cbn; by rewrite F1|cbn; by rewrite F3|unfold lea_ok; cbn; by rewrite F4|..];
      rewrite (Hme s1 Hf); done.
  - wp_steps. destruct (Hidle eq_refl) as (Hm & Hc & _). eapply wp_mono; [by eapply leader_init_spec|].
    intros r s1 (_ & l' & Hl & Hf). wp_steps. exists l'.
    pose proof Hf as (F1 & F2 & F3 & F4).
    constructor; [cbn; by rewrite F1|cbn; by rewrite F3|unfold lea_ok; cbn; by rewrite F4|..];
      rewrite (Hme s1 Hf); [|done].
    intros _. cbn. rewrite F3. by eapply leading_proj.
  - wp_steps. exists l. constructor; [done|done|done|..]; rewrite (Hme s) by done; [done|].
    intros _. by apply Hidle.
Qed.

Lemma pro_deliver_callback_inv l value iid s :
  pro_inv l s → ev_ok (EvDeliver value iid) s →
  wp (pro_deliver_callback value iid) (λ _ s', ∃ l', pro_inv l' s') s.
Proof.
  intros Hinv (-> & Hmax & Hhi). pose proof Hinv as [Hid Hcur Hlea Hlead Hidle].
  unfold pro_deliver_callback. wp_steps. rewrite wrap_small by lia.
  destruct (LEADER_IS_ME s) eqn:E.
  - eapply wp_mono; [by eapply leader_deliver_spec; auto|].
    intros _ s1 (l' & Hl & Hf & Hh). wp_steps. exists l'.
    pose proof (frame_leader _ _ Hf) as Hme. destruct Hf as (F1 & F2 & F3 & F4).
    constructor; [cbn; by rewrite F1|cbn; lia|unfold lea_ok; cbn; by rewrite F4|..].
    + intros _. by eapply leading_proj.
    + change (LEADER_IS_ME (s1 <| current_iid := current_iid s + 1 |>)) with (LEADER_IS_ME s1).
      by rewrite Hme, E.
  - wp_steps. exists l. constructor; cbn; try done; [lia|by unfold LEADER_IS_ME in *; cbn; rewrite E|].
    intros _. by apply Hidle.
Qed.

Lemma mem_ok_vh l l' st v v' :
  mem_ok l st v → vh_rep l' v' → (∀ q, q ∈ l'.*1 → q ∈ l.*1 ∨ heap v !! q = None) →
  (∀ o q, owns st l o q → is_Some (heap v' !! q)) →
  (∀ q w, heap v' !! q = Some w → value_ok (vw_value w)) → mem_ok l' st v'.
Proof.
  intros Hm Hr Hl Hal Hval.
  assert (∀ o q, owns st l' o q → owns st l o q ∨ (o = OwnList ∧ heap v !! q = None)) as Hsub.
  { intros [k|k|] q Ho; [by left|by left|]. cbn in Ho. destruct (Hl _ Ho); [by left|by right]. }
  constructor; [done|..|done].
  - intros o q Ho. destruct (Hsub _ _ Ho) as [Ho'|[-> _]]; [by eapply Hal|].
    eapply linked_dom; [by apply Hr|done].
  - intros o o' q Ho Ho'. destruct (Hsub _ _ Ho) as [H|[-> H]], (Hsub _ _ Ho') as [H'|[-> H']]; [|..|done].
    + by eapply (mo_uniq _ _ _ Hm).
    + by destruct (fresh_unowned _ _ _ _ Hm H' o).
    + by destruct (fresh_unowned _ _ _ _ Hm H o').
Qed.

Lemma pro_inv_mem l s : pro_inv l s → mem_ok l (proposer_state s) (vh s).
Proof.
  intros []. destruct (LEADER_IS_ME s); [|by apply pv_idle0]. by destruct (pv_lead0 eq_refl) as [[Hm _] _ _].
Qed.

Lemma linked_value h p l vw w : linked h p l → h !! vw = Some w → vw ∈ l.*1 → (vw, vw_value w) ∈ l.
Proof.
  revert p. induction l as [|[q x] l IH]; intros p; [by intros _ _ ?%not_elem_of_nil|].
  intros (_ & next & Hq & Hl) Hw [->|Hin]%elem_of_cons.
  - cbn in Hw. rewrite Hq in Hw. injection Hw as <-. left.
  - right. by eapply IH.
Qed.

Lemma mem_ok_enqueue l st v value :
  mem_ok l st v → value_ok value → wp (vh_enqueue_value value) (λ _ v', ∃ l', mem_ok l' st v') v.
Proof.
  intros Hm Hval. eapply wp_mono; [apply vh_enqueue_value_spec, Hm|].
  intros _ v' [_ H]. destruct (LEADER_MAX_QUEUE_LENGTH <? Z.of_nat (length l)).
  { subst v'. exists l. destruct Hm as [[] ? ? ?]. by constructor. }
  destruct H as (vw & Hvw & Hr' & _ & Hfr). exists (l ++ [(vw, value)]).
  assert (∀ q w, heap v' !! q = Some w → q ∈ (l ++ [(vw, value)]).*1 → value_ok (vw_value w)) as Hv.
  { intros q w Hw Hin. pose proof (linked_value _ _ _ _ _ (vr_linked _ _ Hr') Hw Hin) as Hq.
    apply elem_of_app in Hq as [Hq|[= _ ->]%list_elem_of_singleton]; [|done].
    destruct (linked_alloc _ _ _ _ _ (vr_linked _ _ (mo_rep _ _ _ Hm)) Hq) as [next Hn].
    exact (mo_values _ _ _ Hm _ _ Hn). }
  assert (∀ q, q ∉ (l ++ [(vw, value)]).*1 → heap v' !! q = heap v !! q) as Hout.
  { intros q Hq. rewrite fmap_app in Hq. apply not_elem_of_app in Hq as [Hq1 Hq2]. apply Hfr; [done|].
    cbn in Hq2. by apply not_elem_of_cons in Hq2 as [? _]. }
  eapply mem_ok_vh; [done|done|..].
  - intros q Hq. rewrite fmap_app in Hq. apply elem_of_app in Hq as [Hq|Hq]; [by left|right].
    by apply list_elem_of_singleton in Hq as ->.
  - intros o q Ho. destruct (decide (q ∈ (l ++ [(vw, value)]).*1)) as [Hin|Hin].
    + by eapply linked_dom; [apply Hr'|].
    + rewrite Hout by done. by eapply (mo_alloc _ _ _ Hm).
  - intros q w Hw. destruct (decide (q ∈ (l ++ [(vw, value)]).*1)) as [Hin|Hin]; [by eapply Hv|].
    rewrite Hout in Hw by done. by eapply (mo_values _ _ _ Hm).
Qed.

(** One event. *)
Lemma run_event_inv l ev s :
  pro_inv l s → ev_ok ev s → wp (run_event ev) (λ _ s', ∃ l', pro_inv l' s') s.
Proof.
  intros Hinv Hok. destruct ev as [a pab|id|value iid|value| | | |]; cbn [run_event].
  - destruct Hok as [Ha Hall]. destruct (LEADER_IS_ME s) eqn:E.
    + eapply wp_mono; [eapply handle_prepare_ack_batch_spec; [by apply (pv_lead _ _ Hinv)|done..]|].
      intros _ s' (l' & Hl & Hf & _). exists l'. by eapply pro_inv_lead.
    + unfold handle_prepare_ack_batch. wp_steps. rewrite E. wp_steps. by exists l.
  - by eapply handle_leader_announce_inv.
  - by eapply pro_deliver_callback_inv.
  - apply wp_on_vh. eapply wp_mono; [by eapply mem_ok_enqueue, Hok; apply pro_inv_mem|].
    intros _ v' (l' & Hm'). exists l'. destruct Hinv as [Hid Hcur Hlea Hlead Hidle].
    constructor; [done|done|done|..].
    + intros Hme. destruct (Hlead Hme) as [[Hm W] Hpc Hoc]. constructor; [constructor|..]; done.
    + intros Hme. destruct (Hidle Hme) as (_ & ? & ?). done.
  - destruct Hok as [Harm Hroom]. destruct (LEADER_IS_ME s) eqn:E.
    + pose proof (pv_lead _ _ Hinv E) as [Hld Hpc Hoc].
      eapply wp_mono; [by eapply leader_periodic_p1_check_spec|].
      intros _ s' (Hok' & Hf & Hp2 & Hpc' & Hop & Hp1). exists l. eapply pro_inv_lead; [done|done|done|].
      constructor; [by rewrite Hp2|done|by rewrite Hp2, Hop].
    + destruct (pv_idle _ _ Hinv E) as (_ & _ & Ha & _). by rewrite Ha in Harm.
  - destruct (LEADER_IS_ME s) eqn:E.
    + eapply wp_mono; [eapply leader_periodic_p2_check_spec; [by apply (pv_lead _ _ Hinv)|apply Hinv]|].
      intros _ s' (l' & Hl & Hf & _). exists l'. by eapply pro_inv_lead.
    + destruct (pv_idle _ _ Hinv E) as (_ & _ & _ & Ha). cbn in Hok. by rewrite Ha in Hok.
  - unfold leader_print_event_counters, event_add. wp_steps. apply wp_on_vh.
    unfold vh_get_dropped_count. wp_steps. exists l. eapply pro_inv_proj; [done|done|done|by destruct s|done|done|].
    intros t H1 H2. cbn. by rewrite decide_False.
  - unfold pro_ping_failure_detector, event_add, on_oracle, sendbuf_send_ping, sendbuf_flush. wp_steps.
    exists l. eapply pro_inv_proj; [done|done|done|done|done|done|]. intros t H1 H2. cbn. by rewrite decide_False.
Qed.

(** ** Initialization *)

Lemma all_clear_set st k ii : 0 ≤ k → all_clear st → clear ii → all_clear (arr_set st k ii).
Proof.
  intros Hk [Hlen Hc] Hii. split; [by rewrite length_arr_set|].
  intros j x [[-> ->]|[_ Hj]]%arr_set_get; [done|by eapply Hc|done].
Qed.

Lemma all_clear_start : all_clear (replicate (Z.to_nat PROPOSER_ARRAY_SIZE) inst_zero).
Proof.
  split; [done|]. intros k ii Hk. apply arr_get_replicate_inv in Hk as ->. by eexists.
Qed.

Lemma mem_ok_clear st v :
  all_clear st → vh_rep [] v → (∀ vw w, heap v !! vw = Some w → value_ok (vw_value w)) → mem_ok [] st v.
Proof.
  intros [_ Hc] Hr Hh.
  assert (∀ o vw, ¬ owns st [] o vw) as Hno.
  { intros [k|k|] vw; [intros (ii & Hii & Hp); by destruct (Hc _ _ Hii) as [t ->]..|].
    cbn. apply not_elem_of_nil. }
  constructor; [done|..|done].
  - intros o vw Ho. by destruct (Hno _ _ Ho).
  - intros o o' vw Ho. by destruct (Hno _ _ Ho).
Qed.

Lemma proposer_init_inv clock pid :
  0 ≤ pid < MAX_N_OF_PROPOSERS →
  wp (proposer_init pid) (λ r s', r = 0 ∧ ∃ l, pro_inv l s') (proposer_start clock).
Proof.
  intros Hpid. unfold proposer_init. unfold MAX_N_OF_PROPOSERS in *.
  destruct (Z.ltb_spec pid 0); [lia|]. destruct (Z.leb_spec 10 pid); [lia|]. cbn [orb].
  unfold init_proposer, pro_ping_failure_detector, event_add, on_oracle, sendbuf_send_ping, sendbuf_flush.
  wp_steps. unfold init_pro_structs.
  change (Z.land PROPOSER_ARRAY_SIZE (PROPOSER_ARRAY_SIZE - 1) =? 0) with true.
  change (PROPOSER_ARRAY_SIZE <=? PROPOSER_PREEXEC_WIN_SIZE) with false. cbn [negb]. wp_steps.
  unfold for_lt.
  apply (wp_mfor_inv (λ s', all_clear (proposer_state s') ∧ vh s' = vh_start ∧
    this_proposer_id s' = pid ∧ current_leader_id s' = 0 ∧ current_iid s' = 1 ∧
    lea s' = init_lea_structs ∧ armed s' p1_check_event = false ∧ armed s' p2_check_event = false)).
  - cbn. split; [apply all_clear_start|done].
  - intros k s Hin (Hc & Hvh & H1 & H2 & H3 & H4 & H5 & H6). apply elem_of_seqZ in Hin.
    destruct (arr_get_is_Some (proposer_state s) k) as [ii Hii]; [destruct Hc as [-> _]; lia|].
    destruct (proj2 Hc _ _ Hii) as [t ->].
    unfold pro_clear_instance_info. wp_steps. eapply wp_upd_ii; [done|]. wp_steps.
    pose proof (arr_get_lt _ _ _ Hii) as Hlt.
    eapply wp_get_ii; [by apply arr_get_set_eq|]. cbn. wp_steps.
    eapply wp_upd_ii; [by apply arr_get_set_eq|]. cbn. wp_steps. rewrite arr_set_set.
    eapply wp_upd_ii; [by apply arr_get_set_eq|]. cbn. rewrite arr_set_set.
    split; [|done]. apply all_clear_set; [lia|done|by eexists].
  - intros s (Hc & Hvh & H1 & H2 & H3 & H4 & H5 & H6). wp_steps. cbn [Z.eqb negb].
    assert (mem_ok [] (proposer_state s) (vh s)) as Hm.
    { rewrite Hvh. by apply mem_ok_clear; [|apply vh_start_rep|]. }
    wp_steps. destruct (LEADER_IS_ME s) eqn:E.
    + eapply wp_mono; [apply (leader_init_spec []); rewrite ?H3; done|].
      intros r s1 (-> & l & Hl & Hf). cbn [Z.eqb negb]. wp_steps. split; [done|]. exists l.
      pose proof (frame_leader _ _ Hf) as Hme. destruct Hf as (F1 & F2 & F3 & F4).
      constructor; [rewrite F1, H1; unfold MAX_N_OF_PROPOSERS; lia|rewrite F3, H3; lia|
        unfold lea_ok; by rewrite F4, H4| |].
      * intros _. by rewrite F3.
      * intros Hf. by rewrite Hme, E in Hf.
    + wp_steps. cbn [Z.eqb negb]. wp_steps. split; [done|]. exists [].
      constructor; [rewrite H1; unfold MAX_N_OF_PROPOSERS; lia|rewrite H3; lia|unfold lea_ok; by rewrite H4|by rewrite E|done].
Qed.

(** The states of a proposer that runs. *)
Inductive reachable (clock : nat → timeval) (pid : Z) : proposer → Prop :=
  | reach_init r s : proposer_init pid (proposer_start clock) = Some (r, s) → reachable clock pid s
  | reach_event ev s s' : reachable clock pid s → ev_ok ev s →
      run_event ev s = Some (tt, s') → reachable clock pid s'.

Lemma reachable_inv clock pid s :
  0 ≤ pid < MAX_N_OF_PROPOSERS → reachable clock pid s → ∃ l, pro_inv l s.
Proof.
  intros Hpid. induction 1 as [r s Hs|ev s s' Hr [l Hinv] Hok Hs].
  - pose proof (wp_run _ _ _ _ _ Hs (proposer_init_inv clock pid Hpid)) as [_ ?]. done.
  - exact (wp_run _ _ _ _ _ Hs (run_event_inv l ev s Hinv Hok)).
Qed.

(** ** Properties *)


Definition zero_clock : nat → timeval := λ _, mk_timeval 0 0.

(** A proposer that just started. *)
Definition started (pid : Z) : proposer :=
  match proposer_init pid (proposer_start zero_clock) with
  | Some (_, s) => s
  | None => proposer_start zero_clock
  end.

Lemma started_reachable pid : 0 ≤ pid < MAX_N_OF_PROPOSERS → reachable zero_clock pid (started pid).
Proof.
  intros Hpid. destruct (wp_total _ _ _ (proposer_init_inv zero_clock pid Hpid)) as (r & s & Hs & _).
  unfold started. rewrite Hs. by eapply reach_init.
Qed.




(** When fewer than half of the window is prepared, the leader opens
    exactly as many instances as are missing, the ones right above the highest
    that was opened: one request to prepare each, with the first ballot of this
    proposer, in order, in packets that fit. *)
Theorem p1_opens_window l s :
  leading l (current_iid s) s → p1_room (current_iid s) s →
  pending_count (p1_info s) + ready_count (p1_info s) < PROPOSER_PREEXEC_WIN_SIZE / 2 →
  let n := PROPOSER_PREEXEC_WIN_SIZE - (pending_count (p1_info s) + ready_count (p1_info s)) in
  wp leader_open_instances_p1 (λ _ s',
    highest_open (p1_info s') = highest_open (p1_info s) + n ∧
    ∃ chunks, sent (to_acceptors s') = sent (to_acceptors s) ++ map (PrepareReqs (this_proposer_id s)) chunks ∧
      concat chunks = map (λ i, mk_prepare_req (highest_open (p1_info s) + i) (FIRST_BALLOT s)) (range 1 n) ∧
      Forall (λ c, c ≠ [] ∧ PAXOS_MSG_SIZE (PrepareReqs (this_proposer_id s) c) < MAX_UDP_MSG_SIZE) chunks) s.
Proof.
  intros [Hok Hpc Hoc] [Hr1 Hr2 Hr3 Hr4] Hfew n.
  assert (0 ≤ pending_count (p1_info s)) as Hpos.
  { rewrite Hpc. apply (wrap_range 32). lia. }
  assert (p1_to_open (p1_info s) = n) as En.
  { unfold p1_to_open. by destruct (Z.leb_spec (PROPOSER_PREEXEC_WIN_SIZE / 2)
      (pending_count (p1_info s) + ready_count (p1_info s))); [lia|]. }
  assert (0 < n) as Hn.
  { unfold n, PROPOSER_PREEXEC_WIN_SIZE in *. assert (300 / 2 = 150) as E by done. lia. }
  eapply wp_mono; [by apply (leader_open_instances_p1_spec l (current_iid s) (next_unused_iid (p2_info s)))|].
  rewrite En. intros _ s' (_ & _ & _ & Hp1 & _ & _ & Hsent). split; [by rewrite Hp1|].
  destruct (Hsent Hn) as (chunks & H1 & H2 & H3). exists chunks. split; [done|]. split; [done|].
  eapply list.Forall_impl; [exact H3|]. intros c [Hc Hsz]. split; [done|].
  unfold PAXOS_MSG_SIZE. cbn. unfold prepare_req_size in Hsz. by rewrite sum_sizes_const in Hsz.
Qed.

(** A leader that has opened nothing. *)
Definition new_leader : proposer :=
  (proposer_start zero_clock) <| this_proposer_id := 0 |> <| p2_info := mk_phase2 1 0 |>.

Lemma new_leader_leading : leading [] 1 new_leader.
Proof.
  constructor; [constructor|..].
  - by apply mem_ok_clear; [apply all_clear_start|apply vh_start_rep|].
  - apply (all_clear_win _ 1); [apply all_clear_start|lia].
  - symmetry. cbn. rewrite all_clear_tally; [done|apply all_clear_start|apply clear_not_pending].
  - symmetry. cbn. rewrite all_clear_tally; [done|apply all_clear_start|apply clear_not_open].
Qed.

Lemma p1_opens_window_witness :
  wp leader_open_instances_p1 (λ _ s',
    highest_open (p1_info s') = 0 + 300 ∧
    ∃ chunks, sent (to_acceptors s') = sent (to_acceptors new_leader) ++ map (PrepareReqs 0) chunks ∧
      concat chunks = map (λ i, mk_prepare_req (0 + i) 10) (range 1 300) ∧
      Forall (λ c, c ≠ [] ∧ PAXOS_MSG_SIZE (PrepareReqs 0 c) < MAX_UDP_MSG_SIZE) chunks) new_leader.
Proof.
  apply (p1_opens_window [] new_leader new_leader_leading).
  - constructor; vm_compute; first [reflexivity|discriminate].
  - vm_compute. reflexivity.
Defined.

(** ** Deadlines *)

Definition usecs (t : timeval) : Z := tv_sec t * a_second + tv_usec t.

(** [leader_set_expiration] sets the deadline to the current time plus the
    interval, with the microseconds normalized, except when the microseconds
    sum up to exactly one second: then the carry is lost and the deadline is a
    second early. *)
Theorem expiration_deadline now usec :
  0 ≤ tv_usec now < a_second → 0 ≤ usec < 2 ^ 31 →
  0 ≤ tv_usec (deadline_from now usec) < a_second ∧
  usecs (deadline_from now usec) =
    usecs now + usec - (if tv_usec now + usec mod a_second =? a_second then a_second else 0).
Proof.
  intros Hn Hu. unfold deadline_from, usecs.
  pose proof (Z.div_mod usec a_second ltac:(done)) as Hdiv.
  pose proof (Z.mod_pos_bound usec a_second ltac:(done)) as Hm.
  set (r := usec mod a_second) in *. set (q := usec / a_second) in *.
  unfold a_second in *. rewrite (wrap_small 32) by lia. cbn [tv_sec tv_usec].
  split; [apply Z.mod_pos_bound; lia|].
  destruct (Z.ltb_spec 1000000 (tv_usec now + r)), (Z.eqb_spec (tv_usec now + r) 1000000); try lia.
  - rewrite <-(Z.mod_unique (tv_usec now + r) 1000000 1 (tv_usec now + r - 1000000)); lia.
  - rewrite <-(Z.mod_unique (tv_usec now + r) 1000000 1 0); lia.
  - rewrite (Z.mod_small (tv_usec now + r)); lia.
Qed.

Lemma expiration_deadline_witness :
  0 ≤ tv_usec (deadline_from (mk_timeval 5 970000) P1_TIMEOUT_INTERVAL) < a_second ∧
  usecs (deadline_from (mk_timeval 5 970000) P1_TIMEOUT_INTERVAL) =
    usecs (mk_timeval 5 970000) + P1_TIMEOUT_INTERVAL - a_second.
Proof.
  apply (expiration_deadline (mk_timeval 5 970000) P1_TIMEOUT_INTERVAL);
    unfold a_second, P1_TIMEOUT_INTERVAL; cbn; lia.
Defined.

(** ** Phase 1 keeps the value of the highest ballot *)

(** The promises of a list, one after the other, for the instance in slot [k]. *)
Definition save_promises (k : Z) (pas : list (Z * prepare_ack)) : P unit :=
  mfor pas (λ p, pro_save_prepare_ack k p.2 p.1).

Lemma land_zero_bit a : Z.land 0 (Z.shiftl 1 a) = 0.
Proof. apply Z.land_0_l. Qed.

Lemma pick_highest f pas :
  let f' := foldl pick f pas in
  f.1 ≤ f'.1 ∧ (∀ pa, pa ∈ pas → blen (pa_value pa) ≠ 0 → pa_value_ballot pa ≤ f'.1) ∧
  (f' = f ∨ ∃ pa, pa ∈ pas ∧ f' = (pa_value_ballot pa, Some (pa_value pa))).
Proof.
  cbn. revert f. induction pas as [|pa pas IH]; intros f; cbn.
  { split; [lia|]. split; [by intros pa ?%not_elem_of_nil|by left]. }
  destruct (IH (pick f pa)) as (H1 & H2 & H3).
  assert (f.1 ≤ (pick f pa).1 ∧ (blen (pa_value pa) ≠ 0 → pa_value_ballot pa ≤ (pick f pa).1) ∧
    (pick f pa = f ∨ pick f pa = (pa_value_ballot pa, Some (pa_value pa)))) as (P1 & P2 & P3).
  { unfold pick. destruct (Z.eqb_spec (blen (pa_value pa)) 0); [split_and!; [lia|done|by left]|].
    destruct (Z.leb_spec (pa_value_ballot pa) f.1); cbn; split_and!; auto with lia. }
  split; [lia|]. split.
  - intros x [->|Hx]%elem_of_cons Hlen; [specialize (P2 Hlen); lia|by apply H2].
  - destruct H3 as [->|(x & Hx & ->)].
    + destruct P3 as [->| ->]; [by left|right; exists pa; split; [left|done]].
    + right. exists x. split; [by right|done].
Qed.


(** A proposer with the instance [ii] in slot 0, and the wrappers of [h]. *)
Definition with_instance ii (h : gmap loc vh_value_wrapper) : proposer :=
  new_leader <| proposer_state := [ii] |> <| vh := mk_vh h 0 None None 0 [] |>.

Definition pending_inst : p_inst_info := mk_inst 2048 p1_pending 10 0 0 None 0 None (mk_timeval 0 0).

Lemma no_value_mem ii h :
  p1_value ii = None → p2_value ii = None → h = ∅ → mem_ok [] [ii] (mk_vh h 0 None None 0 []).
Proof.
  intros H1 H2 ->. assert (∀ o vw, ¬ owns [ii] [] o vw) as Hno.
  { intros [k|k|] vw; [intros (x & Hx & Hp)..|].
    1, 2: apply arr_get_Some in Hx as [_ Hx]; destruct (Z.to_nat k); [|done];
      cbn in Hx; injection Hx as <-; congruence.
    cbn. apply not_elem_of_nil. }
  constructor; [by constructor; [|apply base.NoDup_nil_2|..]|..].
  - intros o vw Ho. by destruct (Hno _ _ Ho).
  - intros o o' vw Ho. by destruct (Hno _ _ Ho).
  - intros vw w. cbn. by rewrite lookup_empty.
Qed.

Definition promise (vb : Z) (value : list byte) : prepare_ack := mk_prepare_ack 2048 10 vb value.


(** C13. Phase 2 respects phase 1: the accept request of an instance carries
    the value a promise reported if there is one; otherwise the value the
    instance already has; otherwise the oldest pending value, which leaves the
    list.  The request is the only message added, the values keep their place
    in memory, and the instance keeps its ballot. *)
Theorem phase2_respects_phase1 base id items l k ii s :
  mem_ok l (proposer_state s) (vh s) → arr_get (proposer_state s) k = Some ii →
  (p1_value ii ≠ None ∨ p2_value ii ≠ None ∨ l ≠ []) →
  accs base id items (to_acceptors s) →
  wp (leader_execute_p2 k) (λ _ s', ∃ l' vw w ii',
    match p1_value ii, p2_value ii with
    | Some q, _ => vw = q ∧ l' = l
    | None, Some q => vw = q ∧ l' = l
    | None, None => l = (vw, vw_value w) :: l'
    end ∧ heap (vh s) !! vw = Some w ∧
    accs base id (items ++ [mk_accept_req (ii_iid ii) (my_ballot ii) (vw_value w)]) (to_acceptors s') ∧
    mem_ok l' (proposer_state s') (vh s') ∧
    arr_get (proposer_state s') k = Some ii' ∧ ii_status ii' = p2_pending ∧ my_ballot ii' = my_ballot ii ∧
    p2_value ii' = Some vw ∧ p1_value ii' = None) s.
Proof.
  intros Hm Hk Hval Hh. eapply wp_mono; [by eapply leader_execute_p2_spec|].
  intros _ s' (l' & ii' & vw & w & Hm' & Hs' & (E1 & E2 & E3 & E4 & E5) & (Hc & Hw & Hheap) & Hh' & _).
  rewrite Hheap in Hw. exists l', vw, w, ii'. split.
  - unfold chosen_value in Hc. destruct (p1_value ii); [done|]. destruct (p2_value ii); [done|].
    destruct Hc as [x ->]. destruct (linked_alloc _ _ _ vw x (vr_linked _ _ (mo_rep _ _ _ Hm))) as [next Hn]; [left|].
    rewrite Hn in Hw. by injection Hw as <-.
  - rewrite Hs'. split_and!; try done. + by rewrite <-Hs'. + by eapply arr_get_set_eq, arr_get_lt.
Qed.

(** An instance whose promises report a value while it has a value of a
    client already loses the client's value: its wrapper stays allocated, but
    nothing refers to it any more, and the client is not notified.  The branch
    of the source that would push it back to the pending list is never
    reached. *)
Theorem client_value_lost base id items l k ii q r s :
  mem_ok l (proposer_state s) (vh s) → arr_get (proposer_state s) k = Some ii →
  p1_value ii = Some q → p2_value ii = Some r → accs base id items (to_acceptors s) →
  wp (leader_execute_p2 k) (λ _ s',
    is_Some (heap (vh s') !! r) ∧ unowned (proposer_state s') l r) s.
Proof.
  intros Hm Hk H1 H2 Hh. eapply wp_mono; [eapply leader_execute_p2_spec; [done|done|by rewrite H1; left|done]|].
  intros _ s' (l' & ii' & vw & w & Hm' & Hs' & (E1 & E2 & E3 & E4 & E5) & (Hc & Hw & Hheap) & _).
  unfold chosen_value in Hc. rewrite H1 in Hc. destruct Hc as [-> ->].
  assert (owns (proposer_state s) l (Own1 k) q) as Hq by (by exists ii).
  assert (owns (proposer_state s) l (Own2 k) r) as Hr by (by exists ii).
  split; [rewrite Hheap; by eapply (mo_alloc _ _ _ Hm)|].
  pose proof (arr_get_lt _ _ _ Hk) as [Hk0 _]. rewrite Hs'. intros o Ho. apply owns_set in Ho; [|done].
  destruct o as [k'|k'|].
  - destruct Ho as [[_ ?]|[Hne Ho]]; [congruence|]. by pose proof (mo_uniq _ _ _ Hm _ _ _ Hr Ho).
  - destruct Ho as [[-> Hp]|[Hne Ho]].
    + assert (r = q) as -> by congruence. by pose proof (mo_uniq _ _ _ Hm _ _ _ Hr Hq).
    + pose proof (mo_uniq _ _ _ Hm _ _ _ Hr Ho). congruence.
  - by pose proof (mo_uniq _ _ _ Hm _ _ _ Hr Ho).
Qed.

Definition both_inst : p_inst_info :=
  mk_inst 2048 p1_ready 20 0 2 (Some 1%positive) 1 (Some 2%positive) (mk_timeval 0 0).

Definition both_heap : gmap loc vh_value_wrapper :=
  <[1%positive := mk_wrapper ["a"%byte] None]> {[2%positive := mk_wrapper ["b"%byte] None]}.

Lemma both_mem : mem_ok [] [both_inst] (mk_vh both_heap 0 None None 0 []).
Proof.
  assert (∀ o vw, owns [both_inst] [] o vw → (o = Own1 0 ∧ vw = 1%positive) ∨ (o = Own2 0 ∧ vw = 2%positive)) as Ho.
  { intros [k|k|] vw; [intros (x & Hx & Hp)..|cbn; by intros ?%not_elem_of_nil];
      pose proof (arr_get_lt _ _ _ Hx) as Hlt; cbn in Hlt; assert (k = 0) as -> by lia;
      apply arr_get_Some in Hx as [_ Hx]; cbn in Hx; injection Hx as <-; injection Hp as <-; auto. }
  constructor; [by constructor; [|apply base.NoDup_nil_2|..]|..].
  - intros o vw [[-> ->]|[-> ->]]%Ho; by eexists.
  - intros o o' vw [[-> ->]|[-> ->]]%Ho [[-> H]|[-> H]]%Ho; done.
  - intros vw w. cbn. unfold both_heap. intros [[_ <-]|[_ [_ <-]%lookup_singleton_Some]]%lookup_insert_Some; by vm_compute.
Qed.

Definition open_batch : udp_send_buffer := mk_sendbuf (AcceptReqs 0 []) 4 false [].

Lemma open_batch_accs : accs [] 0 [] open_batch.
Proof. constructor. by exists [], []. Qed.

Lemma client_value_lost_witness :
  wp (leader_execute_p2 0) (λ _ s', is_Some (heap (vh s') !! 2%positive) ∧
    unowned (proposer_state s') [] 2%positive)
    ((with_instance both_inst both_heap) <| to_acceptors := open_batch |>).
Proof.
  apply (client_value_lost [] 0 [] [] 0 both_inst 1%positive); try reflexivity.
  - exact both_mem.
  - exact open_batch_accs.
Defined.

Lemma phase2_respects_phase1_witness :
  wp (leader_execute_p2 0) (λ _ s', ∃ l' vw w ii', (vw = 1%positive ∧ l' = []) ∧
    both_heap !! vw = Some w ∧
    accs [] 0 ([] ++ [mk_accept_req 2048 20 (vw_value w)]) (to_acceptors s') ∧
    mem_ok l' (proposer_state s') (vh s') ∧
    arr_get (proposer_state s') 0 = Some ii' ∧ ii_status ii' = p2_pending ∧ my_ballot ii' = 20 ∧
    p2_value ii' = Some vw ∧ p1_value ii' = None)
    ((with_instance both_inst both_heap) <| to_acceptors := open_batch |>).
Proof.
  apply (phase2_respects_phase1 [] 0 [] [] 0 both_inst); try reflexivity.
  - exact both_mem.
  - by left.
  - exact open_batch_accs.
Defined.

(** ** Two ways to count a quorum that is not one *)

(** A promise for the ballot of an instance, with the count it leads to. *)
Lemma handle_prepare_ack_counts l k ii a pa s :
  mem_ok l (proposer_state s) (vh s) → pro_index (pa_iid pa) = k →
  arr_get (proposer_state s) k = Some ii → ii_status ii = p1_pending → pa_ballot pa = my_ballot ii →
  promises_bitvector ii = 0 → 0 ≤ a < 31 → pa_ok pa → 0 ≤ promises_count ii < 2 ^ 32 - 1 →
  wp (handle_prepare_ack a pa) (λ r s', mem_ok l (proposer_state s') (vh s') ∧ ∃ ii',
    arr_get (proposer_state s') k = Some ii' ∧ promises_bitvector ii' = 0 ∧
    my_ballot ii' = my_ballot ii ∧ promises_count ii' = promises_count ii + 1 ∧
    r = (QUORUM <=? promises_count ii + 1) ∧
    ii_status ii' = if QUORUM <=? promises_count ii + 1 then p1_ready else p1_pending) s.
Proof.
  intros Hm <- Hii Hst Hb Hbv Ha Hv Hc. pose proof (arr_get_lt _ _ _ Hii) as Hlt.
  unfold handle_prepare_ack. wp_steps. eapply wp_get_ii; [done|].
  rewrite decide_False by (intros Hn; by apply Hn). rewrite Hb, Z.eqb_refl. cbn [negb]. wp_steps.
  eapply wp_mono; [by eapply pro_save_prepare_ack_spec|].
  intros _ s1 (ii' & v' & -> & Hm' & (H1 & H2 & H3 & H4) & Hres). cbv zeta in Hres.
  rewrite Hbv, land_zero_bit in Hres. destruct Hres as [Hb' [Hcnt _]].
  rewrite wrap_small in Hcnt by lia.
  wp_steps. eapply wp_get_ii; [by apply arr_get_set_eq|]. rewrite Hcnt.
  destruct (Z.ltb_spec (promises_count ii + 1) QUORUM), (Z.leb_spec QUORUM (promises_count ii + 1)); try lia.
  - wp_steps. split; [done|]. exists ii'. split_and!; try done; [by apply arr_get_set_eq|congruence].
  - wp_steps. eapply wp_upd_ii; [by apply arr_get_set_eq|]. wp_steps. cbn. rewrite arr_set_set.
    split; [by eapply mem_ok_reset|]. exists (ii' <| ii_status := p1_ready |>).
    split_and!; try done. by apply arr_get_set_eq.
Qed.

(** One acceptor is enough to complete phase 1: the bit of an acceptor
    that promised is never set ([&=] instead of [|=]), so its promise is
    counted again when it arrives twice, and two copies make a quorum. *)
Theorem duplicate_promise_counts l k ii a pa s :
  mem_ok l (proposer_state s) (vh s) → pro_index (pa_iid pa) = k →
  arr_get (proposer_state s) k = Some ii → ii_status ii = p1_pending → pa_ballot pa = my_ballot ii →
  promises_bitvector ii = 0 → promises_count ii = 0 → 0 ≤ a < 31 → pa_ok pa →
  wp (handle_prepare_ack a pa;; handle_prepare_ack a pa) (λ r s', r = true ∧ ∃ ii',
    arr_get (proposer_state s') k = Some ii' ∧ ii_status ii' = p1_ready) s.
Proof.
  intros Hm Hk Hii Hst Hb Hbv Hc Ha Hv. wp_steps.
  eapply wp_mono; [eapply handle_prepare_ack_counts; try done; by rewrite Hc|].
  intros _ s1 (Hm1 & ii1 & Hii1 & Hbv1 & Hb1 & Hc1 & _ & Hst1). rewrite Hc in Hc1, Hst1.
  eapply wp_mono; [eapply handle_prepare_ack_counts; try done; [congruence|by rewrite Hc1]|].
  intros r s2 (_ & ii2 & Hii2 & _ & _ & _ & -> & Hst2). rewrite Hc1 in *. split; [done|]. by exists ii2.
Qed.

Lemma duplicate_promise_counts_witness :
  wp (handle_prepare_ack 0 (promise 0 []);; handle_prepare_ack 0 (promise 0 [])) (λ r s', r = true ∧ ∃ ii',
    arr_get (proposer_state s') 0 = Some ii' ∧ ii_status ii' = p1_ready) (with_instance pending_inst ∅).
Proof.
  apply (duplicate_promise_counts [] 0 pending_inst); try reflexivity.
  - by apply no_value_mem.
  - split; [lia|reflexivity].
  - vm_compute. discriminate.
Defined.

(** An instance whose phase 2 timed out restarts phase 1 with a new ballot
    but keeps the count of the promises for the old one, so the first promise
    for the new ballot already completes phase 1. *)
Theorem restart_keeps_promises l nxt base id items now i ii a pa s :
  lead_ok l (current_iid s) (highest_open (p1_info s)) nxt s →
  current_iid s ≤ i ≤ highest_open (p1_info s) →
  arr_get (proposer_state s) (pro_index i) = Some ii → ii_status ii = p2_pending →
  Learner.learner_is_closed i (lea s) = Some (false, lea s) → leader_is_expired (ii_timeout ii) now = true →
  promises_bitvector ii = 0 → QUORUM ≤ promises_count ii < 2 ^ 32 - 1 →
  preps base id items (to_acceptors s) →
  pa_iid pa = i → pa_ballot pa = NEXT_BALLOT (my_ballot ii) → 0 ≤ a < 31 → pa_ok pa →
  wp (p2_check_body now i;; handle_prepare_ack a pa) (λ r s', r = true ∧ ∃ ii',
    arr_get (proposer_state s') (pro_index i) = Some ii' ∧ ii_status ii' = p1_ready ∧
    my_ballot ii' = NEXT_BALLOT (my_ballot ii)) s.
Proof.
  intros [Hm W] Hi Hii Hst Hcl Hexp Hbv Hc Hh Hpi Hpb Ha Hv. wp_steps.
  assert (∀ st x, length st = length (proposer_state s) →
    arr_get (arr_set st (pro_index i) x) (pro_index i) = Some x) as Hget.
  { intros st x Hs. apply arr_get_set_eq. rewrite Hs. by apply (arr_get_lt _ _ _ Hii). }
  apply (wp_mono _ (λ _ s', mem_ok l (proposer_state s') (vh s') ∧ ∃ ii',
    arr_get (proposer_state s') (pro_index i) = Some ii' ∧ ii_status ii' = p1_pending ∧
    promises_bitvector ii' = 0 ∧ promises_count ii' = promises_count ii ∧
    my_ballot ii' = NEXT_BALLOT (my_ballot ii))).
  - unfold p2_check_body. wp_steps. eapply wp_get_ii; [done|]. rewrite decide_False by (intros Hn; by apply Hn).
    wp_steps. unfold on_learner. wp_steps. unfold wp at 1. rewrite Hcl, Hexp. cbn [negb]. wp_steps.
    eapply wp_upd_ii; [done|]. wp_steps. eapply wp_upd_ii; [cbn; by apply Hget|]. wp_steps.
    eapply wp_get_ii; [cbn; apply Hget, length_arr_set|]. wp_steps.
    eapply wp_add_prepare; [done|]. intros sb Hsb. wp_steps.
    eapply wp_set_expiration; [cbn; apply Hget, length_arr_set|]. intros t n. wp_steps. cbn.
    rewrite !arr_set_set. split; [by eapply mem_ok_same|].
    eexists. split; [by apply Hget|]. done.
  - intros _ s1 (Hm1 & ii1 & Hii1 & Hst1 & Hbv1 & Hc1 & Hb1).
    eapply wp_mono; [eapply handle_prepare_ack_counts; try done; [by rewrite Hpi|congruence|]; assert (QUORUM = 2) by done; lia|].
    intros r s2 (_ & ii2 & Hii2 & _ & Hb2 & _ & -> & Hst2). rewrite Hc1 in Hst2 |- *.
    destruct (Z.leb_spec QUORUM (promises_count ii + 1)) as [_|Hlt]; [|lia].
    split; [done|]. exists ii2. rewrite Hpi in Hii2. split; [done|]. split; [done|congruence].
Qed.

(** A leader whose only open instance waits for phase 2. *)
Definition expired_inst : p_inst_info :=
  mk_inst 1 p2_pending 10 0 2 None 0 (Some 1%positive) (mk_timeval 0 0).

Definition expired_leader : proposer :=
  new_leader <| proposer_state ::= λ st, arr_set st (pro_index 1) expired_inst |>
    <| vh := mk_vh {[1%positive := mk_wrapper ["a"%byte] None]} 0 None None 0 [] |>
    <| p1_info := mk_phase1 0 0 1 |> <| p2_info := mk_phase2 2 1 |>
    <| to_acceptors := mk_sendbuf (PrepareReqs 0 []) 4 false [] |>.

Lemma ten_ballot_ok : ballot_ok 0 10.
Proof. by exists 0. Qed.

Lemma expired_leader_ok : lead_ok [] 1 1 2 expired_leader.
Proof.
  pose proof (all_clear_win 0 1 _ all_clear_start ltac:(lia)) as W0.
  assert (arr_get (proposer_state new_leader) (pro_index 1) = Some inst_zero) as Hz by done.
  constructor.
  - eapply (mem_ok_take2 _ _ _ _ inst_zero _ 1%positive); [|exact Hz| |by eexists|done|done].
    + apply mem_ok_clear; [apply all_clear_start|by constructor; [|apply base.NoDup_nil_2|..]|].
      intros vw w. cbn. intros [_ <-]%lookup_singleton_Some. by vm_compute.
    + intros [k|k|] Ho; [destruct Ho as (ii & Hii & Hp);
        apply arr_get_replicate_inv in Hii as ->; done..|by apply not_elem_of_nil in Ho].
  - set (fresh := mk_inst 1 p1_ready 10 0 2 None 0 None (mk_timeval 0 0)).
    change (win 0 1 1 2 (arr_set (proposer_state new_leader) (pro_index 1) expired_inst)).
    rewrite <-(arr_set_set _ _ fresh). apply (win_next 0 1 1 1).
    + apply (win_open 0 1 0 1); [exact W0|unfold PROPOSER_ARRAY_SIZE; lia|lia|].
      constructor; [done|done|apply ten_ballot_ok|cbn; lia|by auto].
    + lia.
    + constructor; [done|done|apply ten_ballot_ok|done|cbn; lia].
Qed.

Lemma restart_keeps_promises_witness :
  wp (p2_check_body (mk_timeval 9 0) 1;; handle_prepare_ack 0 (mk_prepare_ack 1 20 0 [])) (λ r s', r = true ∧
    ∃ ii', arr_get (proposer_state s') (pro_index 1) = Some ii' ∧ ii_status ii' = p1_ready ∧
    my_ballot ii' = NEXT_BALLOT 10) expired_leader.
Proof.
  apply (restart_keeps_promises [] 2 [] 0 [] (mk_timeval 9 0) 1 expired_inst 0); try reflexivity.
  - exact expired_leader_ok.
  - split; reflexivity || (vm_compute; discriminate).
  - split; [vm_compute; discriminate|reflexivity].
  - constructor. by exists [], [].
  - split; [lia|reflexivity].
  - vm_compute. discriminate.
Defined.

(** ** From packets to handlers *)

(** The three sockets of a leader dispatch what arrives by its type: the
    bytes of any well-formed message reach the handler of its kind with exactly
    the message that was encoded, and the other messages change nothing. *)
Theorem packets_reach_handlers (m : paxos_msg) rest s :
  msg_ok m → blen (enc_msg m rest) < 2 ^ 63 →
  pro_handle_newmsg (enc_msg m rest) (PAXOS_MSG_SIZE m) s =
    match m with PrepareAcks a pab => handle_prepare_ack_batch a pab s | _ => Some (tt, s) end ∧
  pro_handle_oracle_msg (enc_msg m rest) (PAXOS_MSG_SIZE m) s =
    match m with LeaderAnnounce id => handle_leader_announce id s | _ => Some (tt, s) end ∧
  on_vh (vh_handle_newmsg (enc_msg m rest) (PAXOS_MSG_SIZE m)) s =
    match m with Submit value => on_vh (vh_enqueue_value value) s | _ => Some (tt, s) end.
Proof.
  intros Hok Hb. destruct (rd_header m rest Hb) as [_ Htype].
  unfold pro_handle_newmsg, pro_handle_oracle_msg, vh_handle_newmsg, on_vh, zoom.
  rewrite !validate_enc by done. cbn [lift_opt mbind M_bind negb].
  rewrite Htype, dec_enc by done. destruct s. destruct m; done.
Qed.

Lemma packets_reach_handlers_witness :
  pro_handle_newmsg (enc_msg (LeaderAnnounce 1) []) (PAXOS_MSG_SIZE (LeaderAnnounce 1)) new_leader =
    Some (tt, new_leader) ∧
  pro_handle_oracle_msg (enc_msg (LeaderAnnounce 1) []) (PAXOS_MSG_SIZE (LeaderAnnounce 1)) new_leader =
    handle_leader_announce 1 new_leader ∧
  on_vh (vh_handle_newmsg (enc_msg (LeaderAnnounce 1) []) (PAXOS_MSG_SIZE (LeaderAnnounce 1))) new_leader =
    Some (tt, new_leader).
Proof.
  apply (packets_reach_handlers (LeaderAnnounce 1)).
  - split; vm_compute; first [reflexivity|discriminate].
  - vm_compute. reflexivity.
Defined.
