(* ===== verification/PaxosSystem.v ===== *)
(** * libpaxos2 as a system

    The processes of libpaxos2 and the network between them, composed of the
    handlers of [Leader], [Proposer], [Acceptor] and [Learner].  Packets are the
    bytes that a send buffer was flushed as; each may reach any process of the
    group it was sent to, late, repeatedly, or never.  Two leaders at once make two
    learners deliver different values ([learners_disagree]). *)
From Stdlib Require Import Init.Byte.
From S2P Require Import Prelude Bytes PaxosWire SendBuffer StableStorage Acceptor Learner ValuesHandler Leader Proposer.

Record paxos_sys := mk_paxos_sys {
  proposers : list proposer;
  acceptors : list (acceptor records);
  learners : list learner
}.

#[export] Instance set_proposers_of : Setter proposers := λ g r, mk_paxos_sys (g (proposers r)) (acceptors r) (learners r).
#[global] Arguments set_proposers_of _ _ /.
#[export] Instance set_acceptors_of : Setter acceptors := λ g r, mk_paxos_sys (proposers r) (g (acceptors r)) (learners r).
#[global] Arguments set_acceptors_of _ _ /.
#[export] Instance set_learners_of : Setter learners := λ g r, mk_paxos_sys (proposers r) (acceptors r) (g (learners r)).
#[global] Arguments set_learners_of _ _ /.

(** The sockets: a proposer has a learner inside. *)
Inductive process :=
  | Proposer (p : nat) | Acceptor (a : nat) | Learner (l : nat) | InnerLearner (p : nat).

(** ** The network *)

(** What a process sent to the group that another one listens to. *)
Definition sent_to (s : paxos_sys) (src dst : process) : list paxos_msg :=
  match src, dst with
  | Proposer p, Acceptor _ => default [] ((λ x, sent (to_acceptors x)) <$> proposers s !! p)
  | InnerLearner p, Acceptor _ => default [] ((λ x, sent (Learner.to_acceptors (lea x))) <$> proposers s !! p)
  | Learner l, Acceptor _ => default [] ((λ x, sent (Learner.to_acceptors x)) <$> learners s !! l)
  | Acceptor a, Proposer _ => default [] ((λ x, sent (to_proposers x)) <$> acceptors s !! a)
  | Acceptor a, (Learner _ | InnerLearner _) => default [] ((λ x, sent (to_learners x)) <$> acceptors s !! a)
  | _, _ => []
  end.

(** The packet of a message reaches the handler of a socket; [junk] are the 4
    bytes that follow the data in the buffer of the sender. *)
Definition receive {St} (newmsg : list byte → Z → M St unit) (junk : list byte) (m : paxos_msg) : M St unit :=
  newmsg (enc_msg m junk) (PAXOS_MSG_SIZE m).

(** The packet that a client makes of a value ([pax_submit_nonblock]). *)
Definition submit_packet (value : list byte) : option paxos_msg :=
  '(_, sb) ← pax_submit_nonblock value udp_sendbuf_new; head (sent sb).

(** ** The steps of a process *)

(** The learner of a proposer calls [pro_deliver_callback] for each value it
    delivers; the callback does not read the learner. *)
Definition inner_learner_receives (junk : list byte) (m : paxos_msg) : P unit :=
  s ← get;
  on_learner (receive lea_handle_newmsg junk m);;
  s' ← get;
  mfor (drop (length (delivered (lea s))) (delivered (lea s'))) (λ d, pro_deliver_callback (d_value d) (d_iid d)).

(** An event of libevent is off once it was called. *)
Definition timer_fires (t : timer) : P unit :=
  s ← get;
  c_assert (armed s t);;
  evtimer_del t;;
  match t with
  | p1_check_event => leader_periodic_p1_check
  | p2_check_event => leader_periodic_p2_check
  | print_events_event => leader_print_event_counters
  | fe_ping_event => pro_ping_failure_detector
  end.

(** The leader alone listens to the clients. *)
Definition client_packet (junk : list byte) (value : list byte) : P unit :=
  s ← get;
  c_assert (LEADER_IS_ME s);;
  m ← lift_opt (submit_packet value);
  on_vh (receive vh_handle_newmsg junk m).

Definition run_at {St} (m : M St unit) (i : nat) (l : list St) : option (list St) :=
  s ← l !! i; '(_, s') ← m s; Some (<[i := s']> l).

Definition at_proposer (p : nat) (m : P unit) (s : paxos_sys) : option paxos_sys :=
  l ← run_at m p (proposers s); Some (s <| proposers := l |>).
Definition at_acceptor (a : nat) (m : M (acceptor records) unit) (s : paxos_sys) : option paxos_sys :=
  l ← run_at m a (acceptors s); Some (s <| acceptors := l |>).
Definition at_learner (i : nat) (m : M learner unit) (s : paxos_sys) : option paxos_sys :=
  l ← run_at m i (learners s); Some (s <| learners := l |>).

Inductive sys_event :=
  | ClientSends (p : nat) (value : list byte)
  | OracleSends (p : nat) (leader : Z)
  | Receives (dst src : process) (k : nat)       (* the [k]-th packet of [src] *)
  | TimerFires (p : nat) (t : timer)
  | AcceptorRepeats (a : nat)
  | LearnerChecks (l : nat) | InnerLearnerChecks (p : nat).

Section steps.
Context (mode : Z) (junk : list byte).

(** [None]: the process stops, or there is no such process or packet. *)
Definition sys_step (ev : sys_event) (s : paxos_sys) : option paxos_sys :=
  match ev with
  | ClientSends p value => at_proposer p (client_packet junk value) s
  | OracleSends p leader => at_proposer p (receive pro_handle_oracle_msg junk (LeaderAnnounce leader)) s
  | Receives dst src k =>
      m ← sent_to s src dst !! k;
      match dst with
      | Proposer p => at_proposer p (receive pro_handle_newmsg junk m) s
      | Acceptor a => at_acceptor a (receive (acc_handle_newmsg mode) junk m) s
      | Learner l => at_learner l (receive lea_handle_newmsg junk m) s
      | InnerLearner p => at_proposer p (inner_learner_receives junk m) s
      end
  | TimerFires p t => at_proposer p (timer_fires t) s
  | AcceptorRepeats a => at_acceptor a (acc_periodic_repeater mode) s
  | LearnerChecks l => at_learner l lea_hole_check s
  | InnerLearnerChecks p => at_proposer p (on_learner lea_hole_check) s
  end.

Fixpoint sys_run (evs : list sys_event) (s : paxos_sys) : option paxos_sys :=
  match evs with
  | [] => Some s
  | ev :: evs => s ← sys_step ev s; sys_run evs s
  end.
End steps.

Definition started_proposer (clock : nat → timeval) (id : Z) : option proposer :=
  '(r, s) ← proposer_init id (proposer_start clock);
  if r =? 0 then Some s else None.

(** [n] proposers, the acceptors with empty databases, and [m] learners. *)
Definition sys_start (clock : nat → timeval) (n m : nat) : option paxos_sys :=
  ps ← mapM (started_proposer clock) (Z.of_nat <$> seq 0 n);
  acs ← mapM (λ id, acceptor_init id (∅ : records)) (seqZ 0 N_OF_ACCEPTORS);
  Some (mk_paxos_sys ps acs (replicate m init_lea_structs)).

Definition client_values (evs : list sys_event) : list (list byte) :=
  omap (λ ev, match ev with ClientSends _ value => Some value | _ => None end) evs.

(** ** Packets at the handlers

    The handlers of a socket on a message, and that a packet of the message
    gets there. *)

Definition proposer_gets (m : paxos_msg) : P unit :=
  match m with PrepareAcks a pab => handle_prepare_ack_batch a pab | _ => mret tt end.
Definition oracle_msg_gets (m : paxos_msg) : P unit :=
  match m with LeaderAnnounce id => handle_leader_announce id | _ => mret tt end.
Definition clients_gets (m : paxos_msg) : M values_handler unit :=
  match m with Submit value => vh_enqueue_value value | _ => mret tt end.
Definition learner_gets (m : paxos_msg) : M learner unit :=
  match m with AcceptAcks a aab => handle_accept_ack_batch a aab | _ => mret tt end.
Definition acceptor_gets (mode : Z) (m : paxos_msg) : M (acceptor records) unit :=
  match m with
  | PrepareReqs _ l => handle_prepare_req_batch mode l
  | AcceptReqs _ l => handle_accept_req_batch mode l
  | RepeatReqs l => handle_repeat_req_batch mode l
  | _ => mret tt
  end.

Lemma blen_enc_msg m rest : blen (enc_msg m rest) = 12 + data_size_of m + blen rest.
Proof. unfold enc_msg. autorewrite with fds. rewrite enc_data_size. lia. Qed.

Section receive.
Context (m : paxos_msg) (junk : list byte).
Context (m_ok : msg_ok m) (size_ok : data_size_of m < 2 ^ 32) (junk_ok : blen junk = 4).

Lemma packet_fits : blen (enc_msg m junk) < 2 ^ 63.
Proof using size_ok junk_ok. rewrite blen_enc_msg. lia. Qed.

(** What the dispatch of every socket begins with. *)
Lemma packet_read : validate_paxos_msg (enc_msg m junk) (PAXOS_MSG_SIZE m) = Some true ∧
  rd 4 8 (enc_msg m junk) = Some (msg_type m) ∧ dec_msg (enc_msg m junk) = Some m.
Proof using m_ok size_ok junk_ok.
  pose proof packet_fits. split_and!; [by apply validate_enc|by apply rd_header|by apply dec_enc].
Qed.

Lemma receive_proposer s : receive pro_handle_newmsg junk m s = proposer_gets m s.
Proof using m_ok size_ok junk_ok.
  destruct packet_read as (H1 & H2 & H3). unfold receive, pro_handle_newmsg. rewrite H1. cbn [lift_opt mbind M_bind negb].
  rewrite H2, H3. by destruct m.
Qed.

Lemma receive_oracle s : receive pro_handle_oracle_msg junk m s = oracle_msg_gets m s.
Proof using m_ok size_ok junk_ok.
  destruct packet_read as (H1 & H2 & H3). unfold receive, pro_handle_oracle_msg. rewrite H1. cbn [lift_opt mbind M_bind negb].
  rewrite H2, H3. by destruct m.
Qed.

Lemma receive_clients s : receive vh_handle_newmsg junk m s = clients_gets m s.
Proof using m_ok size_ok junk_ok.
  destruct packet_read as (H1 & H2 & H3). unfold receive, vh_handle_newmsg. rewrite H1. cbn [lift_opt mbind M_bind negb].
  rewrite H2, H3. by destruct m.
Qed.

Lemma receive_learner s : receive lea_handle_newmsg junk m s = learner_gets m s.
Proof using m_ok size_ok junk_ok.
  destruct packet_read as (H1 & H2 & H3). unfold receive, lea_handle_newmsg. rewrite H1. cbn [lift_opt mbind M_bind negb].
  rewrite H2, H3. by destruct m.
Qed.

Lemma receive_acceptor mode s : receive (acc_handle_newmsg mode) junk m s = acceptor_gets mode m s.
Proof using m_ok size_ok junk_ok.
  destruct packet_read as (H1 & H2 & H3). unfold receive, acc_handle_newmsg. rewrite H1. cbn [lift_opt mbind M_bind negb].
  rewrite H2, H3. by destruct m.
Qed.
End receive.

(** ** Two leaders *)

(** Proposer 0 leads and has the promises of the acceptors 0 and 1 for the ballot
    10; its request for the value [a] is on its way.  Proposer 1 is told that it
    leads, has their promises for the ballot 11, and they accept its value [b],
    which learner 0 delivers.  Then the request of proposer 0 arrives. *)
Definition two_leaders : list sys_event :=
  [ClientSends 0 [x61]; Receives (Acceptor 0) (Proposer 0) 0; Receives (Acceptor 1) (Proposer 0) 0;
   Receives (Proposer 0) (Acceptor 0) 0; Receives (Proposer 0) (Acceptor 1) 0;
   OracleSends 1 1; ClientSends 1 [x62];
   Receives (Acceptor 0) (Proposer 1) 0; Receives (Acceptor 1) (Proposer 1) 0;
   Receives (Proposer 1) (Acceptor 0) 1; Receives (Proposer 1) (Acceptor 1) 1;
   Receives (Acceptor 0) (Proposer 1) 1; Receives (Acceptor 1) (Proposer 1) 1;
   Receives (Learner 0) (Acceptor 0) 0; Receives (Learner 0) (Acceptor 1) 0;
   Receives (Acceptor 0) (Proposer 0) 1; Receives (Acceptor 1) (Proposer 0) 1;
   Receives (Learner 1) (Acceptor 0) 1; Receives (Learner 1) (Acceptor 1) 1].

(** ** Running the system on messages

    An evaluator that skips the bytes of the packets; what it computes is what
    the system does. *)

Definition fits (w x : Z) : bool := (0 <=? x) && (x <? 2 ^ w).

Lemma fits_in_u w x : fits w x = true → in_u w x.
Proof. unfold fits, in_u. intros H. zbool. lia. Qed.

Definition batch_okb {A} (n : Z) (ok : A → bool) (id : Z) (l : list A) : bool :=
  (0 <=? id) && (id <? n) && forallb ok l && (Z.of_nat (length l) <? 2 ^ 15).

Lemma batch_ok_spec {A} n (ok : A → bool) (Ok : A → Prop) id l : (∀ x, ok x = true → Ok x) → batch_okb n ok id l = true →
  0 ≤ id < n ∧ Forall Ok l ∧ Z.of_nat (length l) < 2 ^ 15.
Proof.
  intros Hok. unfold batch_okb. intros [[[H1 H2]%andb_prop H3]%andb_prop H4]%andb_prop. zbool. split_and!; [lia..| |lia].
  apply list.Forall_forall. intros x Hx. apply Hok. rewrite forallb_forall in H3. apply H3. by apply list_elem_of_In.
Qed.

Definition msg_okb (m : paxos_msg) : bool :=
  match m with
  | PrepareReqs id l => batch_okb MAX_N_OF_PROPOSERS (λ r, fits 32 (pr_iid r) && fits 32 (pr_ballot r)) id l
  | PrepareAcks id l =>
      batch_okb N_OF_ACCEPTORS (λ a, fits 32 (pa_iid a) && fits 32 (pa_ballot a) && fits 32 (pa_value_ballot a)) id l
  | AcceptReqs id l => batch_okb MAX_N_OF_PROPOSERS (λ r, fits 32 (ar_iid r) && fits 32 (ar_ballot r)) id l
  | AcceptAcks id l =>
      batch_okb N_OF_ACCEPTORS (λ a, fits 32 (aa_iid a) && fits 32 (aa_ballot a) && fits 32 (aa_value_ballot a)
        && fits 15 (aa_is_final a)) id l
  | Submit _ => true
  | LeaderAnnounce id => fits 15 id
  | RepeatReqs _ | AlivePing _ _ => false
  end && (data_size_of m <? 2 ^ 32).

Ltac fits_all := repeat match goal with
  | H : _ && _ = true |- _ => apply andb_prop in H as [? ?]
  | H : fits _ _ = true |- _ => apply fits_in_u in H
  end.

Lemma msg_okb_ok m : msg_okb m = true → msg_ok m ∧ data_size_of m < 2 ^ 32.
Proof.
  unfold msg_okb. intros [H Hs%Z.ltb_lt]%andb_prop. split; [|done].
  destruct m as [id l|id l|id l|id l|l|v|id|id n]; try done; cbn;
    try (eapply batch_ok_spec; [|exact H]; cbn; intros x Hx; fits_all; by repeat split_and).
  - eapply batch_ok_spec; [|exact H]. cbn. intros x Hx. fits_all. unfold accept_ack_ok, in_short, in_u in *. split_and!; lia.
  - apply fits_in_u in H. unfold in_short, in_u in *. lia.
Qed.

(** The steps of the runs that are evaluated. *)
Definition fast_step (ev : sys_event) (s : paxos_sys) : option paxos_sys :=
  match ev with
  | ClientSends p value =>
      at_proposer p (s ← get; c_assert (LEADER_IS_ME s);;
        m ← lift_opt (submit_packet value); c_assert (msg_okb m);; on_vh (clients_gets m)) s
  | OracleSends p leader =>
      if msg_okb (LeaderAnnounce leader) then at_proposer p (handle_leader_announce leader) s else None
  | Receives dst src k =>
      m ← sent_to s src dst !! k;
      if msg_okb m then
        match dst with
        | Proposer p => at_proposer p (proposer_gets m) s
        | Acceptor a => at_acceptor a (acceptor_gets 0 m) s
        | Learner l => at_learner l (learner_gets m) s
        | InnerLearner p => None
        end
      else None
  | TimerFires p t => at_proposer p (timer_fires t) s
  | _ => None
  end.

Fixpoint fast_run (evs : list sys_event) (s : paxos_sys) : option paxos_sys :=
  match evs with
  | [] => Some s
  | ev :: evs => s ← fast_step ev s; fast_run evs s
  end.

Lemma run_at_ext {St} (m m' : M St unit) i l : (∀ s, m s = m' s) → run_at m i l = run_at m' i l.
Proof. intros H. unfold run_at. destruct (l !! i) as [s|]; [|done]. cbn. by rewrite H. Qed.

Lemma fast_step_ok junk ev s s' : blen junk = 4 → fast_step ev s = Some s' → sys_step 0 junk ev s = Some s'.
Proof.
  intros Hj. destruct ev as [p value|p leader|dst src k|p t|a|l|p]; cbn; try done.
  - unfold at_proposer, run_at. destruct (proposers s !! p) as [x|]; [|done]. cbn. unfold client_packet, mbind, M_bind, get, c_assert.
    destruct (LEADER_IS_ME x); [|done]. destruct (submit_packet value) as [m|]; [|done]. cbn.
    destruct (msg_okb m) eqn:Hb; [apply msg_okb_ok in Hb as [Hm Hs]|done]. unfold on_vh, zoom. by rewrite receive_clients.
  - destruct (msg_okb _) eqn:Hb; [apply msg_okb_ok in Hb as [Hm Hs]|done]. intros <-. unfold at_proposer. erewrite run_at_ext; [done|].
    intros x. by apply receive_oracle.
  - destruct (sent_to s src dst !! k) as [m|]; [|done]. cbn. destruct (msg_okb m) eqn:Hb; [apply msg_okb_ok in Hb as [Hm Hs]|done].
    destruct dst; [..|done]; intros <-; unfold at_proposer, at_acceptor, at_learner; (erewrite run_at_ext; [done|]); intros x;
      [by apply receive_proposer|by apply receive_acceptor|by apply receive_learner].
Qed.

Lemma fast_run_ok junk evs s s' : blen junk = 4 → fast_run evs s = Some s' → sys_run 0 junk evs s = Some s'.
Proof.
  intros Hj. revert s. induction evs as [|ev evs IH]; intros s; [done|]. cbn. destruct (fast_step ev s) as [s1|] eqn:E; [|done].
  rewrite (fast_step_ok _ _ _ _ Hj E). apply IH.
Qed.

(** The loop that clears the instances of a proposer that starts changes
    nothing. *)
Lemma upd_ii_same k f ii s : arr_get (proposer_state s) k = Some ii → f ii = ii → upd_ii k f s = Some (tt, s).
Proof.
  intros Hk Hf. unfold upd_ii, get_ii, mbind, M_bind, get, lift_opt, modify. rewrite Hk, Hf. cbn.
  rewrite arr_set_same by done. by destruct s.
Qed.

Lemma clear_zero k s : arr_get (proposer_state s) k = Some inst_zero → pro_clear_instance_info k s = Some (tt, s).
Proof.
  intros Hk. unfold pro_clear_instance_info, mbind, M_bind. rewrite (upd_ii_same k _ inst_zero) by done.
  unfold get_ii at 1, mbind, M_bind, get, lift_opt. rewrite Hk. cbn.
  rewrite (upd_ii_same k _ inst_zero) by done. cbn. by rewrite (upd_ii_same k _ inst_zero) by done.
Qed.

Lemma mfor_same {St A} (l : list A) (f : A → M St unit) s : (∀ x, x ∈ l → f x s = Some (tt, s)) → mfor l f s = Some (tt, s).
Proof.
  induction l as [|x l IH]; intros H; [done|]. cbn [mfor]. unfold mbind, M_bind. rewrite H by left.
  apply IH. intros y Hy. apply H. by right.
Qed.

Definition zero_structs : P Z :=
  modify (λ s, s <| proposer_state := replicate (Z.to_nat PROPOSER_ARRAY_SIZE) inst_zero |>);; mret 0.

Lemma init_pro_structs_zero s : init_pro_structs s = zero_structs s.
Proof.
  unfold init_pro_structs, zero_structs. change (negb _) with false. change (_ <=? _) with false. cbv iota.
  unfold mbind, M_bind, modify. unfold for_lt. rewrite mfor_same; [done|].
  intros k Hk. apply elem_of_seqZ in Hk. apply clear_zero. cbn [proposer_state set_proposer_state].
  apply arr_get_replicate. unfold PROPOSER_ARRAY_SIZE in *. lia.
Qed.

Lemma bind_ext {St A B} (m m' : M St A) (k k' : A → M St B) : (∀ s, m s = m' s) → (∀ a s, k a s = k' a s) →
  ∀ s, (m ≫= k) s = (m' ≫= k') s.
Proof. intros Hm Hk s. unfold mbind, M_bind. rewrite Hm. by destruct (m' s) as [[a s']|]. Qed.

Definition fast_init : P Z :=
  modify (λ s, s <| to_acceptors := udp_sendbuf_new |> <| to_oracle := udp_sendbuf_new |>);;
  pro_ping_failure_detector;;
  r ← zero_structs;
  if negb (r =? 0) then mret (-1)
  else
    s ← get;
    if LEADER_IS_ME s then leader_init else mret 0.

Definition fast_proposer (clock : nat → timeval) (id : Z) : option proposer :=
  if (id <? 0) || (MAX_N_OF_PROPOSERS <=? id) then None
  else
    '(r, s) ← (modify (λ s, s <| this_proposer_id := id |>);;
               r ← fast_init; if negb (r =? 0) then mret (-1) else mret 0) (proposer_start clock);
    if r =? 0 then Some s else None.

Lemma fast_proposer_ok clock id : started_proposer clock id = fast_proposer clock id.
Proof.
  unfold started_proposer, proposer_init, fast_proposer. destruct ((id <? 0) || (MAX_N_OF_PROPOSERS <=? id)); [done|].
  erewrite bind_ext; [done|done|]. intros ?. apply bind_ext; [|done]. apply bind_ext; [done|]. intros ?.
  apply bind_ext; [done|]. intros ?. apply bind_ext; [|done]. apply init_pro_structs_zero.
Qed.

Definition fast_start (clock : nat → timeval) (n m : nat) : option paxos_sys :=
  ps ← mapM (fast_proposer clock) (Z.of_nat <$> seq 0 n);
  acs ← mapM (λ id, acceptor_init id (∅ : records)) (seqZ 0 N_OF_ACCEPTORS);
  Some (mk_paxos_sys ps acs (replicate m init_lea_structs)).

Lemma fast_start_ok clock n m : sys_start clock n m = fast_start clock n m.
Proof.
  unfold sys_start, fast_start. f_equal. induction (Z.of_nat <$> seq 0 n) as [|id ids IH]; [done|].
  cbn. by rewrite fast_proposer_ok, IH.
Qed.

Definition still_clock (_ : nat) : timeval := mk_timeval 0 0.

(** What the learners deliver in a run from the start. *)
Definition deliveries_after (junk : list byte) (n m : nat) (evs : list sys_event) : option (list (list delivery)) :=
  (λ s, delivered <$> learners s) <$> (sys_start still_clock n m ≫= sys_run 0 junk evs).

Lemma deliveries_fast junk n m evs ds : blen junk = 4 →
  (λ s, delivered <$> learners s) <$> (fast_start still_clock n m ≫= fast_run evs) = Some ds →
  deliveries_after junk n m evs = Some ds.
Proof.
  intros Hj. unfold deliveries_after. rewrite fast_start_ok. destruct (fast_start still_clock n m) as [s|]; [|done]. cbn.
  destruct (fast_run evs s) as [s'|] eqn:E; [|done]. by rewrite (fast_run_ok junk _ _ _ Hj E).
Qed.

Lemma two_leaders_deliver junk : blen junk = 4 →
  deliveries_after junk 2 2 two_leaders = Some [[mk_delivery [x62] 1 11 1]; [mk_delivery [x61] 1 10 0]].
Proof. intros Hj. apply deliveries_fast; [done|by vm_compute]. Qed.

Lemma deliveries_run junk n m evs ds : deliveries_after junk n m evs = Some ds →
  ∃ s, (sys_start still_clock n m ≫= sys_run 0 junk evs) = Some s ∧ delivered <$> learners s = ds.
Proof.
  unfold deliveries_after. destruct (sys_start still_clock n m ≫= sys_run 0 junk evs) as [s|]; [|done].
  cbn. intros [= <-]. by exists s.
Qed.

(** C5. Agreement fails in libpaxos2: in the run above packets are only late or
    lost, every process follows the code, and the two learners deliver
    different values for instance 1, because an acceptor accepts a request of a
    ballot lower than the one it promised. *)
Theorem learners_disagree (b1 b2 b3 b4 : byte) :
  deliveries_after [b1; b2; b3; b4] 2 2 two_leaders =
  Some [[mk_delivery [x62] 1 11 1]; [mk_delivery [x61] 1 10 0]].
Proof. by apply two_leaders_deliver. Qed.
