(* ===== verification/AbMagic.v ===== *)
(** * A broadcast by one sequencer

    [paxos2/tests/abmagic.c]: a process in the place of the acceptors and of the
    leader, which numbers the values of the clients, stores them and announces
    them to the learners as final acceptances of acceptor 0.

    [abmagic_total_order]: the learners deliver prefixes of what was submitted.
    [repeat_forgets_pending]: a request of a learner makes it forget what it has
    not sent yet. *)
From Stdlib Require Import Init.Byte.
From S2P Require Import Prelude Bytes PaxosWire SendBuffer StableStorage Acceptor Learner ValuesHandler Leader Proposer PaxosSystem.

(** The static variables. *)
Record abmagic (DB : Type) := mk_abmagic {
  ab_to_learners : udp_send_buffer;
  ab_storage : storage DB;
  ab_current_iid : Z;                  (* iid_t *)
  accept_buffer : accept_ack
}.
Arguments mk_abmagic {DB}.
Arguments ab_to_learners {DB}.
Arguments ab_storage {DB}.
Arguments ab_current_iid {DB}.
Arguments accept_buffer {DB}.

Section abmagic.
Context {DB : Type} `{!RecordStore DB}.
(** [DURABILITY_MODE] *)
Context (mode : Z).
Implicit Types (s : abmagic DB).

Abbreviation AB := (M (abmagic DB)).

Definition set_ab_learners (sb : udp_send_buffer) s : abmagic DB := mk_abmagic sb (ab_storage s) (ab_current_iid s) (accept_buffer s).
Definition set_ab_storage (st : storage DB) s : abmagic DB := mk_abmagic (ab_to_learners s) st (ab_current_iid s) (accept_buffer s).
Definition on_ab_learners {A} (m : M udp_send_buffer A) : AB A := zoom ab_to_learners set_ab_learners m.
Definition on_ab_storage {A} (m : M (storage DB) A) : AB A := zoom ab_storage set_ab_storage m.

Definition ab_tx_begin : AB unit := on_ab_storage (stablestorage_tx_begin mode).
Definition ab_tx_end : AB unit := on_ab_storage (stablestorage_tx_end mode).
Definition ab_add_accept_ack : accept_ack → AB unit :=
  sendbuf_add_accept_ack ab_to_learners set_ab_learners ab_tx_begin ab_tx_end.

(** [accept_buffer] has [MAX_UDP_MSG_SIZE] bytes. *)
Definition ab_store_value (value : list byte) : AB unit :=
  s ← get;
  c_assert (sizeof_accept_ack + blen value <=? MAX_UDP_MSG_SIZE);;
  modify (λ s, mk_abmagic (ab_to_learners s) (ab_storage s) (ab_current_iid s) (mk_accept_ack (ab_current_iid s) 101 101 1 value));;
  _ ← on_ab_storage (stablestorage_save_final_value value (ab_current_iid s) 101);
  mret tt.

(** The case [submit] of [ab_handle_newval]. *)
Definition ab_submit (value : list byte) : AB unit :=
  ab_store_value value;;
  s ← get;
  ab_add_accept_ack (accept_buffer s);;
  modify (λ s, mk_abmagic (ab_to_learners s) (ab_storage s) (u32 (ab_current_iid s + 1)) (accept_buffer s)).

Definition ab_handle_newval (buf : list byte) (msg_size : Z) : AB unit :=
  valid ← lift_opt (validate_paxos_msg buf msg_size);
  if negb valid then mret tt
  else
    type ← lift_opt (rd 4 8 buf);
    if type =? 32 then
      msg ← lift_opt (dec_msg buf);
      match msg with Submit value => ab_submit value | _ => mret tt end
    else mret tt.

Definition ab_handle_repeat_req_batch (rrb : list Z) : AB unit :=
  on_ab_learners (sendbuf_clear accept_acks 0);;
  mfor rrb (λ iid,
    aa ← on_ab_storage (stablestorage_get_record iid);
    match aa with
    | Some aa => if 0 <? blen (aa_value aa) then ab_add_accept_ack aa else mret tt
    | None => mret tt
    end);;
  on_ab_learners sendbuf_flush.

Definition ab_handle_leamsg (buf : list byte) (msg_size : Z) : AB unit :=
  valid ← lift_opt (validate_paxos_msg buf msg_size);
  if negb valid then mret tt
  else
    type ← lift_opt (rd 4 8 buf);
    if type =? 16 then
      msg ← lift_opt (dec_msg buf);
      match msg with RepeatReqs rrb => ab_handle_repeat_req_batch rrb | _ => mret tt end
    else mret tt.

Definition ab_periodic_flush : AB unit :=
  ab_tx_end;;
  on_ab_learners sendbuf_flush;;
  ab_tx_begin.

(** The static variables, with the database that [stablestorage_init] opened. *)
Definition ab_start (db : DB) : abmagic DB := mk_abmagic udp_sendbuf_new (mk_storage db empty_record) 1 empty_record.

(** [ab_init]: what its calls return.  A failure of [stablestorage_init] is only
    printed. *)
Record ab_env := mk_ab_env {
  malloc_given : bool; ab_event_init_given : bool; ab_learners_given : bool; from_learners_given : bool;
  from_clients_given : bool; flush_event_rc : Z
}.

Definition ab_init (env : ab_env) : AB Z :=
  if negb (malloc_given env) then mret (-1)
  else
    ab_tx_begin;;
    if negb (ab_event_init_given env) then mret (-1)
    else if negb (ab_learners_given env) then mret (-1)
    else
      on_ab_learners (sendbuf_clear accept_acks 0);;
      if negb (from_learners_given env) then mret (-1)
      else if negb (from_clients_given env) then mret (-1)
      else if negb (flush_event_rc env =? 0) then mret (-1)
      else mret 0.

(** ** A run *)

Inductive ab_event := AbSubmit (value : list byte) | AbRepeat (iids : list Z) | AbFlush.

(** The packets of the clients and of the learners, as their bytes; [junk] is
    what follows them in the buffer. *)
Definition ab_handle (junk : list byte) (ev : ab_event) : AB unit :=
  match ev with
  | AbSubmit value => receive ab_handle_newval junk (Submit value)
  | AbRepeat iids => receive ab_handle_leamsg junk (RepeatReqs iids)
  | AbFlush => ab_periodic_flush
  end.

Definition ab_main (env : ab_env) (junk : list byte) (evs : list ab_event) : AB Z :=
  rc ← ab_init env;
  if negb (rc =? 0) then mret (-1)
  else mfor evs (ab_handle junk);; mret 0.

Definition ab_submitted (evs : list ab_event) : list (list byte) :=
  omap (λ ev, match ev with AbSubmit value => Some value | _ => None end) evs.
End abmagic.

(** ** The invariant *)

Definition ab_ack (iid : Z) (v : list byte) : accept_ack := mk_accept_ack iid 101 101 1 v.

(** A value that fits in a packet with an acknowledgement. *)
Definition ab_value_ok (v : list byte) : Prop := blen v < PAXOS_MAX_VALUE_SIZE - 4.

(** An acknowledgement says what was submitted, as the instance of its place. *)
Definition ab_ack_ok (vals : list (list byte)) (aa : accept_ack) : Prop :=
  ∃ i v, 1 ≤ i ∧ vals !! Z.to_nat (i - 1) = Some v ∧ aa = ab_ack i v.
Definition ab_packet_ok (vals : list (list byte)) (m : paxos_msg) : Prop :=
  ∃ l, m = AcceptAcks 0 l ∧ Forall (ab_ack_ok vals) l.

Lemma ab_ack_ok_app vals vals' aa : ab_ack_ok vals aa → ab_ack_ok (vals ++ vals') aa.
Proof. intros (i & v & Hi & Hv & ->). exists i, v. split_and!; [done|by apply lookup_app_l_Some|done]. Qed.

Lemma ab_packet_ok_app vals vals' m : ab_packet_ok vals m → ab_packet_ok (vals ++ vals') m.
Proof.
  intros (l & -> & Hl). exists l. split; [done|]. eapply list.Forall_impl; [exact Hl|]. intros aa. apply ab_ack_ok_app.
Qed.

(** The acknowledgements of the packets of a buffer. *)
Lemma chunks_ok vals cs : Forall (ab_ack_ok vals) (concat cs) → Forall (ab_packet_ok vals) (map (AcceptAcks 0) cs).
Proof.
  intros Hc. induction cs as [|c cs IH]; cbn in *; [done|]. apply Forall_app in Hc as [Hc Hcs]. constructor; [by exists c|by apply IH].
Qed.

Lemma ab_ack_fits i v : ab_value_ok v → item_fits ACCEPT_ACK_SIZE (ab_ack i v) ∧ sizeof_accept_ack + blen v ≤ MAX_UDP_MSG_SIZE.
Proof.
  unfold ab_value_ok, item_fits, ACCEPT_ACK_SIZE, PAXOS_MAX_VALUE_SIZE, sizeof_batch, sizeof_accept_ack, sizeof_paxos_msg. cbn. lia.
Qed.

Section ab_proofs.
Context {DB : Type} `{!RecordStore DB, !RecordStoreLaws DB} (mode : Z).
Implicit Types (s : abmagic DB).

Definition ab_records s : records := stored (ab_storage s).

(** The database has what was submitted, under its place. *)
Definition ab_stored (vals : list (list byte)) (m : records) : Prop :=
  ∀ i, 1 ≤ i → m !! i = ab_ack i <$> vals !! Z.to_nat (i - 1).

(** Each value is in a packet that was sent or among [items]. *)
Definition ab_told (vals : list (list byte)) (base : list paxos_msg) (items : list accept_ack) : Prop :=
  ∀ i v, vals !! i = Some v → let aa := ab_ack (1 + Z.of_nat i) v in aa ∈ items ∨ ∃ b, AcceptAcks 0 b ∈ base ∧ aa ∈ b.

(** The buffer holds acknowledgements, some of which may have been sent, and
    with [full] no value is missing. *)
Definition ab_buffer (full : bool) (vals : list (list byte)) (sb : udp_send_buffer) : Prop :=
  ∃ base items, sb_holds AcceptAcks ACCEPT_ACK_SIZE base 0 items sb ∧ Forall (ab_packet_ok vals) base ∧ Forall (ab_ack_ok vals) items ∧
    (full = true → ab_told vals base items).

Record ab_inv (full : bool) (vals : list (list byte)) s : Prop := mk_ab_inv {
  abi_stored : ab_stored vals (ab_records s);
  abi_records : records_ok (ab_records s);
  abi_iid : ab_current_iid s = u32 (1 + Z.of_nat (length vals));
  abi_buffer : ab_buffer full vals (ab_to_learners s)
}.

(** What transactions and sends leave unchanged. *)
Definition ab_same s0 s : Prop := ab_records s = ab_records s0 ∧ ab_current_iid s = ab_current_iid s0 ∧ accept_buffer s = accept_buffer s0.

Lemma ab_tx_begin_spec s0 s : ab_same s0 s → wp (ab_tx_begin mode) (λ _ s', ab_same s0 s' ∧ ab_to_learners s' = ab_to_learners s) s.
Proof using Type*.
  intros (H1 & H2 & H3). apply wp_zoom. eapply wp_mono; [apply tx_begin_spec|]. intros _ st [Hst _].
  split; [|done]. split_and!; [|done|done]. unfold ab_records in *. cbn. by rewrite Hst.
Qed.
Lemma ab_tx_end_spec s0 s : ab_same s0 s → wp (ab_tx_end mode) (λ _ s', ab_same s0 s' ∧ ab_to_learners s' = ab_to_learners s) s.
Proof using Type*.
  intros (H1 & H2 & H3). apply wp_zoom. eapply wp_mono; [apply tx_end_spec|]. intros _ st [Hst _].
  split; [|done]. split_and!; [|done|done]. unfold ab_records in *. cbn. by rewrite Hst.
Qed.

Lemma ab_add_spec base items aa s : sb_holds AcceptAcks ACCEPT_ACK_SIZE base 0 items (ab_to_learners s) → item_fits ACCEPT_ACK_SIZE aa →
  wp (ab_add_accept_ack mode aa)
    (λ _ s', sb_holds AcceptAcks ACCEPT_ACK_SIZE base 0 (items ++ [aa]) (ab_to_learners s') ∧ ab_same s s') s.
Proof using Type*.
  intros Hh Hx. apply (add_accept_ack_holds ab_to_learners set_ab_learners (ab_tx_begin mode) (ab_tx_end mode) (ab_same s)); try done.
  - intros s'. apply ab_tx_end_spec.
  - intros s'. apply ab_tx_begin_spec.
Qed.

(** Acknowledgements that are chunked are in a packet. *)
Lemma in_chunks (aa : accept_ack) cs : aa ∈ concat cs → ∃ b, AcceptAcks 0 b ∈ map (AcceptAcks 0) cs ∧ aa ∈ b.
Proof using Type.
  intros (b & Hb & Haa)%list_elem_of_In%in_concat. exists b. split; [|by apply list_elem_of_In].
  by apply list_elem_of_fmap_2, list_elem_of_In.
Qed.

Lemma sent_ok base items sb vals : sb_holds AcceptAcks ACCEPT_ACK_SIZE base 0 items sb → Forall (ab_packet_ok vals) base →
  Forall (ab_ack_ok vals) items → Forall (ab_packet_ok vals) (sent sb).
Proof using Type.
  intros [(l & cs & Hm & Hs & <- & _)] Hb [Hc _]%Forall_app. rewrite Hs. apply Forall_app. split; [done|by apply chunks_ok].
Qed.

(** Flushing keeps the message that is open, so that it is sent again. *)
Lemma flush_again full vals sb : ab_buffer full vals sb →
  wp sendbuf_flush (λ _ sb', ab_buffer full vals sb' ∧ Forall (ab_packet_ok vals) (sent sb') ∧ (full = true → ab_told vals (sent sb') [])) sb.
Proof using Type.
  intros (base & items & Hh & Hb & Hi & Ht). pose proof (sent_ok _ _ _ _ Hh Hb Hi) as Hsent.
  destruct Hh as [(l & cs & Hm & Hs & <- & Hds & Hd & Hf & Hcs)]. unfold sendbuf_flush. apply wp_modify.
  apply Forall_app in Hi as [Hc Hl]. set (sb' := if dirty sb then _ else _).
  assert (sb_msg sb' = AcceptAcks 0 l ∧ sb_data_size sb' = sb_data_size sb ∧ dirty sb' = dirty sb) as (E1 & E2 & E3)
    by (subst sb'; destruct (dirty sb) eqn:E; by split_and!).
  assert (sent sb' = sent sb ++ (if decide (l = []) then [] else [AcceptAcks 0 l])) as Es.
  { subst sb'. rewrite Hd. destruct (decide (l = [])) as [->|Hne]; [by rewrite bool_decide_eq_false_2, app_nil_r by auto|].
    rewrite bool_decide_eq_true_2 by done. cbn. by rewrite Hm. }
  assert (full = true → ab_told vals (sent sb') []) as Ht'.
  { intros Hfull i v Hv. right. destruct (Ht Hfull i v Hv) as [[(b & Hb1 & Hb2)%in_chunks|Hin]%elem_of_app|(b & Hb1 & Hb2)];
      [exists b|exists l|exists b]; (split; [rewrite Es, Hs; apply elem_of_app|done]).
    - left. apply elem_of_app. by right.
    - right. destruct (decide (l = [])) as [->|]; [by apply elem_of_nil in Hin|by apply list_elem_of_singleton].
    - left. apply elem_of_app. by left. }
  assert (Forall (ab_packet_ok vals) (sent sb')) as Hsent'.
  { rewrite Es. apply Forall_app. split; [done|]. destruct (decide (l = [])); [done|]. constructor; [by exists l|done]. }
  split_and!; [|done|done]. exists (sent sb'), l. split_and!; [|done|done|].
  - constructor. exists l, []. cbn. rewrite app_nil_r, E1, E2, E3. done.
  - intros Hfull i v Hv. destruct (Ht' Hfull i v Hv) as [Hin|?]; [by apply elem_of_nil in Hin|by right].
Qed.

Lemma ab_stored_snoc vals v m : ab_stored vals m → let i := 1 + Z.of_nat (length vals) in ab_stored (vals ++ [v]) (<[i := ab_ack i v]> m).
Proof using Type.
  intros Hm i j Hj. destruct (decide (j = i)) as [->|Hne].
  - rewrite lookup_insert_eq. replace (Z.to_nat (i - 1)) with (length vals) by lia. rewrite lookup_app_r by lia. by rewrite Nat.sub_diag.
  - rewrite lookup_insert_ne by done. rewrite (Hm j Hj). f_equal.
    destruct (decide (j < i)); [by rewrite lookup_app_l by lia|].
    rewrite !lookup_ge_None_2; [done|rewrite length_app; cbn; lia|lia].
Qed.

(** A value becomes the next instance. *)
Lemma ab_submit_spec full vals v s : ab_inv full vals s → ab_value_ok v → 1 + Z.of_nat (length vals) < 2 ^ 32 →
  wp (ab_submit mode v) (λ _ s', ab_inv full (vals ++ [v]) s') s.
Proof using Type*.
  intros [Hst Hok Hiid (base & items & Hh & Hb & Hi & Ht)] Hv Hlen. rewrite wrap_small in Hiid by lia.
  set (i := 1 + Z.of_nat (length vals)) in *. destruct (ab_ack_fits i v Hv) as [Hfits Hroom].
  unfold ab_submit, ab_store_value. apply wp_bind, wp_bind, wp_get, wp_bind, wp_assert; [by apply Z.leb_le|].
  apply wp_bind, wp_modify, wp_bind, wp_zoom. cbn. rewrite Hiid.
  eapply wp_mono; [apply save_final_value_spec; [lia|exact Hroom]|]. intros r st [-> Hst']. apply wp_ret, wp_bind, wp_get. cbn. apply wp_bind.
  eapply wp_mono; [apply (ab_add_spec base items); [exact Hh|exact Hfits]|]. intros _ s' (Hh' & Hr' & Hi' & _). apply wp_modify. cbn in *.
  unfold ab_records in *. cbn in Hr'. constructor; unfold ab_records; cbn; rewrite ?Hr', ?Hst', ?Hi'.
  - by apply ab_stored_snoc.
  - by apply map_Forall_insert_2.
  - f_equal. unfold i. rewrite length_app. cbn. lia.
  - exists base, (items ++ [ab_ack i v]). split_and!; [exact Hh'| | |].
    + eapply list.Forall_impl; [exact Hb|]. intros m. apply ab_packet_ok_app.
    + apply Forall_app. split; [eapply list.Forall_impl; [exact Hi|]; intros aa; apply ab_ack_ok_app|].
      constructor; [|done]. exists i, v. split_and!; [lia| |done]. replace (Z.to_nat (i - 1)) with (length vals) by lia.
      rewrite lookup_app_r by lia. by rewrite Nat.sub_diag.
    + intros Hfull j w [Hw|[Hge Hw]]%lookup_app_Some.
      * destruct (Ht Hfull j w Hw) as [?|?]; [left; apply elem_of_app; by left|by right].
      * apply list_lookup_singleton_Some in Hw as [Hj ->]. left. apply elem_of_app. right. apply list_elem_of_singleton. f_equal. unfold i. lia.
Qed.

(** The answer to a learner: the acknowledgements of the values it asked for,
    of those that are there and not empty. *)
Definition ab_answer (vals : list (list byte)) (iids : list Z) : list accept_ack :=
  omap (λ i, v ← vals !! Z.to_nat (i - 1); if 0 <? blen v then Some (ab_ack i v) else None) iids.

Lemma ab_answer_ok vals iids : Forall (λ i, 1 ≤ i) iids → Forall (ab_ack_ok vals) (ab_answer vals iids).
Proof using Type.
  intros Hi. unfold ab_answer. induction Hi as [|i iids Hi _ IH]; [done|]. cbn. destruct (vals !! Z.to_nat (i - 1)) as [v|] eqn:E; cbn; [|done].
  destruct (0 <? blen v); [|done]. constructor; [|done]. by exists i, v.
Qed.

Lemma ab_repeat_spec full vals iids s : ab_inv full vals s → Forall ab_value_ok vals → Forall (λ i, 1 ≤ i) iids →
  wp (ab_handle_repeat_req_batch mode iids) (λ _ s', ab_inv false vals s' ∧
    ∃ chunks, sent (ab_to_learners s') = sent (ab_to_learners s) ++ map (AcceptAcks 0) chunks ∧ concat chunks = ab_answer vals iids) s.
Proof using Type*.
  intros [Hst Hok Hiid (base & items & Hh & Hb & Hi & _)] Hvals Hiids. unfold ab_handle_repeat_req_batch.
  pose proof (sent_ok _ _ _ _ Hh Hb Hi) as Hsent. clear Hh Hb Hi.
  apply wp_bind, wp_zoom. apply (wp_clear_holds AcceptAcks ACCEPT_ACK_SIZE); [done|]. intros sb1 Hh1. apply wp_bind.
  apply (wp_mfor (λ dn s', sb_holds AcceptAcks ACCEPT_ACK_SIZE (sent (ab_to_learners s)) 0 (ab_answer vals dn) (ab_to_learners s') ∧
    ab_records s' = ab_records s ∧ ab_current_iid s' = ab_current_iid s)); [by split_and!| |].
  - intros dn i rest s1 -> (Hh & Hr & Hc). apply Forall_app in Hiids as [_ Hi]. apply Forall_inv in Hi.
    apply wp_bind, wp_zoom. eapply wp_mono; [apply get_record_spec; [done|by fold (ab_records s1); rewrite Hr]|].
    intros aa st (-> & Hst1 & _). fold (ab_records s1). rewrite Hr, (Hst i Hi). unfold ab_answer. rewrite omap_app. cbn. fold (ab_answer vals dn).
    assert (ab_records (set_ab_storage st s1) = ab_records s) as Hr2 by (unfold ab_records; cbn; rewrite Hst1; exact Hr).
    destruct (vals !! Z.to_nat (i - 1)) as [v|] eqn:E; cbn; [|rewrite app_nil_r; by apply wp_ret].
    destruct (0 <? blen v); [|rewrite app_nil_r; by apply wp_ret].
    eapply wp_mono; [apply (ab_add_spec (sent (ab_to_learners s)) (ab_answer vals dn)); [exact Hh|]|].
    + apply ab_ack_fits. rewrite list.Forall_forall in Hvals. apply Hvals. by eapply list_elem_of_lookup_2.
    + intros _ s2 (Hh2 & Hr3 & Hc3 & _). split_and!; [exact Hh2|by rewrite Hr3|by rewrite Hc3].
  - intros s1 (Hh & Hr & Hc). apply wp_zoom. pose proof (ab_answer_ok vals iids Hiids) as Ha.
    assert (ab_buffer false vals (ab_to_learners s1)) as Hb1 by by eexists _, _.
    apply wp_and.
    + eapply wp_mono; [by apply flush_again|]. intros ? sb2 (Hb2 & _). constructor; rewrite ?Hc; [by unfold ab_records in *; cbn; rewrite Hr|by unfold ab_records in *; cbn; rewrite Hr|by cbn; rewrite Hc|exact Hb2].
    + eapply wp_flush_holds; [exact Hh|]. intros sb2 (cs & Hs & Hcs & _). by exists cs.
Qed.

Lemma ab_flush_spec full vals s : ab_inv full vals s → wp (ab_periodic_flush mode)
  (λ _ s', ab_inv full vals s' ∧ (full = true → ab_told vals (sent (ab_to_learners s')) [])) s.
Proof using Type*.
  intros [Hst Hok Hiid Hbuf]. unfold ab_periodic_flush. apply wp_bind. eapply wp_mono; [by apply (ab_tx_end_spec s)|].
  intros _ s1 [(H1 & H2 & H3) E1]. apply wp_bind, wp_zoom. rewrite E1. eapply wp_mono; [by apply flush_again|]. intros ? sb (Hsb & _ & Ht).
  eapply wp_mono; [by apply (ab_tx_begin_spec s)|]. intros ? s2 [(H4 & H5 & H6) E2].
  split; [|by rewrite E2]. constructor; [by rewrite H4|by rewrite H4|by rewrite H5|by rewrite E2].
Qed.
Lemma ab_inv_weaken full vals s : ab_inv full vals s → ab_inv false vals s.
Proof using Type. intros [H1 H2 H3 (base & items & H4 & H5 & H6 & _)]. constructor; [done..|]. by exists base, items. Qed.

Definition env_given (env : ab_env) : bool :=
  malloc_given env && ab_event_init_given env && ab_learners_given env && from_learners_given env && from_clients_given env &&
  (flush_event_rc env =? 0).

Lemma ab_init_spec env db : db_view db = ∅ →
  wp (ab_init mode env) (λ rc s, rc = (if env_given env then 0 else -1) ∧ (env_given env = true → ab_inv true [] s))
    (ab_start db).
Proof using Type*.
  intros Hdb. unfold ab_init, env_given. destruct (malloc_given env); cbn [negb andb]; [|by apply wp_ret].
  apply wp_bind. eapply wp_mono; [by apply (ab_tx_begin_spec (ab_start db))|]. intros _ s [(H1 & H2 & _) E].
  destruct (ab_event_init_given env); cbn [negb andb]; [|by apply wp_ret].
  destruct (ab_learners_given env); cbn [negb andb]; [|by apply wp_ret].
  apply wp_bind, wp_zoom. apply (wp_clear_holds AcceptAcks ACCEPT_ACK_SIZE); [done|]. rewrite E. intros sb Hh.
  destruct (from_learners_given env); cbn [negb andb]; [|by apply wp_ret].
  destruct (from_clients_given env); cbn [negb andb]; [|by apply wp_ret].
  destruct (flush_event_rc env =? 0); cbn [negb]; apply wp_ret; [|done]. split; [done|]. intros _.
  assert (ab_records s = ∅) as Hr by (rewrite H1; exact Hdb).
  constructor.
  - unfold ab_records in *. cbn. rewrite Hr. intros i Hi. by rewrite lookup_empty, lookup_nil.
  - unfold ab_records in *. cbn. rewrite Hr. apply map_Forall_empty.
  - exact H2.
  - exists [], []. by split_and!.
Qed.

(** ** A run *)

Definition ab_event_ok (ev : ab_event) : Prop :=
  match ev with
  | AbSubmit value => ab_value_ok value
  | AbRepeat iids => Forall (λ i, 1 ≤ i < 2 ^ 32) iids ∧ Z.of_nat (length iids) < 2 ^ 15
  | AbFlush => True
  end.

Definition is_repeat (ev : ab_event) : bool := match ev with AbRepeat _ => true | _ => false end.
Definition no_repeats (evs : list ab_event) : bool := forallb (negb ∘ is_repeat) evs.

Definition ab_handled (junk : list byte) (ev : ab_event) : M (abmagic DB) unit :=
  match ev with
  | AbSubmit value => ab_submit mode value
  | AbRepeat iids => ab_handle_repeat_req_batch mode iids
  | AbFlush => ab_periodic_flush mode
  end.

Lemma ab_handle_handled junk ev s : blen junk = 4 → ab_event_ok ev → ab_handle mode junk ev s = ab_handled junk ev s.
Proof using Type.
  intros Hj Hev. destruct ev as [value|iids|]; [| |done]; cbn in Hev.
  - destruct (packet_read (Submit value) junk) as (H1 & H2 & H3); [done| |done|].
    { destruct (ab_ack_fits 1 value Hev) as [_ Hs]. unfold MAX_UDP_MSG_SIZE, sizeof_accept_ack in Hs. cbn [data_size_of]. lia. }
    cbn. unfold receive, ab_handle_newval. rewrite H1. cbn [lift_opt mbind M_bind negb]. by rewrite H2, H3.
  - destruct Hev as [Hi Hlen]. destruct (packet_read (RepeatReqs iids) junk) as (H1 & H2 & H3); [| |done|].
    + split; [|done]. eapply list.Forall_impl; [exact Hi|]. intros i. unfold in_u. lia.
    + unfold data_size_of, sizeof_batch, sizeof_iid. lia.
    + cbn. unfold receive, ab_handle_leamsg. rewrite H1. cbn [lift_opt mbind M_bind negb]. by rewrite H2, H3.
Qed.

Lemma ab_submitted_snoc evs ev : ab_submitted (evs ++ [ev]) = ab_submitted evs ++ (if ev is AbSubmit v then [v] else []).
Proof using Type. unfold ab_submitted. rewrite omap_app. by destruct ev. Qed.

Lemma ab_submitted_ok evs : Forall ab_event_ok evs → Forall ab_value_ok (ab_submitted evs).
Proof using Type. intros Hevs. unfold ab_submitted. induction Hevs as [|[] evs]; cbn; [done|by constructor|done..]. Qed.

(** After a flush nothing is missing. *)
Definition ab_good (evs : list ab_event) s : Prop :=
  ab_inv (no_repeats evs) (ab_submitted evs) s ∧
  (no_repeats evs = true → list.last evs = Some AbFlush → ab_told (ab_submitted evs) (sent (ab_to_learners s)) []).

Lemma ab_handle_spec junk evs ev s : blen junk = 4 → Forall ab_event_ok (evs ++ [ev]) →
  Z.of_nat (length (ab_submitted (evs ++ [ev]))) ≤ LAST_IID → ab_good evs s →
  wp (ab_handle mode junk ev) (λ _ s', ab_good (evs ++ [ev]) s') s.
Proof using Type*.
  intros Hj [Hevs Hev%Forall_inv]%Forall_app Hlen [Hinv _]. unfold wp. rewrite ab_handle_handled by done. fold (wp (ab_handled junk ev) (λ _ s', ab_good (evs ++ [ev]) s') s).
  unfold ab_good. rewrite last_snoc. rewrite ab_submitted_snoc in *. unfold no_repeats in *. rewrite forallb_app.
  destruct ev as [v|iids|]; cbn [ab_handled forallb compose is_repeat negb andb]; rewrite ?andb_true_r, ?andb_false_r, ?app_nil_r in *.
  - eapply wp_mono; [apply ab_submit_spec; [exact Hinv|done|]|by intros ? s' ?].
    unfold LAST_IID, LEARNER_ARRAY_SIZE in Hlen. rewrite length_app in Hlen. cbn in Hlen. lia.
  - destruct Hev as [Hi _]. eapply wp_mono; [eapply ab_repeat_spec; [exact Hinv|by apply ab_submitted_ok|]|by intros ? s' [? _]].
    eapply list.Forall_impl; [exact Hi|]. by intros i [? _].
  - eapply wp_mono; [by eapply ab_flush_spec|]. intros ? s' [? Ht]. split; [done|]. intros Hn _. by apply Ht.
Qed.

Lemma ab_submitted_prefix evs evs' : (length (ab_submitted evs) ≤ length (ab_submitted (evs ++ evs')))%nat.
Proof using Type. unfold ab_submitted. rewrite omap_app, length_app. lia. Qed.

Lemma ab_run_spec junk evs s : blen junk = 4 → Forall ab_event_ok evs → Z.of_nat (length (ab_submitted evs)) ≤ LAST_IID →
  ab_inv true [] s → wp (mfor evs (ab_handle mode junk)) (λ _ s', ab_good evs s') s.
Proof using Type*.
  intros Hj Hevs Hlen Hs. apply (wp_mfor (λ dn s', ab_good dn s')); [by split| |done].
  intros dn ev rest s' E Hdn. replace (dn ++ ev :: rest) with ((dn ++ [ev]) ++ rest) in E by by rewrite <-app_assoc.
  subst evs. apply Forall_app in Hevs as [Hevs _]. pose proof (ab_submitted_prefix (dn ++ [ev]) rest).
  apply ab_handle_spec; [done..| |done]. lia.
Qed.

(** *** The learners *)

Lemma ab_packets_sent full vals s b : ab_inv full vals s → AcceptAcks 0 b ∈ sent (ab_to_learners s) → Forall (ab_ack_ok vals) b.
Proof using Type.
  intros [_ _ _ (base & items & Hh & Hb & Hi & _)] Hin. pose proof (sent_ok _ _ _ _ Hh Hb Hi) as Hs.
  rewrite list.Forall_forall in Hs. destruct (Hs _ Hin) as (l & [= ->] & ?). done.
Qed.

Lemma entries_of_batches vals batches a aa : Forall (Forall (ab_ack_ok vals)) batches → (a, aa) ∈ all_entries (map (pair 0) batches) →
  a = 0 ∧ ab_ack_ok vals aa.
Proof using Type.
  intros Hb (es & (b & <- & (b' & <- & Hin)%in_map_iff)%in_map_iff & He)%list_elem_of_In%in_concat.
  apply list_elem_of_In, list_elem_of_fmap in He as (aa' & [= -> ->] & Haa). split; [done|].
  rewrite list.Forall_forall in Hb. apply list_elem_of_In in Hin. specialize (Hb b' Hin). rewrite list.Forall_forall in Hb. by apply Hb.
Qed.

Lemma ab_learner vals batches : Z.of_nat (length vals) ≤ LAST_IID → Forall (Forall (ab_ack_ok vals)) batches →
  wp (mfor batches (handle_accept_ack_batch 0))
    (λ _ l, length (Learner.delivered l) = Z.to_nat (Learner.current_iid l - 1) ∧ map d_value (Learner.delivered l) `prefix_of` vals) init_lea_structs.
Proof using Type.
  intros Hlen Hb. unfold wp. rewrite <-(mfor_map (pair 0) (λ b, handle_accept_ack_batch b.1 b.2) batches init_lea_structs : _ = mfor batches (handle_accept_ack_batch 0) _).
  eapply wp_mono; [apply learner_run|].
  - intros a aa Hin. destruct (entries_of_batches vals batches a aa Hb Hin) as [-> (i & v & Hi & Hv & ->)].
    apply lookup_lt_Some in Hv. unfold N_OF_ACCEPTORS. cbn. lia.
  - intros _ l (cur & [[Hcur _ _ Hd] _]). rewrite Hcur. split; [rewrite <-(list.Forall2_length _ _ _ Hd), length_range; lia|].
    apply prefix_lookups. intros k x Hk. rewrite list_lookup_fmap in Hk. destruct (Learner.delivered l !! k) as [d|] eqn:E; [|done].
    injection Hk as <-. destruct (list.Forall2_lookup_r _ _ _ _ _ Hd E) as (i & Hi & v & [(a & Ha) _] & Hiid & ->).
    apply lookup_range in Hi. destruct (entries_of_batches vals batches a v Hb Ha) as [_ (j & w & Hj & Hw & ->)]. cbn in *.
    by replace k with (Z.to_nat (j - 1)) by lia.
Qed.
(** C35. Atomic broadcast by one process.  When the program starts ([ab_init])
    on an empty database it does not fail, whatever packets of clients and of
    learners it then gets and however they interleave with its timer; it has
    stored each value as the instance of its place among the submitted values;
    and every learner, whatever batches it gets of those that were sent, in
    whatever order and however often, delivers a prefix of the submitted values.
    As long as no learner asked for a repetition, once the timer fired every
    value is in a packet that was sent. *)
Theorem abmagic_total_order env junk db evs :
  blen junk = 4 → db_view db = ∅ → Forall ab_event_ok evs → Z.of_nat (length (ab_submitted evs)) ≤ LAST_IID →
  wp (ab_main mode env junk evs) (λ rc s, rc = (if env_given env then 0 else -1) ∧ (rc = 0 →
      ab_stored (ab_submitted evs) (ab_records s) ∧
      (∀ batches, Forall (λ b, AcceptAcks 0 b ∈ sent (ab_to_learners s)) batches →
        wp (mfor batches (handle_accept_ack_batch 0))
          (λ _ l, length (Learner.delivered l) = Z.to_nat (Learner.current_iid l - 1) ∧
            map d_value (Learner.delivered l) `prefix_of` ab_submitted evs) init_lea_structs) ∧
      (no_repeats evs = true → list.last evs = Some AbFlush → ab_told (ab_submitted evs) (sent (ab_to_learners s)) [])))
    (ab_start db).
Proof using Type*.
  intros Hj Hdb Hevs Hlen. unfold ab_main. apply wp_bind. eapply wp_mono; [by apply ab_init_spec|].
  intros rc s [-> Hs]. destruct (env_given env); cbn [Z.eqb negb Z.opp]; [|by apply wp_ret].
  apply wp_bind. eapply wp_mono; [by apply ab_run_spec; [..|apply Hs]|]. intros _ s' [Hinv Htold]. apply wp_ret.
  split; [done|]. intros _. split_and!; [apply (abi_stored _ _ _ Hinv)| |done].
  intros batches Hb. apply ab_learner; [done|]. eapply list.Forall_impl; [exact Hb|]. intros b. by eapply ab_packets_sent.
Qed.
End ab_proofs.

(** ** Concrete runs *)

Definition ab_env_ok : ab_env := mk_ab_env true true true true true 0.
Definition ab_evs : list ab_event := [AbSubmit [x61]; AbFlush; AbSubmit [x62]; AbFlush].
Definition ab_junk : list byte := replicate 4 x00.

Lemma abmagic_total_order_witness :
  wp (ab_main 20 ab_env_ok ab_junk ab_evs) (λ rc s, rc = 0 ∧ (rc = 0 →
      ab_stored [[x61]; [x62]] (ab_records s) ∧
      (∀ batches, Forall (λ b, AcceptAcks 0 b ∈ sent (ab_to_learners s)) batches →
        wp (mfor batches (handle_accept_ack_batch 0))
          (λ _ l, length (Learner.delivered l) = Z.to_nat (Learner.current_iid l - 1) ∧
            map d_value (Learner.delivered l) `prefix_of` [[x61]; [x62]]) init_lea_structs) ∧
      (no_repeats ab_evs = true → list.last ab_evs = Some AbFlush → ab_told [[x61]; [x62]] (sent (ab_to_learners s)) [])))
    (ab_start ∅).
Proof.
  refine (abmagic_total_order 20 ab_env_ok ab_junk ∅ ab_evs _ _ _ _); [reflexivity|reflexivity| |].
  - repeat constructor; unfold ab_value_ok; by vm_compute.
  - by vm_compute.
Defined.

(** The second flush sends the first value again, in the same message. *)
Example ab_flush_sends_again :
  (sent ∘ ab_to_learners ∘ snd <$> ab_main 20 ab_env_ok ab_junk ab_evs (ab_start (∅ : gmap Z acceptor_record)))
  = Some [AcceptAcks 0 [ab_ack 1 [x61]]; AcceptAcks 0 [ab_ack 1 [x61]; ab_ack 2 [x62]]].
Proof. vm_compute. reflexivity. Qed.

(** A request for the first value makes the second one disappear: it was in the
    buffer, which the handler clears. *)
Example repeat_forgets_pending :
  (sent ∘ ab_to_learners ∘ snd <$> ab_main 20 ab_env_ok ab_junk [AbSubmit [x61]; AbFlush; AbSubmit [x62]; AbRepeat [1]; AbFlush]
     (ab_start (∅ : gmap Z acceptor_record)))
  = Some [AcceptAcks 0 [ab_ack 1 [x61]]; AcceptAcks 0 [ab_ack 1 [x61]]; AcceptAcks 0 [ab_ack 1 [x61]]].
Proof. vm_compute. reflexivity. Qed.
