(* ===== verification/ProposerInit.v ===== *)
(** * Starting a proposer

    The initialization of [paxos2/lib/proposer.c] with everything that can fail:
    [proposer_init] starts a learner ([LearnerInit]) whose custom initialization
    is [init_proposer], and [proposer_init_cif] gives that one a function of the
    application.  [Proposer.proposer_init] is the part that changes the state.

    [proposer_start_outcome]: when it succeeds, and that the proposer is then
    the one of [PaxosSystem]. *)
From S2P Require Import Prelude Steps Timers Bytes PaxosWire SendBuffer ValuesHandler Learner LearnerInit AcceptorInit Leader Proposer ProposerInv ProposerProps PaxosSystem.

(** What the calls of [init_proposer] return that leave the file: the sockets,
    the socket of the values handler, and the function of the application, NULL
    or its result. *)
Record proposer_env := mk_proposer_env {
  acceptors_net_given : bool; proposers_net_given : bool; pings_net_given : bool; oracle_net_given : bool;
  submit_net_given : bool;
  client_custom_init : option Z
}.

Definition PROPOSER_ERROR : Z := -1.

Section proposer_start.
Context (env : init_env) (pe : proposer_env).

Definition init_pro_network : P Z :=
  if negb (acceptors_net_given pe) then mret PROPOSER_ERROR
  else
    modify (λ s, s <| to_acceptors := udp_sendbuf_new |>);;
    if negb (proposers_net_given pe) then mret PROPOSER_ERROR else mret 0.

Definition init_pro_fd_events : P Z :=
  if negb (pings_net_given pe) then mret PROPOSER_ERROR
  else
    modify (λ s, s <| to_oracle := udp_sendbuf_new |>);;
    if negb (oracle_net_given pe) then mret PROPOSER_ERROR
    else
      pro_ping_failure_detector;;
      mret 0.

(** [leader_init], which gives up when [vh_init] has no socket. *)
Definition leader_init_net : P Z :=
  if submit_net_given pe then leader_init
  else
    clear_event_counters;;
    leader_print_event_counters;;
    on_vh (modify vh_init);;
    mret (-1).

(** [init_proposer] *)
Definition init_proposer_full : P Z :=
  r ← init_pro_network;
  if negb (r =? 0) then mret (-1)
  else
    r ← init_pro_fd_events;
    if negb (r =? 0) then mret (-1)
    else
      r ← init_pro_structs;
      if negb (r =? 0) then mret (-1)
      else
        s ← get;
        r ← (if LEADER_IS_ME s then leader_init_net else mret 0);
        if negb (r =? 0) then mret (-1)
        else if (match client_custom_init pe with Some rc => negb (rc =? 0) | None => false end) then mret (-1)
        else mret 0.

(** [proposer_init] *)
Definition proposer_init_full (proposer_id : Z) : P Z :=
  if (proposer_id <? 0) || (MAX_N_OF_PROPOSERS <=? proposer_id) then mret (-1)
  else
    modify (λ s, s <| this_proposer_id := proposer_id |>);;
    r ← learner_init_with env init_proposer_full;
    if negb (r =? 0) then mret (-1) else mret 0.
End proposer_start.

Definition proposer_init_cif (env : init_env) (pe : proposer_env) (proposer_id : Z) (cif : option Z) : P Z :=
  proposer_init_full env
    (mk_proposer_env (acceptors_net_given pe) (proposers_net_given pe) (pings_net_given pe) (oracle_net_given pe)
      (submit_net_given pe) cif) proposer_id.

(** ** When it succeeds *)

Definition nets_given (pe : proposer_env) : bool :=
  acceptors_net_given pe && proposers_net_given pe && pings_net_given pe && oracle_net_given pe.

(** What [init_proposer] returns to the learner. *)
Definition init_proposer_rc (pe : proposer_env) (proposer_id : Z) : Z :=
  if nets_given pe && ((negb (proposer_id =? 0)) || submit_net_given pe) && (default 0 (client_custom_init pe) =? 0)
  then 0 else -1.

Definition valid_proposer (proposer_id : Z) : bool := (0 <=? proposer_id) && (proposer_id <? MAX_N_OF_PROPOSERS).

(** The part before the leader. *)
Definition pro_prepare : P Z :=
  modify (λ s, s <| to_acceptors := udp_sendbuf_new |> <| to_oracle := udp_sendbuf_new |>);;
  pro_ping_failure_detector;;
  init_pro_structs.

Definition pro_lead (lead : P Z) (r : Z) : P Z :=
  if negb (r =? 0) then mret (-1) else s ← get; if LEADER_IS_ME s then lead else mret 0.

Lemma init_proposer_split s : init_proposer s = (pro_prepare ≫= pro_lead leader_init) s.
Proof.
  unfold init_proposer, pro_prepare, pro_lead, mbind, M_bind, modify.
  generalize init_pro_structs pro_ping_failure_detector leader_init. intros structs ping lead.
  destruct (ping _) as [[[] s1]|]; [|done]. by destruct (structs s1) as [[r s2]|].
Qed.

Definition custom_fails (pe : proposer_env) : bool :=
  match client_custom_init pe with Some rc => negb (rc =? 0) | None => false end.

Lemma init_full_split pe s : nets_given pe = true →
  init_proposer_full pe s =
    (r ← pro_prepare; r ← pro_lead (leader_init_net pe) r; if negb (r =? 0) || custom_fails pe then mret (-1) else mret 0) s.
Proof.
  unfold nets_given. intros [[[H1 H2]%andb_prop H3]%andb_prop H4]%andb_prop.
  unfold init_proposer_full, init_pro_network, init_pro_fd_events, pro_prepare, pro_lead. rewrite H1, H2, H3, H4.
  unfold mbind, M_bind, modify, get. cbn [negb Z.eqb mret M_ret].
  generalize init_pro_structs pro_ping_failure_detector (leader_init_net pe). intros structs ping lead.
  destruct (ping _) as [[[] s1]|]; [|done]. change (@mret (M proposer) _ Z 0 s1) with (Some (0, s1)). cbn [negb Z.eqb].
  destruct (structs s1) as [[r s2]|]; [|done]. destruct (negb (r =? 0)); [done|]. fold (custom_fails pe).
  destruct (LEADER_IS_ME s2); [destruct (lead s2) as [[r' s3]|]; [|done]; destruct (negb (r' =? 0)); [done|]|];
    by destruct (custom_fails pe).
Qed.

(** What the initialization does not change. *)
Definition same_leader (s s' : proposer) : Prop :=
  this_proposer_id s' = this_proposer_id s ∧ current_leader_id s' = current_leader_id s.
#[local] Instance same_leader_preorder : PreOrder same_leader.
Proof. split; [by intros s; split|]. intros s1 s2 s3 [H1 H2] [H3 H4]. split; congruence. Qed.

Lemma pro_prepare_leader : steps same_leader pro_prepare.
Proof.
  unfold pro_prepare, pro_ping_failure_detector, on_oracle, init_pro_structs, for_lt, pro_clear_instance_info, free_opt, on_vh, upd_ii, get_ii, event_add.
  solve_steps_with ltac:(first [apply steps_modify; intros ?; by split|apply steps_zoom; intros ? ?; by split]).
Qed.

Definition with_id (clock : nat → timeval) (proposer_id : Z) : proposer :=
  (proposer_start clock) <| this_proposer_id := proposer_id |>.

Lemma valid_proposer_spec id : valid_proposer id = negb ((id <? 0) || (MAX_N_OF_PROPOSERS <=? id)).
Proof. unfold valid_proposer. lia. Qed.

Lemma bind_Some_inv {St A B} (m : M St A) (k : A → M St B) s x :
  (m ≫= k) s = Some x → ∃ a s1, m s = Some (a, s1) ∧ k a s1 = Some x.
Proof. unfold mbind, M_bind. intros H. destruct (m s) as [[a s1]|]; [by exists a, s1|done]. Qed.

Lemma proposer_init_id clock id : valid_proposer id = true →
  proposer_init id (proposer_start clock) = (r ← init_proposer; if negb (r =? 0) then mret (-1) else mret 0) (with_id clock id).
Proof.
  intros Hid. rewrite valid_proposer_spec in Hid. apply negb_true_iff in Hid. unfold proposer_init. rewrite Hid.
  by generalize init_proposer.
Qed.

(** Where everything is given. *)
Lemma proposer_init_total clock id : valid_proposer id = true →
  ∃ s s1, pro_prepare (with_id clock id) = Some (0, s) ∧ pro_lead leader_init 0 s = Some (0, s1) ∧
    started_proposer clock id = Some s1 ∧ LEADER_IS_ME s = (id =? 0).
Proof.
  intros Hid. assert (0 ≤ id < MAX_N_OF_PROPOSERS) as Hr by (unfold valid_proposer in Hid; lia).
  destruct (wp_total _ _ _ (proposer_init_inv clock id Hr)) as (r0 & s1 & E & -> & _).
  assert (started_proposer clock id = Some s1) as Est by (unfold started_proposer; by rewrite E).
  rewrite proposer_init_id in E by done. apply bind_Some_inv in E as (r & s2 & E1 & E2).
  destruct (Z.eqb_spec r 0) as [->|]; [|done]. injection E2 as ->.
  rewrite init_proposer_split in E1. apply bind_Some_inv in E1 as (r & s & Ep & El).
  pose proof (steps_run _ _ _ _ _ pro_prepare_leader Ep) as [H1 H2].
  assert (r = 0) as -> by (unfold pro_lead in El; destruct (Z.eqb_spec r 0) as [->|]; [done|by injection El]).
  exists s, s1. split_and!; [done|done|done|]. unfold LEADER_IS_ME. by rewrite H1, H2.
Qed.

Lemma failed_post (R : Prop) : (-1 : Z) = -1 ∧ ((-1 : Z) = 0 → R).
Proof. by split. Qed.

Lemma init_full_no_nets pe s : nets_given pe = false → wp (init_proposer_full pe) (λ r _, r = -1) s.
Proof.
  unfold nets_given, init_proposer_full, init_pro_network, init_pro_fd_events, PROPOSER_ERROR. intros En.
  destruct (acceptors_net_given pe), (proposers_net_given pe), (pings_net_given pe), (oracle_net_given pe); try discriminate En; cbn [negb];
    repeat (cbn beta; lazymatch goal with
      | |- wp (_ ≫= _) _ _ => apply wp_bind
      | |- wp (modify _) _ _ => apply wp_modify
      | |- wp (mret _) _ _ => apply wp_ret; cbn [negb Z.eqb]
      end); reflexivity.
Qed.

Lemma pro_lead_0 lead s : pro_lead lead 0 s = (if LEADER_IS_ME s then lead else mret 0) s.
Proof. reflexivity. Qed.

Lemma custom_rc pe : (default 0 (client_custom_init pe) =? 0) = negb (custom_fails pe).
Proof. unfold custom_fails. destruct (client_custom_init pe) as [rc|]; [symmetry; apply negb_involutive|reflexivity]. Qed.

(** The leader's part, given that [leader_init] works. *)
Lemma lead_net_spec pe id s s1 : LEADER_IS_ME s = (id =? 0) → pro_lead leader_init 0 s = Some (0, s1) →
  wp (pro_lead (leader_init_net pe) 0)
    (λ r s', r = (if negb (id =? 0) || submit_net_given pe then 0 else -1) ∧ (r = 0 → s' = s1)) s.
Proof.
  intros Eme El. rewrite pro_lead_0 in El. eapply wp_ext; [apply pro_lead_0|]. rewrite Eme in *. destruct (id =? 0); cbn [negb orb].
  - unfold leader_init_net. destruct (submit_net_given pe); [by eapply wp_value; [exact El|]|].
    unfold clear_event_counters, leader_print_event_counters, on_vh. wp_steps. apply failed_post.
  - injection El as ->. by apply wp_ret.
Qed.

Lemma init_proposer_full_spec clock pe id : valid_proposer id = true →
  wp (init_proposer_full pe) (λ r s, r = init_proposer_rc pe id ∧ (r = 0 → started_proposer clock id = Some s)) (with_id clock id).
Proof.
  intros Hid. unfold init_proposer_rc. rewrite custom_rc. destruct (nets_given pe) eqn:En.
  2:{ eapply wp_mono; [by apply init_full_no_nets|]. intros r s ->. apply failed_post. }
  eapply wp_ext; [by apply init_full_split|].
  destruct (proposer_init_total clock id Hid) as (s & s1 & Ep & El & Est & Eme). rewrite Est. clear Est.
  apply wp_bind. eapply wp_value; [exact Ep|]. clear Ep. apply wp_bind. eapply wp_mono; [by apply (lead_net_spec pe id)|].
  intros r s' [Hr Hs]. cbn [andb]. destruct (negb (id =? 0) || submit_net_given pe); subst r; cbn [negb Z.eqb orb andb];
    [|apply wp_ret, failed_post]. destruct (custom_fails pe); apply wp_ret; [apply failed_post|].
  split; [reflexivity|]. intros _. by rewrite Hs.
Qed.

