(* ===== verification/Oracle.v ===== *)
(** * The leader oracle

    [paxos2/tests/example_oracle.c]: the process that tells the proposers who
    leads.  One thread announces the leader, one prints the pings of the
    proposers, one lets the user choose another leader; a mutex protects
    [current_leader] while it is read or written, but not the announcement that
    follows, so a step of the announcing thread is to read or to send.

    [oracle_announces]: what is announced is always a proposer, in the order in
    which it was the leader. *)
From Stdlib Require Import Init.Byte.
From S2P Require Import Prelude Bytes PaxosWire SendBuffer Acceptor Learner ValuesHandler Leader Proposer PaxosSystem.

(** [announced] is the local variable of [broadcast_current_leader] between its
    two steps; [pings] is what [update_oracle_state] printed. *)
Record oracle := mk_oracle {
  oracle_leader : Z;                   (* short int current_leader *)
  announced : option Z;
  to_proposers_net : udp_send_buffer;
  pings : list (Z * Z)
}.

Definition oracle_start : oracle := mk_oracle 0 None udp_sendbuf_new [].

Implicit Types (o : oracle).

(** The critical section of [broadcast_current_leader]. *)
Definition broadcast_read : M oracle unit :=
  modify (λ o, mk_oracle (oracle_leader o) (Some (oracle_leader o)) (to_proposers_net o) (pings o)).

Definition broadcast_send : M oracle unit :=
  o ← get;
  leader ← lift_opt (announced o);
  modify (λ o, mk_oracle (oracle_leader o) None (to_proposers_net o) (pings o));;
  zoom to_proposers_net (λ sb o, mk_oracle (oracle_leader o) (announced o) sb (pings o)) (sendbuf_send_leader_announce leader).

Definition update_oracle_state (proposer_id seq_num : Z) : M oracle unit :=
  modify (λ o, mk_oracle (oracle_leader o) (announced o) (to_proposers_net o) (pings o ++ [(proposer_id, seq_num)])).

(** A round of [get_proposer_pings]. *)
Definition get_proposer_pings (buf : list byte) (msg_size : Z) : M oracle unit :=
  valid ← lift_opt (validate_paxos_msg buf msg_size);
  if negb valid then mret tt
  else
    type ← lift_opt (rd 4 8 buf);
    if type =? 65 then
      msg ← lift_opt (dec_msg buf);
      match msg with AlivePing proposer_id seq_num => update_oracle_state proposer_id seq_num | _ => mret tt end
    else mret tt.

(** A round of [get_user_input]: the number that [scanf] read, if it did. *)
Definition get_user_input (scanned : option Z) : M oracle unit :=
  match scanned with
  | None => mret tt
  | Some proposer_id =>
      if (proposer_id <? 0) || (MAX_N_OF_PROPOSERS <=? proposer_id) then mret tt
      else
        o ← get;
        if proposer_id =? oracle_leader o then mret tt
        else modify (λ o, mk_oracle (signed16 proposer_id) (announced o) (to_proposers_net o) (pings o))
  end.

Inductive oracle_event := OrRead | OrSend | OrPing (proposer_id seq_num : Z) | OrInput (scanned : option Z).

Definition oracle_step (junk : list byte) (ev : oracle_event) : M oracle unit :=
  match ev with
  | OrRead => o ← get; c_assert (bool_decide (announced o = None));; broadcast_read
  | OrSend => broadcast_send
  | OrPing proposer_id seq_num => receive get_proposer_pings junk (AlivePing proposer_id seq_num)
  | OrInput scanned => get_user_input scanned
  end.

(** ** What it announces *)

Definition valid_leader (id : Z) : bool := (0 <=? id) && (id <? MAX_N_OF_PROPOSERS).

(** The leader after a number was entered. *)
Definition chosen (leader : Z) (scanned : option Z) : Z :=
  match scanned with Some id => if valid_leader id then id else leader | None => leader end.

(** The leaders at the times the announcing thread looks. *)
Fixpoint leaders (leader : Z) (evs : list oracle_event) : list Z :=
  match evs with
  | [] => []
  | OrRead :: evs => leader :: leaders leader evs
  | OrInput scanned :: evs => leaders (chosen leader scanned) evs
  | _ :: evs => leaders leader evs
  end.

Definition last_leader (leader : Z) (evs : list oracle_event) : Z :=
  foldl (λ l ev, match ev with OrInput scanned => chosen l scanned | _ => l end) leader evs.

(** The announcing thread reads and sends in turn. *)
Fixpoint in_turn (reading : bool) (evs : list oracle_event) : bool :=
  match evs with
  | [] => true
  | OrRead :: evs => negb reading && in_turn true evs
  | OrSend :: evs => reading && in_turn false evs
  | _ :: evs => in_turn reading evs
  end.

Definition pings_in (evs : list oracle_event) : list (Z * Z) :=
  omap (λ ev, match ev with OrPing id n => Some (id, n) | _ => None end) evs.

Definition oracle_event_ok (ev : oracle_event) : Prop :=
  match ev with OrPing id n => in_short id ∧ in_u 64 n | _ => True end.

Definition not_sent o : list paxos_msg := match announced o with Some l => [LeaderAnnounce l] | None => [] end.

Lemma signed16_valid id : valid_leader id = true → signed16 id = id.
Proof. unfold valid_leader, MAX_N_OF_PROPOSERS, signed16. intros H. case_match; lia. Qed.

Lemma get_user_input_spec scanned o (Q : unit → oracle → Prop) :
  Q tt (mk_oracle (chosen (oracle_leader o) scanned) (announced o) (to_proposers_net o) (pings o)) → wp (get_user_input scanned) Q o.
Proof.
  intros HQ. unfold get_user_input. destruct scanned as [id|]; [|by destruct o]. unfold chosen in HQ.
  destruct ((id <? 0) || _) eqn:E.
  - replace (valid_leader id) with false in HQ by (unfold valid_leader; lia). by destruct o.
  - replace (valid_leader id) with true in HQ by (unfold valid_leader; lia). apply wp_bind, wp_get.
    destruct (Z.eqb_spec id (oracle_leader o)) as [->|]; [by destruct o|]. apply wp_modify.
    rewrite signed16_valid; [done|]. unfold valid_leader. lia.
Qed.

Lemma get_ping_spec junk id n o (Q : unit → oracle → Prop) : blen junk = 4 → in_short id ∧ in_u 64 n →
  Q tt (mk_oracle (oracle_leader o) (announced o) (to_proposers_net o) (pings o ++ [(id, n)])) →
  wp (receive get_proposer_pings junk (AlivePing id n)) Q o.
Proof.
  intros Hj Hok HQ. destruct (packet_read (AlivePing id n) junk) as (H1 & H2 & H3); [done|done|done|].
  unfold receive, get_proposer_pings. rewrite H1. cbn [lift_opt]. unfold wp. cbn [mbind M_bind negb]. by rewrite H2, H3.
Qed.

(** The announcements are the leaders of the times they were read, in order,
    and each is a proposer, however the three threads interleave. *)
Theorem oracle_announces junk evs reading o :
  blen junk = 4 → Forall oracle_event_ok evs → in_turn reading evs = true → reading = bool_decide (is_Some (announced o)) →
  wp (mfor evs (oracle_step junk))
    (λ _ o', oracle_leader o' = last_leader (oracle_leader o) evs ∧
      sent (to_proposers_net o') ++ not_sent o' =
        sent (to_proposers_net o) ++ not_sent o ++ map LeaderAnnounce (leaders (oracle_leader o) evs) ∧
      pings o' = pings o ++ pings_in evs) o.
Proof.
  intros Hj Hok. revert reading o. induction Hok as [|ev evs Hev Hok IH]; intros reading o Hturn Hr.
  { apply wp_ret. by rewrite !app_nil_r. }
  cbn [mfor]. apply wp_bind. destruct ev as [| |id n|scanned]; cbn [oracle_step in_turn leaders] in *.
  - apply andb_prop in Hturn as [Hn Hturn]. apply negb_true_iff in Hn. subst reading. destruct o as [l [a|] sb ps]; [done|].
    apply wp_bind, wp_get, wp_bind, wp_assert; [done|]. apply wp_modify. cbn.
    eapply wp_mono; [by apply (IH true)|]. intros _ o' (H1 & H2 & H3). split_and!; [done| |done]. by rewrite H2.
  - apply andb_prop in Hturn as [Hn Hturn]. subst reading. destruct o as [l [a|] sb ps]; [|done].
    unfold broadcast_send. apply wp_bind, wp_get, wp_bind. eapply wp_lift_opt; [done|]. apply wp_bind, wp_modify, wp_zoom.
    unfold sendbuf_send_leader_announce, sendbuf_flush. wp_steps. cbn.
    eapply wp_mono; [by apply (IH false)|]. intros _ o' (H1 & H2 & H3). split_and!; [done| |done]. rewrite H2. cbn. by rewrite <-app_assoc.
  - eapply get_ping_spec; [done|done|]. eapply wp_mono; [by apply (IH reading)|]. intros _ o' (H1 & H2 & H3). cbn in *.
    split_and!; [done|done|]. by rewrite H3, <-app_assoc.
  - apply get_user_input_spec. eapply wp_mono; [by apply (IH reading)|]. intros _ o' (H1 & H2 & H3). by split_and!.
Qed.

Lemma leaders_valid l evs : valid_leader l = true → Forall (λ id, valid_leader id = true) (leaders l evs).
Proof.
  revert l. induction evs as [|[| |id n|scanned] evs IH]; intros l Hl; cbn; [done|by constructor; [|apply IH]|by apply IH..|].
  apply IH. unfold chosen. destruct scanned as [id|]; [by destruct (valid_leader id) eqn:E|done].
Qed.

(** While the user names no other proposer the announcements are those of the
    calm runs of [PaxosAgreement]. *)
Lemma leaders_calm l evs : (∀ id, OrInput (Some id) ∈ evs → valid_leader id = true → id = l) →
  leaders l evs = replicate (length (leaders l evs)) l.
Proof.
  induction evs as [|ev evs IH]; intros H; [done|]. specialize (IH (λ id Hin, H id (list_elem_of_further _ _ _ Hin))).
  destruct ev as [| |id n|scanned]; cbn; [by rewrite <-IH|done..|]. replace (chosen l scanned) with l; [done|].
  unfold chosen. destruct scanned as [id|]; [|done]. destruct (valid_leader id) eqn:E; [|done]. symmetry. apply H; [left|done].
Qed.

(** A second leader is chosen between a reading and its announcement. *)
Example oracle_example :
  (sent ∘ to_proposers_net ∘ snd <$> mfor [OrRead; OrInput (Some 3); OrSend; OrInput (Some 10); OrRead; OrSend] (oracle_step (replicate 4 x00)) oracle_start)
  = Some [LeaderAnnounce 0; LeaderAnnounce 3].
Proof. reflexivity. Qed.
