(* ===== verification/PaxosGood.v ===== *)
(** * Values on their way through libpaxos2

    What the network, the acceptors and the learners do to values, for any
    property [V] of an instance number and a value, and any property [R] of the
    instances that requests are about: they send, store and deliver only what
    they received.  A packet may hold any message; its fields are cut to their C
    types when it is encoded.  The proposers are an argument. *)
From Stdlib Require Import Init.Byte.
From S2P Require Import Prelude Steps Bytes PaxosWire SendBuffer StableStorage Acceptor Learner ValuesHandler Leader Proposer PaxosSystem.

(** ** What is read back from any packet

    The fields of a message are cut to their C types when they are encoded. *)

Definition short (x : Z) : Z := signed16 (x mod 2 ^ 16).

Definition cut_prepare_req (r : prepare_req) : prepare_req := mk_prepare_req (u32 (pr_iid r)) (u32 (pr_ballot r)).
Definition cut_prepare_ack (a : prepare_ack) : prepare_ack :=
  mk_prepare_ack (u32 (pa_iid a)) (u32 (pa_ballot a)) (u32 (pa_value_ballot a)) (pa_value a).
Definition cut_accept_req (r : accept_req) : accept_req := mk_accept_req (u32 (ar_iid r)) (u32 (ar_ballot r)) (ar_value r).
Definition cut_accept_ack (a : accept_ack) : accept_ack :=
  mk_accept_ack (u32 (aa_iid a)) (u32 (aa_ballot a)) (u32 (aa_value_ballot a)) (short (aa_is_final a)) (aa_value a).

Definition cut (m : paxos_msg) : paxos_msg :=
  match m with
  | PrepareReqs id l => PrepareReqs id (cut_prepare_req <$> l)
  | PrepareAcks id l => PrepareAcks id (cut_prepare_ack <$> l)
  | AcceptReqs id l => AcceptReqs id (cut_accept_req <$> l)
  | AcceptAcks id l => AcceptAcks id (cut_accept_ack <$> l)
  | RepeatReqs l => RepeatReqs (u32 <$> l)
  | Submit v => Submit v
  | LeaderAnnounce id => LeaderAnnounce (short id)
  | AlivePing id n => AlivePing (short id) (u64 n)
  end.

Lemma le_split_cut n w x : w = Z.of_nat n * 8 → le_split n (wrap w x) = le_split n x.
Proof. intros ->. symmetry. apply le_split_mod. Qed.

Lemma le_split_short x : le_split 2 (short x) = le_split 2 x.
Proof.
  rewrite (le_split_mod (short x)), (le_split_mod x). f_equal. unfold short, signed16.
  change (2 ^ (Z.of_nat 2 * 8)) with (2 ^ 16). destruct (_ <? _); [by rewrite Zmod_mod|].
  rewrite <- (Zminus_mod_idemp_r _ (2 ^ 16)), Z_mod_same_full, Z.sub_0_r. apply Zmod_mod.
Qed.

Lemma short_in_short x : in_short (short x).
Proof.
  pose proof (Z.mod_pos_bound x (2 ^ 16) ltac:(lia)). unfold in_short, short, signed16.
  destruct (Z.ltb_spec (x mod 2 ^ 16) (2 ^ 15)); lia.
Qed.

Lemma concat_map_cut {A} (enc : A → list byte) (f : A → A) l : (∀ x, enc (f x) = enc x) →
  concat (map enc (f <$> l)) = concat (map enc l).
Proof. intros H. induction l as [|x l IH]; [done|]. cbn. by rewrite H, IH. Qed.

Lemma enc_data_cut m : enc_data (cut m) = enc_data m.
Proof.
  destruct m as [id l|id l|id l|id l|l|v|id|id n]; cbn [cut enc_data]; unfold enc_count; rewrite ?length_fmap;
    rewrite ?concat_map_cut, ?le_split_short, ?le_split_cut; try done; intros x;
    unfold enc_prepare_req, enc_prepare_ack, enc_accept_req, enc_accept_ack; cbn [cut_prepare_req cut_prepare_ack cut_accept_req
      cut_accept_ack pr_iid pr_ballot pa_iid pa_ballot pa_value_ballot pa_value ar_iid ar_ballot ar_value aa_iid aa_ballot
      aa_value_ballot aa_is_final aa_value]; by rewrite ?le_split_short, ?(le_split_cut 4) by done.
Qed.

Lemma data_size_cut m : data_size_of (cut m) = data_size_of m.
Proof. by rewrite <- !enc_data_size, enc_data_cut. Qed.

Lemma enc_msg_cut m rest : enc_msg (cut m) rest = enc_msg m rest.
Proof. unfold enc_msg. rewrite data_size_cut, enc_data_cut. by destruct m. Qed.

Lemma receive_cut {St} (newmsg : list byte → Z → M St unit) junk m : receive newmsg junk (cut m) = receive newmsg junk m.
Proof. unfold receive, PAXOS_MSG_SIZE. by rewrite enc_msg_cut, data_size_cut. Qed.

(** The sender of a message is one that the receivers know. *)
Definition sender_ok (m : paxos_msg) : Prop :=
  match m with
  | PrepareReqs id _ | AcceptReqs id _ => 0 ≤ id < MAX_N_OF_PROPOSERS
  | PrepareAcks id _ | AcceptAcks id _ => 0 ≤ id < N_OF_ACCEPTORS
  | _ => True
  end.

Definition max_data : Z := MAX_UDP_MSG_SIZE - data_offset.

Lemma sum_sizes_length {A} (size : A → Z) l : (∀ x, 4 ≤ size x) → 4 * Z.of_nat (length l) ≤ sum_sizes size l.
Proof. intros H. unfold sum_sizes. induction l as [|x l IH]; [done|]. cbn. specialize (H x). lia. Qed.

Lemma data_size_short {A} (size : A → Z) l n : (∀ x, 4 ≤ size x) → n = sizeof_batch + sum_sizes size l → n ≤ max_data →
  Z.of_nat (length l) < 2 ^ 15.
Proof. intros H -> Hn. pose proof (sum_sizes_length size l H). unfold max_data, sizeof_batch, MAX_UDP_MSG_SIZE, data_offset in *. lia. Qed.

Lemma u32_in x : in_u 32 (u32 x).
Proof. apply wrap_range. lia. Qed.

Lemma cut_ok m : sender_ok m → data_size_of m ≤ max_data → msg_ok (cut m).
Proof.
  assert (∀ {A} (l : list A), sizeof_batch + Z.of_nat (length l) * 4 ≤ max_data → Z.of_nat (length l) < 2 ^ 15) as Hlen.
  { intros A l. unfold max_data, sizeof_batch, MAX_UDP_MSG_SIZE, data_offset. lia. }
  assert (∀ {A B} (f : A → B) (Ok : B → Prop) l, (∀ x, Ok (f x)) → Forall Ok (f <$> l)) as Hall.
  { intros A B f Ok l H. apply list.Forall_fmap, list.Forall_true. intros x. apply H. }
  intros Hid Hsize. destruct m as [id l|id l|id l|id l|l|v|id|id n]; cbn [cut msg_ok sender_ok data_size_of] in *; rewrite ?length_fmap;
    try done; try (split; [exact Hid|]); try (split; [apply Hall; intros x; unfold prepare_req_ok, prepare_ack_ok, accept_req_ok, accept_ack_ok, in_u; split_and!;
      apply u32_in || apply short_in_short|]).
  - apply Hlen. unfold sizeof_prepare_req in Hsize. lia.
  - eapply data_size_short; [|done|done]. intros x. pose proof (blen_nonneg (pa_value x)). unfold PREPARE_ACK_SIZE, sizeof_prepare_ack. lia.
  - eapply data_size_short; [|done|done]. intros x. pose proof (blen_nonneg (ar_value x)). unfold ACCEPT_REQ_SIZE, sizeof_accept_req. lia.
  - eapply data_size_short; [|done|done]. intros x. pose proof (blen_nonneg (aa_value x)). unfold ACCEPT_ACK_SIZE, sizeof_accept_ack. lia.
  - by apply (Hlen Z).
  - apply short_in_short.
  - split; [apply short_in_short|]. apply wrap_range. lia.
Qed.

(** ** The invariant of a packet *)

(** What is asked of [V] and [R]: they survive the encoding of the number of the
    instance, the value fits in a packet, and the number 0 stands for none. *)
Class Carried (V : Z → list byte → Prop) (R : Z → Prop) : Prop := {
  V_u32 : ∀ i v, V i v → V (u32 i) v;
  R_u32 : ∀ i, R i → R (u32 i);
  V_R : ∀ i v, V i v → R i;
  V_zero : ∀ i v, V 0 v → V i v;
  V_small : ∀ i v, V i v → blen v ≤ max_data
}.

Section good.
Context (V : Z → list byte → Prop) (R : Z → Prop) `{C : !Carried V R}.
Context (junk : list byte) (junk_ok : blen junk = 4).

(** A promise may hold no value. *)
Definition none_or_V (i : Z) (v : list byte) : Prop := v = [] ∨ V i v.

Definition values_ok (m : paxos_msg) : Prop :=
  match m with
  | PrepareReqs _ l => Forall (λ r, R (pr_iid r)) l
  | PrepareAcks _ l => Forall (λ a, R (pa_iid a) ∧ none_or_V (pa_iid a) (pa_value a)) l
  | AcceptReqs _ l => Forall (λ r, V (ar_iid r) (ar_value r)) l
  | AcceptAcks _ l => Forall (λ a, V (aa_iid a) (aa_value a)) l
  | _ => True
  end.

Record good_msg (m : paxos_msg) : Prop := {
  gm_sender : sender_ok m;
  gm_values : values_ok m;
  gm_size : data_size_of m ≤ max_data
}.

Lemma values_cut m : values_ok m → values_ok (cut m).
Proof using C.
  destruct m; cbn; try done; intros H; apply list.Forall_fmap; (eapply list.Forall_impl; [exact H|]); cbn; intros x Hx; try by apply R_u32 || apply V_u32.
  destruct Hx as [? [->|]]; (split; [by apply R_u32|]); [by left|right; by apply V_u32].
Qed.

Lemma good_received m : good_msg m → msg_ok (cut m) ∧ data_size_of (cut m) < 2 ^ 32.
Proof using Type.
  intros [Hid _ Hs]. split; [by apply cut_ok|]. rewrite data_size_cut.
  unfold max_data, MAX_UDP_MSG_SIZE, data_offset in Hs. lia.
Qed.

(** ** Send buffers *)

Lemma Forall_snoc {A} (P : A → Prop) l x : Forall P l → P x → Forall P (l ++ [x]).
Proof using Type. intros Hl Hx. apply Forall_app. split; [done|by apply Forall_cons_2]. Qed.

Record good_sb (sb : udp_send_buffer) : Prop := {
  gs_msg : good_msg (sb_msg sb);
  gs_data : sb_data_size sb = data_size_of (sb_msg sb);
  gs_sent : Forall good_msg (sent sb)
}.

Lemma good_sb_new : good_sb udp_sendbuf_new.
Proof using Type. by repeat constructor. Qed.

Definition clear_ok (type : clear_type) (id : Z) : Prop :=
  match type with
  | prepare_reqs | accept_reqs => 0 ≤ id < MAX_N_OF_PROPOSERS
  | prepare_acks | accept_acks => 0 ≤ id < N_OF_ACCEPTORS
  | repeat_reqs | submit => True
  end.

Lemma clear_keeps type id : clear_ok type id → keeps good_sb (sendbuf_clear type id).
Proof using Type. intros Hid sb [_ _ Hs]. by destruct type; repeat constructor; try apply Hid. Qed.

Lemma flush_keeps : keeps good_sb sendbuf_flush.
Proof using Type.
  intros sb Hsb. unfold sendbuf_flush. apply wlp_modify. destruct (dirty sb); [|done]. destruct Hsb as [Hm Hd Hs].
  constructor; [done..|]. cbn. by apply Forall_snoc.
Qed.

(** The end of every function that adds an item of [n] bytes. *)
Lemma add_item n (f : udp_send_buffer → udp_send_buffer) m sb :
  good_sb sb → 0 ≤ n → f sb = sb <| sb_msg := m |> → sender_ok m → values_ok m →
  data_size_of m = data_size_of (sb_msg sb) + n →
  wlp (sb_room n;; modify f;; sb_grow n) (λ _ sb', good_sb sb') sb.
Proof using Type.
  intros [Hm Hd Hs] Hn Hf Hid Hv Hsize. unfold sb_room. apply wlp_bind, wlp_get, wlp_assert. intros Hroom%Z.leb_le.
  apply wlp_bind, wlp_modify. rewrite Hf. unfold sb_grow. apply wlp_modify.
  assert (0 ≤ sb_data_size sb + n ≤ max_data) as Hb.
  { pose proof (blen_nonneg (enc_data m)) as H0. rewrite enc_data_size, Hsize, <- Hd in H0. unfold max_data. lia. }
  constructor; cbn.
  - constructor; [done..|]. lia.
  - rewrite wrap_small, Hsize, Hd; [done|]. unfold max_data, MAX_UDP_MSG_SIZE, data_offset in Hb. lia.
  - done.
Qed.

(** The message that [sendbuf_clear] leaves. *)
Definition emptied (type : clear_type) (id : Z) : paxos_msg :=
  match type with
  | prepare_reqs => PrepareReqs id []
  | accept_reqs => AcceptReqs id []
  | prepare_acks => PrepareAcks id []
  | accept_acks => AcceptAcks id []
  | repeat_reqs => RepeatReqs []
  | submit => Submit []
  end.

(** What every function that adds an item begins with. *)
Lemma make_room (full : bool) type id sb : good_sb sb → clear_ok type id →
  wlp (if full then sendbuf_flush;; sendbuf_clear type id else mret tt)
    (λ _ sb', good_sb sb' ∧ (sb_msg sb' = sb_msg sb ∨ sb_msg sb' = emptied type id)) sb.
Proof using Type.
  intros Hsb Hid. destruct full; [|by apply wlp_ret; auto]. apply wlp_bind. eapply wlp_keeps; [apply flush_keeps|done|].
  intros _ sb1 H1. split; [by apply (clear_keeps type id)|right; by destruct type].
Qed.

Lemma add_prepare_req_keeps iid ballot : R iid → keeps good_sb (sendbuf_add_prepare_req iid ballot).
Proof using Type.
  intros HR sb Hsb. unfold sendbuf_add_prepare_req. apply wlp_get. destruct (sb_msg sb) as [id l| | | | | | |] eqn:E; try done.
  pose proof (gm_sender _ (gs_msg _ Hsb)) as Hid. rewrite E in Hid.
  apply wlp_bind. eapply wlp_mono; [by apply make_room|]. intros _ sb1 [H1 E1].
  assert (∃ l, sb_msg sb1 = PrepareReqs id l) as [l1 E2] by (destruct E1 as [->| ->]; eauto). clear E1; rename E2 into E1. apply (add_item _ _ (PrepareReqs id (l1 ++ [mk_prepare_req iid ballot]))); [done|done|by rewrite E1|done| |].
  { pose proof (gm_values _ (gs_msg _ H1)) as H2. rewrite E1 in H2. by apply Forall_snoc. }
  rewrite E1. cbn. rewrite length_app. cbn. unfold sizeof_prepare_req. lia.
Qed.

Lemma sum_sizes_snoc {A} (size : A → Z) l x : sum_sizes size (l ++ [x]) = sum_sizes size l + size x.
Proof using Type. unfold sum_sizes. induction l as [|y l IH]; cbn; [lia|]. rewrite IH. lia. Qed.

Lemma add_accept_req_keeps iid ballot v : V iid v → keeps good_sb (sendbuf_add_accept_req iid ballot v).
Proof using C.
  intros Hv sb Hsb. unfold sendbuf_add_accept_req. cbv zeta.
  assert (u64 (sizeof_accept_req + blen v) = ACCEPT_REQ_SIZE (mk_accept_req iid ballot v)) as ->.
  { pose proof (V_small _ v Hv) as H. pose proof (blen_nonneg v). unfold ACCEPT_REQ_SIZE. cbn.
    unfold max_data, MAX_UDP_MSG_SIZE, data_offset, sizeof_accept_req in *. rewrite wrap_small; lia. }
  apply wlp_get. destruct (sb_msg sb) as [| |id l| | | | |] eqn:E; try done.
  pose proof (gm_sender _ (gs_msg _ Hsb)) as Hid. rewrite E in Hid.
  apply wlp_bind. eapply wlp_mono; [by apply make_room|]. intros _ sb1 [H1 E1].
  assert (∃ l, sb_msg sb1 = AcceptReqs id l) as [l1 E2] by (destruct E1 as [->| ->]; eauto). clear E1; rename E2 into E1. apply (add_item _ _ (AcceptReqs id (l1 ++ [mk_accept_req iid ballot v]))); [done| |by rewrite E1|done| |].
  - pose proof (blen_nonneg v). unfold ACCEPT_REQ_SIZE, sizeof_accept_req. cbn. lia.
  - pose proof (gm_values _ (gs_msg _ H1)) as H2. rewrite E1 in H2. by apply Forall_snoc.
  - rewrite E1. cbn. rewrite sum_sizes_snoc. lia.
Qed.

Lemma add_repeat_req_keeps iid : keeps good_sb (sendbuf_add_repeat_req iid).
Proof using Type.
  intros sb Hsb. unfold sendbuf_add_repeat_req. apply wlp_get. destruct (sb_msg sb) as [| | | |l| | |] eqn:E; try done.
  apply wlp_bind. eapply wlp_mono; [by apply make_room|]. intros _ sb1 [H1 E1].
  assert (∃ l, sb_msg sb1 = RepeatReqs l) as [l1 E2] by (destruct E1 as [->| ->]; eauto). clear E1.
  pose proof (add_item sizeof_iid (λ sb, sb <| sb_msg := RepeatReqs (l1 ++ [iid]) |>) (RepeatReqs (l1 ++ [iid])) sb1
    H1 ltac:(done) eq_refl I I) as H.
  unfold sb_room, sb_grow, wlp, mbind, M_bind, get, c_assert, modify in *. destruct (_ <=? _); [|done].
  cbn in *. rewrite E2 in *. apply H. cbn. rewrite length_app. cbn. unfold sizeof_iid. lia.
Qed.

(** ** Learners *)

Definition good_ack (iid : Z) (a : option accept_ack) : Prop :=
  match a with Some aa => V iid (aa_value aa) | None => True end.

Record good_slot (ii : l_inst_info) : Prop := {
  gl_acks : Forall (good_ack (li_iid ii)) (acks ii);
  gl_final : good_ack (li_iid ii) (final_value ii)
}.

(** The instances are delivered in turn; [cur] is the next one. *)
Definition in_turn (ds : list delivery) (cur : Z) : Prop :=
  d_iid <$> ds = u32 <$> seqZ 1 (Z.of_nat (length ds)) ∧ cur = u32 (1 + Z.of_nat (length ds)).

Lemma in_turn_snoc ds cur v b p : in_turn ds cur → in_turn (ds ++ [mk_delivery v cur b p]) (u32 (cur + 1)).
Proof using Type.
  intros [H1 ->]. split.
  - rewrite fmap_app, H1, length_app, Nat2Z.inj_add, seqZ_app, fmap_app by lia. done.
  - rewrite length_app. cbn. unfold wrap. rewrite Zplus_mod_idemp_l. f_equal. lia.
Qed.

Record good_learner (l : learner) : Prop := {
  gr_slots : Forall good_slot (learner_state l);
  gr_delivered : Forall (λ d, V (d_iid d) (d_value d)) (delivered l);
  gr_order : in_turn (delivered l) (Learner.current_iid l);
  gr_requests : good_sb (Learner.to_acceptors l)
}.

Lemma clear_slot_good : good_slot lea_clear_instance_info.
Proof using Type. constructor; [|done]. cbn. by repeat apply Forall_cons_2. Qed.

Lemma good_learner_init : good_learner init_lea_structs.
Proof using Type.
  constructor; [|done|done|apply good_sb_new]. cbn. apply list.Forall_replicate, clear_slot_good.
Qed.

Lemma Forall_arr_get {A} (P : A → Prop) l i x : Forall P l → arr_get l i = Some x → P x.
Proof using Type. intros Hl H. apply arr_get_Some in H as [_ H]. exact (list.Forall_lookup_1 _ _ _ _ Hl H). Qed.

Lemma Forall_arr_set {A} (P : A → Prop) l i x : Forall P l → P x → Forall P (arr_set l i x).
Proof using Type. intros Hl Hx. by apply list.Forall_insert. Qed.

Lemma wlp_get_slot iid l (Q : l_inst_info → learner → Prop) :
  good_learner l → (∀ ii, good_slot ii → Q ii l) → wlp (GET_LEA_INSTANCE iid) Q l.
Proof using Type.
  intros Hl HQ. unfold GET_LEA_INSTANCE. apply wlp_get, wlp_lift_opt. intros ii Hii. apply HQ.
  eapply Forall_arr_get; [apply gr_slots, Hl|done].
Qed.

Lemma put_slot_keeps iid ii : good_slot ii → keeps good_learner (put_lea_instance iid ii).
Proof using Type.
  intros Hii l []. apply wlp_modify. constructor; cbn; [by apply Forall_arr_set|done..].
Qed.

Lemma update_state_good ii a aa b ii' : good_slot ii → V (aa_iid aa) (aa_value aa) → lea_update_state ii a aa = Some (b, ii') → good_slot ii'.
Proof using C.
  intros Hii HV. unfold lea_update_state.
  set (ii1 := if li_iid ii =? INST_INFO_EMPTY then _ else _).
  assert (good_slot ii1) as [Ha Hf].
  { unfold ii1. destruct (Z.eqb_spec (li_iid ii) INST_INFO_EMPTY) as [E|]; [|done]. destruct Hii as [Ha Hf]. rewrite E in Ha, Hf.
    constructor; cbn; [eapply list.Forall_impl; [exact Ha|]; intros [ack|]; cbn; [apply V_zero|done]|]. destruct (final_value ii); cbn in *; [by apply V_zero|done]. }
  destruct (Z.eqb_spec (li_iid ii1) (aa_iid aa)) as [E|]; [|done]. cbn [negb]. rewrite <-E in HV.
  repeat case_match; intros [= <- <-]; try done; by constructor; cbn; [apply Forall_arr_set|].
Qed.

Lemma check_quorum_keeps iid : keeps good_learner (lea_check_quorum iid).
Proof using Type.
  intros l Hl. unfold lea_check_quorum. apply wlp_bind, wlp_get_slot; [done|]. intros ii Hii.
  destruct (count_acks _ _ _ _ _) as [a count]. destruct (_ <=? _); [|by apply wlp_ret].
  apply wlp_bind, wlp_lift_opt. intros final Hfinal. apply wlp_bind.
  eapply wlp_keeps; [apply put_slot_keeps|done|].
  - destruct Hii as [Ha Hf]. constructor; [done|]. cbn. by eapply Forall_arr_get.
  - intros _ l1 H1. apply wlp_bind, wlp_modify, wlp_ret. case_match; [|done]. by destruct H1.
Qed.

Lemma deliver_keeps : keeps good_learner lea_deliver_next_closed.
Proof using Type.
  unfold lea_deliver_next_closed. generalize (S (Z.to_nat LEARNER_ARRAY_SIZE)) as fuel. intros fuel.
  induction fuel as [|fuel IH]; [done|]. intros l Hl. cbn [lea_deliver_fuel]. apply wlp_get, wlp_bind, wlp_get_slot; [done|].
  intros ii [_ Hf]. destruct (final_value ii) as [aa|]; [|by apply wlp_ret]. apply wlp_bind, wlp_assert. intros Hiid%Z.eqb_eq. rewrite Hiid in Hf. cbv zeta.
  apply wlp_bind, wlp_modify, wlp_bind, wlp_modify, wlp_bind.
  eapply wlp_keeps; [apply put_slot_keeps, clear_slot_good| |intros _ l1; apply IH].
  destruct Hl as [Hs Hd Ho Hr]. constructor; cbn; [done|by apply Forall_snoc|by apply in_turn_snoc|done].
Qed.

Lemma handle_ack_keeps a aa : V (aa_iid aa) (aa_value aa) → keeps good_learner (handle_accept_ack a aa).
Proof using C.
  intros HV l Hl. unfold handle_accept_ack. apply wlp_bind, wlp_modify.
  set (l0 := if _ <? _ then _ else _). assert (good_learner l0) as H0 by (unfold l0; case_match; [by destruct Hl|done]).
  clearbody l0. apply wlp_get. destruct (_ <? _); [by apply wlp_ret|]. destruct (_ <=? _); [by apply wlp_ret|].
  apply wlp_bind, wlp_get_slot; [done|]. intros ii Hii. apply wlp_bind, wlp_lift_opt. intros [b ii'] E.
  apply wlp_bind. eapply wlp_keeps; [eapply put_slot_keeps, update_state_good; [exact Hii|exact HV|exact E]|done|]. intros _ l1 H1.
  destruct (negb b); [by apply wlp_ret|]. apply wlp_bind. eapply wlp_keeps; [apply check_quorum_keeps|done|].
  intros closed l2 H2. destruct (negb closed); [by apply wlp_ret|]. destruct (_ =? _); [by apply deliver_keeps|by apply wlp_ret].
Qed.

Lemma learner_gets_keeps m : values_ok m → keeps good_learner (learner_gets m).
Proof using C.
  intros Hm l Hl. destruct m as [| | |a aab| | | |]; cbn; try by apply wlp_ret.
  unfold handle_accept_ack_batch. apply keeps_mfor; [|done]. intros aa l1 Hin H1. apply handle_ack_keeps; [|done].
  cbn in Hm. rewrite list.Forall_forall in Hm. by apply Hm.
Qed.

Lemma on_acceptors_keeps (m : M udp_send_buffer unit) : keeps good_sb m → keeps good_learner (Learner.on_acceptors m).
Proof using Type.
  intros Hm l Hl. unfold Learner.on_acceptors. eapply keeps_zoom; [exact Hm|apply gr_requests, Hl|].
  intros sb Hsb. destruct Hl. by constructor.
Qed.

Lemma hole_check_keeps : keeps good_learner lea_hole_check.
Proof using Type.
  assert (∀ from to, keeps good_learner (lea_send_repeat_request from to)) as H.
  { intros from to l Hl. unfold lea_send_repeat_request. apply keeps_seq.
    - apply on_acceptors_keeps; [|done]. by apply clear_keeps.
    - intros _ l1 H1. apply keeps_seq; [|intros _ l2; apply on_acceptors_keeps, flush_keeps].
      apply keeps_for_lt; [|done]. intros i l2 H2. apply wlp_bind, wlp_get_slot; [done|]. intros ii _.
      destruct (negb _); [|by apply wlp_ret]. by apply on_acceptors_keeps, H2; apply add_repeat_req_keeps. }
  unfold lea_hole_check. solve_keeps with (by apply H).
Qed.

(** ** Acceptors *)

Record good_acceptor (s : acceptor records) : Prop := {
  ga_id : 0 ≤ this_acceptor_id s < N_OF_ACCEPTORS;
  ga_proposers : good_sb (to_proposers s);
  ga_learners : good_sb (to_learners s);
  ga_records : map_Forall (λ i r, aa_iid r = i ∧ R i ∧ none_or_V i (aa_value r)) (dbp (acc_storage s));
  ga_highest : 0 < highest_accepted_iid s →
    ∃ r, dbp (acc_storage s) !! highest_accepted_iid s = Some r ∧ V (highest_accepted_iid s) (aa_value r)
}.

Context (mode : Z).

(** Transactions of the store in memory change nothing. *)
Lemma tx_begin_none s : Acceptor.tx_begin (DB := records) mode s = Some (tt, s).
Proof using Type. unfold Acceptor.tx_begin, on_storage, zoom, stablestorage_tx_begin. destruct s as [? ? ? [? ?] ?]. by destruct (_ || _). Qed.

Lemma tx_end_none s : Acceptor.tx_end (DB := records) mode s = Some (tt, s).
Proof using Type. unfold Acceptor.tx_end, on_storage, zoom, stablestorage_tx_end. destruct s as [? ? ? [? ?] ?]. by destruct (mode =? 0), (mode =? 20). Qed.

Lemma tx_begin_keeps : keeps good_acceptor (Acceptor.tx_begin mode).
Proof using Type. intros s Hs. unfold wlp. by rewrite tx_begin_none. Qed.
Lemma tx_end_keeps : keeps good_acceptor (Acceptor.tx_end mode).
Proof using Type. intros s Hs. unfold wlp. by rewrite tx_end_none. Qed.

Lemma on_proposers_keeps (m : M udp_send_buffer unit) : keeps good_sb m → keeps good_acceptor (on_proposers m).
Proof using Type.
  intros Hm s Hs. eapply keeps_zoom; [exact Hm|apply ga_proposers, Hs|]. intros sb Hsb. destruct Hs. by constructor.
Qed.
Lemma on_learners_keeps (m : M udp_send_buffer unit) : keeps good_sb m → keeps good_acceptor (on_learners m).
Proof using Type.
  intros Hm s Hs. eapply keeps_zoom; [exact Hm|apply ga_learners, Hs|]. intros sb Hsb. destruct Hs. by constructor.
Qed.

(** The two functions that add an answer; [proj] is the buffer. *)
Lemma none_or_V_small i v : none_or_V i v → 0 ≤ blen v ≤ max_data.
Proof using C. pose proof (blen_nonneg v) as H0. intros [->|H]; [done|]. split; [done|by eapply V_small]. Qed.

Section answers.
Context (proj : acceptor records → udp_send_buffer) (upd : udp_send_buffer → acceptor records → acceptor records).
Context (Hproj : ∀ s, good_acceptor s → good_sb (proj s)) (Hpu : ∀ sb s, proj (upd sb s) = sb)
  (Hupd : ∀ sb s, good_acceptor s → good_sb sb → good_acceptor (upd sb s)).

Lemma make_room_tx (full : bool) type id s : good_acceptor s → clear_ok type id →
  wlp (if full then Acceptor.tx_end mode;; zoom proj upd sendbuf_flush;; zoom proj upd (sendbuf_clear type id);; Acceptor.tx_begin mode
       else mret tt)
    (λ _ s', good_acceptor s' ∧ (sb_msg (proj s') = sb_msg (proj s) ∨ sb_msg (proj s') = emptied type id)) s.
Proof using Hproj Hpu Hupd.
  intros Hs Hid. destruct full; [|by apply wlp_ret; auto]. apply wlp_bind. unfold wlp at 1. rewrite tx_end_none.
  apply wlp_bind, wlp_zoom. eapply wlp_keeps; [apply flush_keeps|by apply Hproj|]. intros _ sb1 H1.
  apply wlp_bind, wlp_zoom. rewrite Hpu. unfold sendbuf_clear. apply wlp_modify. unfold wlp. rewrite tx_begin_none, Hpu.
  split; [|right; by destruct type]. apply Hupd; [by apply Hupd|]. by apply (clear_keeps type id).
Qed.

Lemma add_answer n (f : udp_send_buffer → udp_send_buffer) m s : good_acceptor s → 0 ≤ n → f (proj s) = (proj s) <| sb_msg := m |> → sender_ok m →
  values_ok m →
  data_size_of m = data_size_of (sb_msg (proj s)) + n →
  wlp (zoom proj upd (sb_room n;; modify f;; sb_grow n)) (λ _ s', good_acceptor s') s.
Proof using Hproj Hupd.
  intros Hs Hn Hf Hid Hv Hd. apply wlp_zoom. eapply wlp_mono; [apply (add_item n f m); auto|]. intros ? sb. by apply Hupd.
Qed.

Lemma add_prepare_ack_gen rec : R (aa_iid rec) ∧ none_or_V (aa_iid rec) (aa_value rec) →
  keeps good_acceptor (sendbuf_add_prepare_ack proj upd (Acceptor.tx_begin mode) (Acceptor.tx_end mode) rec).
Proof using C Hproj Hpu Hupd.
  intros Hv s Hs. pose proof (none_or_V_small _ _ (proj2 Hv)) as Hsize. unfold sendbuf_add_prepare_ack. cbv zeta.
  set (pa := mk_prepare_ack (aa_iid rec) (aa_ballot rec) (aa_value_ballot rec) (aa_value rec)).
  assert (u64 (sizeof_prepare_ack + blen (aa_value rec)) = PREPARE_ACK_SIZE pa) as ->.
  { unfold PREPARE_ACK_SIZE. cbn. unfold max_data, MAX_UDP_MSG_SIZE, data_offset, sizeof_prepare_ack in *. rewrite wrap_small; lia. }
  apply wlp_get. pose proof (Hproj _ Hs) as Hsb. destruct (sb_msg (proj s)) as [|id l| | | | | |] eqn:E; try done.
  pose proof (gm_sender _ (gs_msg _ Hsb)) as Hid. rewrite E in Hid.
  apply wlp_bind. eapply wlp_mono; [by apply make_room_tx|]. intros _ s1 [H1 E1].
  assert (∃ l, sb_msg (proj s1) = PrepareAcks id l) as [l1 E2] by (destruct E1 as [->| ->]; eauto).
  apply (add_answer _ _ (PrepareAcks id (l1 ++ [pa]))); [done|unfold PREPARE_ACK_SIZE, sizeof_prepare_ack; cbn; lia|by rewrite E2|done| |].
  - pose proof (gm_values _ (gs_msg _ (Hproj _ H1))) as H2. rewrite E2 in H2. by apply Forall_snoc.
  - rewrite E2. cbn. rewrite sum_sizes_snoc. lia.
Qed.

Lemma add_accept_ack_gen rec : V (aa_iid rec) (aa_value rec) →
  keeps good_acceptor (sendbuf_add_accept_ack proj upd (Acceptor.tx_begin mode) (Acceptor.tx_end mode) rec).
Proof using C Hproj Hpu Hupd.
  intros Hv s Hs. pose proof (none_or_V_small _ _ (or_intror Hv)) as Hsize. unfold sendbuf_add_accept_ack. cbv zeta.
  assert (u64 (ACCEPT_ACK_SIZE rec) = ACCEPT_ACK_SIZE rec) as ->.
  { unfold ACCEPT_ACK_SIZE, max_data, MAX_UDP_MSG_SIZE, data_offset, sizeof_accept_ack in *. rewrite wrap_small; lia. }
  apply wlp_get. pose proof (Hproj _ Hs) as Hsb. destruct (sb_msg (proj s)) as [| | |id l| | | |] eqn:E; try done.
  pose proof (gm_sender _ (gs_msg _ Hsb)) as Hid. rewrite E in Hid.
  apply wlp_bind. eapply wlp_mono; [by apply make_room_tx|]. intros _ s1 [H1 E1].
  assert (∃ l, sb_msg (proj s1) = AcceptAcks id l) as [l1 E2] by (destruct E1 as [->| ->]; eauto).
  apply (add_answer _ _ (AcceptAcks id (l1 ++ [rec]))); [done|unfold ACCEPT_ACK_SIZE, sizeof_accept_ack; lia|by rewrite E2|done| |].
  - pose proof (gm_values _ (gs_msg _ (Hproj _ H1))) as H2. rewrite E2 in H2. by apply Forall_snoc.
  - rewrite E2. cbn. rewrite sum_sizes_snoc. lia.
Qed.
End answers.

Lemma add_prepare_ack_keeps rec : R (aa_iid rec) ∧ none_or_V (aa_iid rec) (aa_value rec) → keeps good_acceptor (add_prepare_ack mode rec).
Proof using C. apply add_prepare_ack_gen; [apply ga_proposers|done|]. intros sb s [] ?. by constructor. Qed.
Lemma add_accept_ack_keeps rec : V (aa_iid rec) (aa_value rec) → keeps good_acceptor (add_accept_ack mode rec).
Proof using C. apply add_accept_ack_gen; [apply ga_learners|done|]. intros sb s [] ?. by constructor. Qed.

(** What was read, and is in the record buffer. *)
Definition read_ok (iid : Z) (r : option acceptor_record) (s : acceptor records) : Prop :=
  match r with
  | Some r => dbp (acc_storage s) !! iid = Some r ∧ record_buffer (acc_storage s) = r
  | None => 1 ≤ iid → dbp (acc_storage s) !! iid = None
  end.

Lemma get_record_good iid s : good_acceptor s →
  wlp (on_storage (stablestorage_get_record iid)) (λ r s', good_acceptor s' ∧ read_ok iid r s' ∧
    highest_accepted_iid s' = highest_accepted_iid s ∧ dbp (acc_storage s') = dbp (acc_storage s)) s.
Proof using Type.
  intros Hs. apply wlp_zoom. unfold stablestorage_get_record. apply wlp_get. cbn [db_get gmap_store].
  destruct (Z.ltb_spec iid 1); [apply wlp_ret; by split_and!; destruct s; [|intros ?; lia|..]|].
  destruct (dbp (acc_storage s) !! iid) as [r|] eqn:E.
  - apply wlp_bind, wlp_modify, wlp_bind, wlp_assert. intros _. apply wlp_ret. destruct Hs. split_and!; by try constructor.
  - apply wlp_ret. destruct s as [? ? ? [? ?] ?]. split_and!; [done|by intros ?|done|done].
Qed.

(** A record of the instance [iid]. *)
Definition good_record (iid : Z) (r : acceptor_record) : Prop := aa_iid r = iid ∧ R iid ∧ none_or_V iid (aa_value r).

(** Storing the record buffer, in the storage [st] of [s]. *)
Lemma put_record_good iid s st : good_acceptor s → dbp st = dbp (acc_storage s) → good_record iid (record_buffer st) →
  (0 < highest_accepted_iid s → iid = highest_accepted_iid s → V iid (aa_value (record_buffer st))) →
  wlp (put_record_buffer iid) (λ r st', r = record_buffer st ∧ dbp st' !! iid = Some r ∧
    good_acceptor (s <| acc_storage := st' |>)) st.
Proof using Type.
  intros [Hid Hp Hl Hr Hh] Hst Hv HV. unfold put_record_buffer. apply wlp_get, wlp_bind.
  unfold on_db. apply wlp_get, wlp_bind, wlp_lift_opt. cbn [db_put gmap_store]. intros db Hdb. unfold wlp, put. cbn.
  destruct (iid <? 1); [done|]. injection Hdb as <-. rewrite Hst. split_and!; [done|by rewrite lookup_insert_eq|].
  constructor; cbn; [done..| |].
  - by apply map_Forall_insert_2.
  - intros H. destruct (decide (iid = highest_accepted_iid s)) as [->|Hne].
    + rewrite lookup_insert_eq. eauto.
    + rewrite lookup_insert_ne by done. by apply Hh.
Qed.

Lemma apply_prepare_good pr rec s : good_acceptor s → read_ok (pr_iid pr) rec s → R (pr_iid pr) →
  wlp (acc_apply_prepare pr rec) (λ r s', good_acceptor s' ∧ match r with Some r => good_record (pr_iid pr) r | None => True end) s.
Proof using Type.
  intros Hs Hrec HR. unfold acc_apply_prepare. destruct (match rec with Some _ => _ <=? _ | None => _ end); [by apply wlp_ret|].
  destruct (match rec with Some _ => negb _ | None => _ end); [by apply wlp_ret|].
  assert (∀ st, dbp st = dbp (acc_storage s) →
    aa_iid (record_buffer st) = match rec with Some r => aa_iid r | None => pr_iid pr end →
    aa_value (record_buffer st) = match rec with Some r => aa_value r | None => [] end →
    wlp (put_record_buffer (pr_iid pr)) (λ r st', good_record (pr_iid pr) r ∧ good_acceptor (s <| acc_storage := st' |>)) st) as H.
  { intros st Hst Hi Hb. assert (good_record (pr_iid pr) (record_buffer st)) as Hv.
    { unfold good_record. rewrite Hi, Hb. destruct rec as [r|]; [|by split_and!; [..|left]]. destruct Hrec as [Hr _].
      exact (ga_records _ Hs _ _ Hr). }
    eapply wlp_mono; [apply (put_record_good _ s); [done|done|exact Hv|]|by intros r st' (-> & _ & ?)].
    intros Hpos E. destruct (ga_highest _ Hs Hpos) as (r & Hr & Hrv). rewrite <- E in Hr, Hrv. rewrite Hb. destruct rec as [r'|].
    - destruct Hrec as [Hr' _]. congruence.
    - cbn in Hrec. destruct (Z.le_gt_cases 1 (pr_iid pr)); [rewrite Hrec in Hr by done; done|lia]. }
  apply wlp_bind. apply (wlp_mono _ (λ r s', good_record (pr_iid pr) r ∧ good_acceptor s')).
  - apply wlp_zoom. unfold stablestorage_save_prepare. destruct rec as [r|]; apply wlp_bind, wlp_modify, H; cbn; try done.
    all: by destruct Hrec as [_ ->].
  - intros r s' [? ?]. by apply wlp_ret.
Qed.

Lemma apply_accept_good ar rec s : good_acceptor s → V (ar_iid ar) (ar_value ar) →
  wlp (acc_apply_accept ar rec) (λ r s', good_acceptor s' ∧ match r with Some r => V (aa_iid r) (aa_value r) | None => True end) s.
Proof using C.
  intros Hs HV. unfold acc_apply_accept. destruct (match rec with Some _ => _ | None => _ end); [by apply wlp_ret|].
  apply wlp_bind. apply (wlp_mono _ (λ r s', aa_iid r = ar_iid ar ∧ V (ar_iid ar) (aa_value r) ∧ good_acceptor s' ∧
    dbp (acc_storage s') !! ar_iid ar = Some r)).
  - apply wlp_zoom. unfold stablestorage_save_accept. apply wlp_bind, wlp_assert. intros _. apply wlp_bind, wlp_modify.
    eapply wlp_mono; [apply (put_record_good _ s); [done|done|split; [done|split; [by eapply V_R|by right]]|done]|].
    intros r st (-> & Hr & Hg). by split_and!.
  - intros r s1 (Hi & Hv & H1 & Hr). apply wlp_bind, wlp_modify, wlp_ret. rewrite Hi. split; [|done].
    destruct (_ <? _); [|done]. destruct H1. constructor; cbn; try done. eauto.
Qed.

(** The shape of the three handlers. *)
Lemma handler_keeps {A} (on : M udp_send_buffer unit → M (acceptor records) unit) type (body : A → M (acceptor records) unit) l :
  (∀ m, keeps good_sb m → keeps good_acceptor (on m)) → (∀ s, good_acceptor s → clear_ok type (this_acceptor_id s)) →
  (∀ x, x ∈ l → keeps good_acceptor (body x)) →
  keeps good_acceptor (s ← get; on (sendbuf_clear type (this_acceptor_id s));; Acceptor.tx_begin mode;; mfor l body;;
                       Acceptor.tx_end mode;; on sendbuf_flush).
Proof using Type.
  intros Hon Hid Hbody s Hs. apply wlp_get. apply keeps_seq; [by apply Hon, Hs; apply clear_keeps, Hid|]. intros _ s1 H1.
  apply keeps_seq; [by apply tx_begin_keeps|]. intros _ s2 H2.
  apply keeps_seq; [by apply keeps_mfor; [intros x s3 Hx; by apply Hbody|]|]. intros _ s3 H3.
  apply keeps_seq; [by apply tx_end_keeps|]. intros _ s4. apply Hon, flush_keeps.
Qed.

Lemma handle_prepare_keeps l : Forall (λ r, R (pr_iid r)) l → keeps good_acceptor (handle_prepare_req_batch mode l).
Proof using C.
  intros Hl. apply (handler_keeps on_proposers prepare_acks); [apply on_proposers_keeps|apply ga_id|].
  intros pr Hin s Hs. rewrite list.Forall_forall in Hl. apply wlp_bind. eapply wlp_mono; [by apply get_record_good|].
  intros r s1 (H1 & Hr & _). apply wlp_bind. eapply wlp_mono; [by apply apply_prepare_good, Hl|]. intros [r'|] s2 [H2 Hv].
  - apply add_prepare_ack_keeps; [|done]. destruct Hv as [-> ?]. done.
  - by apply wlp_ret.
Qed.

Lemma handle_accept_keeps l : Forall (λ r, V (ar_iid r) (ar_value r)) l → keeps good_acceptor (handle_accept_req_batch mode l).
Proof using C.
  intros Hl. apply (handler_keeps on_learners accept_acks); [apply on_learners_keeps|apply ga_id|].
  intros ar Hin s Hs. rewrite list.Forall_forall in Hl. apply wlp_bind. eapply wlp_mono; [by apply get_record_good|].
  intros r s1 (H1 & _). apply wlp_bind. eapply wlp_mono; [apply apply_accept_good; [done|by apply Hl]|]. intros [r'|] s2 [H2 Hv].
  - by apply add_accept_ack_keeps.
  - by apply wlp_ret.
Qed.

Lemma handle_repeat_keeps l : keeps good_acceptor (handle_repeat_req_batch mode l).
Proof using C.
  apply (handler_keeps on_learners accept_acks); [apply on_learners_keeps|apply ga_id|].
  intros iid _ s Hs. apply wlp_bind. eapply wlp_mono; [by apply get_record_good|].
  intros [r|] s1 (H1 & Hr & _); [|by apply wlp_ret]. destruct (Z.ltb_spec 0 (blen (aa_value r))) as [Hpos|]; [|by apply wlp_ret].
  apply add_accept_ack_keeps; [|done]. destruct Hr as [Hr _]. destruct (ga_records _ H1 _ _ Hr) as (-> & _ & [E|]); [|done].
  by rewrite E in Hpos.
Qed.

Lemma repeater_keeps : keeps good_acceptor (acc_periodic_repeater mode).
Proof using C.
  intros s Hs. unfold acc_periodic_repeater. apply wlp_get. unfold when. destruct (Z.ltb_spec 0 (highest_accepted_iid s)); [|by apply wlp_ret].
  unfold acc_retransmit_latest_accept. apply wlp_get.
  destruct (ga_highest _ Hs) as (r0 & Hr0 & Hv0); [done|].
  apply wlp_bind. apply (wlp_mono _ (λ _ s', good_acceptor s' ∧ dbp (acc_storage s') = dbp (acc_storage s))).
  { pose proof (on_learners_keeps _ (clear_keeps accept_acks _ (ga_id _ Hs)) s Hs) as H1. by split. }
  intros _ s1 [H1 E1]. apply wlp_bind. unfold wlp at 1. rewrite tx_begin_none. apply wlp_bind.
  eapply wlp_mono; [by apply get_record_good|]. intros r s2 (H2 & Hr & _ & E2). apply wlp_bind, wlp_lift_opt. intros r' ->.
  apply keeps_seq.
  - apply add_accept_ack_keeps; [|done]. destruct Hr as [Hr _]. rewrite E2, E1, Hr0 in Hr. injection Hr as <-.
    by rewrite (proj1 (ga_records _ Hs _ _ Hr0)).
  - intros _ s3 H3. apply keeps_seq; [by apply tx_end_keeps|]. intros _ s4. apply on_learners_keeps, flush_keeps.
Qed.

Lemma acceptor_gets_keeps m : values_ok m → keeps good_acceptor (acceptor_gets mode m).
Proof using C.
  intros Hm. destruct m; cbn; try by intros s Hs; apply wlp_ret.
  - by apply handle_prepare_keeps.
  - by apply handle_accept_keeps.
  - apply handle_repeat_keeps.
Qed.

(** ** The whole system *)

Lemma receive_keeps {St} (P : St → Prop) newmsg (gets : paxos_msg → M St unit) :
  (∀ m, msg_ok m → data_size_of m < 2 ^ 32 → ∀ s, receive newmsg junk m s = gets m s) →
  (∀ m, values_ok m → keeps P (gets m)) → ∀ m, good_msg m → keeps P (receive newmsg junk m).
Proof using C junk_ok.
  intros Heq Hgets m Hm s Hs. destruct (good_received m Hm) as [Hok Hsize]. rewrite <- receive_cut. unfold wlp.
  rewrite Heq by done. apply Hgets; [|done]. by apply values_cut, Hm.
Qed.

Lemma learner_receives m : good_msg m → keeps good_learner (receive lea_handle_newmsg junk m).
Proof using C junk_ok.
  apply (receive_keeps _ _ learner_gets); [intros ?? ?; by apply receive_learner|apply learner_gets_keeps].
Qed.
Lemma acceptor_receives m : good_msg m → keeps good_acceptor (receive (acc_handle_newmsg mode) junk m).
Proof using C junk_ok mode.
  apply (receive_keeps _ _ (acceptor_gets mode)); [intros ?? ?; by apply receive_acceptor|apply acceptor_gets_keeps].
Qed.

Lemma submit_packet_msg value m : submit_packet value = Some m → m = Submit value ∧ blen value ≤ max_data.
Proof using Type.
  unfold submit_packet, pax_submit_nonblock, sendbuf_add_submit_val, mbind, M_bind, option_bind. cbn. unfold c_assert.
  destruct (Z.leb_spec (data_offset + blen value) MAX_UDP_MSG_SIZE); [|done]. cbn. intros [= <-]. split; [done|]. unfold max_data. lia.
Qed.

(** The proposers of a system are in [GP]. *)
Section system.
Context (GP : proposer → Prop).
Hypothesis GP_requests : ∀ p, GP p → good_sb (to_acceptors p).
Hypothesis GP_learner : ∀ p, GP p → good_learner (lea p).

Record good_sys (s : paxos_sys) : Prop := {
  gy_proposers : Forall GP (proposers s);
  gy_acceptors : Forall good_acceptor (acceptors s);
  gy_learners : Forall good_learner (learners s)
}.

Lemma sent_of {A} (P : A → Prop) (f : A → list paxos_msg) l i m : Forall P l → (∀ x, P x → Forall good_msg (f x)) →
  m ∈ default [] (f <$> l !! i) → good_msg m.
Proof using Type.
  intros Hl Hf Hm. destruct (l !! i) as [x|] eqn:E; cbn in Hm; [|by apply list.elem_of_nil in Hm].
  pose proof (Hf x (list.Forall_lookup_1 _ _ _ _ Hl E)) as H. rewrite list.Forall_forall in H. by apply H.
Qed.

Lemma sent_good s src dst k m : good_sys s → sent_to s src dst !! k = Some m → good_msg m.
Proof using GP GP_learner GP_requests.
  intros [Hp Ha Hl] Hm%list_elem_of_lookup_2. destruct src, dst; cbn in Hm; try by apply list.elem_of_nil in Hm.
  - refine (sent_of _ _ _ _ _ Hp _ Hm). intros x Hx. apply gs_sent, GP_requests, Hx.
  - refine (sent_of _ _ _ _ _ Ha _ Hm). intros x Hx. apply gs_sent, Hx.
  - refine (sent_of _ _ _ _ _ Ha _ Hm). intros x Hx. apply gs_sent, Hx.
  - refine (sent_of _ _ _ _ _ Ha _ Hm). intros x Hx. apply gs_sent, Hx.
  - refine (sent_of _ _ _ _ _ Hl _ Hm). intros x Hx. apply gs_sent, Hx.
  - refine (sent_of _ _ _ _ _ Hp _ Hm). intros x Hx. apply gs_sent, gr_requests, GP_learner, Hx.
Qed.

Lemma run_at_keeps {St} (P : St → Prop) (m : M St unit) i l l' : keeps P m → Forall P l → run_at m i l = Some l' → Forall P l'.
Proof using Type.
  intros Hm Hl. unfold run_at. destruct (l !! i) as [x|] eqn:E; [|done]. cbn. destruct (m x) as [[[] x']|] eqn:Em; [|done].
  cbn. intros [= <-]. apply list.Forall_insert; [done|].
  exact (wlp_run _ _ _ _ _ Em (Hm x (list.Forall_lookup_1 _ _ _ _ Hl E))).
Qed.

Lemma at_proposer_good p m s s' : keeps GP m → good_sys s → at_proposer p m s = Some s' → good_sys s'.
Proof using Type.
  intros Hm [Hp Ha Hl]. unfold at_proposer. destruct (run_at m p _) as [l|] eqn:E; [|done]. intros [= <-].
  constructor; cbn; [by eapply run_at_keeps|done..].
Qed.
Lemma at_acceptor_good a m s s' : keeps good_acceptor m → good_sys s → at_acceptor a m s = Some s' → good_sys s'.
Proof using Type.
  intros Hm [Hp Ha Hl]. unfold at_acceptor. destruct (run_at m a _) as [l|] eqn:E; [|done]. intros [= <-].
  constructor; cbn; [done|by eapply run_at_keeps|done].
Qed.
Lemma at_learner_good i m s s' : keeps good_learner m → good_sys s → at_learner i m s = Some s' → good_sys s'.
Proof using Type.
  intros Hm [Hp Ha Hl]. unfold at_learner. destruct (run_at m i _) as [l|] eqn:E; [|done]. intros [= <-].
  constructor; cbn; [done..|by eapply run_at_keeps].
Qed.

End system.

(** The acceptors and learners of a system that starts. *)
Lemma start_acceptors ids acs : mapM (λ id, acceptor_init id (∅ : records)) ids = Some acs → Forall good_acceptor acs.
Proof using Type.
  intros Ea%mapM_Some_1. induction Ea as [|id a ids acs Hia _ IH]; constructor; [|done].
  unfold acceptor_init, N_OF_ACCEPTORS in Hia. cbn in Hia. destruct ((id <? 0) || (3 <=? id)) eqn:E; [done|].
  apply orb_false_iff in E as [H1%Z.ltb_ge H2%Z.leb_gt]. injection Hia as <-.
  constructor; cbn; [done|apply good_sb_new..|apply map_Forall_empty|lia].
Qed.
End good.

(** ** More values *)

Section mono.
Context (V V' : Z → list byte → Prop) (R R' : Z → Prop).
Context (HV : ∀ i v, V i v → V' i v) (HR : ∀ i, R i → R' i).

Lemma good_msg_mono m : good_msg V R m → good_msg V' R' m.
Proof using HV HR.
  intros [Hs Hv Hd]. constructor; [done| |done]. destruct m; cbn in *; try done;
    (eapply list.Forall_impl; [exact Hv|]); cbn; intros x Hx; auto. destruct Hx as [? [?|?]]; split; [auto|by left|auto|by right; auto].
Qed.

Lemma good_sb_mono sb : good_sb V R sb → good_sb V' R' sb.
Proof using HV HR.
  intros [H1 H2 H3]. constructor; [by apply good_msg_mono|done|]. eapply list.Forall_impl; [exact H3|]. apply good_msg_mono.
Qed.

Lemma good_learner_mono l : good_learner V R l → good_learner V' R' l.
Proof using HV HR.
  intros [H1 H2 H0 H3]. assert (∀ i a, good_ack V i a → good_ack V' i a) as Ha by (intros i [a|]; cbn; auto).
  constructor; [|eapply list.Forall_impl; [exact H2|]; cbn; auto|done|by apply good_sb_mono].
  eapply list.Forall_impl; [exact H1|]. intros ii [G1 G2]. constructor; [|auto]. eapply list.Forall_impl; [exact G1|]. auto.
Qed.

Lemma good_acceptor_mono s : good_acceptor V R s → good_acceptor V' R' s.
Proof using HV HR.
  intros [H1 H2 H3 H4 H5]. constructor; [done|by apply good_sb_mono..| |].
  - intros i r Hr. destruct (H4 i r Hr) as (? & ? & [?|?]); split_and!; auto; [by left|by right; auto].
  - intros Hp. destruct (H5 Hp) as (r & ? & ?). eauto.
Qed.
End mono.
