(* ===== verification/PaxosValidity.v ===== *)
(** * What libpaxos2 delivers was submitted

    An invariant of the whole system: every value that a process holds or sends
    was submitted by a client, and so was every value that a learner delivers
    ([paxos2_validity]).  It holds whatever the faults of the handlers do to
    agreement.  [PaxosGood] has the acceptors, the learners and the network. *)
From Stdlib Require Import Init.Byte.
From S2P Require Import Prelude Steps Bytes PaxosWire SendBuffer StableStorage Acceptor Learner ValuesHandler Leader Proposer PaxosSystem PaxosGood.

Section validity.
Context (V : list byte → Prop) (junk : list byte) (junk_ok : blen junk = 4).
Context (values_small : ∀ v, V v → blen v ≤ max_data).

Abbreviation Vi := (λ (_ : Z) (v : list byte), V v).
Abbreviation any := (λ _ : Z, True).
#[local] Instance validity_carried : Carried Vi any.
Proof. split; [done..|]. intros _ v. apply values_small. Qed.

#[local] Abbreviation good_sb := (good_sb Vi any).
#[local] Abbreviation good_learner := (good_learner Vi any).
#[local] Abbreviation good_acceptor := (good_acceptor Vi any).
#[local] Abbreviation good_msg := (good_msg Vi any).
#[local] Abbreviation values_ok := (values_ok Vi any).
#[local] Abbreviation none_or_V := (none_or_V Vi).

(** ** The values of a proposer *)

Definition good_vh (v : values_handler) : Prop := map_Forall (λ _ w, V (vw_value w)) (heap v).

Lemma wlp_deref vw v (Q : vh_value_wrapper → values_handler → Prop) :
  (∀ w, heap v !! vw = Some w → Q w v) → wlp (deref vw) Q v.
Proof using Type. intros H. unfold deref. apply wlp_get, wlp_lift_opt. intros w Hw. by apply H. Qed.

Lemma deref_keeps vw : keeps good_vh (deref vw).
Proof using Type. intros v Hv. by apply wlp_deref. Qed.

Lemma set_next_keeps vw next : keeps good_vh (set_next vw next).
Proof using Type.
  intros v Hv. unfold set_next. apply wlp_bind, wlp_deref. intros w Hw. apply wlp_modify. unfold good_vh. cbn.
  apply map_Forall_insert_2; [|done]. exact (Hv vw w Hw).
Qed.

Lemma free_keeps vw : keeps good_vh (PAX_FREE vw).
Proof using Type.
  intros v Hv. unfold PAX_FREE. apply wlp_bind, wlp_deref. intros w Hw. apply wlp_modify. unfold good_vh. cbn.
  by apply map_Forall_delete.
Qed.

Lemma wrap_keeps value : V value → keeps good_vh (vh_wrap_value value).
Proof using Type.
  intros HV v Hv. unfold vh_wrap_value. apply wlp_get. cbv zeta. apply wlp_bind. unfold wlp, put. cbn.
  by apply map_Forall_insert_2.
Qed.
#[local] Hint Resolve deref_keeps set_next_keeps free_keeps wrap_keeps : keeps.

#[local] Ltac vh_steps := solve_keeps with (apply wlp_modify; (assumption || by case_match)).

Lemma notify_keeps result vw : keeps good_vh (vh_notify_client result vw).
Proof using Type. unfold vh_notify_client. vh_steps. Qed.
Lemma enqueue_keeps value : V value → keeps good_vh (vh_enqueue_value value).
Proof using Type. intros HV. unfold vh_enqueue_value. vh_steps. Qed.
Lemma get_next_keeps : keeps good_vh vh_get_next_pending.
Proof using Type. unfold vh_get_next_pending. vh_steps. Qed.
Lemma push_back_keeps vw : keeps good_vh (vh_push_back_value vw).
Proof using Type. unfold vh_push_back_value. vh_steps. Qed.
Lemma compare_keeps vw1 vw2 : keeps good_vh (vh_value_compare vw1 vw2).
Proof using Type. unfold vh_value_compare. vh_steps. Qed.
#[local] Hint Resolve notify_keeps enqueue_keeps get_next_keeps push_back_keeps compare_keeps : keeps.

Lemma shutdown_keeps : keeps good_vh vh_shutdown.
Proof using Type.
  assert (∀ fuel, keeps good_vh (vh_shutdown_fuel fuel)) as H.
  { intros fuel. induction fuel as [|fuel IH]; [done|]. cbn [vh_shutdown_fuel]. vh_steps. }
  unfold vh_shutdown. vh_steps.
Qed.
#[local] Hint Resolve shutdown_keeps : keeps.
(** ** Proposers *)

Record good_proposer (s : proposer) : Prop := {
  gp_id : 0 ≤ this_proposer_id s < MAX_N_OF_PROPOSERS;
  gp_vh : good_vh (vh s);
  gp_requests : good_sb (to_acceptors s);
  gp_learner : good_learner (lea s)
}.

Lemma on_vh_keeps {A} (m : M values_handler A) : keeps good_vh m → keeps good_proposer (on_vh m).
Proof using Type. intros Hm s Hs. eapply keeps_zoom; [exact Hm|apply gp_vh, Hs|]. intros v Hv. destruct Hs. by constructor. Qed.

Lemma on_acceptors_keeps' (m : M udp_send_buffer unit) : keeps good_sb m → keeps good_proposer (on_acceptors m).
Proof using Type. intros Hm s Hs. eapply keeps_zoom; [exact Hm|apply gp_requests, Hs|]. intros sb Hsb. destruct Hs. by constructor. Qed.

Lemma on_learner_keeps {A} (m : M learner A) : keeps good_learner m → keeps good_proposer (on_learner m).
Proof using Type. intros Hm s Hs. eapply keeps_zoom; [exact Hm|apply gp_learner, Hs|]. intros l Hl. destruct Hs. by constructor. Qed.

Lemma on_oracle_keeps (m : M udp_send_buffer unit) : keeps good_proposer (on_oracle m).
Proof using Type.
  intros s Hs. apply (keeps_zoom _ (λ _, True)); [|done|].
  - intros sb _. unfold wlp. by destruct (m sb) as [[]|].
  - intros sb _. destruct Hs. by constructor.
Qed.

Lemma clear_requests_keeps type s : good_proposer s → type = prepare_reqs ∨ type = accept_reqs →
  keeps good_proposer (on_acceptors (sendbuf_clear type (this_proposer_id s))).
Proof using Type. intros [Hid _ _ _] H. apply on_acceptors_keeps', clear_keeps. by destruct H as [->| ->]. Qed.

Lemma closed_keeps i : keeps good_learner (Learner.learner_is_closed i).
Proof using Type. intros l Hl. unfold Learner.learner_is_closed. apply wlp_bind. eapply wlp_get_slot; [exact Hl|]. intros ii _. by apply wlp_ret. Qed.
Lemma prepare_req_keeps iid ballot : keeps good_sb (sendbuf_add_prepare_req iid ballot).
Proof using Type. by apply add_prepare_req_keeps. Qed.
#[local] Hint Resolve on_vh_keeps on_acceptors_keeps' on_learner_keeps on_oracle_keeps clear_requests_keeps closed_keeps
  flush_keeps prepare_req_keeps hole_check_keeps or_introl or_intror eq_refl : keeps.

#[local] Ltac good_modify := apply wlp_modify; match goal with H : good_proposer _ |- _ => destruct H; by repeat case_match; constructor end.
#[local] Ltac pro_steps := solve_keeps with good_modify.

Lemma get_ii_keeps k : keeps good_proposer (get_ii k).
Proof using Type. unfold get_ii. pro_steps. Qed.
#[local] Hint Resolve get_ii_keeps : keeps.
Lemma upd_ii_keeps k f : keeps good_proposer (upd_ii k f).
Proof using Type. unfold upd_ii. pro_steps. Qed.
Lemma clock_keeps : keeps good_proposer gettimeofday.
Proof using Type. unfold gettimeofday. pro_steps. Qed.
Lemma event_add_keeps t : keeps good_proposer (event_add t).
Proof using Type. unfold event_add. pro_steps. Qed.
Lemma evtimer_del_keeps t : keeps good_proposer (evtimer_del t).
Proof using Type. unfold evtimer_del. pro_steps. Qed.
Lemma free_opt_keeps o : keeps good_proposer (free_opt o).
Proof using Type. unfold free_opt. pro_steps. Qed.
#[local] Hint Resolve upd_ii_keeps clock_keeps event_add_keeps evtimer_del_keeps free_opt_keeps : keeps.

Lemma clear_instance_keeps k : keeps good_proposer (pro_clear_instance_info k).
Proof using Type. unfold pro_clear_instance_info. pro_steps. Qed.
Lemma set_expiration_keeps k t : keeps good_proposer (leader_set_expiration k t).
Proof using Type. unfold leader_set_expiration. pro_steps. Qed.
#[local] Hint Resolve clear_instance_keeps set_expiration_keeps : keeps.

Lemma check_p1_pending_keeps : keeps good_proposer leader_check_p1_pending.
Proof using Type. unfold leader_check_p1_pending, check_p1_pending_body. pro_steps. Qed.
Lemma open_p1_keeps : keeps good_proposer leader_open_instances_p1.
Proof using Type. unfold leader_open_instances_p1, open_instances_p1_body. pro_steps. Qed.
#[local] Hint Resolve check_p1_pending_keeps open_p1_keeps : keeps.
Lemma p1_check_keeps : keeps good_proposer leader_periodic_p1_check.
Proof using Type. unfold leader_periodic_p1_check. pro_steps. Qed.

(** The request holds a value of the heap. *)
Lemma execute_p2_keeps k : keeps good_proposer (leader_execute_p2 k).
Proof using values_small.
  intros s Hs. unfold leader_execute_p2. apply keeps_seq; [pro_steps|]. intros ii s1 H1.
  apply keeps_seq; [pro_steps|]. intros _ s2 H2. apply keeps_seq; [pro_steps|]. intros _ s3 H3.
  apply keeps_seq; [pro_steps|]. intros ii' s4 H4. apply keeps_seq; [pro_steps|]. intros vw s5 H5.
  apply wlp_bind. apply (wlp_mono _ (λ w s', good_proposer s' ∧ V (vw_value w))).
  - apply wlp_zoom, wlp_deref. intros w Hw. split; [destruct H5; by constructor|exact (gp_vh _ H5 _ _ Hw)].
  - intros w s6 [H6 HV]. apply keeps_seq; [by apply on_acceptors_keeps'; [apply add_accept_req_keeps|]|].
    intros _ s7 H7. pro_steps.
Qed.
#[local] Hint Resolve p1_check_keeps execute_p2_keeps : keeps.

Lemma open_p2_expired_keeps : keeps good_proposer leader_open_instances_p2_expired.
Proof using values_small.
  assert (∀ iids count, keeps good_proposer (open_p2_expired_loop iids count)) as H.
  { intros iids. induction iids as [|iid iids IH]; intros count; cbn [open_p2_expired_loop]; pro_steps. }
  unfold leader_open_instances_p2_expired. pro_steps.
Qed.

Lemma open_p2_new_keeps : keeps good_proposer leader_open_instances_p2_new.
Proof using values_small.
  assert (∀ fuel count, keeps good_proposer (open_p2_new_loop fuel count)) as H.
  { intros fuel. induction fuel as [|fuel IH]; intros count; [done|]. cbn [open_p2_new_loop]. pro_steps. }
  unfold leader_open_instances_p2_new. pro_steps.
Qed.
#[local] Hint Resolve open_p2_expired_keeps open_p2_new_keeps : keeps.

Lemma p2_check_keeps : keeps good_proposer leader_periodic_p2_check.
Proof using values_small. unfold leader_periodic_p2_check, p2_check_body. pro_steps. Qed.

Lemma deliver_callback_keeps value iid : keeps good_proposer (pro_deliver_callback value iid).
Proof using values_small. unfold pro_deliver_callback, leader_deliver. pro_steps. Qed.

Lemma dropped_keeps : keeps good_vh vh_get_dropped_count.
Proof using Type. unfold vh_get_dropped_count. vh_steps. Qed.
#[local] Hint Resolve dropped_keeps : keeps.
Lemma print_keeps : keeps good_proposer leader_print_event_counters.
Proof using Type. unfold leader_print_event_counters. pro_steps. Qed.
Lemma vh_init_keeps : keeps good_vh (modify vh_init).
Proof using Type. intros v Hv. by apply wlp_modify. Qed.
#[local] Hint Resolve p2_check_keeps deliver_callback_keeps print_keeps vh_init_keeps : keeps.

Lemma leader_init_keeps : keeps good_proposer leader_init.
Proof using Type. unfold leader_init, clear_event_counters. pro_steps. Qed.

Lemma leader_shutdown_keeps : keeps good_proposer leader_shutdown.
Proof using Type. unfold leader_shutdown, shutdown_body. pro_steps. Qed.
#[local] Hint Resolve leader_init_keeps leader_shutdown_keeps : keeps.

Lemma announce_keeps id : keeps good_proposer (handle_leader_announce id).
Proof using Type. unfold handle_leader_announce. pro_steps. Qed.

Lemma save_prepare_ack_keeps k pa a : none_or_V (pa_iid pa) (pa_value pa) → keeps good_proposer (pro_save_prepare_ack k pa a).
Proof using Type.
  intros Hv s Hs. unfold pro_save_prepare_ack. apply keeps_seq; [pro_steps|]. intros ii s1 H1. apply keeps_seq; [pro_steps|].
  intros bit s2 H2. destruct (negb _); [by apply wlp_ret|]. apply keeps_seq; [pro_steps|]. intros _ s3 H3.
  destruct (Z.eqb_spec (blen (pa_value pa)) 0) as [|Hne]; [by apply wlp_ret|].
  assert (V (pa_value pa)) as HV by (destruct Hv as [E|]; [by rewrite E in Hne|done]).
  pro_steps.
Qed.
#[local] Hint Resolve announce_keeps save_prepare_ack_keeps : keeps.

Lemma prepare_acks_keeps a pab : Forall (λ pa, any (pa_iid pa) ∧ none_or_V (pa_iid pa) (pa_value pa)) pab → keeps good_proposer (handle_prepare_ack_batch a pab).
Proof using values_small.
  intros Hpab.
  assert (∀ pa, none_or_V (pa_iid pa) (pa_value pa) → keeps good_proposer (handle_prepare_ack a pa)) as H1.
  { intros pa Hv. unfold handle_prepare_ack. pro_steps. }
  assert (∀ ready, keeps good_proposer (handle_prepare_acks a pab ready)) as H.
  { induction Hpab as [|pa pab [_ Hv] _ IH]; intros ready; cbn [handle_prepare_acks]; [by intros s Hs; apply wlp_ret|].
    specialize (H1 pa Hv). pro_steps. }
  unfold handle_prepare_ack_batch. pro_steps.
Qed.

Lemma ping_keeps : keeps good_proposer pro_ping_failure_detector.
Proof using Type. unfold pro_ping_failure_detector. pro_steps. Qed.
#[local] Hint Resolve ping_keeps : keeps.

Lemma timer_keeps t : keeps good_proposer (timer_fires t).
Proof using values_small. unfold timer_fires. pro_steps. Qed.

Lemma proposer_gets_keeps m : values_ok m → keeps good_proposer (proposer_gets m).
Proof using values_small. intros Hm. destruct m; cbn; try by intros s Hs; apply wlp_ret. by apply prepare_acks_keeps. Qed.

Lemma oracle_msg_keeps m : keeps good_proposer (oracle_msg_gets m).
Proof using Type. destruct m; cbn; try by intros s Hs; apply wlp_ret. apply announce_keeps. Qed.

(** ** The whole system *)

Context (mode : Z).

Lemma proposer_receives m : good_msg m → keeps good_proposer (receive pro_handle_newmsg junk m).
Proof using junk_ok values_small.
  eapply (receive_keeps _ _ _ junk_ok _ _ proposer_gets); [intros ?? ?; by apply receive_proposer|apply proposer_gets_keeps].
Qed.
Lemma oracle_received m : good_msg m → keeps good_proposer (receive pro_handle_oracle_msg junk m).
Proof using junk_ok values_small.
  eapply (receive_keeps _ _ _ junk_ok _ _ oracle_msg_gets); [intros ?? ?; by apply receive_oracle|intros m' _; apply oracle_msg_keeps].
Qed.
Lemma inner_receives m : good_msg m → keeps good_proposer (inner_learner_receives junk m).
Proof using junk_ok values_small.
  intros Hm s Hs. unfold inner_learner_receives. apply wlp_get. apply keeps_seq; [by apply on_learner_keeps, Hs; apply learner_receives|].
  intros _ s1 H1. apply wlp_get. apply keeps_mfor; [|done]. intros d s2 _ H2. by apply deliver_callback_keeps.
Qed.

Lemma client_packet_keeps value : (blen value ≤ max_data → V value) → keeps good_proposer (client_packet junk value).
Proof using junk_ok.
  intros HV s Hs. unfold client_packet. apply wlp_get. apply wlp_bind, wlp_assert. intros _. apply wlp_bind, wlp_lift_opt.
  intros m [-> Hsize]%submit_packet_msg. apply on_vh_keeps; [|done]. intros v Hv. unfold wlp. rewrite receive_clients.
  - by apply enqueue_keeps; [apply HV|].
  - done.
  - cbn. unfold max_data, MAX_UDP_MSG_SIZE, data_offset in Hsize. lia.
  - done.
Qed.

#[local] Abbreviation good_sys := (good_sys Vi any good_proposer).

Lemma step_good ev s s' : (∀ p value, ev = ClientSends p value → blen value ≤ max_data → V value) →
  good_sys s → sys_step mode junk ev s = Some s' → good_sys s'.
Proof using junk_ok values_small.
  intros Hev Hs. destruct ev as [p value|p leader|dst src k|p t|a|l|p]; cbn.
  - apply at_proposer_good; [|done]. apply client_packet_keeps. by eapply Hev.
  - apply at_proposer_good; [|done]. apply oracle_received. by constructor.
  - destruct (sent_to s src dst !! k) as [m|] eqn:E; [|done]. cbn. apply (sent_good Vi any good_proposer ltac:(by intros q []) ltac:(by intros q []) _ _ _ _ _ Hs) in E. destruct dst.
    + apply at_proposer_good; [|done]. by apply proposer_receives.
    + apply at_acceptor_good; [|done]. by apply acceptor_receives.
    + apply at_learner_good; [|done]. by apply learner_receives.
    + apply at_proposer_good; [|done]. by apply inner_receives.
  - apply at_proposer_good; [|done]. apply timer_keeps.
  - apply at_acceptor_good; [|done]. apply (repeater_keeps Vi any).
  - apply at_learner_good; [|done]. apply hole_check_keeps.
  - apply at_proposer_good; [|done]. apply on_learner_keeps, hole_check_keeps.
Qed.

Lemma run_good evs s s' : (∀ value, value ∈ PaxosSystem.client_values evs → blen value ≤ max_data → V value) →
  good_sys s → sys_run mode junk evs s = Some s' → good_sys s'.
Proof using junk_ok values_small.
  revert s. induction evs as [|ev evs IH]; intros s HV Hs; [by intros [= <-]|]. cbn [sys_run].
  destruct (sys_step mode junk ev s) as [s1|] eqn:E; [|done]. cbn. apply IH.
  - intros value Hv. apply HV. unfold PaxosSystem.client_values in *. cbn. case_match; [by right|done].
  - refine (step_good _ _ _ _ Hs E). intros p value -> Hv. apply HV; [|done]. by left.
Qed.

Lemma init_structs_keeps : keeps good_proposer init_pro_structs.
Proof using Type. unfold init_pro_structs. pro_steps. Qed.
#[local] Hint Resolve init_structs_keeps : keeps.

Lemma init_proposer_good s : 0 ≤ this_proposer_id s < MAX_N_OF_PROPOSERS → good_vh (vh s) → good_learner (lea s) →
  wlp init_proposer (λ _ s', good_proposer s') s.
Proof using values_small.
  intros Hid Hvh Hl. unfold init_proposer. apply wlp_bind, wlp_modify.
  assert (good_proposer (s <| to_acceptors := udp_sendbuf_new |> <| to_oracle := udp_sendbuf_new |>)) as H.
  { constructor; cbn; [done..|apply good_sb_new|done]. }
  revert H. generalize (s <| to_acceptors := udp_sendbuf_new |> <| to_oracle := udp_sendbuf_new |>). intros s1 H1. pro_steps.
Qed.

Lemma proposer_init_good clock id :
  wlp (proposer_init id) (λ r s, r = 0 → good_proposer s) (proposer_start clock).
Proof using values_small.
  unfold proposer_init. destruct ((id <? 0) || (MAX_N_OF_PROPOSERS <=? id)) eqn:E; [by apply wlp_ret|].
  apply orb_false_iff in E as [H1%Z.ltb_ge H2%Z.leb_gt]. apply wlp_bind, wlp_modify, wlp_bind.
  eapply wlp_mono; [apply init_proposer_good; [done|apply map_Forall_empty|apply good_learner_init]|].
  intros r s Hs. destruct (negb (r =? 0)); by apply wlp_ret.
Qed.

Lemma started_good clock id p : started_proposer clock id = Some p → good_proposer p.
Proof using values_small.
  unfold started_proposer. destruct (proposer_init id (proposer_start clock)) as [[r s]|] eqn:E; [|done].
  pose proof (wlp_run _ _ _ _ _ E (proposer_init_good clock id)) as H. cbn. destruct (Z.eqb_spec r 0); [|done].
  intros [= <-]. by apply H.
Qed.

Lemma start_good clock n m s : sys_start clock n m = Some s → good_sys s.
Proof using values_small.
  unfold sys_start. destruct (mapM (started_proposer clock) _) as [ps|] eqn:Ep; [|done]. cbn -[mapM seqZ].
  destruct (mapM _ (seqZ 0 N_OF_ACCEPTORS)) as [acs|] eqn:Ea; [|done]. cbn. intros [= <-]. constructor; cbn.
  - apply mapM_Some_1 in Ep. clear Ea. induction Ep; constructor; [by eapply started_good|done].
  - by eapply start_acceptors.
  - apply list.Forall_replicate, good_learner_init.
Qed.
End validity.

(** C4. Nothing is delivered that no client submitted.  Take any run of
    proposers, acceptors and learners from their start: any of them may lead, at
    the same time too, timers fire and packets are lost, repeated and reordered.
    Every value that a learner delivers, or a proposer through its own learner,
    was submitted before, and so was every value that an acceptor stores. *)
Theorem paxos2_validity clock n m mode (junk : list byte) evs s :
  blen junk = 4 → (sys_start clock n m ≫= sys_run mode junk evs) = Some s →
  (∀ l d, l ∈ learners s → d ∈ delivered l → d_value d ∈ PaxosSystem.client_values evs) ∧
  (∀ p d, p ∈ proposers s → d ∈ delivered (lea p) → d_value d ∈ PaxosSystem.client_values evs) ∧
  (∀ a i r, a ∈ acceptors s → acc_records a !! i = Some r → aa_value r = [] ∨ aa_value r ∈ PaxosSystem.client_values evs).
Proof.
  intros Hj. destruct (sys_start clock n m) as [s0|] eqn:E0; [|done]. cbn. intros Hrun.
  set (V := λ v, v ∈ PaxosSystem.client_values evs ∧ blen v ≤ max_data).
  assert (good_sys (λ _, V) (λ _, True) (good_proposer V) s) as [Hp Ha Hl].
  { apply (run_good V junk Hj ltac:(by intros v [_ ?]) mode evs s0); [by intros v ? ?|by apply (start_good V ltac:(by intros v [_ ?]) clock n m)|done]. }
  pose proof (proj1 (list.Forall_forall _ _) Hp) as Hp'. pose proof (proj1 (list.Forall_forall _ _) Ha) as Ha'.
  pose proof (proj1 (list.Forall_forall _ _) Hl) as Hl'.
  assert (∀ l d, good_learner (λ _, V) (λ _, True) l → d ∈ delivered l → d_value d ∈ PaxosSystem.client_values evs) as Hd.
  { intros l d [_ H _] Hd. rewrite list.Forall_forall in H. by apply (H d Hd). }
  split_and!.
  - intros l d Hin. by apply Hd, Hl'.
  - intros p d Hin. by apply Hd, gp_learner, Hp'.
  - intros a i r Hin Hr. destruct (ga_records _ _ _ (Ha' a Hin) _ _ Hr) as (_ & _ & [|[]]); auto.
Qed.

Lemma paxos2_validity_witness : ∃ s,
  (sys_start still_clock 2 2 ≫= sys_run 0 (replicate 4 x00) two_leaders) = Some s ∧
  ∀ l d, l ∈ learners s → d ∈ delivered l → d_value d ∈ PaxosSystem.client_values two_leaders.
Proof.
  destruct (deliveries_run _ _ _ _ _ (two_leaders_deliver (replicate 4 x00) eq_refl)) as (s & E & _).
  exists s. split; [exact E|].
  exact (proj1 (paxos2_validity still_clock 2 2 0 (replicate 4 x00) two_leaders s eq_refl E)).
Defined.
