(* ===== verification/PaxosLeader.v ===== *)
(** * A leader that is never replaced

    What it decides: a map [f] from instances to values, that grows when phase 2
    of an instance is executed for the first time.  The invariant [agreed] says
    what the slots of the leader and the wrappers they own have to do with [f];
    every routine of [Leader] and [Proposer] keeps it, or lets [f] and the window
    grow ([later]).  Acceptors, learners and packets carry [f] as [PaxosGood] says,
    with [V f] for its property of values.

    The promises must not be older than the table ([in_time]): the leader does
    not compare the instance of a promise with the one in its slot
    ([Proposer.handle_prepare_ack]). *)
From Stdlib Require Import Init.Byte.
From S2P Require Import Prelude Steps Bytes PaxosWire SendBuffer StableStorage Acceptor Learner ValuesHandler Leader Proposer ProposerInv ProposerProps PaxosSystem PaxosGood.

Implicit Types (ii : p_inst_info) (s : proposer) (k : Z) (vw : loc)
  (st : list p_inst_info) (v : values_handler) (l : list (loc * list byte)) (f : gmap Z (list byte)).

(** ** What is decided *)

(** The instances up to [hi] are open; [f] has the values that phase 2 was
    executed with. *)
Class decided f (hi : Z) : Prop := {
  de_value : ∀ i x, f !! i = Some x → 1 ≤ i ≤ hi ∧ value_ok x;
  de_max : 0 ≤ hi < 2 ^ 32
}.

Definition V f (i : Z) (x : list byte) : Prop := f !! i = Some x.
Definition R (hi i : Z) : Prop := 0 ≤ i ≤ hi.

#[export] Instance decided_carried f hi : decided f hi → Carried (V f) (R hi).
Proof.
  intros [Hf Hm]. unfold V, R. split.
  - intros i x Hx. destruct (Hf i x Hx). by rewrite wrap_small by lia.
  - intros i Hi. by rewrite wrap_small by lia.
  - intros i x Hx. destruct (Hf i x Hx). lia.
  - intros i x Hx. destruct (Hf 0 x Hx). lia.
  - intros i x Hx. destruct (Hf i x Hx) as [_ Hs]. unfold value_ok, max_data, PAXOS_MAX_VALUE_SIZE, MAX_UDP_MSG_SIZE, data_offset in *. lia.
Qed.

Lemma decided_zero f hi : decided f hi → f !! 0 = None.
Proof. intros [Hf _]. destruct (f !! 0) as [x|] eqn:E; [|done]. destruct (Hf _ _ E). lia. Qed.

(** ** The heap *)

(** No wrapper gets another value: some are freed, or some are new. *)
Definition shrinks v v' : Prop := ∀ vw w', heap v' !! vw = Some w' → ∃ w, heap v !! vw = Some w ∧ vw_value w = vw_value w'.
Definition expands v v' : Prop := ∀ vw w, heap v !! vw = Some w → ∃ w', heap v' !! vw = Some w' ∧ vw_value w' = vw_value w.

#[export] Instance shrinks_preorder : PreOrder shrinks.
Proof.
  split; [intros v vw w; eauto|]. intros v1 v2 v3 H1 H2 vw w3 H3. destruct (H2 _ _ H3) as (w2 & Hw2 & E2).
  destruct (H1 _ _ Hw2) as (w1 & Hw1 & E1). exists w1. split; [done|congruence].
Qed.
#[export] Instance expands_preorder : PreOrder expands.
Proof.
  split; [intros v vw w; eauto|]. intros v1 v2 v3 H1 H2 vw w1 Hw1. destruct (H1 _ _ Hw1) as (w2 & Hw2 & E2).
  destruct (H2 _ _ Hw2) as (w3 & Hw3 & E3). exists w3. split; [done|congruence].
Qed.

Lemma deref_same (Rel : relation values_handler) `{!PreOrder Rel} vw : steps Rel (deref vw).
Proof. unfold deref. solve_steps. Qed.

Lemma set_next_value vw next v : wlp (set_next vw next) (λ _ v', shrinks v v' ∧ expands v v') v.
Proof.
  unfold set_next, deref. apply wlp_bind, wlp_get, wlp_lift_opt. intros w Hw. apply wlp_modify. split; intros q x; cbn.
  - intros [[<- <-]|[_ Hx]]%lookup_insert_Some; eauto.
  - intros Hx. destruct (decide (q = vw)) as [->|Hne]; [|rewrite lookup_insert_ne by done; eauto].
    rewrite lookup_insert_eq. simplify_eq. eauto.
Qed.

Lemma set_next_shrinks vw next : steps shrinks (set_next vw next).
Proof. intros v. eapply wlp_mono; [apply set_next_value|by intros ?? []]. Qed.
Lemma set_next_expands vw next : steps expands (set_next vw next).
Proof. intros v. eapply wlp_mono; [apply set_next_value|by intros ?? []]. Qed.
Lemma deref_shrinks vw : steps shrinks (deref vw).
Proof. apply deref_same, _. Qed.
Lemma deref_expands vw : steps expands (deref vw).
Proof. apply deref_same, _. Qed.

Lemma free_shrinks vw : steps shrinks (PAX_FREE vw).
Proof.
  unfold PAX_FREE. apply steps_bind; [tc_solve|apply deref_shrinks|]. intros w. apply steps_modify. intros v q x. cbn.
  intros [_ Hx]%lookup_delete_Some. eauto.
Qed.

Lemma wrap_expands value : steps expands (vh_wrap_value value).
Proof.
  intros v. unfold vh_wrap_value. apply wlp_get. cbv zeta. apply wlp_bind. unfold wlp, put. cbn. intros q x Hx. cbn.
  exists x. rewrite lookup_insert_ne; [done|]. intros <-. pose proof (is_fresh (dom (heap v))) as Hf.
  by apply Hf, elem_of_dom_2 with x.
Qed.
#[local] Hint Resolve set_next_shrinks set_next_expands deref_shrinks deref_expands free_shrinks wrap_expands : steps.

#[local] Ltac heap_steps := solve_steps_with
  ltac:(apply steps_modify; intros ?; repeat case_match; intros ? x Hx; exists x; exact (conj Hx eq_refl)).

Lemma get_next_shrinks : steps shrinks vh_get_next_pending.
Proof. unfold vh_get_next_pending. heap_steps. Qed.
Lemma push_back_shrinks vw : steps shrinks (vh_push_back_value vw).
Proof. unfold vh_push_back_value. heap_steps. Qed.
Lemma enqueue_expands value : steps expands (vh_enqueue_value value).
Proof. unfold vh_enqueue_value. heap_steps. Qed.
#[local] Hint Resolve get_next_shrinks push_back_shrinks : steps.

Definition vh_shrinks s s' : Prop := shrinks (vh s) (vh s').
#[local] Instance vh_shrinks_preorder : PreOrder vh_shrinks.
Proof.
  split; [intros s; apply (reflexivity (R := shrinks))|]. intros s1 s2 s3 H1 H2. by apply (transitivity (R := shrinks) H1).
Qed.

Lemma on_vh_shrinks {A} (m : M values_handler A) : steps shrinks m → steps vh_shrinks (on_vh m).
Proof. intros Hm s. apply wlp_zoom. eapply wlp_mono; [apply Hm|]. done. Qed.
#[local] Hint Resolve @on_vh_shrinks : steps.

Lemma clear_shrinks k : steps vh_shrinks (pro_clear_instance_info k).
Proof. unfold pro_clear_instance_info, upd_ii, get_ii, free_opt. heap_steps. Qed.
Lemma free_opt_shrinks o : steps vh_shrinks (free_opt o).
Proof. unfold free_opt. heap_steps. Qed.

(** ** The slots of the leader *)

(** A slot holds an open instance, the latest one with its index, or nothing.
    What it holds for an instance is the value decided for it; once there is one,
    phase 2 is never executed with another. *)
Record inst_ok f (hi : Z) (h : gmap loc vh_value_wrapper) k ii : Prop := {
  io_range : ii_status ii ≠ empty →
    1 ≤ ii_iid ii ≤ hi ∧ hi < ii_iid ii + PROPOSER_ARRAY_SIZE ∧ pro_index (ii_iid ii) = k;
  io_empty : ii_status ii = empty → ii_iid ii = 0 ∧ p1_value ii = None ∧ p2_value ii = None;
  io_p1 : ∀ vw w, p1_value ii = Some vw → h !! vw = Some w → f !! ii_iid ii = Some (vw_value w);
  io_p2 : ∀ vw w, p2_value ii = Some vw → h !! vw = Some w → f !! ii_iid ii = Some (vw_value w);
  io_done : ∀ x, f !! ii_iid ii = Some x → p2_value ii ≠ None
}.

Definition slots_ok f hi st v : Prop := ∀ k ii, arr_get st k = Some ii → inst_ok f hi (heap v) k ii.

Lemma inst_ok_values f hi h h' k ii : inst_ok f hi h k ii →
  (∀ vw w', p1_value ii = Some vw ∨ p2_value ii = Some vw → h' !! vw = Some w' → ∃ w, h !! vw = Some w ∧ vw_value w = vw_value w') →
  inst_ok f hi h' k ii.
Proof.
  intros [] Hh. constructor; [done..| | |done].
  - intros vw w' Hp Hw. destruct (Hh vw w') as (w & ? & <-); eauto.
  - intros vw w' Hp Hw. destruct (Hh vw w') as (w & ? & <-); eauto.
Qed.

Lemma slots_shrink f hi st v v' : slots_ok f hi st v → shrinks v v' → slots_ok f hi st v'.
Proof. intros Hs Hv k ii Hk. eapply inst_ok_values; [by apply Hs|]. intros vw w' _. apply Hv. Qed.

Lemma slots_expand f hi l st v v' : mem_ok l st v → slots_ok f hi st v → expands v v' → slots_ok f hi st v'.
Proof.
  intros Hm Hs Hv k ii Hk. eapply inst_ok_values; [by apply Hs|]. intros vw w' Hp Hw'.
  assert (is_Some (heap v !! vw)) as [w Hw].
  { destruct Hp; [apply (mo_alloc _ _ _ Hm (Own1 k))|apply (mo_alloc _ _ _ Hm (Own2 k))]; by exists ii. }
  destruct (Hv _ _ Hw) as (x & Hx & E). exists w. split; [done|]. by simplify_eq.
Qed.

Lemma slots_set f hi st v k ii : slots_ok f hi st v → 0 ≤ k → inst_ok f hi (heap v) k ii → slots_ok f hi (arr_set st k ii) v.
Proof. intros Hs Hk Hii j x [[-> ->]|[_ Hj]]%arr_set_get; [done|by apply Hs|done]. Qed.

(** The same instance with the same wrappers. *)
Definition same_inst ii ii' : Prop :=
  ii_iid ii' = ii_iid ii ∧ p1_value ii' = p1_value ii ∧ p2_value ii' = p2_value ii ∧
  (ii_status ii' = empty ↔ ii_status ii = empty).

Lemma inst_ok_same f hi h k ii ii' : inst_ok f hi h k ii → same_inst ii ii' → inst_ok f hi h k ii'.
Proof.
  intros [H1 H2 H3 H4 H5] (E1 & E2 & E3 & E4).
  constructor; rewrite ?E1, ?E2, ?E3; try done; [|by rewrite E4]. intros Hne. apply H1. by rewrite <-E4.
Qed.

Lemma inst_ok_cleared f hi h k ii : decided f hi → inst_ok f hi h k (cleared_inst ii).
Proof. intros Hd. constructor; cbn; try done. rewrite (decided_zero f hi Hd). done. Qed.

(** Another instance is opened. *)
Lemma slots_open f hi st v k ii ii' : slots_ok f hi st v → decided f hi → arr_get st k = Some ii → ii_status ii = empty →
  k = pro_index (hi + 1) → ii_iid ii' = hi + 1 → ii_status ii' ≠ empty → p1_value ii' = p1_value ii → p2_value ii' = p2_value ii →
  slots_ok f (hi + 1) (arr_set st k ii') v.
Proof.
  intros Hs [Hf Hmax] Hk Hempty Hidx E1 E2 E3 E4. destruct (Hs _ _ Hk) as [_ He _ _ _]. destruct (He Hempty) as (_ & Hp1 & Hp2).
  intros j x [[-> ->]|[Hne Hj]]%arr_set_get; [| |by subst k; apply pro_index_range].
  - constructor; rewrite ?E1, ?E3, ?E4, ?Hp1, ?Hp2; try done.
    + intros _. unfold PROPOSER_ARRAY_SIZE. split_and!; [lia..|done].
    + intros y Hy. destruct (Hf _ _ Hy). lia.
  - destruct (Hs _ _ Hj) as [H1 H2 H3 H4 H5]. constructor; try done. intros Hst. destruct (H1 Hst) as (Ha & Hb & Hc).
    split_and!; [lia..| |done]. assert (hi + 1 ≠ ii_iid x + PROPOSER_ARRAY_SIZE); [|lia]. intros E. apply Hne.
    rewrite Hidx, <-Hc, E, !pro_index_mod. rewrite <-(Z_mod_plus_full (ii_iid x) 1 PROPOSER_ARRAY_SIZE). by rewrite Z.mul_1_l.
Qed.

(** A value is decided for the instance of a slot. *)
Lemma slots_decide f hi st v k ii ii' vw w : slots_ok f hi st v → arr_get st k = Some ii → ii_status ii ≠ empty →
  f !! ii_iid ii = None → heap v !! vw = Some w → p1_value ii' = None → p2_value ii' = Some vw →
  ii_iid ii' = ii_iid ii → ii_status ii' ≠ empty → slots_ok (<[ii_iid ii := vw_value w]> f) hi (arr_set st k ii') v.
Proof.
  intros Hs Hk Hst Hnone Hw E1 E2 E3 E4. pose proof (io_range _ _ _ _ _ (Hs _ _ Hk) Hst) as (Hr1 & Hr2 & Hr3).
  intros j x [[-> ->]|[Hne Hj]]%arr_set_get; [| |by apply arr_get_lt in Hk as [? _]].
  - constructor; rewrite ?E1, ?E2, ?E3; try done. intros q y [= <-] Hy. rewrite lookup_insert_eq. by simplify_eq.
  - destruct (Hs _ _ Hj) as [H1 H2 H3 H4 H5].
    assert (ii_iid x ≠ ii_iid ii) as Hx.
    { intros E. destruct (decide (ii_status x = empty)) as [He|He]; [destruct (H2 He); lia|].
      destruct (H1 He) as (_ & _ & Hc). apply Hne. by rewrite <-Hc, E. }
    constructor; rewrite ?lookup_insert_ne by done; done.
Qed.

(** ** The invariant of the leader *)

(** [ho] is what the leader counts as open; while it opens instances [hi] runs
    ahead of it. *)
Record agreed f (hi ho : Z) s : Prop := {
  ag_decided : decided f hi;
  ag_mem : ∃ l, mem_ok l (proposer_state s) (vh s);
  ag_slots : slots_ok f hi (proposer_state s) (vh s);
  ag_open : highest_open (p1_info s) = ho;
  ag_requests : good_sb (V f) (R hi) (to_acceptors s);
  ag_learner : good_learner (V f) (R hi) (lea s);
  ag_leader : this_proposer_id s = 0 ∧ current_leader_id s = 0
}.

Lemma wlp_and {St A} (m : M St A) (P Q : A → St → Prop) (s : St) : wlp m P s → wlp m Q s → wlp m (λ a (t : St), P a t ∧ Q a t) s.
Proof. unfold wlp. destruct (m s) as [[a s']|]; auto. Qed.

Lemma wlp_get_ii k (Q : p_inst_info → proposer → Prop) s :
  (∀ ii, arr_get (proposer_state s) k = Some ii → Q ii s) → wlp (get_ii k) Q s.
Proof. intros HQ. unfold get_ii. apply wlp_get, wlp_lift_opt. auto. Qed.

Lemma wlp_upd_ii k g (Q : unit → proposer → Prop) s :
  (∀ ii, arr_get (proposer_state s) k = Some ii → Q tt (s <| proposer_state := arr_set (proposer_state s) k (g ii) |>)) →
  wlp (upd_ii k g) Q s.
Proof. intros HQ. unfold upd_ii. apply wlp_bind, wlp_get_ii. intros ii Hk. by apply wlp_modify, HQ. Qed.

Section leader.
Context (f : gmap Z (list byte)) (hi ho : Z).
#[local] Abbreviation ok := (agreed f hi ho).
#[local] Abbreviation sb_ok := (good_sb (V f) (R hi)).

(** The parts that the others do not see. *)
Lemma agreed_core s st v : ok s → (∃ l, mem_ok l st v) → slots_ok f hi st v → ok (s <| proposer_state := st |> <| vh := v |>).
Proof. intros [] Hm Hs. by constructor. Qed.

Lemma agreed_set s k ii ii' : ok s → arr_get (proposer_state s) k = Some ii → same_inst ii ii' →
  ok (s <| proposer_state := arr_set (proposer_state s) k ii' |>).
Proof.
  intros H Hk Hsame. destruct (ag_mem _ _ _ _ H) as [l Hm]. pose proof Hsame as (_ & E1 & E2 & _).
  assert (ok (s <| proposer_state := arr_set (proposer_state s) k ii' |> <| vh := vh s |>)) as H'; [|by destruct s].
  apply agreed_core; [done|exists l; by eapply mem_ok_same|].
  apply slots_set; [apply H|by apply arr_get_lt in Hk as [? _]|]. eapply inst_ok_same; [|exact Hsame]. by apply H.
Qed.

Lemma upd_same s k g : ok s → (∀ ii, arr_get (proposer_state s) k = Some ii → same_inst ii (g ii)) →
  wlp (upd_ii k g) (λ _ s', ok s') s.
Proof. intros H Hg. apply wlp_upd_ii. intros ii Hk. by eapply agreed_set; [..|apply Hg]. Qed.

Lemma upd_agreed k g : (∀ ii, same_inst ii (g ii)) → keeps ok (upd_ii k g).
Proof. intros Hg s Hs. by apply upd_same. Qed.

Lemma on_acceptors_agreed (m : M udp_send_buffer unit) : keeps sb_ok m → keeps ok (Leader.on_acceptors m).
Proof. intros Hm s Hs. eapply keeps_zoom; [exact Hm|exact (ag_requests _ _ _ _ Hs)|]. intros sb Hsb. destruct Hs. by constructor. Qed.
Lemma on_learner_agreed {A} (m : M learner A) : keeps (good_learner (V f) (R hi)) m → keeps ok (on_learner m).
Proof. intros Hm s Hs. eapply keeps_zoom; [exact Hm|exact (ag_learner _ _ _ _ Hs)|]. intros sb Hsb. destruct Hs. by constructor. Qed.
Lemma on_oracle_agreed (m : M udp_send_buffer unit) : keeps ok (on_oracle m).
Proof.
  intros s Hs. apply (keeps_zoom _ (λ _, True)); [|done|].
  - intros sb _. unfold wlp. by destruct (m sb) as [[]|].
  - intros sb _. destruct Hs. by constructor.
Qed.

Lemma clear_requests_agreed type s : ok s → type = prepare_reqs ∨ type = accept_reqs →
  keeps ok (Leader.on_acceptors (sendbuf_clear type (this_proposer_id s))).
Proof. intros Hs H. apply on_acceptors_agreed, clear_keeps. destruct (ag_leader _ _ _ _ Hs) as [-> _]. by destruct H as [->| ->]. Qed.
Lemma flush_requests_agreed : keeps ok (Leader.on_acceptors sendbuf_flush).
Proof. apply on_acceptors_agreed, flush_keeps. Qed.

(** Every slot has an instance that may be prepared, or the number 0. *)
Lemma slot_number s k ii : ok s → arr_get (proposer_state s) k = Some ii → R hi (ii_iid ii).
Proof.
  intros Hs Hk. destruct (ag_slots _ _ _ _ Hs _ _ Hk) as [H1 H2 _ _ _]. destruct (ag_decided _ _ _ _ Hs) as [_ Hmax].
  unfold R. destruct (decide (ii_status ii = empty)) as [E|E]; [destruct (H2 E); lia|destruct (H1 E); lia].
Qed.

Lemma prepare_agreed s0 k ii b : arr_get (proposer_state s0) k = Some ii → ok s0 →
  keeps ok (Leader.on_acceptors (sendbuf_add_prepare_req (ii_iid ii) b)).
Proof. intros Hk Hs0. pose proof (ag_decided _ _ _ _ Hs0). by apply on_acceptors_agreed, add_prepare_req_keeps, slot_number with s0 k. Qed.

#[local] Ltac plain_modify := apply wlp_modify; match goal with H : agreed _ _ _ _ |- _ => destruct H; by repeat case_match; constructor end.
#[local] Ltac steps_ok := solve_keeps with (first [plain_modify | apply upd_same; [assumption|intros ? ?; by repeat split]]).

Lemma clock_agreed : keeps ok gettimeofday.
Proof. unfold gettimeofday. steps_ok. Qed.
Lemma event_add_agreed t : keeps ok (event_add t).
Proof. unfold event_add. steps_ok. Qed.
Lemma evtimer_del_agreed t : keeps ok (evtimer_del t).
Proof. unfold evtimer_del. steps_ok. Qed.
#[local] Hint Resolve clock_agreed event_add_agreed evtimer_del_agreed flush_requests_agreed or_introl or_intror eq_refl clear_requests_agreed : keeps.
Lemma set_expiration_agreed k t : keeps ok (leader_set_expiration k t).
Proof. unfold leader_set_expiration. steps_ok. Qed.
#[local] Hint Resolve set_expiration_agreed : keeps.

(** The value found in phase 1 is freed, and forgotten. *)
Lemma free_p1_agreed l k ii p s : ok s → arr_get (proposer_state s) k = Some ii → p = p1_value ii →
  mem_ok l (proposer_state s) (vh s) →
  wlp (free_opt p) (λ _ s', ∃ v', s' = s <| vh := v' |> ∧ mem_ok l (arr_set (proposer_state s) k (ii <| p1_value := None |>)) v' ∧
    slots_ok f hi (arr_set (proposer_state s) k (ii <| p1_value := None |>)) v') s.
Proof.
  intros H Hk -> Hm. eapply wlp_mono; [apply wlp_and; [|apply (free_opt_shrinks (p1_value ii) s)]|].
  { apply wlp_of_wp, (wp_free_p1 l k ii _ (λ _ s1, ∃ v', s1 = s <| vh := v' |> ∧
      mem_ok l (arr_set (proposer_state s) k (ii <| p1_value := None |>)) v')); [done..|]. intros v' Hm' _. by exists v'. }
  intros ? s1 [(v' & -> & Hm') Hv]. exists v'. split_and!; [done..|].
  apply slots_set; [by eapply slots_shrink; [apply H|]|by apply arr_get_lt in Hk as [? _]|].
  destruct (slots_shrink _ _ _ _ _ (ag_slots _ _ _ _ H) Hv _ _ Hk) as [H1 H2 H3 H4 H5].
  constructor; cbn; try done. intros Hst. by destruct (H2 Hst) as (? & _ & ?).
Qed.

Lemma forget_p1 s k ii p : ok s → arr_get (proposer_state s) k = Some ii → p = p1_value ii →
  wlp (free_opt p) (λ _ s1, wlp (upd_ii k (λ ii, ii <| p1_value := None |>)) (λ _ s2, ok s2) s1) s.
Proof.
  intros H Hk Hp. destruct (ag_mem _ _ _ _ H) as [l Hm]. eapply wlp_mono; [by eapply free_p1_agreed|].
  intros ? s1 (v' & -> & Hm' & Hs'). apply wlp_upd_ii. cbn. intros ii0 Hk0. rewrite Hk in Hk0. injection Hk0 as <-.
  pose proof (agreed_core s (arr_set (proposer_state s) k (ii <| p1_value := None |>)) v' H) as Hcore.
  apply Hcore; [by exists l|done].
Qed.

(** A slot is cleared, after its value went to the pending list or not. *)
Lemma clear_agreed s k ii l v : ok s → 0 ≤ k < Z.of_nat (length (proposer_state s)) →
  mem_ok l (arr_set (proposer_state s) k ii) v → shrinks (vh s) v →
  wlp (pro_clear_instance_info k) (λ _ s', ok s') (s <| proposer_state := arr_set (proposer_state s) k ii |> <| vh := v |>).
Proof.
  intros H Hk Hm Hv. set (s1 := s <| proposer_state := arr_set (proposer_state s) k ii |> <| vh := v |>).
  eapply wlp_mono; [apply wlp_and; [|apply (clear_shrinks k s1)]|].
  { apply wlp_of_wp, (wp_clear l k ii (λ _ s2, ∃ v', mem_ok l (arr_set (proposer_state s) k (cleared_inst ii)) v' ∧
      s2 = s <| proposer_state := arr_set (proposer_state s) k (cleared_inst ii) |> <| vh := v' |>)).
    - by apply arr_get_set_eq.
    - done.
    - cbn. rewrite arr_set_set. intros v' Hm' _. by exists v'. }
  intros _ s2 [(v' & Hm' & ->) Hv']. unfold vh_shrinks in Hv'. cbn in Hv'.
  apply agreed_core; [done|by exists l|]. apply slots_set; [|lia|apply inst_ok_cleared, H].
  eapply slots_shrink; [apply H|by etrans].
Qed.

Lemma check_p1_pending_body_agreed now iid : keeps ok (check_p1_pending_body now iid).
Proof.
  intros s Hs. unfold check_p1_pending_body. cbv zeta. set (k := pro_index iid). apply wlp_bind, wlp_get_ii. intros ii Hk.
  apply wlp_bind, wlp_assert. intros _. destruct (_ && _); [|by apply wlp_ret].
  apply wlp_bind, wlp_upd_ii. intros ii0 Hk0. rewrite Hk in Hk0. injection Hk0 as <-.
  set (ii1 := ii <| promises_bitvector := 0 |> <| promises_count := 0 |> <| p1_value_ballot := 0 |>).
  assert (ok (s <| proposer_state := arr_set (proposer_state s) k ii1 |>)) as H1 by by eapply agreed_set.
  assert (arr_get (arr_set (proposer_state s) k ii1) k = Some ii1) as Hk1 by (eapply arr_get_set_eq, arr_get_lt; exact Hk).
  apply wlp_bind. eapply wlp_mono; [by apply (forget_p1 _ k ii1)|]. intros ? s2 H2.
  apply wlp_bind. eapply wlp_mono; [exact H2|]. intros ? s3 H3.
  apply keeps_seq; [steps_ok|]. intros _ s4 H4. apply wlp_bind, wlp_get_ii. intros ii4 Hk4.
  apply keeps_seq; [by apply prepare_agreed with s4 k|]. intros _ s5 H5. steps_ok.
Qed.
#[local] Hint Resolve check_p1_pending_body_agreed : keeps.

Lemma check_p1_pending_agreed : keeps ok leader_check_p1_pending.
Proof. unfold leader_check_p1_pending. steps_ok. Qed.
End leader.

(** ** Phase 2 *)

Lemma decided_insert f hi i x : decided f hi → 1 ≤ i ≤ hi → value_ok x → decided (<[i := x]> f) hi.
Proof. intros [Hf Hm] Hi Hx. split; [|done]. intros j y [[<- <-]|[_ Hy]]%lookup_insert_Some; [done|by apply Hf]. Qed.

Lemma agreed_sees f f' hi s : f ⊆ f' → good_sb (V f) (R hi) (to_acceptors s) → good_learner (V f) (R hi) (lea s) →
  good_sb (V f') (R hi) (to_acceptors s) ∧ good_learner (V f') (R hi) (lea s).
Proof.
  intros Hf H1 H2. assert (∀ i x, V f i x → V f' i x) as HV by (intros i x Hx; unfold V in *; by eapply lookup_weaken).
  split; [by eapply good_sb_mono|by eapply good_learner_mono].
Qed.

(** The instance of the slot gets its value: the one it has, or the oldest
    pending one if none is decided. *)
Definition pick_value k ii : P unit :=
  if is_null (p1_value ii) && is_null (p2_value ii) then
    vw ← on_vh vh_get_next_pending;
    upd_ii k (λ ii, ii <| p2_value := vw |>);;
    c_assert (negb (is_null vw))
  else if negb (is_null (p1_value ii)) then
    upd_ii k (λ ii, ii <| p2_value := p1_value ii |> <| p1_value := None |> <| p1_value_ballot := 0 |>)
  else mret tt.

Lemma pick_value_agreed f hi ho k ii s : agreed f hi ho s → arr_get (proposer_state s) k = Some ii → ii_status ii ≠ empty →
  wlp (pick_value k ii) (λ _ s', (∃ f', f ⊆ f' ∧ agreed f' hi ho s') ∧
    ∃ ii', arr_get (proposer_state s') k = Some ii' ∧ ii_status ii' ≠ empty) s.
Proof.
  intros H Hk Hst. pose proof (arr_get_lt _ _ _ Hk) as Hlt. destruct (ag_mem _ _ _ _ H) as [l Hm].
  pose proof (ag_slots _ _ _ _ H _ _ Hk) as Hi. destruct (io_range _ _ _ _ _ Hi Hst) as (Hr & _).
  unfold pick_value. destruct (p1_value ii) as [q|] eqn:E1; [|destruct (p2_value ii) as [q|] eqn:E2]; cbn [is_null negb andb].
  - apply wlp_upd_ii. intros ii0 Hk0. rewrite Hk in Hk0. injection Hk0 as <-. rewrite E1.
    set (ii' := ii <| p2_value := Some q |> <| p1_value := None |> <| p1_value_ballot := 0 |>).
    split; [|exists ii'; split; [by apply arr_get_set_eq|done]]. exists f. split; [done|].
    assert (agreed f hi ho (s <| proposer_state := arr_set (proposer_state s) k ii' |> <| vh := vh s |>)) as H'; [|by destruct s].
    apply agreed_core; [done|exists l; by eapply mem_ok_move|]. apply slots_set; [apply H|lia|].
    destruct Hi as [H1 H2 H3 H4 H5]. constructor; cbn; try done. intros vw w [= <-]. by apply H3.
  - apply wlp_ret. split; [by exists f|by exists ii].
  - apply wlp_bind, wlp_of_wp. eapply (wp_next_pending l); [done| |].
    { intros ->. apply wlp_bind, wlp_upd_ii. intros ii0 _. by apply wlp_assert. }
    intros vw x l' v' -> Hm' Hun [w Hw] Hheap. apply wlp_bind, wlp_upd_ii. cbn. intros ii0 Hk0. rewrite Hk in Hk0. injection Hk0 as <-.
    apply wlp_assert. intros _. set (ii' := ii <| p2_value := Some vw |>).
    assert (f !! ii_iid ii = None) as Hnone.
    { destruct (f !! ii_iid ii) as [y|] eqn:E; [|done]. by destruct (io_done _ _ _ _ _ Hi y E). }
    assert (f ⊆ <[ii_iid ii := vw_value w]> f) as Hsub by by apply insert_subseteq.
    split; [|exists ii'; split; [by apply arr_get_set_eq|done]]. exists (<[ii_iid ii := vw_value w]> f). split; [done|].
    destruct (agreed_sees _ _ _ _ Hsub (ag_requests _ _ _ _ H) (ag_learner _ _ _ _ H)).
    constructor; cbn; try done; try apply H.
    + apply decided_insert; [apply H|done|]. by apply (mo_values _ _ _ Hm' vw).
    + exists l'. by eapply mem_ok_take2.
    + eapply slots_decide; [|done..]. eapply slots_shrink; [apply H|]. intros p y Hy. rewrite Hheap in Hy. eauto.
Qed.

Lemma execute_p2_agreed f hi ho k ii s : agreed f hi ho s → arr_get (proposer_state s) k = Some ii → ii_status ii ≠ empty →
  wlp (leader_execute_p2 k) (λ _ s', ∃ f', f ⊆ f' ∧ agreed f' hi ho s') s.
Proof.
  intros H Hk Hst. unfold leader_execute_p2. apply wlp_bind, wlp_get_ii. intros ii0 Hk0. rewrite Hk in Hk0. injection Hk0 as <-.
  match goal with |- wlp (?m ≫= _) _ _ => assert (m = pick_value k ii) as -> end.
  { unfold pick_value. by destruct (p1_value ii), (p2_value ii). }
  apply wlp_bind. eapply wlp_mono; [by eapply pick_value_agreed|]. intros _ s1 ((f' & Hf & H1) & ii1 & Hk1 & Hst1).
  apply (wlp_mono _ (λ _ s', agreed f' hi ho s')); [|by intros _ s'; exists f']. clear dependent f s.
  apply keeps_seq; [apply upd_same; [done|]|].
  { intros ii2 Hk2. rewrite Hk1 in Hk2. injection Hk2 as <-. by split_and!. }
  intros _ s2 H2. apply wlp_bind, wlp_get_ii. intros ii2 Hk2. apply wlp_bind, wlp_lift_opt. intros vw Hvw.
  apply wlp_bind, wlp_zoom. unfold deref. apply wlp_get, wlp_lift_opt. intros w Hw.
  assert (agreed f' hi ho (s2 <| vh := vh s2 |>)) as H2' by by destruct s2.
  apply keeps_seq; [|intros _ s3; apply set_expiration_agreed].
  pose proof (ag_decided _ _ _ _ H2). apply on_acceptors_agreed; [|done]. apply add_accept_req_keeps; [tc_solve|].
  by apply (io_p2 _ _ _ _ _ (ag_slots _ _ _ _ H2 _ _ Hk2) vw w).
Qed.

(** The values decided since: what the routines of the leader keep. *)
Definition leads (f0 : gmap Z (list byte)) (hi : Z) s : Prop := ∃ f, f0 ⊆ f ∧ agreed f hi hi s.

Section leads.
Context (f0 : gmap Z (list byte)) (hi : Z).
#[local] Abbreviation ok := (leads f0 hi).

Lemma leads_of {A} (m : P A) : (∀ f, keeps (agreed f hi hi) m) → keeps ok m.
Proof. intros Hm s (f & Hf & Hs). eapply wlp_mono; [by apply Hm|]. intros ? s' H. by exists f. Qed.

Lemma leads_of_s {A} (m : P A) s : ok s → (∀ f, agreed f hi hi s → keeps (agreed f hi hi) m) → wlp m (λ _ s', ok s') s.
Proof. intros (f & Hf & Hs) Hm. eapply wlp_mono; [by apply (Hm f)|]. intros ? s' H. by exists f. Qed.

#[local] Ltac plain_modify := apply wlp_modify; match goal with
  | H : leads _ _ _ |- _ => destruct H as (f & Hf & []); exists f; split; [exact Hf|by repeat case_match; constructor] end.

Lemma leads_clear type s : ok s → type = prepare_reqs ∨ type = accept_reqs →
  wlp (Leader.on_acceptors (sendbuf_clear type (this_proposer_id s))) (λ _ s', ok s') s.
Proof. intros Hs Ht. apply leads_of_s; [done|]. intros f H. by apply clear_requests_agreed. Qed.
Lemma leads_flush : keeps ok (Leader.on_acceptors sendbuf_flush).
Proof. apply leads_of. intros f. apply flush_requests_agreed. Qed.
Lemma leads_clock : keeps ok gettimeofday.
Proof. apply leads_of. intros f. apply clock_agreed. Qed.
Lemma leads_event_add t : keeps ok (event_add t).
Proof. apply leads_of. intros f. apply event_add_agreed. Qed.
Lemma leads_expiration k t : keeps ok (leader_set_expiration k t).
Proof. apply leads_of. intros f. apply set_expiration_agreed. Qed.
Lemma leads_closed i : keeps ok (on_learner (Learner.learner_is_closed i)).
Proof.
  apply leads_of. intros f. apply on_learner_agreed. intros l Hl. unfold Learner.learner_is_closed.
  apply wlp_bind. eapply wlp_get_slot; [exact Hl|]. intros ii _. by apply wlp_ret.
Qed.
#[local] Hint Resolve leads_flush leads_clock leads_event_add leads_expiration leads_closed : keeps.

#[local] Ltac steps_ok := solve_keeps with (first [plain_modify | apply leads_clear; [assumption|auto]]).

Lemma leads_execute s k ii : ok s → arr_get (proposer_state s) k = Some ii → ii_status ii ≠ empty →
  wlp (leader_execute_p2 k) (λ _ s', ok s') s.
Proof.
  intros (f & Hf & Hs) Hk Hst. eapply wlp_mono; [by eapply execute_p2_agreed|]. intros _ s' (f' & Hf' & Hs').
  exists f'. split; [by etrans|done].
Qed.

Lemma leads_p2_expired : keeps ok leader_open_instances_p2_expired.
Proof.
  assert (∀ iids count, keeps ok (open_p2_expired_loop iids count)) as H.
  { intros iids. induction iids as [|iid iids IH]; intros count s Hs; cbn [open_p2_expired_loop]; [by apply wlp_ret|].
    apply wlp_bind, wlp_get_ii. intros ii Hk. apply wlp_bind, wlp_assert. intros _. destruct (decide (ii_status ii = p1_ready)) as [E|]; [|by apply IH].
    apply wlp_bind, wlp_assert. intros _. apply keeps_seq; [|intros _; apply IH]. eapply leads_execute; [done..|by rewrite E]. }
  unfold leader_open_instances_p2_expired. steps_ok.
Qed.

Lemma leads_p2_new : keeps ok leader_open_instances_p2_new.
Proof.
  assert (∀ fuel count, keeps ok (open_p2_new_loop fuel count)) as H.
  { intros fuel. induction fuel as [|fuel IH]; intros count s Hs; [done|]. cbn [open_p2_new_loop]. apply wlp_get.
    destruct (_ <=? _); [|by apply wlp_ret]. cbv zeta. apply wlp_bind, wlp_get_ii. intros ii Hk. apply wlp_bind, wlp_assert. intros _.
    destruct (_ && _); [by apply wlp_ret|]. destruct (bool_decide _) eqn:E; [cbn [orb]; steps_ok|].
    apply bool_decide_eq_false, dec_stable in E. cbn [orb]. destruct (negb _); [steps_ok|].
    apply keeps_seq; [eapply leads_execute; [done..|by rewrite E]|]. intros _ s1 H1. steps_ok. }
  unfold leader_open_instances_p2_new. steps_ok.
Qed.
#[local] Hint Resolve leads_p2_expired leads_p2_new : keeps.

Lemma closed_same i (Q : bool → proposer → Prop) s : (∀ b, Q b s) → wlp (on_learner (Learner.learner_is_closed i)) Q s.
Proof.
  intros HQ. apply wlp_zoom. unfold Learner.learner_is_closed, GET_LEA_INSTANCE. apply wlp_bind, wlp_get, wlp_lift_opt.
  intros ii _. apply wlp_ret. assert (s <| lea := lea s |> = s) as -> by by destruct s. apply HQ.
Qed.

Lemma leads_p2_check_body now i : keeps ok (p2_check_body now i).
Proof.
  intros s Hs. unfold p2_check_body. cbv zeta. set (k := pro_index i). apply wlp_bind, wlp_get_ii. intros ii Hk.
  destruct (decide (ii_status ii ≠ p2_pending)) as [|Hst]; [by apply wlp_ret|]. apply dec_stable in Hst.
  assert (∀ x, x ≠ empty → wlp (upd_ii k (λ ii, ii <| ii_status := x |>)) (λ _ s', ok s') s) as Hup.
  { intros x Hne. destruct Hs as (f & Hf & Hs). eapply wlp_mono; [apply upd_same; [exact Hs|]|intros ? s' ?; by exists f].
    intros ii' Hk'. rewrite Hk in Hk'. injection Hk' as <-. split_and!; [done..|]. by rewrite Hst. }
  apply wlp_bind, closed_same. intros [].
  - apply keeps_seq; [by apply Hup|]. intros _ s1 H1. steps_ok.
  - destruct (negb _); [by apply wlp_ret|]. apply keeps_seq; [by apply Hup|]. intros _ s1 H1.
    apply keeps_seq; [plain_modify|]. intros _ s2 H2.
    apply keeps_seq; [apply leads_of_s; [done|intros f _; by apply upd_agreed]|]. intros _ s3 H3.
    apply wlp_bind, wlp_get_ii. intros ii3 Hk3. apply keeps_seq; [|intros _ s4 H4; steps_ok].
    apply leads_of_s; [done|]. intros f H. by apply prepare_agreed with s3 k.
Qed.
#[local] Hint Resolve leads_p2_check_body : keeps.

Lemma leads_p2_check : keeps ok leader_periodic_p2_check.
Proof. unfold leader_periodic_p2_check. steps_ok. Qed.
#[local] Hint Resolve leads_p2_check : keeps.

(** What is done with the value that was proposed for a delivered instance. *)
Lemma settled (value : list byte) k ii l s : arr_get (proposer_state s) k = Some ii → mem_ok l (proposer_state s) (vh s) →
  wlp (match p2_value ii with
       | Some vw =>
           w ← on_vh (deref vw);
           if decide (vw_value w = value) then on_vh (vh_notify_client 0 vw)
           else on_vh (vh_push_back_value vw);; upd_ii k (λ ii, ii <| p2_value := None |>)
       | None => mret tt
       end)
    (λ _ s', ∃ ii' l' v', s' = s <| proposer_state := arr_set (proposer_state s) k ii' |> <| vh := v' |> ∧
      mem_ok l' (arr_set (proposer_state s) k ii') v' ∧ shrinks (vh s) v') s.
Proof.
  intros Hk Hm. destruct (p2_value ii) as [vw|] eqn:E2.
  2:{ apply wlp_ret. exists ii, l, (vh s). rewrite arr_set_same by done. by destruct s. }
  apply wlp_bind, wlp_zoom. unfold deref. apply wlp_get, wlp_lift_opt. intros w Hw.
  assert (s <| vh := vh s |> = s) as -> by by destruct s. destruct (decide _).
  - apply wlp_zoom. unfold vh_notify_client, deref. apply wlp_bind, wlp_get, wlp_lift_opt. intros w' _. apply wlp_modify.
    exists ii, l, ((vh s) <| notified := notified (vh s) ++ [(0, vw_value w')] |>). rewrite arr_set_same by done.
    split_and!; [by destruct s|by apply mem_ok_notified|]. intros q x Hx. eauto.
  - apply wlp_bind. eapply wlp_mono; [apply wlp_and; [|apply (on_vh_shrinks _ (push_back_shrinks vw) s)]|].
    { apply wlp_of_wp, (wp_push_back_p2 l k ii vw (λ _ s1, ∃ l' v', s1 = s <| vh := v' |> ∧
        mem_ok l' (arr_set (proposer_state s) k (ii <| p2_value := None |>)) v')); [done..|]. intros w' v' _ Hm' _. eauto. }
    intros ? s1 [(l' & v' & -> & Hm') Hv']. apply wlp_upd_ii. cbn. intros ii' Hk'. rewrite Hk in Hk'. injection Hk' as <-.
    by exists (ii <| p2_value := None |>), l', v'.
Qed.

(** The value of a delivered instance is answered for or proposed again, and the
    slot is cleared. *)
Lemma leads_deliver value iid : keeps ok (leader_deliver value iid).
Proof.
  intros s Hs. unfold leader_deliver. cbv zeta. set (k := pro_index iid). apply wlp_bind, wlp_get_ii. intros ii Hk.
  destruct (negb _); [by apply wlp_ret|].
  set (here := λ s, ok s ∧ arr_get (proposer_state s) k = Some ii). assert (here s) as H0 by done. clear Hk Hs. revert s H0.
  assert (∀ m m' : P unit, keeps here m → (∀ s, here s → wlp m' (λ _ s', ok s') s) →
    ∀ s, here s → wlp (m;; m') (λ _ s', ok s') s) as Hseq.
  { intros m m' Hm Hm' s Hs. apply wlp_bind. eapply wlp_keeps; [exact Hm|exact Hs|]. intros _. apply Hm'. }
  apply Hseq; [|apply Hseq; [|apply Hseq]].
  1-3: intros s [(f & Hf & []) Hk]; try (case_match; [|apply wlp_ret; split; [by exists f|done]]);
    apply wlp_modify; (split; [exists f; split; [done|by repeat case_match; constructor]|by repeat case_match]).
  intros s [(f & Hf & Hs) Hk]. destruct (ag_mem _ _ _ _ Hs) as [l Hm]. apply wlp_bind.
  eapply wlp_mono; [by eapply settled|]. intros ? s1 (ii' & l' & v' & -> & Hm' & Hv').
  apply wlp_bind. eapply wlp_mono; [eapply clear_agreed; [done|by eapply arr_get_lt|done..]|].
  intros ? s2 H2. apply leads_p2_new. by exists f.
Qed.
#[local] Hint Resolve leads_deliver : keeps.

Lemma leads_deliver_callback value iid : keeps ok (pro_deliver_callback value iid).
Proof. unfold pro_deliver_callback. steps_ok. Qed.
End leads.

(** ** Phase 1 is started *)

Lemma agreed_open f hi ho k ii ii' s : agreed f hi ho s → hi + 1 < 2 ^ 32 → arr_get (proposer_state s) k = Some ii →
  ii_status ii = empty → k = pro_index (hi + 1) → ii_iid ii' = hi + 1 → ii_status ii' ≠ empty →
  p1_value ii' = p1_value ii → p2_value ii' = p2_value ii →
  agreed f (hi + 1) ho (s <| proposer_state := arr_set (proposer_state s) k ii' |>).
Proof.
  intros Hs Hmax Hk Hst Hidx E1 E2 E3 E4. destruct (ag_mem _ _ _ _ Hs) as [l Hm]. destruct (ag_decided _ _ _ _ Hs) as [Hf ?].
  assert (∀ i, R hi i → R (hi + 1) i) as HR by (unfold R; lia).
  constructor; cbn; try apply Hs.
  - constructor; [|lia]. intros i x Hx. destruct (Hf i x Hx). split; [lia|done].
  - exists l. by eapply mem_ok_same.
  - eapply slots_open; [apply Hs|apply Hs|done..].
  - by eapply good_sb_mono; [|exact HR|apply Hs].
  - by eapply good_learner_mono; [|exact HR|apply Hs].
Qed.

Lemma open_body_agreed f ho i s : agreed f (ho + (i - 1)) ho s → 0 ≤ ho + (i - 1) → ho + i < 2 ^ 32 →
  wlp (open_instances_p1_body i) (λ _ s', agreed f (ho + i) ho s') s.
Proof.
  intros Hs Hpos Hmax. unfold open_instances_p1_body. apply wlp_get. cbv zeta. rewrite (ag_open _ _ _ _ Hs).
  rewrite (wrap_small 32 (i + ho)), (Z.add_comm i) by lia. set (k := pro_index (ho + i)).
  apply wlp_bind, wlp_get_ii. intros ii Hk. apply wlp_bind, wlp_assert. intros Hst%bool_decide_eq_true.
  assert (ho + (i - 1) + 1 = ho + i) as Hi by lia.
  apply keeps_seq.
  - apply wlp_upd_ii. intros ii0 Hk0. rewrite Hk in Hk0. injection Hk0 as <-. rewrite <-Hi.
    eapply agreed_open; [done|lia|done|done|by unfold k; f_equal|done..].
  - intros _ s1 H1. apply wlp_bind, wlp_get_ii. intros ii1 Hk1. apply keeps_seq; [by apply prepare_agreed with s1 k|].
    intros _ s2. apply set_expiration_agreed.
Qed.

Lemma wlp_range {St} (I : Z → St → Prop) w from to (g : Z → M St unit) (s : St) :
  (∀ i t, from ≤ i ≤ to → I i t → wlp (g i) (λ _ t', I (i + 1) t') t) → from ≤ to + 1 → I from s →
  wlp (for_le w from to g) (λ _ t', I (to + 1) t') s.
Proof.
  intros Hg Hle Hs. unfold for_le. destruct (decide _) as [|_]; [done|]. unfold range.
  remember (Z.to_nat (to - from + 1)) as n eqn:En. revert from s Hg Hle Hs En. induction n as [|n IH]; intros from s Hg Hle Hs En.
  - assert (from = to + 1) as -> by lia. rewrite seqZ_nil by lia. by apply wlp_ret.
  - rewrite seqZ_cons by lia. cbn [mfor]. apply wlp_bind. eapply wlp_mono; [apply Hg; [lia|done]|]. intros ? t Ht.
    replace (Z.pred (to - from + 1)) with (to - Z.succ from + 1) by lia. apply IH; [|lia|done|lia].
    intros i t' Hi. apply Hg. lia.
Qed.

Lemma open_p1_agreed f hi s : agreed f hi hi s → hi + PROPOSER_PREEXEC_WIN_SIZE < 2 ^ 32 →
  wlp leader_open_instances_p1 (λ _ s', ∃ hi', hi ≤ hi' ≤ hi + PROPOSER_PREEXEC_WIN_SIZE ∧ agreed f hi' hi' s') s.
Proof.
  unfold PROPOSER_PREEXEC_WIN_SIZE. intros Hs Hmax. unfold leader_open_instances_p1. apply wlp_get. cbv zeta.
  set (n := signed32 _). clearbody n. unfold PROPOSER_PREEXEC_WIN_SIZE. apply wlp_bind, wlp_assert. intros Hn%Z.leb_le. change (300 / 2) with 150.
  destruct (Z.leb_spec 150 n); [apply wlp_ret; exists hi; split; [lia|done]|].
  rewrite (wrap_small 32 (300 - n)) by lia.
  destruct (ag_decided _ _ _ _ Hs) as [_ Hpos].
  apply wlp_bind. eapply wlp_mono; [by apply (clear_requests_agreed f hi hi); auto|]. intros ? s1 H1.
  apply wlp_bind, wlp_assert. intros _. apply wlp_bind.
  eapply wlp_mono; [apply (wlp_range (λ i t, agreed f (hi + (i - 1)) hi t)); [|lia|by rewrite Z.sub_diag, Z.add_0_r]|].
  { intros i t Hi Ht. eapply wlp_mono; [apply (open_body_agreed f hi); [exact Ht|lia..]|]. intros ? t' Ht'. by replace (i + 1 - 1) with i by lia. }
  intros ? s2 H2. replace (300 - n + 1 - 1) with (300 - n) in H2 by lia.
  apply wlp_bind. eapply wlp_mono; [by apply (flush_requests_agreed f (hi + (300 - n)) hi)|]. intros ? s3 H3.
  apply wlp_modify. exists (hi + (300 - n)). split; [lia|].
  pose proof (ag_open _ _ _ _ H3) as Ho. destruct H3. constructor; cbn; try done. rewrite Ho. apply wrap_small. lia.
Qed.

Lemma p1_check_agreed f hi s : agreed f hi hi s → hi + PROPOSER_PREEXEC_WIN_SIZE < 2 ^ 32 →
  wlp leader_periodic_p1_check (λ _ s', ∃ hi', hi ≤ hi' ≤ hi + PROPOSER_PREEXEC_WIN_SIZE ∧ agreed f hi' hi' s') s.
Proof.
  intros Hs Hmax. unfold leader_periodic_p1_check. apply wlp_bind. eapply wlp_mono; [by apply (check_p1_pending_agreed f hi hi)|].
  intros ? s1 H1. apply wlp_bind. eapply wlp_mono; [by apply (open_p1_agreed f hi)|]. intros ? s2 (hi' & Hr & H2).
  eapply wlp_mono; [by apply (event_add_agreed f hi' hi')|]. intros ? s3 H3. by exists hi'.
Qed.

(** ** Promises *)

Lemma deref_here vw (Q : vh_value_wrapper → proposer → Prop) s : (∀ w, heap (vh s) !! vw = Some w → Q w s) → wlp (on_vh (deref vw)) Q s.
Proof.
  intros HQ. apply wlp_zoom. unfold deref. apply wlp_get, wlp_lift_opt. intros w Hw.
  assert (s <| vh := vh s |> = s) as -> by by destruct s. by apply HQ.
Qed.

(** The value of a promise takes the place of the one found before. *)
Lemma found_agreed f hi ho k ii (value : list byte) b s : agreed f hi ho s → arr_get (proposer_state s) k = Some ii →
  f !! ii_iid ii = Some value → ii_status ii ≠ empty →
  wlp (free_opt (p1_value ii);;
       vw ← on_vh (vh_wrap_value value);
       upd_ii k (λ ii, ii <| p1_value := Some vw |>);;
       upd_ii k (λ ii, ii <| p1_value_ballot := b |>)) (λ _ s', agreed f hi ho s') s.
Proof.
  intros H Hk Hv Hst. destruct (ag_mem _ _ _ _ H) as [l Hm]. pose proof (arr_get_lt _ _ _ Hk) as Hlt.
  apply wlp_bind. eapply wlp_mono; [by eapply free_p1_agreed|]. intros ? s1 (v1 & -> & Hm1 & Hs1).
  apply wlp_bind, wlp_zoom, wlp_of_wp, wp_vh_wrap_value. intros vw Hvw. cbn in Hvw |- *.
  set (v2 := v1 <| heap ::= <[vw := mk_wrapper value None]> |>) in *.
  assert (value_ok value) as Hok by by destruct (ag_decided _ _ _ _ H) as [Hf _]; destruct (Hf _ _ Hv).
  assert (mem_ok l (arr_set (proposer_state s) k (ii <| p1_value := None |>)) v2) as Hm2 by by apply mem_ok_wrap.
  assert (expands v1 v2) as He.
  { intros q x Hx. unfold v2. cbn. destruct (decide (q = vw)) as [->|]; [congruence|]. rewrite lookup_insert_ne by done. eauto. }
  pose proof (slots_expand _ _ _ _ _ _ Hm1 Hs1 He) as Hs2.
  assert (heap v2 !! vw = Some (mk_wrapper value None)) as Hnew by (unfold v2; cbn; by rewrite lookup_insert_eq).
  apply keeps_seq; [|intros _ s3; apply upd_agreed; by intros ?].
  apply wlp_upd_ii. cbn. intros ii0 Hk0. rewrite Hk in Hk0. injection Hk0 as <-.
  pose proof (agreed_core f hi ho s (arr_set (proposer_state s) k (ii <| p1_value := Some vw |>)) v2 H) as Hcore. apply Hcore.
  - exists l. rewrite <-(arr_set_set _ k (ii <| p1_value := None |>)).
    eapply (mem_ok_take1 l _ v2 k (ii <| p1_value := None |>) _ vw); [done|by apply arr_get_set_eq| |by rewrite Hnew|done|done].
    by apply (fresh_unowned _ _ v1).
  - rewrite <-(arr_set_set _ k (ii <| p1_value := None |>)). apply slots_set; [done|lia|].
    destruct (Hs2 k (ii <| p1_value := None |>)) as [H1 H2 H3 H4 H5]; [by apply arr_get_set_eq|].
    constructor; cbn; [done|by intros ?| |done..]. intros q w [= <-]. rewrite lookup_insert_eq. by intros [= <-].
Qed.

(** The status of no instance changes. *)
Definition statuses s s' : Prop := ∀ k ii', arr_get (proposer_state s') k = Some ii' →
  ∃ ii, arr_get (proposer_state s) k = Some ii ∧ ii_status ii' = ii_status ii.
#[local] Instance statuses_preorder : PreOrder statuses.
Proof.
  split; [intros s k ii; eauto|]. intros s1 s2 s3 H1 H2 k ii3 (ii2 & Hk2 & ->)%H2. destruct (H1 _ _ Hk2) as (ii1 & ? & ->). eauto.
Qed.

Lemma upd_statuses k g : (∀ ii, ii_status (g ii) = ii_status ii) → steps statuses (upd_ii k g).
Proof.
  intros Hg s. apply wlp_upd_ii. intros ii Hk j ii'. cbn. intros [[-> ->]|[_ Hj]]%arr_set_get; [eauto..|].
  by apply arr_get_lt in Hk as [? _].
Qed.

Lemma save_statuses k pa a : steps statuses (pro_save_prepare_ack k pa a).
Proof.
  assert (∀ {A} (m : M values_handler A), steps statuses (on_vh m)) as Hvh.
  { intros A m. apply steps_zoom. intros s v j ii. eauto. }
  unfold pro_save_prepare_ack, get_ii, free_opt.
  solve_steps_with ltac:(first [apply Hvh | apply upd_statuses; done]).
Qed.

Lemma save_promise_agreed f hi ho k ii pa a s : agreed f hi ho s → arr_get (proposer_state s) k = Some ii → ii_status ii ≠ empty →
  none_or_V (V f) (ii_iid ii) (pa_value pa) → wlp (pro_save_prepare_ack k pa a) (λ _ s', agreed f hi ho s') s.
Proof.
  intros H Hk Hst Hv. unfold pro_save_prepare_ack. apply wlp_bind, wlp_get_ii. intros ii0 Hk0. rewrite Hk in Hk0. injection Hk0 as <-.
  apply wlp_bind, wlp_lift_opt. intros bit _. destruct (negb _); [by apply wlp_ret|]. apply wlp_bind, wlp_upd_ii.
  intros ii0 Hk0. rewrite Hk in Hk0. injection Hk0 as <-.
  set (ii1 := ii <| promises_bitvector := _ |> <| promises_count := _ |>).
  assert (agreed f hi ho (s <| proposer_state := arr_set (proposer_state s) k ii1 |>)) as H1 by by eapply agreed_set.
  assert (arr_get (arr_set (proposer_state s) k ii1) k = Some ii1) as Hk1 by (eapply arr_get_set_eq, arr_get_lt; exact Hk).
  destruct (Z.eqb_spec (blen (pa_value pa)) 0) as [|Hne]; [by apply wlp_ret|]. destruct (_ <=? _); [by apply wlp_ret|].
  destruct Hv as [E|Hv]; [by rewrite E in Hne|]. change (p1_value ii) with (p1_value ii1). set (s1 := s <| proposer_state := _ |>) in *.
  assert (∀ b, wlp (if b : bool then upd_ii k (λ ii, ii <| p1_value_ballot := pa_value_ballot pa |>)
      else free_opt (p1_value ii1);; vw ← on_vh (vh_wrap_value (pa_value pa)); upd_ii k (λ ii, ii <| p1_value := Some vw |>);;
           upd_ii k (λ ii, ii <| p1_value_ballot := pa_value_ballot pa |>)) (λ _ s', agreed f hi ho s') s1) as Hrest.
  { intros []; [by apply upd_agreed; [intros ?|]|]. by apply (found_agreed f hi ho k ii1). }
  apply wlp_bind. destruct (p1_value ii1) as [vw|]; [|apply wlp_ret, (Hrest false)].
  apply wlp_bind, deref_here. intros w _. apply wlp_ret, (Hrest (bool_decide _)).
Qed.

(** A promise is in time when the table has not wrapped since its instance. *)
Definition in_time s (pa : prepare_ack) : Prop := highest_open (p1_info s) < pa_iid pa + PROPOSER_ARRAY_SIZE.

Lemma promise_agreed f hi a pa s : agreed f hi hi s → R hi (pa_iid pa) → in_time s pa →
  none_or_V (V f) (pa_iid pa) (pa_value pa) →
  wlp (handle_prepare_ack a pa) (λ _ s', agreed f hi hi s') s.
Proof.
  intros H HR Ht Hv. unfold in_time in Ht. rewrite (ag_open _ _ _ _ H) in Ht. unfold handle_prepare_ack. cbv zeta.
  set (k := pro_index (pa_iid pa)). apply wlp_bind, wlp_get_ii. intros ii Hk.
  destruct (decide _) as [|Hst]; [by apply wlp_ret|]. apply dec_stable in Hst. destruct (negb _); [by apply wlp_ret|].
  assert (ii_status ii ≠ empty) as Hne by by rewrite Hst.
  assert (ii_iid ii = pa_iid pa) as Hi.
  { destruct (io_range _ _ _ _ _ (ag_slots _ _ _ _ H _ _ Hk) Hne) as (H1 & H2 & H3). unfold R in HR.
    apply (pro_index_inj (hi - PROPOSER_ARRAY_SIZE + 1)); [lia..|exact H3]. }
  apply wlp_bind. eapply wlp_mono; [apply wlp_and; [by eapply save_promise_agreed; [..|rewrite Hi]|apply (save_statuses k pa a s)]|].
  intros ? s1 [H1 Hs1]. apply wlp_bind, wlp_get_ii. intros ii1 Hk1. destruct (_ <? _); [by apply wlp_ret|].
  apply keeps_seq.
  - apply upd_same; [done|]. intros ii2 Hk2. rewrite Hk1 in Hk2. injection Hk2 as <-.
    destruct (Hs1 _ _ Hk1) as (ii0 & Hk0 & E). rewrite Hk in Hk0. injection Hk0 as <-. split_and!; [done..|]. cbn. by rewrite E.
  - intros _ s2 H2. apply keeps_seq; [|intros _ s3 H3; by apply wlp_ret]. apply wlp_modify. destruct H2. by constructor.
Qed.

Lemma promises_agreed f hi a pab ready s : agreed f hi hi s →
  Forall (λ pa, R hi (pa_iid pa) ∧ none_or_V (V f) (pa_iid pa) (pa_value pa)) pab → Forall (in_time s) pab →
  wlp (handle_prepare_acks a pab ready) (λ _ s', agreed f hi hi s') s.
Proof.
  revert ready s. induction pab as [|pa pab IH]; intros ready s H Hv Ht; cbn [handle_prepare_acks]; [by apply wlp_ret|].
  apply list.Forall_cons in Hv as [[HR Hv] Hvs], Ht as [Ht Hts]. apply keeps_seq; [by apply promise_agreed|].
  intros r s1 H1. apply IH; [done|done|]. eapply list.Forall_impl; [exact Hts|]. intros x. unfold in_time.
  by rewrite (ag_open _ _ _ _ H), (ag_open _ _ _ _ H1).
Qed.

Lemma promise_batch_agreed f hi a pab s : agreed f hi hi s →
  Forall (λ pa, R hi (pa_iid pa) ∧ none_or_V (V f) (pa_iid pa) (pa_value pa)) pab → Forall (in_time s) pab →
  wlp (handle_prepare_ack_batch a pab) (λ _ s', leads f hi s') s.
Proof.
  intros H Hv Ht. unfold handle_prepare_ack_batch. apply wlp_get.
  assert (∀ s', agreed f hi hi s' → leads f hi s') as Hl by (intros s' ?; by exists f).
  destruct (negb _); [by apply wlp_ret, Hl|]. apply wlp_bind. eapply wlp_mono; [by apply promises_agreed|].
  intros ready s1 H1%Hl. destruct (0 <? ready); [|by apply wlp_ret]. apply keeps_seq; [by apply leads_p2_expired|].
  intros _ s2 H2. by apply leads_p2_new.
Qed.

(** ** The events of the leader *)

(** The instances that a call of a timer opens, at most. *)
Definition timer_opens (t : timer) : Z := if decide (t = p1_check_event) then PROPOSER_PREEXEC_WIN_SIZE else 0.

(** What the leader becomes: it may have decided more, and opened [n] instances. *)
Definition later f hi (n : Z) s : Prop := ∃ f' hi', f ⊆ f' ∧ hi ≤ hi' ≤ hi + n ∧ agreed f' hi' hi' s.

Lemma later_leads f hi s : leads f hi s → later f hi 0 s.
Proof. intros (f' & Hf & Hs). exists f', hi. split; [done|]. split; [lia|done]. Qed.

Lemma later_keeps {A} f hi (m : P A) s : keeps (leads f hi) m → agreed f hi hi s → wlp m (λ _ s', later f hi 0 s') s.
Proof. intros Hm Hs. eapply wlp_mono; [apply Hm; by exists f|]. intros ? s'. apply later_leads. Qed.

Section events.
Context (f : gmap Z (list byte)) (hi : Z).
Context (junk : list byte) (junk_ok : blen junk = 4).

Lemma timer_agreed t s : agreed f hi hi s → hi + timer_opens t < 2 ^ 32 → wlp (timer_fires t) (λ _ s', later f hi (timer_opens t) s') s.
Proof.
  intros Hs Hmax. unfold timer_fires. apply wlp_get, wlp_bind, wlp_assert. intros _. apply wlp_bind.
  eapply wlp_mono; [by apply (evtimer_del_agreed f hi hi)|]. intros ? s1 H1. destruct t.
  - eapply wlp_mono; [by apply (p1_check_agreed f hi)|]. intros ? s2 (hi' & Hr & H2). by exists f, hi'.
  - apply later_keeps; [apply leads_p2_check|done].
  - apply later_keeps; [apply leads_of; intros f'|done]. intros s2 H2. unfold leader_print_event_counters, vh_get_dropped_count.
    apply keeps_seq; [|intros _ s3; apply event_add_agreed]. apply wlp_zoom, wlp_get, wlp_ret. by destruct s2.
  - apply later_keeps; [apply leads_of; intros f'|done]. intros s2 H2. unfold pro_ping_failure_detector.
    apply keeps_seq; [apply wlp_modify; destruct H2; by constructor|]. intros _ s3 H3. apply wlp_get.
    apply keeps_seq; [by apply on_oracle_agreed|]. intros _ s4. apply event_add_agreed.
Qed.

Lemma announce_agreed s : agreed f hi hi s → wlp (handle_leader_announce 0) (λ _ s', agreed f hi hi s') s.
Proof.
  intros Hs. unfold handle_leader_announce. apply wlp_get. destruct (ag_leader _ _ _ _ Hs) as [E1 E2].
  unfold LEADER_IS_ME. rewrite E1, E2. cbn. apply wlp_modify. destruct Hs. by constructor.
Qed.

Lemma client_agreed value s : agreed f hi hi s → value_ok value → wlp (client_packet junk value) (λ _ s', agreed f hi hi s') s.
Proof using junk_ok.
  intros Hs Hv. unfold client_packet. apply wlp_get, wlp_bind, wlp_assert. intros _. apply wlp_bind, wlp_lift_opt.
  intros m [-> Hsize]%submit_packet_msg. destruct (ag_mem _ _ _ _ Hs) as [l Hm]. apply wlp_zoom.
  unfold wlp at 1. rewrite receive_clients; [|done|cbn; unfold max_data, MAX_UDP_MSG_SIZE, data_offset in Hsize; lia|done].
  change (wlp (vh_enqueue_value value) (λ _ v', agreed f hi hi (s <| vh := v' |>)) (vh s)).
  eapply wlp_mono; [apply wlp_and; [apply wlp_of_wp, (mem_ok_enqueue l _ _ value Hm Hv)|apply (enqueue_expands value)]|].
  intros ? v' [[l' Hm'] He]. assert (agreed f hi hi (s <| proposer_state := proposer_state s |> <| vh := v' |>)) as H'; [|by destruct s].
  apply agreed_core; [done|by exists l'|]. eapply slots_expand; [exact Hm|apply Hs|exact He].
Qed.

Lemma inner_agreed m s : good_msg (V f) (R hi) m → agreed f hi hi s → wlp (inner_learner_receives junk m) (λ _ s', leads f hi s') s.
Proof using junk_ok.
  intros Hm Hs. pose proof (ag_decided _ _ _ _ Hs). unfold inner_learner_receives. apply wlp_get.
  apply keeps_seq. { eapply wlp_mono; [apply (on_learner_agreed f hi hi); [by apply learner_receives; [tc_solve|..]|done]|]. intros ? s1 H1. by exists f. }
  intros _ s1 H1. apply wlp_get. apply keeps_mfor; [|done]. intros d s2 _. apply leads_deliver_callback.
Qed.

Lemma check_agreed s : agreed f hi hi s → wlp (on_learner lea_hole_check) (λ _ s', agreed f hi hi s') s.
Proof. intros Hs. by apply (on_learner_agreed f hi hi); [apply hole_check_keeps|]. Qed.

(** The promises of a packet are in time. *)
Definition packet_in_time s (m : paxos_msg) : Prop :=
  match m with PrepareAcks _ pab => Forall (in_time s) pab | _ => True end.

Lemma packet_agreed m s : good_msg (V f) (R hi) m → packet_in_time s m → agreed f hi hi s →
  wlp (receive pro_handle_newmsg junk m) (λ _ s', leads f hi s') s.
Proof using junk_ok.
  intros Hm Ht Hs. pose proof (ag_decided _ _ _ _ Hs). destruct (good_received _ _ m Hm) as [Hok Hsize].
  pose proof (values_cut (V f) (R hi) m (gm_values _ _ _ Hm)) as Hv. rewrite <- receive_cut.
  unfold wlp. rewrite receive_proposer by done. change (wlp (proposer_gets (cut m)) (λ _ s', leads f hi s') s).
  assert (leads f hi s) as Hl by by exists f.
  destruct m as [| a pab | | | | | |]; try by apply wlp_ret. apply promise_batch_agreed; [done|exact Hv|].
  pose proof (gm_values _ _ _ Hm) as Hv0. cbn in Ht, Hv0. apply list.Forall_fmap. apply list.Forall_forall. intros pa Hin.
  pose proof (proj1 (list.Forall_forall _ _) Ht pa Hin) as Ht'. destruct (proj1 (list.Forall_forall _ _) Hv0 pa Hin) as [HR _].
  unfold R in HR. destruct (ag_decided _ _ _ _ Hs) as [_ Hmax]. unfold in_time, cut_prepare_ack in *. cbn in *. rewrite wrap_small; [done|lia].
Qed.
End events.

(** ** The leader starts *)

Lemma start_slots st v : all_clear st → slots_ok ∅ 0 st v.
Proof.
  intros [_ Hc] k ii [t ->]%Hc. constructor; cbn; done.
Qed.

Lemma leader_init_agreed s : vh s = vh_start → all_clear (proposer_state s) → current_iid s = 1 →
  this_proposer_id s = 0 → current_leader_id s = 0 → to_acceptors s = udp_sendbuf_new → lea s = init_lea_structs →
  wlp leader_init (λ _ s', ∃ hi, 0 ≤ hi ≤ PROPOSER_PREEXEC_WIN_SIZE ∧ agreed ∅ hi hi s') s.
Proof.
  intros Hvh Hc Hcur Hid Hlead Hsb Hlea. unfold leader_init, clear_event_counters, leader_print_event_counters.
  apply wlp_bind, wlp_modify, wlp_bind, wlp_bind. unfold vh_get_dropped_count. apply wlp_zoom, wlp_get, wlp_ret.
  unfold event_add. apply wlp_modify, wlp_bind, wlp_zoom, wlp_modify, wlp_get, wlp_bind, wlp_modify.
  match goal with |- wlp _ _ ?s1 => assert (agreed ∅ 0 0 s1) as H0 end.
  { assert (decided ∅ 0) as Hd by by split; [|lia].
    constructor; cbn; rewrite ?Hvh, ?Hsb, ?Hlea; try done.
    - exists []. apply (mem_ok_init []), mem_ok_clear; [done|apply vh_start_rep|done].
    - by apply start_slots.
    - by rewrite Hcur.
    - apply good_learner_init. }
  apply wlp_bind. eapply wlp_mono; [apply (p1_check_agreed ∅ 0 _ H0); unfold PROPOSER_PREEXEC_WIN_SIZE; lia|].
  intros ? s1 (hi & Hr & H1). apply wlp_bind, wlp_modify, wlp_bind, wlp_modify, wlp_ret.
  exists hi. split; [lia|]. destruct H1. by constructor.
Qed.
