(* ===== verification/PaxosAgreement.v ===== *)
(** * Agreement of libpaxos2 under one leader

    The system of [PaxosSystem] with proposer 0 as the leader of the oracle all
    the time: [PaxosLeader] has its invariant, here are the other proposers, the
    steps of the system, and the theorem [single_leader_total_order]: learners
    deliver prefixes of one sequence of values.  With two leaders they may differ
    ([PaxosSystem.learners_disagree]). *)
From Stdlib Require Import Init.Byte.
From S2P Require Import Prelude Steps Bytes PaxosWire SendBuffer StableStorage Acceptor Learner ValuesHandler Leader Proposer ProposerInv ProposerProps PaxosSystem PaxosGood PaxosLeader.

Implicit Types (f : gmap Z (list byte)) (hi : Z) (p : proposer) (evs : list sys_event) (s : paxos_sys).

(** ** The other proposers *)

(** A proposer that never leads: its timers of the leader are off. *)
Record follows f hi p : Prop := {
  fo_id : this_proposer_id p ≠ 0;
  fo_leader : current_leader_id p = 0;
  fo_timers : armed p p1_check_event = false ∧ armed p p2_check_event = false;
  fo_requests : good_sb (V f) (R hi) (to_acceptors p);
  fo_learner : good_learner (V f) (R hi) (lea p)
}.

Section follows.
Context f hi `{!decided f hi} (junk : list byte) (junk_ok : blen junk = 4).
#[local] Abbreviation ok := (follows f hi).

Lemma follows_not_me p : ok p → LEADER_IS_ME p = false.
Proof using Type. intros [H1 H2 _ _ _]. unfold LEADER_IS_ME. rewrite H2. by apply Z.eqb_neq. Qed.

Lemma follows_learner {A} (m : M learner A) : keeps (good_learner (V f) (R hi)) m → keeps ok (on_learner m).
Proof using Type. intros Hm p Hp. eapply keeps_zoom; [exact Hm|apply fo_learner, Hp|]. intros l Hl. destruct Hp. by constructor. Qed.

Lemma follows_oracle (m : M udp_send_buffer unit) : keeps ok (on_oracle m).
Proof using Type.
  intros p Hp. apply (keeps_zoom _ (λ _, True)); [|done|].
  - intros sb _. unfold wlp. by destruct (m sb) as [[]|].
  - intros sb _. destruct Hp. by constructor.
Qed.

Lemma follows_timer t : keeps ok (timer_fires t).
Proof using Type.
  intros p Hp. unfold timer_fires. apply wlp_get, wlp_bind, wlp_assert. intros Ht.
  destruct (fo_timers _ _ _ Hp) as [E1 E2]. apply wlp_bind. unfold evtimer_del. apply wlp_modify.
  set (p1 := p <| armed ::= _ |>).
  assert (∀ t', t' ≠ p1_check_event → t' ≠ p2_check_event → keeps ok (event_add t')) as Hadd.
  { intros t' H1 H2 q Hq. unfold event_add. apply wlp_modify. destruct Hq as [? ? [F1 F2] ? ?].
    constructor; cbn; [done|done| |done..]. by rewrite !decide_False by congruence. }
  assert (ok p1) as H1.
  { destruct Hp. constructor; cbn; [done|done| |done..]. by split; case_match. }
  clearbody p1. destruct t; [by rewrite E1 in Ht|by rewrite E2 in Ht|..].
  - unfold leader_print_event_counters, vh_get_dropped_count. apply keeps_seq; [|intros _ p2; by apply Hadd].
    apply wlp_zoom, wlp_get, wlp_ret. destruct H1. by constructor.
  - unfold pro_ping_failure_detector. apply keeps_seq; [apply wlp_modify; destruct H1; by constructor|]. intros _ p2 H2.
    apply wlp_get. apply keeps_seq; [by apply follows_oracle|]. intros _ p3. by apply Hadd.
Qed.

Lemma follows_announce : keeps ok (handle_leader_announce 0).
Proof using Type.
  intros p Hp. unfold handle_leader_announce. apply wlp_get. rewrite (follows_not_me _ Hp), (proj2 (Z.eqb_neq 0 _)).
  - cbn [andb negb]. apply keeps_seq; [by apply wlp_ret|]. intros _ p1 H1. apply wlp_modify. destruct H1. by constructor.
  - intros E. by apply (fo_id _ _ _ Hp).
Qed.

Lemma follows_packet m : good_msg (V f) (R hi) m → keeps ok (receive pro_handle_newmsg junk m).
Proof using decided0 junk_ok.
  eapply (receive_keeps _ _ _ junk_ok _ _ proposer_gets); [intros ?? ?; by apply receive_proposer|].
  intros m' _ p Hp. destruct m'; cbn; try by apply wlp_ret. unfold handle_prepare_ack_batch. apply wlp_get.
  rewrite (follows_not_me _ Hp). by apply wlp_ret.
Qed.

Lemma follows_inner m : good_msg (V f) (R hi) m → keeps ok (inner_learner_receives junk m).
Proof using decided0 junk_ok.
  intros Hm p Hp. unfold inner_learner_receives. apply wlp_get.
  apply keeps_seq; [apply follows_learner, Hp; by apply learner_receives; [tc_solve|..]|].
  intros _ p1 H1. apply wlp_get. apply keeps_mfor; [|done]. intros d p2 _ H2. unfold pro_deliver_callback. apply wlp_get.
  rewrite (follows_not_me _ H2). apply keeps_seq; [by apply wlp_ret|]. intros _ p3 H3. apply wlp_modify. destruct H3. by constructor.
Qed.

Lemma follows_client value : keeps ok (client_packet junk value).
Proof using Type.
  intros p Hp. unfold client_packet. apply wlp_get. rewrite (follows_not_me _ Hp). apply wlp_bind, wlp_assert. done.
Qed.
End follows.

Lemma follows_mono f f' hi hi' p : f ⊆ f' → hi ≤ hi' → follows f hi p → follows f' hi' p.
Proof.
  intros Hf Hhi []. assert (∀ i x, V f i x → V f' i x) as HV by (intros i x Hx; unfold V in *; by eapply lookup_weaken).
  assert (∀ i, R hi i → R hi' i) as HR by (unfold R; lia).
  constructor; [done..|by eapply good_sb_mono|by eapply good_learner_mono].
Qed.

(** ** The start *)

(** A proposer before it leads. *)
Record starting (id : Z) p : Prop := {
  st_id : this_proposer_id p = id;
  st_leader : current_leader_id p = 0;
  st_iid : current_iid p = 1;
  st_vh : vh p = vh_start;
  st_requests : to_acceptors p = udp_sendbuf_new;
  st_learner : lea p = init_lea_structs;
  st_timers : armed p p1_check_event = false ∧ armed p p2_check_event = false
}.

Lemma ping_starting id : keeps (starting id) pro_ping_failure_detector.
Proof.
  intros p Hp. unfold pro_ping_failure_detector. apply keeps_seq; [apply wlp_modify; destruct Hp; by constructor|].
  intros _ p1 H1. apply wlp_get. apply keeps_seq.
  - apply (keeps_zoom _ (λ _, True)); [|done|].
    + intros sb _. unfold wlp. by case_match; [destruct p0|].
    + intros sb _. destruct H1. by constructor.
  - intros _ p2 []. by apply wlp_modify.
Qed.

Lemma zero_starting id p : starting id p →
  wlp zero_structs (λ r p', r = 0 ∧ starting id p' ∧ all_clear (proposer_state p')) p.
Proof.
  intros Hp. unfold zero_structs. apply wlp_bind, wlp_modify, wlp_ret. split; [done|]. split; [destruct Hp; by constructor|].
  apply all_clear_start.
Qed.

Lemma fast_init_starts id p : starting id p →
  wlp fast_init (λ r p', (id = 0 → ∃ hi, 0 ≤ hi ≤ PROPOSER_PREEXEC_WIN_SIZE ∧ agreed ∅ hi hi p') ∧
    (id ≠ 0 → starting id p')) p.
Proof.
  intros Hp. unfold fast_init. apply wlp_bind, wlp_modify, wlp_bind.
  set (p1 := p <| to_acceptors := _ |> <| to_oracle := _ |>).
  assert (starting id p1) as H1 by (destruct Hp; by constructor). clearbody p1.
  eapply wlp_mono; [by apply (ping_starting id)|]. intros ? p2 H2. apply wlp_bind.
  eapply wlp_mono; [by apply (zero_starting id)|]. intros r p3 (-> & H3 & Hc). cbn [Z.eqb negb]. apply wlp_get.
  unfold LEADER_IS_ME. rewrite (st_id _ _ H3), (st_leader _ _ H3). destruct (Z.eqb_spec id 0) as [->|Hne].
  - eapply wlp_mono; [by apply leader_init_agreed; destruct H3|]. by intros ? p4 H4.
  - by apply wlp_ret.
Qed.

Lemma started_cases clock id p : started_proposer clock id = Some p →
  (id = 0 → ∃ hi, 0 ≤ hi ≤ PROPOSER_PREEXEC_WIN_SIZE ∧ agreed ∅ hi hi p) ∧ (id ≠ 0 → ∀ hi, follows ∅ hi p).
Proof.
  rewrite fast_proposer_ok. unfold fast_proposer. destruct (_ || _); [done|].
  match goal with |- (?m _ ≫= _) = _ → _ => assert (wlp m (λ r p', (id = 0 → ∃ hi, 0 ≤ hi ≤ PROPOSER_PREEXEC_WIN_SIZE ∧ agreed ∅ hi hi p') ∧
    (id ≠ 0 → starting id p')) (proposer_start clock)) as H; [|destruct (m (proposer_start clock)) as [[r p']|] eqn:E; [|done]] end.
  { apply wlp_bind, wlp_modify, wlp_bind. eapply wlp_mono; [apply (fast_init_starts id); by constructor|].
    intros r p' H. destruct (negb _); by apply wlp_ret. }
  pose proof (wlp_run _ _ _ _ _ E H) as [H1 H2]. cbn. destruct (r =? 0); [|done]. intros [= <-]. split; [done|].
  intros Hne hi. specialize (H2 Hne). destruct H2 as [E1 E2 _ _ E5 E6 E7].
  constructor; [by rewrite E1|done|done|rewrite E5; apply good_sb_new|rewrite E6; apply good_learner_init].
Qed.

(** ** The system *)

Record one_leader f hi s : Prop := {
  ol_decided : decided f hi;
  ol_leader : ∀ p, proposers s !! 0%nat = Some p → agreed f hi hi p;
  ol_others : ∀ i p, proposers s !! S i = Some p → follows f hi p;
  ol_acceptors : Forall (good_acceptor (V f) (R hi)) (acceptors s);
  ol_learners : Forall (good_learner (V f) (R hi)) (learners s)
}.

(** What the others hear of a proposer. *)
Definition speaks f hi p : Prop := good_sb (V f) (R hi) (to_acceptors p) ∧ good_learner (V f) (R hi) (lea p).

Lemma one_leader_speaks f hi s : one_leader f hi s → Forall (speaks f hi) (proposers s).
Proof.
  intros H. apply list.Forall_lookup_2. intros [|i] p Hp.
  - pose proof (ol_leader _ _ _ H p Hp) as []. done.
  - pose proof (ol_others _ _ _ H i p Hp) as []. done.
Qed.

Lemma one_leader_good f hi s : one_leader f hi s → good_sys (V f) (R hi) (speaks f hi) s.
Proof. intros H. constructor; [by apply one_leader_speaks|apply H..]. Qed.

Lemma run_at_lookup {St} (m : M St unit) i l l' : run_at m i l = Some l' →
  ∃ x x', l !! i = Some x ∧ m x = Some (tt, x') ∧ l' = <[i := x']> l.
Proof.
  unfold run_at. destruct (l !! i) as [x|] eqn:E; [|done]. cbn. destruct (m x) as [[[] x']|] eqn:Em; [|done].
  cbn. intros [= <-]. by exists x, x'.
Qed.

(** A step of a proposer: the leader may decide more and open [n] instances. *)
Lemma at_proposer_step f hi n i m s s' : one_leader f hi s → 0 ≤ n →
  (∀ p, i = 0%nat → proposers s !! i = Some p → agreed f hi hi p → wlp m (λ _ p', later f hi n p') p) →
  (i ≠ 0%nat → keeps (follows f hi) m) →
  at_proposer i m s = Some s' → ∃ f' hi', f ⊆ f' ∧ hi ≤ hi' ≤ hi + n ∧ one_leader f' hi' s'.
Proof.
  intros Hs Hn Hlead Hfol. unfold at_proposer. destruct (run_at m i _) as [l|] eqn:E; [|done]. intros [= <-].
  apply run_at_lookup in E as (p & p' & Hp & Hm & ->). destruct i as [|i].
  - destruct (wlp_run _ _ _ _ _ Hm (Hlead p eq_refl Hp (ol_leader _ _ _ Hs p Hp))) as (f' & hi' & Hf & Hhi & Hp').
    exists f', hi'. split; [done|]. split; [lia|].
    assert (∀ i x, V f i x → V f' i x) as HV by (intros i x Hx; unfold V in *; by eapply lookup_weaken).
    assert (∀ i, R hi i → R hi' i) as HR by (unfold R; lia).
    constructor; cbn.
    + apply Hp'.
    + intros q. rewrite list_lookup_insert_eq by (by eapply lookup_lt_Some). by intros [= <-].
    + intros i q. rewrite list_lookup_insert_ne by done. intros Hq. apply (follows_mono f f' hi hi'); [done|lia|by apply (ol_others _ _ _ Hs i)].
    + eapply list.Forall_impl; [apply Hs|]. intros a. by apply good_acceptor_mono.
    + eapply list.Forall_impl; [apply Hs|]. intros a. by apply good_learner_mono.
  - exists f, hi. split; [done|]. split; [lia|].
    pose proof (wlp_run _ _ _ _ _ Hm (Hfol ltac:(done) p (ol_others _ _ _ Hs i p Hp))) as Hp'.
    constructor; cbn; try apply Hs.
    + intros q. rewrite list_lookup_insert_ne by done. apply Hs.
    + intros j q. destruct (decide (j = i)) as [->|Hne].
      * rewrite list_lookup_insert_eq by (by eapply lookup_lt_Some). by intros [= <-].
      * rewrite list_lookup_insert_ne by congruence. apply Hs.
Qed.

Lemma same_leader f hi s s' : one_leader f hi s → proposers s' = proposers s → good_sys (V f) (R hi) (speaks f hi) s' → one_leader f hi s'.
Proof. intros [] E [_ ? ?]. by constructor; rewrite ?E. Qed.

(** The oracle never names another leader; clients submit values of the size
    they may have. *)
Definition calm_event (ev : sys_event) : Prop :=
  match ev with
  | OracleSends _ leader => leader = 0
  | ClientSends _ value => value_ok value
  | _ => True
  end.

Definition event_opens (ev : sys_event) : Z := match ev with TimerFires _ t => timer_opens t | _ => 0 end.

(** The promises that the leader receives are not older than its table. *)
Definition event_in_time (ev : sys_event) s : Prop :=
  match ev with
  | Receives (Proposer 0) src k =>
      ∀ p m, proposers s !! 0%nat = Some p → sent_to s src (Proposer 0) !! k = Some m → packet_in_time p m
  | _ => True
  end.

Section system.
Context (mode : Z) (junk : list byte) (junk_ok : blen junk = 4).

Lemma step_agrees f hi ev s s' : one_leader f hi s → calm_event ev → event_in_time ev s → hi + event_opens ev < 2 ^ 32 →
  sys_step mode junk ev s = Some s' → ∃ f' hi', f ⊆ f' ∧ hi ≤ hi' ≤ hi + event_opens ev ∧ one_leader f' hi' s'.
Proof using junk_ok.
  intros Hs Hcalm Htime Hmax. pose proof (ol_decided _ _ _ Hs) as Hd. pose proof (one_leader_good _ _ _ Hs) as Hg.
  assert (∀ p, agreed f hi hi p → later f hi 0 p) as Hl by (intros p Hp; apply later_leads; by exists f).
  assert (0 ≤ event_opens ev) as Hpos.
  { destruct ev; cbn; try done. unfold timer_opens. by case_match. }
  assert (∀ s', proposers s' = proposers s → good_sys (V f) (R hi) (speaks f hi) s' →
    ∃ f' hi', f ⊆ f' ∧ hi ≤ hi' ≤ hi + event_opens ev ∧ one_leader f' hi' s') as Hsame.
  { intros t E Ht. exists f, hi. split; [done|]. split; [lia|]. by eapply same_leader. }
  assert (∀ a m, keeps (good_acceptor (V f) (R hi)) m → at_acceptor a m s = Some s' →
    ∃ f' hi', f ⊆ f' ∧ hi ≤ hi' ≤ hi + event_opens ev ∧ one_leader f' hi' s') as Hacc.
  { intros a m Hm E. apply Hsame; [|by eapply at_acceptor_good].
    unfold at_acceptor in E. destruct (run_at _ _ _); [|done]. by injection E as <-. }
  assert (∀ i m, keeps (good_learner (V f) (R hi)) m → at_learner i m s = Some s' →
    ∃ f' hi', f ⊆ f' ∧ hi ≤ hi' ≤ hi + event_opens ev ∧ one_leader f' hi' s') as Hlea.
  { intros i m Hm E. apply Hsame; [|by eapply at_learner_good].
    unfold at_learner in E. destruct (run_at _ _ _); [|done]. by injection E as <-. }
  destruct ev as [p value|p leader|dst src k|p t|a|l|p]; cbn [sys_step event_opens calm_event event_in_time] in *.
  - apply at_proposer_step; [done..| |intros _; apply follows_client].
    intros x -> _ Hx. eapply wlp_mono; [by apply client_agreed|]. intros ? x'. apply Hl.
  - subst leader. assert (∀ x, receive pro_handle_oracle_msg junk (LeaderAnnounce 0) x = handle_leader_announce 0 x) as E.
    { intros x. rewrite receive_oracle; done. }
    apply at_proposer_step; [done..| |].
    + intros x -> _ Hx. unfold wlp. rewrite E. eapply wlp_mono; [by apply announce_agreed|]. intros ? x'. apply Hl.
    + intros _ x Hx. unfold wlp. rewrite E. by apply follows_announce.
  - destruct (sent_to s src dst !! k) as [m|] eqn:Ek; [|done]. cbn.
    pose proof (sent_good (V f) (R hi) (speaks f hi) ltac:(by intros q []) ltac:(by intros q []) _ _ _ _ _ Hg Ek) as Hm.
    destruct dst as [p|a|l|p]; [|apply Hacc; by apply acceptor_receives; [tc_solve|..]|apply Hlea; by apply learner_receives; [tc_solve|..]|].
    + apply at_proposer_step; [done..| |by intros _; apply follows_packet].
      intros x -> Hx0 Hx. eapply wlp_mono; [apply (packet_agreed f hi); [done..| |done]|intros ? x'; apply later_leads].
      by apply Htime.
    + apply at_proposer_step; [done..| |by intros _; apply follows_inner].
      intros x -> _ Hx. eapply wlp_mono; [by apply (inner_agreed f hi)|intros ? x'; apply later_leads].
  - apply at_proposer_step; [done..| |intros _; apply follows_timer].
    intros x -> _ Hx. by apply timer_agreed.
  - apply Hacc. apply (repeater_keeps (V f) (R hi)).
  - apply Hlea. apply hole_check_keeps.
  - apply at_proposer_step; [done..| |intros _; apply follows_learner, hole_check_keeps].
    intros x -> _ Hx. eapply wlp_mono; [by apply check_agreed|]. intros ? x'. apply Hl.
Qed.

(** The instances opened along a run, and that every promise is in time. *)
Definition run_opens evs : Z := foldr (λ ev n, event_opens ev + n) 0 evs.

Fixpoint promises_in_time evs s : Prop :=
  match evs with
  | [] => True
  | ev :: evs => event_in_time ev s ∧ (∀ s', sys_step mode junk ev s = Some s' → promises_in_time evs s')
  end.

Lemma event_opens_nonneg ev : 0 ≤ event_opens ev.
Proof using Type. destruct ev; cbn; try done. unfold timer_opens. by case_match. Qed.

Lemma run_opens_nonneg evs : 0 ≤ run_opens evs.
Proof using Type. induction evs as [|ev evs IH]; [done|]. cbn. pose proof (event_opens_nonneg ev). unfold run_opens in *. lia. Qed.

Lemma run_agrees evs f hi s s' : one_leader f hi s → Forall calm_event evs → promises_in_time evs s →
  hi + run_opens evs < 2 ^ 32 → sys_run mode junk evs s = Some s' → ∃ f' hi', one_leader f' hi' s'.
Proof using junk_ok.
  revert f hi s. induction evs as [|ev evs IH]; intros f hi s Hs Hcalm Htime Hmax; [intros [= <-]; eauto|].
  apply list.Forall_cons in Hcalm as [Hev Hcalm]. destruct Htime as [Ht Htime]. cbn [sys_run run_opens foldr] in *.
  pose proof (run_opens_nonneg evs). unfold run_opens in *.
  destruct (sys_step mode junk ev s) as [s1|] eqn:E; [|done]. cbn. intros Hrun.
  destruct (step_agrees f hi ev s s1) as (f' & hi' & _ & Hhi & H1); [done..|lia|done|].
  eapply (IH f' hi' s1); [done|done|by apply Htime|lia|done].
Qed.
End system.

Lemma start_agrees clock n m s : sys_start clock n m = Some s → ∃ hi, 0 ≤ hi ≤ PROPOSER_PREEXEC_WIN_SIZE ∧ one_leader ∅ hi s.
Proof.
  unfold sys_start. destruct (mapM (started_proposer clock) _) as [ps|] eqn:Ep; [|done]. cbn -[mapM seqZ].
  destruct (mapM _ (seqZ 0 N_OF_ACCEPTORS)) as [acs|] eqn:Ea; [|done]. cbn. intros [= <-].
  apply mapM_Some_1 in Ep.
  assert (∀ i p, ps !! i = Some p → started_proposer clock (Z.of_nat i) = Some p) as Hps.
  { intros i p Hp. destruct (Forall2_lookup_r _ _ _ _ _ Ep Hp) as (id & Hid & E).
    apply list_lookup_fmap_Some in Hid as (j & -> & [-> _]%lookup_seq). done. }
  assert (∃ hi, 0 ≤ hi ≤ PROPOSER_PREEXEC_WIN_SIZE ∧ ∀ p, ps !! 0%nat = Some p → agreed ∅ hi hi p) as (hi & Hhi & Hlead).
  { destruct (ps !! 0%nat) as [p|] eqn:E; [|by exists 0].
    destruct (proj1 (started_cases _ _ _ (Hps _ _ E)) eq_refl) as (hi & Hr & Hp). exists hi. split; [done|]. by intros q [= <-]. }
  assert (decided ∅ hi) as Hd by (split; [by intros ??|unfold PROPOSER_PREEXEC_WIN_SIZE in Hhi; lia]).
  exists hi. split; [done|]. constructor; cbn; [done|done| |by eapply start_acceptors|apply list.Forall_replicate, good_learner_init].
  intros i p Hp. by apply (started_cases _ _ _ (Hps _ _ Hp)).
Qed.

(** While fewer instances are opened than the table has slots, no promise is too
    old. *)
Lemma promises_are_in_time mode junk evs f hi s : blen junk = 4 → one_leader f hi s → Forall calm_event evs →
  hi + run_opens evs < PROPOSER_ARRAY_SIZE → promises_in_time mode junk evs s.
Proof.
  unfold PROPOSER_ARRAY_SIZE. intros Hj. revert f hi s. induction evs as [|ev evs IH]; intros f hi s Hs Hcalm Hmax; [done|].
  apply list.Forall_cons in Hcalm as [Hev Hcalm]. cbn [run_opens foldr] in Hmax.
  pose proof (run_opens_nonneg evs) as Hn. unfold run_opens in *. pose proof (event_opens_nonneg ev).
  assert (event_in_time ev s) as Ht.
  { destruct ev as [| |[[|]| | |] src k| | | |]; try done. intros p m Hp Hm.
    pose proof (sent_good (V f) (R hi) (speaks f hi) ltac:(by intros q []) ltac:(by intros q []) _ _ _ _ _
      (one_leader_good _ _ _ Hs) Hm) as [_ Hv _].
    destruct m; try done. cbn in *. eapply list.Forall_impl; [exact Hv|]. intros pa [[HR _] _]. unfold in_time.
    rewrite (ag_open _ _ _ _ (ol_leader _ _ _ Hs p Hp)). unfold PROPOSER_ARRAY_SIZE. lia. }
  split; [done|]. intros s1 E.
  destruct (step_agrees mode junk Hj f hi ev s s1) as (f' & hi' & _ & Hhi & H1); [done..|lia|done|].
  apply (IH f' hi'); [done|done|lia].
Qed.

(** What the learners deliver, those of the proposers too. *)
Definition all_deliveries s : list (list delivery) :=
  (delivered <$> learners s) ++ ((λ p, delivered (lea p)) <$> proposers s).

Lemma all_deliveries_good f hi s ds : one_leader f hi s → ds ∈ all_deliveries s →
  ∃ l, good_learner (V f) (R hi) l ∧ ds = delivered l.
Proof.
  intros H. unfold all_deliveries. intros [(l & -> & Hl)%list_elem_of_fmap|(p & -> & Hp)%list_elem_of_fmap]%elem_of_app.
  - exists l. split; [|done]. exact (proj1 (list.Forall_forall _ _) (ol_learners _ _ _ H) l Hl).
  - exists (lea p). split; [|done]. exact (proj2 (proj1 (list.Forall_forall _ _) (one_leader_speaks _ _ _ H) p Hp)).
Qed.

(** The [i]-th delivery is the value decided for instance [1 + i]; the numbers do
    not wrap, because nothing is decided for 0. *)
Lemma delivered_decided f hi l : decided f hi → good_learner (V f) (R hi) l →
  ∀ i d, delivered l !! i = Some d → d_iid d = 1 + Z.of_nat i ∧ f !! d_iid d = Some (d_value d).
Proof.
  intros Hd [_ Hv [Ho _] _].
  assert (∀ i d, delivered l !! i = Some d → d_iid d = u32 (1 + Z.of_nat i) ∧ f !! d_iid d = Some (d_value d)) as Hi.
  { intros i d E. split; [|exact (list.Forall_lookup_1 _ _ _ _ Hv E)].
    assert ((d_iid <$> delivered l) !! i = Some (d_iid d)) as E1 by by rewrite list_lookup_fmap, E.
    rewrite Ho, list_lookup_fmap in E1. apply lookup_lt_Some in E. rewrite lookup_seqZ_lt in E1 by lia. by injection E1 as <-. }
  intros i d E. destruct (Hi i d E) as [E1 E2]. split; [|done]. rewrite E1. apply wrap_small. split; [lia|].
  apply Z.nle_gt. intros Hge. assert (∃ j, Z.of_nat j = 2 ^ 32 - 1) as [j Hj] by (exists (Z.to_nat (2 ^ 32 - 1)); by apply Z2Nat.id).
  destruct (lookup_lt_is_Some_2 (delivered l) j) as [d' E']; [apply lookup_lt_Some in E; lia|].
  destruct (Hi j d' E') as [E3 E4]. rewrite Hj in E3. rewrite E3 in E4. pose proof (decided_zero f hi Hd) as Hz.
  change (u32 (1 + (2 ^ 32 - 1))) with 0 in E4. by rewrite Hz in E4.
Qed.

(** C3. Total order under one leader.  Take any run of proposers, acceptors and
    learners from their start in which the oracle only ever names proposer 0 and
    clients submit values of at most [PAXOS_MAX_VALUE_SIZE] bytes: timers fire,
    phase 1 and phase 2 are restarted, and packets are lost, repeated and
    reordered.  While instance numbers do not wrap and no promise reaches the
    leader after its table went round, every learner has delivered the instances
    1, 2, 3, ... in order, once each, and of two learners, one has delivered a
    prefix of the values of the other. *)
Theorem single_leader_total_order clock n m mode (junk : list byte) evs s0 s ds ds' :
  blen junk = 4 → sys_start clock n m = Some s0 → sys_run mode junk evs s0 = Some s →
  Forall calm_event evs → promises_in_time mode junk evs s0 →
  PROPOSER_PREEXEC_WIN_SIZE + run_opens evs < 2 ^ 32 →
  ds ∈ all_deliveries s → ds' ∈ all_deliveries s → (length ds ≤ length ds')%nat →
  d_iid <$> ds = seqZ 1 (Z.of_nat (length ds)) ∧ (d_value <$> ds) `prefix_of` (d_value <$> ds').
Proof.
  intros Hj Hstart Hrun Hcalm Htime Hmax Hds Hds' Hlen. destruct (start_agrees _ _ _ _ Hstart) as (hi0 & Hhi0 & H0).
  destruct (run_agrees mode junk Hj evs ∅ hi0 s0 s) as (f & hi & H); [done..|lia|done|].
  destruct (all_deliveries_good _ _ _ _ H Hds) as (l & Hl & ->), (all_deliveries_good _ _ _ _ H Hds') as (l' & Hl' & ->).
  pose proof (delivered_decided f hi l (ol_decided _ _ _ H) Hl) as Hi.
  pose proof (delivered_decided f hi l' (ol_decided _ _ _ H) Hl') as Hi'. split.
  - apply list_eq_same_length with (n := length (delivered l)); [by rewrite length_seqZ, Nat2Z.id|by rewrite length_fmap|].
    intros i x y Hin Hx Hy. rewrite lookup_seqZ_lt in Hy by lia. rewrite list_lookup_fmap in Hx.
    destruct (delivered l !! i) as [d|] eqn:E; [|done]. destruct (Hi i d E) as [E1 _]. cbn in Hx. simplify_eq. by rewrite E1.
  - apply prefix_lookups. intros i x. rewrite !list_lookup_fmap. destruct (delivered l !! i) as [d|] eqn:E; [|done]. cbn.
    intros [= <-]. destruct (lookup_lt_is_Some_2 (delivered l') i) as [d' E']; [apply lookup_lt_Some in E; lia|].
    rewrite E'. cbn. destruct (Hi i d E) as [E1 E2], (Hi' i d' E') as [E3 E4]. rewrite E3, <-E1 in E4. congruence.
Qed.

(** The leader has the value [a] accepted for instance 1 and [b] for instance 2;
    learner 0 delivers both, learner 1 does not hear of the second. *)
Definition two_values : list sys_event :=
  [ClientSends 0 [x61]; Receives (Acceptor 0) (Proposer 0) 0; Receives (Acceptor 1) (Proposer 0) 0;
   Receives (Proposer 0) (Acceptor 0) 0; Receives (Proposer 0) (Acceptor 1) 0;
   Receives (Acceptor 0) (Proposer 0) 1; Receives (Acceptor 1) (Proposer 0) 1;
   ClientSends 0 [x62]; TimerFires 0 p2_check_event;
   Receives (Acceptor 0) (Proposer 0) 2; Receives (Acceptor 1) (Proposer 0) 2;
   Receives (Learner 0) (Acceptor 0) 1; Receives (Learner 0) (Acceptor 1) 1;
   Receives (Learner 0) (Acceptor 1) 0; Receives (Learner 0) (Acceptor 0) 0;
   Receives (Learner 1) (Acceptor 0) 0; Receives (Learner 1) (Acceptor 1) 0].

Lemma two_values_deliveries junk : blen junk = 4 → deliveries_after junk 2 2 two_values =
  Some [[mk_delivery [x61] 1 10 0; mk_delivery [x62] 2 10 0]; [mk_delivery [x61] 1 10 0]].
Proof. intros Hj. apply deliveries_fast; [done|by vm_compute]. Qed.

Lemma two_values_in_time s0 : sys_start still_clock 2 2 = Some s0 → promises_in_time 0 (replicate 4 x00) two_values s0.
Proof.
  intros (hi & Hhi & H)%start_agrees. eapply promises_are_in_time; [done|exact H| |].
  - by repeat (constructor; [done|]).
  - unfold PROPOSER_PREEXEC_WIN_SIZE, PROPOSER_ARRAY_SIZE in *. change (run_opens two_values) with 0. lia.
Qed.

Lemma single_leader_total_order_witness : ∃ s0 s ds ds',
  sys_start still_clock 2 2 = Some s0 ∧ sys_run 0 (replicate 4 x00) two_values s0 = Some s ∧
  length ds = 1%nat ∧ length ds' = 2%nat ∧ ds ∈ all_deliveries s ∧ ds' ∈ all_deliveries s ∧
  d_iid <$> ds = seqZ 1 (Z.of_nat (length ds)) ∧ (d_value <$> ds) `prefix_of` (d_value <$> ds').
Proof.
  destruct (deliveries_run _ _ _ _ _ (two_values_deliveries (replicate 4 x00) eq_refl)) as (s & E & Hs).
  apply bind_Some in E as (s0 & E0 & E). pose proof (two_values_in_time s0 E0) as Ht.
  pose (ds := [mk_delivery [x61] 1 10 0]). pose (ds' := [mk_delivery [x61] 1 10 0; mk_delivery [x62] 2 10 0]).
  assert (ds ∈ all_deliveries s ∧ ds' ∈ all_deliveries s) as [Hd Hd'].
  { unfold all_deliveries. rewrite Hs. split; apply elem_of_app; left; unfold ds, ds'; [right|]; left. }
  exists s0, s, ds, ds'. split; [exact E0|]. split; [exact E|]. split; [reflexivity|]. split; [reflexivity|].
  split; [exact Hd|]. split; [exact Hd'|].
  refine (single_leader_total_order still_clock 2 2 0 (replicate 4 x00) two_values s0 s ds ds' eq_refl E0 E _ Ht eq_refl Hd Hd' _).
  - by repeat (constructor; [done|]).
  - unfold ds, ds'. cbn. lia.
Defined.
