(* ===== verification/RingConfig.v ===== *)
(** * The configuration of RingPaxos

    [ring_paxos/lib/config_parser.c], from the values of a configuration file
    on, and the macros of [lp_config_parser_macros.h].  What the operating
    system knows is a parameter: whether a string is an address for
    [inet_addr], and the limits of the socket buffers.  The lines are
    those that [RingConfigText] reads in the text of the file. *)
From Stdlib Require Import String.
From S2P Require Import Prelude Timers.

Definition MAX_ACCEPTORS : Z := 10.

Record acceptor_info := mk_acceptor_info {
  ai_id : Z;                 (* uint8_t *)
  ip_addr : string;
  inbound_port : Z;          (* int *)
  learners_port : Z
}.

Definition no_acceptor : acceptor_info := mk_acceptor_info 0 EmptyString 0 0.

Record config_mngr := mk_config_mngr {
  self_acceptor_id : Z;      (* uint8_t *)
  acceptors_count : Z;       (* int *)
  p1_interval : timeval;
  p2_interval : timeval;
  delivery_check_interval : timeval;
  mcaster_clock_interval : timeval;
  default_autoflush_interval : Z;
  retransmit_request_interval : timeval;
  socket_buffers_size : Z;
  mcast_addr : string;
  mcast_port : Z;
  quorum_size : Z;           (* unsigned *)
  working_set_size : Z;      (* int *)
  max_active_instances : Z;
  preexecution_window_size : Z;
  max_p2_open_per_iteration : Z;
  max_client_values_queue_size : Z;
  acc_infos : list acceptor_info
}.

#[export] Instance set_acceptors_count : Setter acceptors_count := λ g r,
  mk_config_mngr (self_acceptor_id r) (g (acceptors_count r)) (p1_interval r) (p2_interval r)
    (delivery_check_interval r) (mcaster_clock_interval r) (default_autoflush_interval r)
    (retransmit_request_interval r) (socket_buffers_size r) (mcast_addr r) (mcast_port r)
    (quorum_size r) (working_set_size r) (max_active_instances r) (preexecution_window_size r)
    (max_p2_open_per_iteration r) (max_client_values_queue_size r) (acc_infos r).
#[global] Arguments set_acceptors_count _ _ /.
#[export] Instance set_p1_interval : Setter p1_interval := λ g r,
  mk_config_mngr (self_acceptor_id r) (acceptors_count r) (g (p1_interval r)) (p2_interval r)
    (delivery_check_interval r) (mcaster_clock_interval r) (default_autoflush_interval r)
    (retransmit_request_interval r) (socket_buffers_size r) (mcast_addr r) (mcast_port r)
    (quorum_size r) (working_set_size r) (max_active_instances r) (preexecution_window_size r)
    (max_p2_open_per_iteration r) (max_client_values_queue_size r) (acc_infos r).
#[global] Arguments set_p1_interval _ _ /.
#[export] Instance set_p2_interval : Setter p2_interval := λ g r,
  mk_config_mngr (self_acceptor_id r) (acceptors_count r) (p1_interval r) (g (p2_interval r))
    (delivery_check_interval r) (mcaster_clock_interval r) (default_autoflush_interval r)
    (retransmit_request_interval r) (socket_buffers_size r) (mcast_addr r) (mcast_port r)
    (quorum_size r) (working_set_size r) (max_active_instances r) (preexecution_window_size r)
    (max_p2_open_per_iteration r) (max_client_values_queue_size r) (acc_infos r).
#[global] Arguments set_p2_interval _ _ /.
#[export] Instance set_delivery_check_interval : Setter delivery_check_interval := λ g r,
  mk_config_mngr (self_acceptor_id r) (acceptors_count r) (p1_interval r) (p2_interval r) (g
    (delivery_check_interval r)) (mcaster_clock_interval r) (default_autoflush_interval r)
    (retransmit_request_interval r) (socket_buffers_size r) (mcast_addr r) (mcast_port r)
    (quorum_size r) (working_set_size r) (max_active_instances r) (preexecution_window_size r)
    (max_p2_open_per_iteration r) (max_client_values_queue_size r) (acc_infos r).
#[global] Arguments set_delivery_check_interval _ _ /.
#[export] Instance set_mcaster_clock_interval : Setter mcaster_clock_interval := λ g r,
  mk_config_mngr (self_acceptor_id r) (acceptors_count r) (p1_interval r) (p2_interval r)
    (delivery_check_interval r) (g (mcaster_clock_interval r)) (default_autoflush_interval r)
    (retransmit_request_interval r) (socket_buffers_size r) (mcast_addr r) (mcast_port r)
    (quorum_size r) (working_set_size r) (max_active_instances r) (preexecution_window_size r)
    (max_p2_open_per_iteration r) (max_client_values_queue_size r) (acc_infos r).
#[global] Arguments set_mcaster_clock_interval _ _ /.
#[export] Instance set_default_autoflush_interval : Setter default_autoflush_interval := λ g r,
  mk_config_mngr (self_acceptor_id r) (acceptors_count r) (p1_interval r) (p2_interval r)
    (delivery_check_interval r) (mcaster_clock_interval r) (g (default_autoflush_interval r))
    (retransmit_request_interval r) (socket_buffers_size r) (mcast_addr r) (mcast_port r)
    (quorum_size r) (working_set_size r) (max_active_instances r) (preexecution_window_size r)
    (max_p2_open_per_iteration r) (max_client_values_queue_size r) (acc_infos r).
#[global] Arguments set_default_autoflush_interval _ _ /.
#[export] Instance set_retransmit_request_interval : Setter retransmit_request_interval := λ g
    r,
  mk_config_mngr (self_acceptor_id r) (acceptors_count r) (p1_interval r) (p2_interval r)
    (delivery_check_interval r) (mcaster_clock_interval r) (default_autoflush_interval r) (g
    (retransmit_request_interval r)) (socket_buffers_size r) (mcast_addr r) (mcast_port r)
    (quorum_size r) (working_set_size r) (max_active_instances r) (preexecution_window_size r)
    (max_p2_open_per_iteration r) (max_client_values_queue_size r) (acc_infos r).
#[global] Arguments set_retransmit_request_interval _ _ /.
#[export] Instance set_socket_buffers_size : Setter socket_buffers_size := λ g r,
  mk_config_mngr (self_acceptor_id r) (acceptors_count r) (p1_interval r) (p2_interval r)
    (delivery_check_interval r) (mcaster_clock_interval r) (default_autoflush_interval r)
    (retransmit_request_interval r) (g (socket_buffers_size r)) (mcast_addr r) (mcast_port r)
    (quorum_size r) (working_set_size r) (max_active_instances r) (preexecution_window_size r)
    (max_p2_open_per_iteration r) (max_client_values_queue_size r) (acc_infos r).
#[global] Arguments set_socket_buffers_size _ _ /.
#[export] Instance set_mcast_addr : Setter mcast_addr := λ g r,
  mk_config_mngr (self_acceptor_id r) (acceptors_count r) (p1_interval r) (p2_interval r)
    (delivery_check_interval r) (mcaster_clock_interval r) (default_autoflush_interval r)
    (retransmit_request_interval r) (socket_buffers_size r) (g (mcast_addr r)) (mcast_port r)
    (quorum_size r) (working_set_size r) (max_active_instances r) (preexecution_window_size r)
    (max_p2_open_per_iteration r) (max_client_values_queue_size r) (acc_infos r).
#[global] Arguments set_mcast_addr _ _ /.
#[export] Instance set_mcast_port : Setter mcast_port := λ g r,
  mk_config_mngr (self_acceptor_id r) (acceptors_count r) (p1_interval r) (p2_interval r)
    (delivery_check_interval r) (mcaster_clock_interval r) (default_autoflush_interval r)
    (retransmit_request_interval r) (socket_buffers_size r) (mcast_addr r) (g (mcast_port r))
    (quorum_size r) (working_set_size r) (max_active_instances r) (preexecution_window_size r)
    (max_p2_open_per_iteration r) (max_client_values_queue_size r) (acc_infos r).
#[global] Arguments set_mcast_port _ _ /.
#[export] Instance set_quorum_size : Setter quorum_size := λ g r,
  mk_config_mngr (self_acceptor_id r) (acceptors_count r) (p1_interval r) (p2_interval r)
    (delivery_check_interval r) (mcaster_clock_interval r) (default_autoflush_interval r)
    (retransmit_request_interval r) (socket_buffers_size r) (mcast_addr r) (mcast_port r) (g
    (quorum_size r)) (working_set_size r) (max_active_instances r) (preexecution_window_size r)
    (max_p2_open_per_iteration r) (max_client_values_queue_size r) (acc_infos r).
#[global] Arguments set_quorum_size _ _ /.
#[export] Instance set_working_set_size : Setter working_set_size := λ g r,
  mk_config_mngr (self_acceptor_id r) (acceptors_count r) (p1_interval r) (p2_interval r)
    (delivery_check_interval r) (mcaster_clock_interval r) (default_autoflush_interval r)
    (retransmit_request_interval r) (socket_buffers_size r) (mcast_addr r) (mcast_port r)
    (quorum_size r) (g (working_set_size r)) (max_active_instances r) (preexecution_window_size
    r) (max_p2_open_per_iteration r) (max_client_values_queue_size r) (acc_infos r).
#[global] Arguments set_working_set_size _ _ /.
#[export] Instance set_max_active_instances : Setter max_active_instances := λ g r,
  mk_config_mngr (self_acceptor_id r) (acceptors_count r) (p1_interval r) (p2_interval r)
    (delivery_check_interval r) (mcaster_clock_interval r) (default_autoflush_interval r)
    (retransmit_request_interval r) (socket_buffers_size r) (mcast_addr r) (mcast_port r)
    (quorum_size r) (working_set_size r) (g (max_active_instances r)) (preexecution_window_size
    r) (max_p2_open_per_iteration r) (max_client_values_queue_size r) (acc_infos r).
#[global] Arguments set_max_active_instances _ _ /.
#[export] Instance set_preexecution_window_size : Setter preexecution_window_size := λ g r,
  mk_config_mngr (self_acceptor_id r) (acceptors_count r) (p1_interval r) (p2_interval r)
    (delivery_check_interval r) (mcaster_clock_interval r) (default_autoflush_interval r)
    (retransmit_request_interval r) (socket_buffers_size r) (mcast_addr r) (mcast_port r)
    (quorum_size r) (working_set_size r) (max_active_instances r) (g (preexecution_window_size
    r)) (max_p2_open_per_iteration r) (max_client_values_queue_size r) (acc_infos r).
#[global] Arguments set_preexecution_window_size _ _ /.
#[export] Instance set_max_p2_open_per_iteration : Setter max_p2_open_per_iteration := λ g r,
  mk_config_mngr (self_acceptor_id r) (acceptors_count r) (p1_interval r) (p2_interval r)
    (delivery_check_interval r) (mcaster_clock_interval r) (default_autoflush_interval r)
    (retransmit_request_interval r) (socket_buffers_size r) (mcast_addr r) (mcast_port r)
    (quorum_size r) (working_set_size r) (max_active_instances r) (preexecution_window_size r)
    (g (max_p2_open_per_iteration r)) (max_client_values_queue_size r) (acc_infos r).
#[global] Arguments set_max_p2_open_per_iteration _ _ /.
#[export] Instance set_max_client_values_queue_size : Setter max_client_values_queue_size := λ
    g r,
  mk_config_mngr (self_acceptor_id r) (acceptors_count r) (p1_interval r) (p2_interval r)
    (delivery_check_interval r) (mcaster_clock_interval r) (default_autoflush_interval r)
    (retransmit_request_interval r) (socket_buffers_size r) (mcast_addr r) (mcast_port r)
    (quorum_size r) (working_set_size r) (max_active_instances r) (preexecution_window_size r)
    (max_p2_open_per_iteration r) (g (max_client_values_queue_size r)) (acc_infos r).
#[global] Arguments set_max_client_values_queue_size _ _ /.
#[export] Instance set_acc_infos : Setter acc_infos := λ g r,
  mk_config_mngr (self_acceptor_id r) (acceptors_count r) (p1_interval r) (p2_interval r)
    (delivery_check_interval r) (mcaster_clock_interval r) (default_autoflush_interval r)
    (retransmit_request_interval r) (socket_buffers_size r) (mcast_addr r) (mcast_port r)
    (quorum_size r) (working_set_size r) (max_active_instances r) (preexecution_window_size r)
    (max_p2_open_per_iteration r) (max_client_values_queue_size r) (g (acc_infos r)).
#[global] Arguments set_acc_infos _ _ /.

(** [calloc] *)
Definition config_calloc (acceptor_id : Z) : config_mngr :=
  let z := timeval_zero in
  mk_config_mngr acceptor_id 0 z z z z 0 z 0 EmptyString 0 0 0 0 0 0 0 (replicate (Z.to_nat MAX_ACCEPTORS) no_acceptor).

Implicit Types (cfg cm : config_mngr).

Abbreviation CM := (M config_mngr).

(** The incarnation is not implemented. *)
Definition incarnation_number : Z := 0.

(** The result of an [int] operation, which must not overflow. *)
Definition in_int (x : Z) : bool := (- 2 ^ 31 <=? x) && (x <? 2 ^ 31).

(** [(int)x], for an unsigned [x]. *)
Definition to_int (x : Z) : Z := if x <? 2 ^ 31 then x else x - 2 ^ 32.

(** ** Accessors *)

Definition lpconfig_get_acceptor_info cfg (acceptor : Z) : option acceptor_info :=
  if MAX_ACCEPTORS <? acceptor then None
  else ai ← arr_get (acc_infos cfg) acceptor; if MAX_ACCEPTORS <? ai_id ai then None else Some ai.

(** ** Reading the file

    A line, as [sscanf] reads it. *)
Inductive config_line :=
  | LSkip                                        (* a comment or an empty line *)
  | LP1Interval (tv : timeval) | LP2Interval (tv : timeval) | LMcasterClock (tv : timeval)
  | LDeliveryCheck (tv : timeval) | LRetransmit (tv : timeval)
  | LAutoflush (v : Z) | LSocketBuffers (v : Z) | LQuorum (v : Z) | LWorkingSet (v : Z)
  | LMaxActive (v : Z) | LPreexecution (v : Z) | LMaxP2 (v : Z) | LClientQueue (v : Z)
  | LMulticast (addr : string) (port : option Z)   (* the port may be missing *)
  | LAcceptor (id : Z) (ip : string) (port1 port2 : Z)
  | LOther.

(** [false]: the acceptor is refused. *)
Definition add_acceptor_info (acc_id : Z) (tmp_ip : string) (port_in port_lea : Z) : CM bool :=
  if (acc_id <=? 0) || (MAX_ACCEPTORS <? acc_id) then mret false
  else if 15 <? Z.of_nat (String.length tmp_ip) then mret false
  else
    cm ← get;
    _ ← lift_opt (arr_get (acc_infos cm) acc_id);
    modify (λ cm, cm <| acc_infos ::= λ l, arr_set l acc_id (mk_acceptor_info acc_id tmp_ip port_in port_lea) |>);;
    modify (λ cm, cm <| acceptors_count := acceptors_count cm + 1 |>);;
    mret true.

Definition parse_line (line : config_line) : CM bool :=
  match line with
  | LSkip => mret true
  | LP1Interval tv => modify (λ cm, cm <| p1_interval := tv |>);; mret true
  | LP2Interval tv => modify (λ cm, cm <| p2_interval := tv |>);; mret true
  | LMcasterClock tv => modify (λ cm, cm <| mcaster_clock_interval := tv |>);; mret true
  | LDeliveryCheck tv => modify (λ cm, cm <| delivery_check_interval := tv |>);; mret true
  | LRetransmit tv => modify (λ cm, cm <| retransmit_request_interval := tv |>);; mret true
  | LAutoflush v => modify (λ cm, cm <| default_autoflush_interval := v |>);; mret true
  | LSocketBuffers v => modify (λ cm, cm <| socket_buffers_size := v |>);; mret true
  | LQuorum v => modify (λ cm, cm <| quorum_size := u32 v |>);; mret true
  | LWorkingSet v => modify (λ cm, cm <| working_set_size := v |>);; mret true
  | LMaxActive v => modify (λ cm, cm <| max_active_instances := v |>);; mret true
  | LPreexecution v => modify (λ cm, cm <| preexecution_window_size := v |>);; mret true
  | LMaxP2 v => modify (λ cm, cm <| max_p2_open_per_iteration := v |>);; mret true
  | LClientQueue v => modify (λ cm, cm <| max_client_values_queue_size := v |>);; mret true
  | LMulticast addr port => modify (λ cm, cm <| mcast_addr := addr |> <| mcast_port := default (mcast_port cm) port |>);; mret true
  | LAcceptor id ip port1 port2 => add_acceptor_info id ip port1 port2
  | LOther => mret false
  end.

(** [open_and_parse], for a file that can be opened. *)
Fixpoint open_and_parse (lines : list config_line) : CM bool :=
  match lines with
  | [] => mret true
  | line :: lines => ok ← parse_line line; if ok : bool then open_and_parse lines else mret false
  end.

(** ** Validation

    A check that fails goes to the error label. *)
Section validation.
Context (inet_addr_ok : string → bool) (rbuf_max wbuf_max : Z).

Fixpoint validate_seq (checks : list (CM bool)) : CM bool :=
  match checks with
  | [] => mret true
  | c :: checks => ok ← c; if ok : bool then validate_seq checks else mret false
  end.

Definition VALIDATE_ADDRESS (addr : config_mngr → string) : CM bool := gets (λ cfg, inet_addr_ok (addr cfg)).
Definition VALIDATE_PORTNUMBER (port : config_mngr → Z) : CM bool := gets (λ cfg, negb (port cfg <=? 1024)).
Definition VALIDATE_INT_NONZERO (x : config_mngr → Z) : CM bool := gets (λ cfg, negb (x cfg <=? 0)).

Definition VALIDATE_INT_NONZERO_OR_DEFAULT (x : config_mngr → Z) (set : Z → config_mngr → config_mngr) (def : Z) : CM bool :=
  modify (λ cfg, if x cfg <=? 0 then set def cfg else cfg);; mret true.

(** [! X OP Y] is [(!X) OP Y]. *)
Definition VALIDATE_INT_COMPARISON (x y : config_mngr → Z) (op : Z → Z → bool) : CM bool :=
  gets (λ cfg, negb (op (if x cfg =? 0 then 1 else 0) (y cfg))).

Definition tv_zero_or_less (t : timeval) : bool := tv_sec t * 1000000 + tv_usec t <=? 0.
Definition VALIDATE_TIMEVAL_NONZERO (tv : config_mngr → timeval) : CM bool := gets (λ cfg, negb (tv_zero_or_less (tv cfg))).

Definition VALIDATE_TIMEVAL_NONZERO_OR_DEFAULT (tv : config_mngr → timeval)
    (set : timeval → config_mngr → config_mngr) (def : timeval) : CM bool :=
  modify (λ cfg, if tv_zero_or_less (tv cfg) then set def cfg else cfg);; mret true.

Definition VALIDATE_TIMEVAL_GREATER_EQUAL_THAN (tv1 tv2 : config_mngr → timeval) : CM bool :=
  gets (λ cfg, let a := tv1 cfg in let b := tv2 cfg in
    negb ((tv_sec a <? tv_sec b) || ((tv_sec b =? tv_sec a) && (tv_usec a <? tv_usec b)))).

Definition validate_socket_buffer_size : CM bool :=
  gets (λ cfg, (socket_buffers_size cfg <=? 0) ||
    negb ((rbuf_max <? 0) || (rbuf_max <? socket_buffers_size cfg) ||
          (wbuf_max <? 0) || (wbuf_max <? socket_buffers_size cfg))).

(** The working set has room for the two windows. *)
Definition validate_windows : CM bool :=
  cfg ← get;
  c_assert (in_int (max_active_instances cfg * 2));;
  c_assert (in_int (preexecution_window_size cfg + max_active_instances cfg));;
  mret (negb (working_set_size cfg <=? preexecution_window_size cfg + max_active_instances cfg)).

(** The loop over the acceptors; the result counts them. *)
Fixpoint validate_acceptors (ids : list Z) (count : Z) : CM (option Z) :=
  match ids with
  | [] => mret (Some count)
  | i :: ids =>
      cfg ← get;
      ai ← lift_opt (lpconfig_get_acceptor_info cfg i);
      if ai_id ai =? 0 then validate_acceptors ids count
      else
        c_assert (i =? ai_id ai);;
        if negb (inet_addr_ok (ip_addr ai)) then mret None
        else if learners_port ai <=? 1024 then mret None
        else if inbound_port ai <=? 1024 then mret None
        else validate_acceptors ids (count + 1)
  end.

Definition validate_acceptors_count : CM bool :=
  count ← validate_acceptors (seqZ 1 (MAX_ACCEPTORS - 1)) 0;
  match count with
  | Some count => VALIDATE_INT_COMPARISON acceptors_count (λ _, count) Z.eqb
  | None => mret false
  end.

(** The checks; [true] stands for the result 0, [false] for -1. *)
Definition validate_checks : list (CM bool) := [
  VALIDATE_ADDRESS mcast_addr;
  VALIDATE_PORTNUMBER mcast_port;
  VALIDATE_TIMEVAL_NONZERO p1_interval;
  VALIDATE_TIMEVAL_NONZERO p2_interval;
  VALIDATE_TIMEVAL_NONZERO_OR_DEFAULT mcaster_clock_interval (λ v cfg, cfg <| mcaster_clock_interval := v |>) (mk_timeval 0 100000);
  VALIDATE_TIMEVAL_GREATER_EQUAL_THAN p2_interval mcaster_clock_interval;
  VALIDATE_TIMEVAL_GREATER_EQUAL_THAN p1_interval mcaster_clock_interval;
  VALIDATE_TIMEVAL_NONZERO_OR_DEFAULT delivery_check_interval (λ v cfg, cfg <| delivery_check_interval := v |>) (mk_timeval 1 0);
  VALIDATE_TIMEVAL_NONZERO_OR_DEFAULT retransmit_request_interval (λ v cfg, cfg <| retransmit_request_interval := v |>) (mk_timeval 1 0);
  VALIDATE_TIMEVAL_GREATER_EQUAL_THAN retransmit_request_interval delivery_check_interval;
  VALIDATE_INT_NONZERO quorum_size;
  VALIDATE_INT_COMPARISON acceptors_count (λ cfg, to_int (quorum_size cfg)) Z.geb;
  VALIDATE_INT_NONZERO_OR_DEFAULT default_autoflush_interval (λ v cfg, cfg <| default_autoflush_interval := v |>) 50;
  VALIDATE_INT_NONZERO_OR_DEFAULT working_set_size (λ v cfg, cfg <| working_set_size := v |>) 100;
  VALIDATE_INT_NONZERO_OR_DEFAULT max_active_instances (λ v cfg, cfg <| max_active_instances := v |>) 25;
  VALIDATE_INT_NONZERO_OR_DEFAULT preexecution_window_size (λ v cfg, cfg <| preexecution_window_size := v |>) 50;
  VALIDATE_INT_NONZERO_OR_DEFAULT max_p2_open_per_iteration (λ v cfg, cfg <| max_p2_open_per_iteration := v |>) 10;
  VALIDATE_INT_NONZERO_OR_DEFAULT max_client_values_queue_size (λ v cfg, cfg <| max_client_values_queue_size := v |>) 100;
  validate_socket_buffer_size;
  VALIDATE_INT_COMPARISON working_set_size max_active_instances Z.gtb;
  validate_windows;
  validate_acceptors_count].

Definition validate_config : CM bool := validate_seq validate_checks.

(** [config_mngr_init]: the configuration that was loaded and validated. *)
Definition config_mngr_init (acceptor_id : Z) (lines : list config_line) : option (bool * config_mngr) :=
  (ok ← open_and_parse lines; if ok : bool then validate_config else mret false) (config_calloc acceptor_id).
End validation.

(** ** What validation guarantees *)

Record config_ok cfg : Prop := {
  co_p1 : 0 < tv_micros (p1_interval cfg);
  co_p2 : 0 < tv_micros (p2_interval cfg);
  co_clock : 0 < tv_micros (mcaster_clock_interval cfg);
  co_retransmit : 0 < tv_micros (retransmit_request_interval cfg);
  co_quorum : 0 < quorum_size cfg;
  co_active : 0 < max_active_instances cfg;
  co_window : 0 < preexecution_window_size cfg;
  co_p2_open : 0 < max_p2_open_per_iteration cfg;
  co_room : preexecution_window_size cfg + max_active_instances cfg < working_set_size cfg;
  co_int : working_set_size cfg < 2 ^ 31
}.

(** A check that succeeds makes its condition true, and the later ones keep it. *)
Definition establishes (c : CM bool) (P : config_mngr → Prop) : Prop := ∀ cfg cfg', c cfg = Some (true, cfg') → P cfg'.
Definition keeps (P : config_mngr → Prop) (c : CM bool) : Prop :=
  ∀ cfg cfg', c cfg = Some (true, cfg') → P cfg → P cfg'.

Fixpoint keep_later (checks : list (CM bool)) (Ps : list (config_mngr → Prop)) : Prop :=
  match checks, Ps with
  | _ :: checks, P :: Ps => Forall (keeps P) checks ∧ keep_later checks Ps
  | _, _ => True
  end.

Lemma validate_seq_cons c checks cfg cfg' : validate_seq (c :: checks) cfg = Some (true, cfg') →
  ∃ cfg1, c cfg = Some (true, cfg1) ∧ validate_seq checks cfg1 = Some (true, cfg').
Proof.
  cbn. unfold mbind, M_bind. destruct (c cfg) as [[[] cfg1]|]; [|done|done]. intros H. by exists cfg1.
Qed.

Lemma validate_seq_keeps checks P cfg cfg' :
  Forall (keeps P) checks → validate_seq checks cfg = Some (true, cfg') → P cfg → P cfg'.
Proof.
  intros H. revert cfg. induction H as [|c checks Hc _ IH]; intros cfg Hrun HP.
  - by injection Hrun as <-.
  - apply validate_seq_cons in Hrun as (cfg1 & E & Hrun). by eapply IH, Hc.
Qed.

Lemma validate_seq_spec checks Ps cfg cfg' :
  Forall2 establishes checks Ps → keep_later checks Ps →
  validate_seq checks cfg = Some (true, cfg') → Forall (λ P, P cfg') Ps.
Proof.
  intros H. revert cfg. induction H as [|c P checks Ps Hc _ IH]; intros cfg Hkeep Hrun; [constructor|].
  apply validate_seq_cons in Hrun as (cfg1 & E & Hrun). destruct Hkeep as [Hk1 Hk2]. constructor; [|by eapply IH].
  eapply validate_seq_keeps; [done..|]. by eapply Hc.
Qed.

(** The condition each check of [validate_config] establishes, in its order. *)
Definition conditions : list (config_mngr → Prop) := [
  (λ _, True); (λ cfg, 1024 < mcast_port cfg);
  (λ cfg, 0 < tv_micros (p1_interval cfg)); (λ cfg, 0 < tv_micros (p2_interval cfg));
  (λ cfg, 0 < tv_micros (mcaster_clock_interval cfg)); (λ _, True); (λ _, True);
  (λ _, True); (λ cfg, 0 < tv_micros (retransmit_request_interval cfg)); (λ _, True);
  (λ cfg, 0 < quorum_size cfg); (λ _, True); (λ _, True);
  (λ cfg, 0 < working_set_size cfg); (λ cfg, 0 < max_active_instances cfg);
  (λ cfg, 0 < preexecution_window_size cfg); (λ cfg, 0 < max_p2_open_per_iteration cfg);
  (λ cfg, 0 < max_client_values_queue_size cfg); (λ _, True); (λ _, True);
  (λ cfg, preexecution_window_size cfg + max_active_instances cfg < working_set_size cfg);
  (λ _, True)].

(** Evaluates a check that does not go to the error label. *)
Ltac invert_check :=
  lazymatch goal with
  | H : _ = Some (true, _) |- _ =>
      cbv [VALIDATE_ADDRESS VALIDATE_PORTNUMBER VALIDATE_INT_NONZERO VALIDATE_INT_NONZERO_OR_DEFAULT
        VALIDATE_INT_COMPARISON VALIDATE_TIMEVAL_NONZERO VALIDATE_TIMEVAL_NONZERO_OR_DEFAULT
        VALIDATE_TIMEVAL_GREATER_EQUAL_THAN validate_socket_buffer_size gets modify mbind M_bind mret M_ret] in H;
      first [injection H as H <- | injection H as <-]
  end.

Section guarantees.
Context (inet_addr_ok : string → bool) (rbuf_max wbuf_max : Z).

Lemma validate_windows_inv cfg cfg' : validate_windows cfg = Some (true, cfg') →
  cfg' = cfg ∧ preexecution_window_size cfg' + max_active_instances cfg' < working_set_size cfg'.
Proof.
  unfold validate_windows, mbind, M_bind, get, c_assert, mret, M_ret.
  destruct (in_int _); [|done]. destruct (in_int _); [|done]. intros [= H <-]. zbool. split; [done|lia].
Qed.

Lemma validate_acceptors_inv ids count cfg r cfg' :
  validate_acceptors inet_addr_ok ids count cfg = Some (r, cfg') → cfg' = cfg.
Proof.
  revert count. induction ids as [|i ids IH]; intros count; cbn; [by intros [= _ <-]|].
  unfold mbind, M_bind, get, lift_opt, c_assert. destruct (lpconfig_get_acceptor_info cfg i) as [ai|]; [|done].
  destruct (ai_id ai =? 0); [apply IH|]. destruct (i =? ai_id ai); [|done].
  destruct (negb _); [by intros [= _ <-]|]. destruct (_ <=? _); [by intros [= _ <-]|].
  destruct (_ <=? _); [by intros [= _ <-]|]. apply IH.
Qed.

Lemma validate_acceptors_count_inv cfg b cfg' :
  validate_acceptors_count inet_addr_ok cfg = Some (b, cfg') → cfg' = cfg.
Proof.
  unfold validate_acceptors_count, mbind, M_bind.
  destruct (validate_acceptors _ _ _ cfg) as [[[c|] cfg1]|] eqn:E; [| |done];
    apply validate_acceptors_inv in E as ->; cbn; intros [= _ <-]; done.
Qed.

Lemma conditions_established : Forall2 establishes (validate_checks inet_addr_ok rbuf_max wbuf_max) conditions.
Proof.
  unfold validate_checks, conditions. repeat first [apply List.Forall2_nil | apply List.Forall2_cons]; try done;
    intros cfg cfg' H; try exact (proj2 (validate_windows_inv _ _ H)); invert_check;
    unfold tv_zero_or_less in *; unfold tv_micros; cbn; zbool; try lia; case_match; zbool; cbn; lia.
Qed.

Lemma keeps_True c : keeps (λ _, True) c.
Proof. done. Qed.

Lemma conditions_kept : keep_later (validate_checks inet_addr_ok rbuf_max wbuf_max) conditions.
Proof.
  unfold validate_checks, conditions. cbn [keep_later]. split_and!; try done;
    repeat first [apply List.Forall_nil | apply List.Forall_cons]; try apply keeps_True;
    intros cfg cfg' H;
    first [apply validate_windows_inv in H as [-> _] | apply validate_acceptors_count_inv in H as -> | invert_check];
    try done; by case_match.
Qed.

(** A check other than the first one of the quorum does not look at the quorum. *)
Lemma checks_ignore_quorum q : 0 < q < 2 ^ 31 →
  Forall (λ c : CM bool, ∀ cfg cfg', c cfg = Some (true, cfg') → acceptors_count cfg ≠ 0 →
    acceptors_count cfg' = acceptors_count cfg ∧
    c (cfg <| quorum_size := q |>) = Some (true, cfg' <| quorum_size := q |>))
    (validate_checks inet_addr_ok rbuf_max wbuf_max).
Proof.
  intros Hq. assert (∀ ids count cfg r cfg', validate_acceptors inet_addr_ok ids count cfg = Some (r, cfg') →
    validate_acceptors inet_addr_ok ids count (cfg <| quorum_size := q |>) = Some (r, cfg' <| quorum_size := q |>)) as Hacc.
  { intros ids. induction ids as [|i ids IH]; intros count cfg r cfg'; cbn; [by intros [= -> <-]|].
    unfold mbind, M_bind, get, lift_opt, c_assert.
    change (lpconfig_get_acceptor_info _ i) with (lpconfig_get_acceptor_info cfg i) at 2.
    destruct (lpconfig_get_acceptor_info cfg i) as [ai|]; [|done]. destruct (ai_id ai =? 0); [apply IH|].
    destruct (i =? ai_id ai); [|done]. destruct (negb _); [by intros [= -> <-]|].
    destruct (learners_port ai <=? 1024); [by intros [= -> <-]|].
    destruct (inbound_port ai <=? 1024); [by intros [= -> <-]|]. apply IH. }
  unfold validate_checks. repeat first [apply List.Forall_nil | apply List.Forall_cons]; intros cfg cfg' H Hcount;
    try (invert_check; split; [by repeat case_match|];
      cbv [VALIDATE_ADDRESS VALIDATE_PORTNUMBER VALIDATE_INT_NONZERO_OR_DEFAULT VALIDATE_INT_COMPARISON
        VALIDATE_TIMEVAL_NONZERO VALIDATE_TIMEVAL_NONZERO_OR_DEFAULT VALIDATE_TIMEVAL_GREATER_EQUAL_THAN
        validate_socket_buffer_size gets modify mbind M_bind mret M_ret];
      cbn; first [by rewrite H | by case_match]).
  - (* the quorum is not 0 *) invert_check. split; [done|]. unfold VALIDATE_INT_NONZERO, gets. cbn.
    destruct (Z.leb_spec q 0); [lia|done].
  - (* the comparison with the number of acceptors *) invert_check. split; [done|].
    unfold VALIDATE_INT_COMPARISON, gets, to_int. cbn.
    destruct (Z.eqb_spec (acceptors_count cfg) 0); [done|]. destruct (Z.ltb_spec q (2 ^ 31)); [|lia].
    destruct (Z.geb_spec 0 q); [lia|done].
  - pose proof (validate_windows_inv _ _ H) as [-> _]. split; [done|].
    unfold validate_windows, mbind, M_bind, get, c_assert, mret, M_ret in *. cbn.
    destruct (in_int _); [|done]. destruct (in_int _); [|done]. by injection H as ->.
  - pose proof (validate_acceptors_count_inv _ _ _ H) as ->. split; [done|].
    unfold validate_acceptors_count, mbind, M_bind in *.
    destruct (validate_acceptors _ _ _ cfg) as [[[c|] cfg1]|] eqn:E; [|done|done]. rewrite (Hacc _ _ _ _ _ E).
    pose proof (validate_acceptors_inv _ _ _ _ _ E) as ->. unfold VALIDATE_INT_COMPARISON, gets in *. cbn in *.
    by injection H as ->.
Qed.

Lemma acceptors_count_kept n :
  Forall (keeps (λ cfg, acceptors_count cfg = n)) (validate_checks inet_addr_ok rbuf_max wbuf_max).
Proof.
  unfold validate_checks. repeat first [apply List.Forall_nil | apply List.Forall_cons]; intros cfg cfg' H;
    first [apply validate_windows_inv in H as [-> _] | apply validate_acceptors_count_inv in H as -> | invert_check];
    try done; by case_match.
Qed.

Lemma working_set_kept :
  Forall (keeps (λ cfg, working_set_size cfg < 2 ^ 31)) (validate_checks inet_addr_ok rbuf_max wbuf_max).
Proof.
  unfold validate_checks. repeat first [apply List.Forall_nil | apply List.Forall_cons]; intros cfg cfg' H;
    first [apply validate_windows_inv in H as [-> _] | apply validate_acceptors_count_inv in H as -> | invert_check];
    try done; case_match; cbn; lia.
Qed.

(** Every line has values of the type [int]. *)
Definition line_ok (line : config_line) : Prop :=
  match line with
  | LWorkingSet v => in_int v = true
  | _ => True
  end.

Lemma parse_line_int line cfg b cfg' : line_ok line → parse_line line cfg = Some (b, cfg') →
  working_set_size cfg < 2 ^ 31 → working_set_size cfg' < 2 ^ 31.
Proof.
  intros Hl H Hw. destruct line; cbn in H; try (injection H as _ <-; cbn in *; try done; unfold in_int in Hl; zbool; lia).
  unfold add_acceptor_info in H. destruct (_ || _); [by injection H as _ <-|].
  destruct (15 <? _); [by injection H as _ <-|].
  unfold mbind, M_bind, get, modify, lift_opt in H. destruct (arr_get _ _); [|done]. by injection H as _ <-.
Qed.

Lemma open_and_parse_int lines cfg b cfg' : Forall line_ok lines → open_and_parse lines cfg = Some (b, cfg') →
  working_set_size cfg < 2 ^ 31 → working_set_size cfg' < 2 ^ 31.
Proof.
  intros H. revert cfg. induction H as [|line lines Hl _ IH]; intros cfg; cbn; [by intros [= _ <-]|].
  unfold mbind, M_bind. destruct (parse_line line cfg) as [[[] cfg1]|] eqn:E; [|by intros [= _ <-]; eapply parse_line_int|done].
  intros Hr Hw. eapply IH; [done|]. by eapply parse_line_int.
Qed.


Lemma validate_seq_quorum checks q cfg cfg' :
  Forall (λ c : CM bool, ∀ cfg cfg', c cfg = Some (true, cfg') → acceptors_count cfg ≠ 0 →
    acceptors_count cfg' = acceptors_count cfg ∧
    c (cfg <| quorum_size := q |>) = Some (true, cfg' <| quorum_size := q |>)) checks →
  validate_seq checks cfg = Some (true, cfg') → acceptors_count cfg ≠ 0 →
  validate_seq checks (cfg <| quorum_size := q |>) = Some (true, cfg' <| quorum_size := q |>).
Proof.
  intros H. revert cfg. induction H as [|c checks Hc _ IH]; intros cfg Hrun Hcount; [by injection Hrun as <-|].
  apply validate_seq_cons in Hrun as (cfg1 & E & Hrun). destruct (Hc _ _ E Hcount) as [Hn E'].
  cbn [validate_seq]. unfold mbind, M_bind. rewrite E'. apply IH; [done|]. by rewrite Hn.
Qed.

Lemma open_and_parse_snoc lines line cfg cfg1 cfg2 :
  open_and_parse lines cfg = Some (true, cfg1) → parse_line line cfg1 = Some (true, cfg2) →
  open_and_parse (lines ++ [line]) cfg = Some (true, cfg2).
Proof.
  revert cfg. induction lines as [|l lines IH]; intros cfg H1 H2; cbn in *; unfold mbind, M_bind in *.
  - injection H1 as <-. by rewrite H2.
  - destruct (parse_line l cfg) as [[[] cfg']|]; [|done|done]. by apply IH.
Qed.

(** The size of the quorum is not compared with the number of acceptors: if a
    file is valid, the file with any other size in a last line is valid too. *)
Theorem quorum_unchecked id lines cfg q :
  0 < q < 2 ^ 31 → config_mngr_init inet_addr_ok rbuf_max wbuf_max id lines = Some (true, cfg) →
  0 < acceptors_count cfg →
  config_mngr_init inet_addr_ok rbuf_max wbuf_max id (lines ++ [LQuorum q]) = Some (true, cfg <| quorum_size := q |>).
Proof.
  intros Hq H Hn. unfold config_mngr_init, mbind, M_bind in *.
  destruct (open_and_parse lines _) as [[[] cfg1]|] eqn:E; [|done|done].
  rewrite (open_and_parse_snoc _ _ _ _ (cfg1 <| quorum_size := q |>) E).
  - apply validate_seq_quorum; [by apply checks_ignore_quorum|done|].
    assert (acceptors_count cfg = acceptors_count cfg1); [|lia].
    by apply (validate_seq_keeps _ (λ c, acceptors_count c = acceptors_count cfg1) _ _ (acceptors_count_kept _) H).
  - unfold parse_line, modify, mbind, M_bind, mret, M_ret. do 3 f_equal. rewrite wrap_small; [done|lia].
Qed.
End guarantees.

(** The acceptor with the largest id that is accepted has no entry. *)
Lemma acceptor_10_out_of_bounds ip port1 port2 cm :
  length (acc_infos cm) = Z.to_nat MAX_ACCEPTORS → (String.length ip ≤ 15)%nat → add_acceptor_info 10 ip port1 port2 cm = None.
Proof.
  intros Hlen Hip. unfold add_acceptor_info.
  replace ((10 <=? 0) || (MAX_ACCEPTORS <? 10)) with false by done.
  destruct (Z.ltb_spec 15 (Z.of_nat (String.length ip))); [lia|].
  unfold mbind, M_bind, get, lift_opt. destruct (arr_get (acc_infos cm) 10) eqn:E; [|done].
  apply arr_get_lt in E. rewrite Hlen in E. unfold MAX_ACCEPTORS in E. lia.
Qed.

(** The configuration of [ring-paxos/cluster_config.cfg]. *)
Definition cluster_config : list config_line := [
  LMulticast "228.12.12.66" (Some 6667);
  LAcceptor 1 "192.168.3.41" 7771 5551; LAcceptor 2 "192.168.3.42" 7772 5552; LAcceptor 3 "192.168.3.43" 7773 5553;
  LP1Interval (mk_timeval 0 15000); LP2Interval (mk_timeval 0 5000); LQuorum 2;
  LSocketBuffers 16777216; LMcasterClock (mk_timeval 0 1000); LAutoflush 100;
  LDeliveryCheck (mk_timeval 0 2000); LRetransmit (mk_timeval 0 5000);
  LWorkingSet 10000; LMaxActive 250; LPreexecution 400; LMaxP2 12; LClientQueue 250].

Definition cluster_cfg : config_mngr :=
  match config_mngr_init (λ _, true) 16777216 16777216 1 cluster_config with
  | Some (_, cfg) => cfg
  | None => config_calloc 1
  end.

Lemma cluster_config_valid : config_mngr_init (λ _, true) 16777216 16777216 1 cluster_config = Some (true, cluster_cfg).
Proof. vm_compute. reflexivity. Qed.


Lemma quorum_unchecked_witness :
  acceptors_count cluster_cfg = 3 ∧
  config_mngr_init (λ _, true) 16777216 16777216 1 (cluster_config ++ [LQuorum 5]) =
    Some (true, cluster_cfg <| quorum_size := 5 |>).
Proof.
  split; [by vm_compute|]. apply quorum_unchecked; [lia|exact cluster_config_valid|by vm_compute].
Defined.
