(* ===== verification/RingConfigText.v ===== *)
(** * Reading the configuration file of RingPaxos

    The rest of [ring_paxos/lib/config_parser.c] and of the parsing macros of
    [lp_config_parser_macros.h]: from the characters of the file to the lines that
    [RingConfig] applies.  [fgets], [strncmp] and the conversions of [sscanf]
    are those of the C library; what it leaves undefined, as a number that is no
    [int], and what overflows a buffer or reads a variable that was not set has no
    result. *)
From Stdlib Require Import Ascii String.
From S2P Require Import Prelude Steps Timers RingConfig.

#[local] Open Scope string_scope.
#[local] Open Scope Z_scope.

(** ** The C library *)

Definition code (c : ascii) : Z := Z.of_N (N_of_ascii c).

(** [isspace] *)
Definition is_space (c : ascii) : bool := (code c =? 32) || ((9 <=? code c) && (code c <=? 13)).

Fixpoint skip_spaces (s : string) : string :=
  match s with
  | String c s' => if is_space c then skip_spaces s' else s
  | EmptyString => s
  end.

(** The characters up to a space, and the rest. *)
Fixpoint span_word (s : string) : string * string :=
  match s with
  | String c s' => if is_space c then (EmptyString, s) else let '(w, rest) := span_word s' in (String c w, rest)
  | EmptyString => (EmptyString, EmptyString)
  end.

(** [%s] *)
Definition scan_s (s : string) : option (string * string) :=
  match span_word (skip_spaces s) with
  | (EmptyString, _) => None
  | r => Some r
  end.

Definition digit_of (base : Z) (c : ascii) : option Z :=
  if (48 <=? code c) && (code c <? 48 + base) then Some (code c - 48) else None.

(** The number that the digits at the start make; [None] for no digit. *)
Fixpoint scan_digits (base : Z) (acc : option Z) (s : string) : option Z * string :=
  match s with
  | String c s' =>
      match digit_of base c with
      | Some d => scan_digits base (Some (default 0 acc * base + d)) s'
      | None => (acc, s)
      end
  | EmptyString => (acc, s)
  end.

(** [%d] for base 10, [%o] for base 8. *)
Definition scan_number (base : Z) (s : string) : option (Z * string) :=
  let '(sign, s) := match skip_spaces s with
                    | String c s' => if code c =? 45 then (-1, s') else if code c =? 43 then (1, s') else (1, String c s')
                    | EmptyString => (1, EmptyString)
                    end in
  match scan_digits base None s with
  | (Some n, rest) => Some (sign * n, rest)
  | (None, _) => None
  end.

(** [fgets] of a buffer of [size] bytes, until the end of the file. *)
Fixpoint fgets_lines (size : nat) (room : nat) (s : string) : list string :=
  match s with
  | EmptyString => []
  | String c s' =>
      match room with
      | O => [] (* a buffer for no character *)
      | S room =>
          if (code c =? 10) || (room =? 0)%nat then String c EmptyString :: fgets_lines size (size - 1) s'
          else match fgets_lines size room s' with
               | [] => [String c EmptyString]
               | line :: lines => String c line :: lines
               end
      end
  end.

(** ** A line *)

Definition starts_with (match_ buffer : string) : bool := String.prefix match_ buffer.

(** [PARSE_TIMEVAL]: [sec] and [usec] are not initialised. *)
Definition PARSE_TIMEVAL (mk : timeval → config_line) (line : string) : option config_line :=
  '(_, s) ← scan_s line;
  '(sec, s) ← scan_number 10 s;
  '(usec, _) ← scan_number 10 s;
  if in_int sec && in_int usec then Some (mk (mk_timeval sec usec)) else None.

(** [PARSE_INTEGER]: the field keeps its value when there is no number. *)
Definition PARSE_INTEGER (mk : Z → config_line) (line : string) : option config_line :=
  match ('(_, s) ← scan_s line; scan_number 10 s) with
  | Some (v, _) => if in_int v then Some (mk v) else None
  | None => Some LSkip
  end.

(** [%d] into an [int] that has a value; [None] is undefined. *)
Definition scan_int (old : Z) (s : string) : option (Z * string) :=
  match scan_number 10 s with
  | Some (v, s) => if in_int v then Some (v, s) else None
  | None => Some (old, EmptyString)
  end.

(** [%s] into a buffer of 16 bytes. *)
Definition fits_16 (s : string) : bool := Z.of_nat (String.length s) <=? 15.

(** The line of the multicast group. *)
Definition parse_multicast (line : string) : option config_line :=
  match ('(_, s) ← scan_s line; scan_s s) with
  | None => Some LSkip
  | Some (addr, s) =>
      if negb (fits_16 addr) then None
      else match scan_number 10 s with
           | Some (port, _) => if in_int port then Some (LMulticast addr (Some port)) else None
           | None => Some (LMulticast addr None)
           end
  end.

(** The line of an acceptor: the id is read with [%hho], as an octal number,
    into 8 bits.  [tmp_ip] is not initialised. *)
Definition parse_acceptor (line : string) : option config_line :=
  match ('(_, s) ← scan_s line; scan_number 8 s) with
  | None => Some (LAcceptor 0 EmptyString 0 0)
  | Some (id, s) =>
      if 2 ^ 32 <=? Z.abs id then None
      else
        let acc_id := u8 id in
        match scan_s s with
        | None => if (acc_id <=? 0) || (MAX_ACCEPTORS <? acc_id) then Some (LAcceptor acc_id EmptyString 0 0) else None
        | Some (tmp_ip, s) =>
            if negb (fits_16 tmp_ip) then None
            else
              '(port1, s) ← scan_int 0 s;
              '(port2, _) ← scan_int 0 s;
              Some (LAcceptor acc_id tmp_ip port1 port2)
        end
  end.

Definition newline : string := String (ascii_of_nat 10) EmptyString.

(** The body of the loop of [open_and_parse], up to the assignments. *)
Definition read_line (line : string) : option config_line :=
  if starts_with "#" line then Some LSkip
  else if starts_with "//" line then Some LSkip
  else if starts_with newline line then Some LSkip
  else if starts_with "p1_interval" line then PARSE_TIMEVAL LP1Interval line
  else if starts_with "p2_interval" line then PARSE_TIMEVAL LP2Interval line
  else if starts_with "mcaster_clock_interval" line then PARSE_TIMEVAL LMcasterClock line
  else if starts_with "delivery_check_interval" line then PARSE_TIMEVAL LDeliveryCheck line
  else if starts_with "retransmit_request_interval" line then PARSE_TIMEVAL LRetransmit line
  else if starts_with "default_autoflush_interval" line then PARSE_INTEGER LAutoflush line
  else if starts_with "socket_buffers_size" line then PARSE_INTEGER LSocketBuffers line
  else if starts_with "quorum_size" line then PARSE_INTEGER LQuorum line
  else if starts_with "working_set_size" line then PARSE_INTEGER LWorkingSet line
  else if starts_with "max_active_instances" line then PARSE_INTEGER LMaxActive line
  else if starts_with "preexecution_window_size" line then PARSE_INTEGER LPreexecution line
  else if starts_with "max_p2_open_per_iteration" line then PARSE_INTEGER LMaxP2 line
  else if starts_with "max_client_values_queue_size" line then PARSE_INTEGER LClientQueue line
  else if starts_with "multicast" line then parse_multicast line
  else if starts_with "acceptor" line then parse_acceptor line
  else Some LOther.

Definition max_line_length : nat := 1024.

(** [open_and_parse], for a file with these lines: the first bad one ends it. *)
Fixpoint parse_lines (lines : list string) : CM bool :=
  match lines with
  | [] => mret true
  | line :: lines =>
      l ← lift_opt (read_line line);
      ok ← parse_line l;
      if ok : bool then parse_lines lines else mret false
  end.

Definition open_and_parse_file (text : string) : CM bool := parse_lines (fgets_lines max_line_length (max_line_length - 1) text).

(** ** Writing a file *)

(** The digits of [n] in front of [acc]; ten are enough for an [int]. *)
Fixpoint print_digits (base : Z) (fuel : nat) (n : Z) (acc : string) : string :=
  match fuel with
  | O => acc
  | S fuel =>
      let acc := String (ascii_of_N (Z.to_N (48 + n mod base))) acc in
      if n / base =? 0 then acc else print_digits base fuel (n / base) acc
  end.

Definition print_number (base z : Z) : string :=
  if z <? 0 then String "-" (print_digits base 10 (- z) EmptyString) else print_digits base 10 z EmptyString.

Definition print_fields (fields : list string) : string := foldr (λ f s, String " " (f ++ s)) newline fields.

Definition print_int (z : Z) : string := print_number 10 z.

Definition print_timeval (tv : timeval) : string := print_fields [print_int (tv_sec tv); print_int (tv_usec tv)].

(** The line that [read_line] reads as the given one. *)
Definition print_line (line : config_line) : string :=
  match line with
  | LSkip => "#" ++ newline
  | LP1Interval tv => "p1_interval" ++ print_timeval tv
  | LP2Interval tv => "p2_interval" ++ print_timeval tv
  | LMcasterClock tv => "mcaster_clock_interval" ++ print_timeval tv
  | LDeliveryCheck tv => "delivery_check_interval" ++ print_timeval tv
  | LRetransmit tv => "retransmit_request_interval" ++ print_timeval tv
  | LAutoflush v => "default_autoflush_interval" ++ print_fields [print_int v]
  | LSocketBuffers v => "socket_buffers_size" ++ print_fields [print_int v]
  | LQuorum v => "quorum_size" ++ print_fields [print_int v]
  | LWorkingSet v => "working_set_size" ++ print_fields [print_int v]
  | LMaxActive v => "max_active_instances" ++ print_fields [print_int v]
  | LPreexecution v => "preexecution_window_size" ++ print_fields [print_int v]
  | LMaxP2 v => "max_p2_open_per_iteration" ++ print_fields [print_int v]
  | LClientQueue v => "max_client_values_queue_size" ++ print_fields [print_int v]
  | LMulticast addr (Some port) => "multicast" ++ print_fields [addr; print_int port]
  | LMulticast addr None => "multicast" ++ print_fields [addr]
  | LAcceptor id ip port1 port2 => "acceptor" ++ print_fields [print_number 8 id; ip; print_int port1; print_int port2]
  | LOther => "?" ++ newline
  end.

Fixpoint str_all (P : ascii → bool) (s : string) : bool :=
  match s with
  | String c s => P c && str_all P s
  | EmptyString => true
  end.

(** An address that is one word and fits in its buffer. *)
Definition is_word (s : string) : Prop :=
  s ≠ EmptyString ∧ str_all (λ c, negb (is_space c)) s = true ∧ fits_16 s = true.

Definition timeval_ok (tv : timeval) : Prop := in_int (tv_sec tv) = true ∧ in_int (tv_usec tv) = true.

Definition line_printable (line : config_line) : Prop :=
  match line with
  | LSkip | LOther => True
  | LP1Interval tv | LP2Interval tv | LMcasterClock tv | LDeliveryCheck tv | LRetransmit tv => timeval_ok tv
  | LAutoflush v | LSocketBuffers v | LQuorum v | LWorkingSet v | LMaxActive v | LPreexecution v | LMaxP2 v | LClientQueue v =>
      in_int v = true
  | LMulticast addr port => is_word addr ∧ match port with Some port => in_int port = true | None => True end
  | LAcceptor id ip port1 port2 => in_u 8 id ∧ is_word ip ∧ in_int port1 = true ∧ in_int port2 = true
  end.

(** ** Strings *)

#[local] Arguments String.append !_ _ / : simpl nomatch.

Lemma str_app_assoc (s1 s2 s3 : string) : (s1 ++ s2) ++ s3 = s1 ++ s2 ++ s3.
Proof. induction s1 as [|c s1 IH]; [done|]. simpl. by f_equal. Qed.

Lemma str_app_nil (s : string) : s ++ "" = s.
Proof. induction s as [|c s IH]; [done|]. simpl. by f_equal. Qed.

Lemma str_all_app P (s1 s2 : string) : str_all P (s1 ++ s2) = str_all P s1 && str_all P s2.
Proof. induction s1 as [|c s1 IH]; [done|]. cbn. by rewrite IH, andb_assoc. Qed.

Lemma str_all_mono (P R : ascii → bool) s : (∀ c, P c = true → R c = true) → str_all P s = true → str_all R s = true.
Proof. intros H. induction s as [|c s IH]; [done|]. cbn. intros [? ?]%andb_prop. by rewrite H, IH. Qed.

Lemma str_length_app (s1 s2 : string) : String.length (s1 ++ s2) = (String.length s1 + String.length s2)%nat.
Proof. induction s1 as [|c s1 IH]; [done|]. cbn. by rewrite IH. Qed.

Lemma code_char n : 0 ≤ n < 256 → code (ascii_of_N (Z.to_N n)) = n.
Proof. intros H. unfold code. rewrite N_ascii_embedding by lia. lia. Qed.

(** What follows a word or a number: nothing, or a space. *)
Definition spaced (s : string) : Prop :=
  match s with
  | String c _ => is_space c = true
  | EmptyString => True
  end.

Lemma span_word_app w s : str_all (λ c, negb (is_space c)) w = true → spaced s → span_word (w ++ s) = (w, s).
Proof.
  induction w as [|c w IH]; cbn.
  - intros _ Hs. destruct s as [|c s]; [done|]. cbn in *. by rewrite Hs.
  - intros [Hc Hw]%andb_prop Hs. apply negb_true_iff in Hc. by rewrite Hc, IH.
Qed.

Lemma scan_s_word w s : is_word w → spaced s → scan_s (String " " (w ++ s)) = Some (w, s).
Proof.
  intros (Hne & Hw & _) Hs. unfold scan_s. cbn [skip_spaces]. change (is_space " ") with true. cbv iota.
  assert (skip_spaces (w ++ s) = w ++ s) as ->.
  { destruct w as [|c w]; [done|]. cbn in *. apply andb_prop in Hw as [Hc _]. apply negb_true_iff in Hc. by rewrite Hc. }
  rewrite span_word_app by done. by destruct w.
Qed.

(** ** Numbers *)

Section number.
Context (base : Z) (Hbase : 2 ≤ base ≤ 10).

Definition is_digit (c : ascii) : bool := (48 <=? code c) && (code c <? 48 + base).

Lemma digit_of_char d : 0 ≤ d < base → digit_of base (ascii_of_N (Z.to_N (48 + d))) = Some d.
Proof using Hbase.
  intros H. unfold digit_of. rewrite code_char by lia. rewrite (proj2 (Z.leb_le _ _)), (proj2 (Z.ltb_lt _ _)) by lia.
  cbn. f_equal. lia.
Qed.

Lemma space_no_digit c : is_space c = true → digit_of base c = None.
Proof using Hbase.
  unfold is_space, digit_of. intros H. destruct (Z.leb_spec 48 (code c)); [|done]. exfalso.
  apply orb_prop in H as [H|H]; [apply Z.eqb_eq in H; lia|apply andb_prop in H as [_ H]; apply Z.leb_le in H; lia].
Qed.

Lemma scan_digits_spaced acc s : spaced s → scan_digits base acc s = (acc, s).
Proof using Hbase. destruct s as [|c s]; [done|]. cbn. intros H. by rewrite space_no_digit. Qed.

Lemma scan_print fuel n acc a s : 0 ≤ n < base ^ Z.of_nat fuel → (0 < fuel)%nat →
  ∃ k, scan_digits base a (print_digits base fuel n acc ++ s) = scan_digits base (Some (default 0 a * k + n)) (acc ++ s).
Proof using Hbase.
  revert n acc. induction fuel as [|fuel IH]; intros n acc Hn Hf; [lia|].
  pose proof (Z.mod_pos_bound n base ltac:(lia)) as Hm. pose proof (Z.div_mod n base ltac:(lia)) as Hdm.
  cbn [print_digits]. destruct (Z.eqb_spec (n / base) 0) as [E|E].
  - exists base. cbn. rewrite digit_of_char by done. do 2 f_equal. lia.
  - assert (0 ≤ n / base < base ^ Z.of_nat fuel) as Hd.
    { split; [apply Z.div_pos; lia|]. apply Z.div_lt_upper_bound; [lia|]. rewrite Nat2Z.inj_succ, Z.pow_succ_r in Hn by lia. lia. }
    assert (0 < fuel)%nat as Hf' by (destruct fuel; [cbn in Hd; lia|lia]).
    destruct (IH (n / base) (String (ascii_of_N (Z.to_N (48 + n mod base))) acc) Hd Hf') as [k Hk].
    rewrite Hk. exists (k * base). cbn. rewrite digit_of_char by done. cbn. do 2 f_equal. nia.
Qed.

Lemma print_digits_all fuel n acc : str_all is_digit acc = true → 0 ≤ n → str_all is_digit (print_digits base fuel n acc) = true.
Proof using Hbase.
  revert n acc. induction fuel as [|fuel IH]; intros n acc Ha Hn; [done|].
  pose proof (Z.mod_pos_bound n base ltac:(lia)) as Hm. cbn [print_digits].
  assert (str_all is_digit (String (ascii_of_N (Z.to_N (48 + n mod base))) acc) = true) as Hacc.
  { cbn. rewrite Ha, andb_true_r. unfold is_digit. rewrite code_char by lia.
    by rewrite (proj2 (Z.leb_le _ _)), (proj2 (Z.ltb_lt _ _)) by lia. }
  destruct (n / base =? 0); [done|]. apply IH; [done|]. apply Z.div_pos; lia.
Qed.

Lemma print_digits_length fuel n acc : (String.length (print_digits base fuel n acc) ≤ fuel + String.length acc)%nat.
Proof using Type.
  revert n acc. induction fuel as [|fuel IH]; intros n acc; [done|]. cbn [print_digits].
  destruct (n / base =? 0); cbn; [lia|]. etrans; [apply IH|]. cbn. lia.
Qed.

Lemma print_digits_head fuel n acc : (0 < fuel)%nat → ∃ c s, print_digits base fuel n acc = String c s ∧
  (0 ≤ n → is_digit c = true).
Proof using Hbase.
  intros Hf. assert (0 ≤ n → str_all is_digit (print_digits base fuel n "") = true) as Hall by (intros; by apply print_digits_all).
  assert (∀ fuel n acc acc', (0 < fuel)%nat → ∃ c s s', print_digits base fuel n acc = String c s ∧ print_digits base fuel n acc' = String c s') as H.
  { clear. intros fuel. induction fuel as [|fuel IH]; intros n acc acc' Hf; [lia|]. cbn [print_digits].
    destruct (n / base =? 0); [by do 3 eexists|]. destruct fuel; [by do 3 eexists|]. apply IH. lia. }
  destruct (H fuel n acc "" Hf) as (c & s & s' & E & E'). exists c, s. split; [done|]. intros Hn.
  specialize (Hall Hn). rewrite E' in Hall. by apply andb_prop in Hall as [? _].
Qed.

Lemma digit_plain c : is_digit c = true → is_space c = false ∧ code c ≠ 45 ∧ code c ≠ 43.
Proof using Hbase.
  unfold is_digit, is_space. intros [H1%Z.leb_le H2%Z.ltb_lt]%andb_prop. split; [|lia].
  apply orb_false_intro; [apply Z.eqb_neq; lia|]. apply andb_false_intro2, Z.leb_gt. lia.
Qed.

Lemma scan_number_minus t : scan_number base (String " " (String "-" t)) =
  match scan_digits base None t with (Some n, rest) => Some (-1 * n, rest) | (None, _) => None end.
Proof using Type. done. Qed.

Lemma scan_number_plain c t : is_digit c = true → scan_number base (String " " (String c t)) =
  match scan_digits base None (String c t) with (Some n, rest) => Some (1 * n, rest) | (None, _) => None end.
Proof using Hbase.
  intros (H1 & H2 & H3)%digit_plain. unfold scan_number. cbn [skip_spaces].
  assert (is_space " " = true) as -> by done. cbv iota. cbn [skip_spaces]. rewrite H1. cbv iota.
  by rewrite (proj2 (Z.eqb_neq _ _) H2), (proj2 (Z.eqb_neq _ _) H3).
Qed.

Lemma scan_number_print z s : - base ^ 10 < z < base ^ 10 → spaced s →
  scan_number base (String " " (print_number base z ++ s)) = Some (z, s).
Proof using Hbase.
  intros Hz Hs. unfold print_number. destruct (Z.ltb_spec z 0).
  - change (String "-" (print_digits base 10 (- z) "") ++ s) with (String "-" (print_digits base 10 (- z) "" ++ s)).
    rewrite scan_number_minus. destruct (scan_print 10 (- z) "" None s) as [k ->]; [lia|lia|].
    cbn [default]. change ("" ++ s) with s. rewrite scan_digits_spaced by done. do 2 f_equal. lia.
  - destruct (print_digits_head 10 z "" ltac:(lia)) as (c & t & E & Hc).
    destruct (scan_print 10 z "" None s) as [k Hk]; [lia|lia|]. rewrite E in *.
    change (String c t ++ s) with (String c (t ++ s)) in *. rewrite scan_number_plain by (apply Hc; lia). rewrite Hk.
    cbn [default]. change ("" ++ s) with s. rewrite scan_digits_spaced by done. do 2 f_equal. lia.
Qed.
End number.

(** ** Reading a printed line *)

Lemma spaced_fields fields : spaced (print_fields fields).
Proof. by destruct fields. Qed.

Lemma scan_field_word w fields : is_word w → scan_s (print_fields (w :: fields)) = Some (w, print_fields fields).
Proof. intros H. apply scan_s_word; [done|apply spaced_fields]. Qed.

Lemma scan_field_int z fields : in_int z = true → scan_number 10 (print_fields (print_int z :: fields)) = Some (z, print_fields fields).
Proof.
  intros H. apply scan_number_print; [lia| |apply spaced_fields].
  unfold in_int in H. zbool. lia.
Qed.

Lemma scan_field_octal z fields : in_u 8 z → scan_number 8 (print_fields (print_number 8 z :: fields)) = Some (z, print_fields fields).
Proof. unfold in_u. intros H. apply scan_number_print; [lia|lia|apply spaced_fields]. Qed.

(** The word at the start of a line. *)
Definition keyword (w : string) : bool := negb (String.eqb w "") && str_all (λ c, negb (is_space c)) w.

Lemma scan_keyword w fields : keyword w = true → scan_s (w ++ print_fields fields) = Some (w, print_fields fields).
Proof.
  intros [Hne Hw]%andb_prop. unfold scan_s. destruct w as [|c w]; [done|].
  pose proof Hw as [Hc _]%andb_prop. apply negb_true_iff in Hc. cbn [skip_spaces append]. rewrite Hc. cbv iota.
  change (String c (w ++ print_fields fields)) with (String c w ++ print_fields fields).
  by rewrite (span_word_app (String c w)) by (done || apply spaced_fields).
Qed.

Lemma read_timeval mk w tv : keyword w = true → timeval_ok tv → PARSE_TIMEVAL mk (w ++ print_timeval tv) = Some (mk tv).
Proof.
  intros Hw [H1 H2]. unfold PARSE_TIMEVAL, print_timeval. rewrite scan_keyword by done. cbn [mbind option_bind].
  rewrite scan_field_int by done. cbn [mbind option_bind]. rewrite scan_field_int by done. cbn [mbind option_bind].
  rewrite H1, H2. by destruct tv.
Qed.

Lemma read_integer mk w v : keyword w = true → in_int v = true → PARSE_INTEGER mk (w ++ print_fields [print_int v]) = Some (mk v).
Proof.
  intros Hw H. unfold PARSE_INTEGER. rewrite scan_keyword by done. cbn [mbind option_bind].
  rewrite scan_field_int by done. by rewrite H.
Qed.

Lemma scan_int_print old z fields : in_int z = true → scan_int old (print_fields (print_int z :: fields)) = Some (z, print_fields fields).
Proof. intros H. unfold scan_int. by rewrite scan_field_int, H by done. Qed.

Lemma read_multicast addr port : is_word addr → match port with Some port => in_int port = true | None => True end →
  parse_multicast (print_line (LMulticast addr port)) = Some (LMulticast addr port).
Proof.
  intros Ha Hp. pose proof Ha as (_ & _ & Hfit). unfold parse_multicast.
  destruct port as [port|]; cbn [print_line]; rewrite scan_keyword by done; cbn [mbind option_bind];
    rewrite scan_field_word by done; rewrite Hfit; cbv iota beta delta [negb].
  - by rewrite scan_field_int, Hp by done.
  - done.
Qed.

Lemma read_acceptor id ip port1 port2 : line_printable (LAcceptor id ip port1 port2) →
  parse_acceptor (print_line (LAcceptor id ip port1 port2)) = Some (LAcceptor id ip port1 port2).
Proof.
  intros (Hid & Hip & H1 & H2). pose proof Hip as (_ & _ & Hfit). unfold parse_acceptor. cbn [print_line].
  rewrite scan_keyword by done. cbn [mbind option_bind]. rewrite scan_field_octal by done.
  assert ((2 ^ 32 <=? Z.abs id) = false) as -> by (apply Z.leb_gt; unfold in_u in Hid; lia).
  assert (u8 id = id) as -> by (by apply Z.mod_small).
  rewrite scan_field_word, Hfit by done. cbv iota beta delta [negb].
  rewrite scan_int_print by done. cbn [mbind option_bind]. by rewrite scan_int_print by done.
Qed.

Lemma read_print_line line : line_printable line → read_line (print_line line) = Some line.
Proof.
  destruct line; intros H; try done;
    try (by apply (read_timeval _ _ _)); try (by apply (read_integer _ _ _)).
  - by refine (eq_trans _ (read_multicast _ _ _ _)); [destruct port|destruct H..].
  - by refine (eq_trans _ (read_acceptor _ _ _ _ H)).
Qed.

(** ** The lines of a file *)

Definition no_newline (s : string) : bool := str_all (λ c, negb (code c =? 10)) s.

(** A line that [fgets] reads at once. *)
Definition text_line (s : string) : Prop :=
  ∃ body, s = body ++ newline ∧ no_newline body = true ∧ (String.length body < max_line_length - 1)%nat.

Lemma fgets_line size room body rest : no_newline body = true → (String.length body < room)%nat →
  fgets_lines size room (body ++ newline ++ rest) = (body ++ newline) :: fgets_lines size (size - 1) rest.
Proof.
  revert room. induction body as [|c body IH]; intros room Hb Hl; cbn in Hl; destruct room as [|room]; try lia.
  - done.
  - apply andb_prop in Hb as [Hc Hb]. apply negb_true_iff in Hc.
    change (String c body ++ newline ++ rest) with (String c (body ++ newline ++ rest)). cbn [fgets_lines].
    rewrite Hc, orb_false_l, (proj2 (Nat.eqb_neq room 0)) by lia. by rewrite IH by (done || lia).
Qed.

Definition file_of (texts : list string) : string := foldr String.append EmptyString texts.

Lemma fgets_file texts : Forall text_line texts → fgets_lines max_line_length (max_line_length - 1) (file_of texts) = texts.
Proof.
  induction 1 as [|? texts (body & -> & Hb & Hl) _ IH]; [done|]. cbn [file_of foldr].
  change (foldr String.append "" texts) with (file_of texts). rewrite str_app_assoc, fgets_line by done. by rewrite IH.
Qed.

(** A field of a line is short and holds no newline. *)
Definition field_ok (s : string) : Prop := no_newline s = true ∧ (String.length s ≤ 30)%nat.

Lemma fields_line fields : Forall field_ok fields → ∃ body, print_fields fields = body ++ newline ∧
  no_newline body = true ∧ (String.length body ≤ 31 * List.length fields)%nat.
Proof.
  induction 1 as [|f fields [Hf Hl] _ (body & E & Hb & Hn)]; [by exists ""|].
  exists (String " " (f ++ body)). split_and!.
  - cbn [print_fields foldr]. change (foldr _ _ fields) with (print_fields fields). rewrite E, <- str_app_assoc. done.
  - unfold no_newline in *. cbn. rewrite str_all_app. by rewrite Hf, Hb.
  - cbn. rewrite str_length_app. lia.
Qed.

Lemma keyword_line w fields : field_ok w → Forall field_ok fields → (List.length fields ≤ 4)%nat → text_line (w ++ print_fields fields).
Proof.
  intros [Hw Hl] (body & -> & Hb & Hn)%fields_line Hf. exists (w ++ body). rewrite str_app_assoc. split_and!; [done| |].
  - unfold no_newline in *. by rewrite str_all_app, Hw, Hb.
  - rewrite str_length_app. unfold max_line_length. lia.
Qed.

Lemma word_field w : is_word w → field_ok w.
Proof.
  intros (_ & Hall & Hfit). split.
  - refine (str_all_mono _ _ _ _ Hall). intros c. unfold is_space. intros H%negb_true_iff. apply negb_true_iff, Z.eqb_neq.
    intros E. by rewrite E in H.
  - unfold fits_16 in Hfit. zbool. lia.
Qed.

Lemma number_field base z : 2 ≤ base ≤ 10 → field_ok (print_number base z).
Proof.
  intros Hb. assert (∀ n, 0 ≤ n → no_newline (print_digits base 10 n "") = true) as H.
  { intros n Hn. refine (str_all_mono _ _ _ _ (print_digits_all base Hb 10 n "" eq_refl Hn)).
    intros c Hc. unfold is_digit in Hc. zbool. apply negb_true_iff, Z.eqb_neq. lia. }
  unfold print_number. split.
  - destruct (Z.ltb_spec z 0); [|by apply H]. unfold no_newline in *. cbn [str_all]. rewrite H by lia. done.
  - destruct (z <? 0); cbn [String.length];
      match goal with |- context [print_digits base 10 ?n ""] => pose proof (print_digits_length base 10 n "") end;
      cbn [String.length] in *; lia.
Qed.

Lemma int_field z : field_ok (print_int z).
Proof. apply number_field. lia. Qed.

Lemma print_line_text line : line_printable line → text_line (print_line line).
Proof.
  assert (∀ w, no_newline w = true → Nat.leb (String.length w) 30 = true → field_ok w) as Hkw.
  { intros w Hw Hl. split; [done|by apply Nat.leb_le]. }
  destruct line as [| | | | | | | | | | | | | |addr [port|]|id ip port1 port2|]; intros H; cbn [print_line];
    unfold print_timeval; try (apply keyword_line; [by apply Hkw|repeat first [apply Forall_nil_2|apply Forall_cons_2]; first [apply int_field | apply number_field; lia | apply word_field, H]|cbn; lia]);
    [exists "#"|exists "?"]; (split_and!; [done..|cbn; unfold max_line_length; lia]).
Qed.

(** C19. Claim C96 (round trip).  The file with a line for every setting, written
    in the format of the configuration file, is read back as these settings:
    every line by its keyword, the numbers (the id of an acceptor in octal),
    the intervals and the addresses of at most 15 characters. *)
Theorem config_file_roundtrip (lines : list config_line) (cm : config_mngr) : Forall line_printable lines →
  open_and_parse_file (file_of (print_line <$> lines)) cm = open_and_parse lines cm.
Proof.
  intros H. unfold open_and_parse_file. rewrite fgets_file.
  - revert cm. induction H as [|line lines Hl _ IH]; intros cm; [done|]. cbn [fmap list_fmap parse_lines open_and_parse].
    rewrite read_print_line by done. unfold mbind, M_bind, lift_opt. destruct (parse_line line cm) as [[[] cm']|]; cbn; [apply IH|done..].
  - apply list.Forall_fmap. refine (list.Forall_impl _ _ _ H _). apply print_line_text.
Qed.

Lemma config_file_roundtrip_witness : Forall line_printable cluster_config ∧
  open_and_parse_file (file_of (print_line <$> cluster_config)) (config_calloc 1) = open_and_parse cluster_config (config_calloc 1).
Proof.
  assert (Forall line_printable cluster_config) as H.
  { unfold cluster_config.
    repeat first [apply Forall_nil_2 | apply Forall_cons_2]; repeat split; first [done | unfold in_u; lia | by vm_compute]. }
  split; [exact H|]. by apply config_file_roundtrip.
Defined.

(** The text of [ring-paxos/cluster_config.cfg], with its comments and empty
    lines. *)
Definition cluster_config_text : string :=
"#############################################################################
# Mandatory configuration parameters
#############################################################################

multicast 228.12.12.66 6667

acceptor 1 192.168.3.41 7771 5551
acceptor 2 192.168.3.42 7772 5552
acceptor 3 192.168.3.43 7773 5553

p1_interval 0 15000
p2_interval 0 5000

quorum_size 2

#############################################################################
# Optional configuration parameters
#############################################################################

socket_buffers_size 16777216
mcaster_clock_interval 0 1000

default_autoflush_interval 100

delivery_check_interval 0 2000
retransmit_request_interval 0 5000

working_set_size 10000
max_active_instances 250
preexecution_window_size 400
max_p2_open_per_iteration 12

max_client_values_queue_size 250


".

Example cluster_config_file :
  open_and_parse_file cluster_config_text (config_calloc 1) = open_and_parse cluster_config (config_calloc 1).
Proof. by vm_compute. Qed.

(** ** Acceptor ids

    The id is read as an octal number, so an id written in decimal is the id
    of the acceptor up to 7 only: from 8 on it is refused, or another one. *)

Definition decimal_acceptor_line (id : Z) (ip : string) (port1 port2 : Z) : string :=
  "acceptor" ++ print_fields [print_int id; ip; print_int port1; print_int port2].

Definition octal_reading (id : Z) (ip : string) (port1 port2 : Z) : config_line :=
  if id <? 8 then LAcceptor id ip port1 port2
  else if id <? 10 then LAcceptor 0 EmptyString 0 0
  else LAcceptor 8 ip port1 port2.

Lemma parse_decimal_acceptor id ip port1 port2 : 1 ≤ id ≤ MAX_ACCEPTORS → is_word ip → in_int port1 = true → in_int port2 = true →
  read_line (decimal_acceptor_line id ip port1 port2) = Some (octal_reading id ip port1 port2).
Proof.
  unfold MAX_ACCEPTORS. intros Hid Hip H1 H2.
  assert (id = 8 ∨ id = 9 ∨ id = 10 ∨ id < 8) as [->|[->|[->|Hlt]]] by lia; [done|done| |].
  - exact (read_print_line (LAcceptor 8 ip port1 port2) (conj (conj (ltac:(lia) : 0 ≤ 8) (ltac:(lia) : 8 < 2 ^ 8)) (conj Hip (conj H1 H2)))).
  - unfold octal_reading. rewrite (proj2 (Z.ltb_lt id 8)) by lia.
    rewrite <- (read_print_line (LAcceptor id ip port1 port2)); [|split; [unfold in_u; lia|done]].
    assert (id ∈ seqZ 1 7) as Hin by (apply elem_of_seqZ; lia). clear Hid Hlt. revert id Hin.
    apply list.Forall_forall. by repeat first [apply Forall_cons_2 | apply Forall_nil_2].
Qed.
