(* ===== verification/RingTopology.v ===== *)
(** * The topology of the ring

    [ring_paxos/lib/topology_manager.c] and the accessors of
    [config_parser.c] that it and [acceptor.c] use: where a process sends, where
    it listens, and who is the leader.  All processes read the same file, so
    that the configuration of the acceptor [j] is [as_acceptor j cfg]. *)
From Stdlib Require Import String.
From S2P Require Import Prelude RingConfig.

Implicit Types (cfg : config_mngr) (acceptor : Z).

(** ** Accessors (config_parser.c) *)

Definition lpconfig_get_ip_addr_of cfg acceptor : option string := ip_addr <$> lpconfig_get_acceptor_info cfg acceptor.
Definition lpconfig_get_learners_port_of cfg acceptor : option Z := learners_port <$> lpconfig_get_acceptor_info cfg acceptor.
Definition lpconfig_get_ring_port_of cfg acceptor : option Z := inbound_port <$> lpconfig_get_acceptor_info cfg acceptor.

Definition lpconfig_get_self_ip_addr cfg : option string := lpconfig_get_ip_addr_of cfg (self_acceptor_id cfg).
Definition lpconfig_get_ring_inbound_addr cfg : option string := lpconfig_get_self_ip_addr cfg.
Definition lpconfig_get_ring_inbound_port cfg : option Z := inbound_port <$> arr_get (acc_infos cfg) (self_acceptor_id cfg).

(** ** The topology (topology_manager.c) *)

(** The successor is an [acceptor_id_t], of 8 bits, and [self + 1] an [int]. *)
Definition lptopo_get_successor_id cfg : option Z :=
  let successor := u8 (self_acceptor_id cfg + 1) in
  if acceptors_count cfg <? successor then
    if successor =? acceptors_count cfg + 1 then Some 1 else None
  else Some successor.

Definition lptopo_get_successor_port cfg : option Z :=
  successor ← lptopo_get_successor_id cfg; lpconfig_get_ring_port_of cfg successor.
Definition lptopo_get_successor_addr cfg : option string :=
  successor ← lptopo_get_successor_id cfg; lpconfig_get_ip_addr_of cfg successor.

Definition lptopo_get_leader_addr cfg : option string := lpconfig_get_ip_addr_of cfg 1.
Definition lptopo_get_leader_ring_port cfg : option Z := lpconfig_get_ring_port_of cfg 1.
Definition lptopo_get_leader_clients_port cfg : option Z := lpconfig_get_learners_port_of cfg 1.

(** ** The ring *)

#[export] Instance set_self_acceptor_id : Setter self_acceptor_id := λ g r,
  mk_config_mngr (g (self_acceptor_id r)) (acceptors_count r) (p1_interval r) (p2_interval r)
    (delivery_check_interval r) (mcaster_clock_interval r) (default_autoflush_interval r)
    (retransmit_request_interval r) (socket_buffers_size r) (mcast_addr r) (mcast_port r)
    (quorum_size r) (working_set_size r) (max_active_instances r) (preexecution_window_size r)
    (max_p2_open_per_iteration r) (max_client_values_queue_size r) (acc_infos r).
#[global] Arguments set_self_acceptor_id _ _ /.

(** The configuration of the process with id [j]. *)
Definition as_acceptor (j : Z) cfg : config_mngr := cfg <| self_acceptor_id := j |>.

(** Where a process sends what is for its successor, and where it listens for
    its predecessor ([common_init] of acceptor.c). *)
Definition succ_endpoint cfg : option (string * Z) :=
  addr ← lptopo_get_successor_addr cfg; port ← lptopo_get_successor_port cfg; Some (addr, port).
Definition ring_endpoint cfg : option (string * Z) :=
  addr ← lpconfig_get_ring_inbound_addr cfg; port ← lpconfig_get_ring_inbound_port cfg; Some (addr, port).

(** Who is reached from [j] after [n] messages to successors. *)
Fixpoint ring_walk cfg (n : nat) (j : Z) : option Z :=
  match n with
  | O => Some j
  | S n => j' ← lptopo_get_successor_id (as_acceptor j cfg); ring_walk cfg n j'
  end.

Section ring.
Context (cfg : config_mngr) (Hn : 1 ≤ acceptors_count cfg < 2 ^ 8).

Lemma successor_next j : 1 ≤ j < acceptors_count cfg → lptopo_get_successor_id (as_acceptor j cfg) = Some (j + 1).
Proof using Hn.
  intros Hj. unfold lptopo_get_successor_id. cbn. rewrite wrap_small by lia.
  destruct (Z.ltb_spec (acceptors_count cfg) (j + 1)); [lia|done].
Qed.

Lemma successor_last : acceptors_count cfg < 2 ^ 8 - 1 →
  lptopo_get_successor_id (as_acceptor (acceptors_count cfg) cfg) = Some 1.
Proof using Hn.
  intros H. unfold lptopo_get_successor_id. cbn. rewrite wrap_small by lia.
  rewrite (proj2 (Z.ltb_lt _ _)) by lia. by rewrite Z.eqb_refl.
Qed.

Lemma ring_walk_add n m j : ring_walk cfg (n + m) j = ring_walk cfg n j ≫= ring_walk cfg m.
Proof. revert j. induction n as [|n IH]; intros j; [done|]. cbn. destruct (lptopo_get_successor_id _); cbn; [apply IH|done]. Qed.

Lemma ring_walk_up n j : 1 ≤ j → j + Z.of_nat n ≤ acceptors_count cfg → ring_walk cfg n j = Some (j + Z.of_nat n).
Proof using Hn.
  revert j. induction n as [|n IH]; intros j Hj Hle; [by rewrite Z.add_0_r|]. cbn [ring_walk].
  rewrite successor_next by lia. cbn. rewrite IH by lia. f_equal. lia.
Qed.
End ring.


