(* ===== verification/RingMessages.v ===== *)
(** * The messages of RingPaxos

    [ring_paxos/include/ringpaxos_messages.h] and [paxos_config.h]: the
    messages as data, and their sizes on an LP64 machine. *)
From Stdlib Require Import Init.Byte.
From S2P Require Import Prelude RingUtil.

(** The length of a command. *)
Definition cmd_len (v : list byte) : Z := Z.of_nat (length v).

(** ** Limits (paxos_config.h) *)

Definition MAX_TCP_PAYLOAD : Z := 9000 - 16.
Definition MAX_MESSAGE_SIZE : Z := MAX_TCP_PAYLOAD - 4.

(** ** Messages *)

(** [cmd_size] is the length of [p1_value]. *)
Record phase1_msg := mk_phase1_msg {
  p1_inst : Z;                       (* iid_t, 64 bits *)
  p1_ballot : Z;
  p1_promises_count : Z;
  p1_highest_accepted_ballot : Z;
  p1_highest_promised_ballot : Z;
  p1_key : command_id;
  p1_value : list byte
}.

Record phase1_range_msg := mk_phase1_range_msg {
  pr_from : Z; pr_to : Z; pr_ballot : Z; pr_promises_count : Z
}.

Record phase2_msg := mk_phase2_msg {
  p2_inst : Z; p2_ballot : Z; p2_accepts_count : Z; p2_key : command_id
}.

Record cmdmap_msg := mk_cmdmap_msg { cm_inst : Z; cm_key : command_id; cm_value : list byte }.

Record acceptance_msg := mk_acceptance_msg { am_inst : Z; am_key : command_id }.

Definition sizeof_phase1_msg : Z := 40.
Definition sizeof_phase1_range_msg : Z := 24.
Definition sizeof_phase2_msg : Z := 24.
Definition sizeof_cmdmap_msg : Z := 24.
Definition sizeof_acceptance_msg : Z := 16.
Definition sizeof_requests_msg : Z := 8.
Definition sizeof_ring_iid : Z := 8.
Definition sizeof_submit_cmd_msg : Z := 8.

Definition PH1_MSG_SIZE (m : phase1_msg) : Z := sizeof_phase1_msg + cmd_len (p1_value m).
Definition CMDMAP_MSG_SIZE (m : cmdmap_msg) : Z := sizeof_cmdmap_msg + cmd_len (cm_value m).

(** [MAX_COMMAND_SIZE] *)
Definition MAX_COMMAND_SIZE : Z := MAX_MESSAGE_SIZE - sizeof_phase1_msg.

(** [FINVAL_REQS_MSG_SIZE] and [CMDMAP_REQS_MSG_SIZE], for a list of instances. *)
Definition REQS_MSG_SIZE (l : list Z) : Z := sizeof_requests_msg + Z.of_nat (length l) * sizeof_ring_iid.
Definition REPEAT_REQUEST_MAX_ENTRIES : Z := (MAX_MESSAGE_SIZE - sizeof_requests_msg) / sizeof_ring_iid - 1.

(** A message with its type. *)
Inductive ring_msg :=
  | MPhase1 (m : phase1_msg)
  | MPhase1Range (m : phase1_range_msg)
  | MPhase2 (m : phase2_msg)
  | MCmdmap (m : cmdmap_msg)
  | MAcceptance (m : acceptance_msg)
  | MMapRequest (insts : list Z)
  | MChosenvalRequest (insts : list Z)
  | MSubmit (value : list byte).

(** The size of its payload. *)
Definition ring_msg_size (m : ring_msg) : Z :=
  match m with
  | MPhase1 m => PH1_MSG_SIZE m
  | MPhase1Range _ => sizeof_phase1_range_msg
  | MPhase2 _ => sizeof_phase2_msg
  | MCmdmap m => CMDMAP_MSG_SIZE m
  | MAcceptance _ => sizeof_acceptance_msg
  | MMapRequest l | MChosenvalRequest l => REQS_MSG_SIZE l
  | MSubmit v => sizeof_submit_cmd_msg + cmd_len v (* SUBMIT_CMD_MSG_SIZE *)
  end.

#[export] Instance set_p1_inst : Setter p1_inst := λ g r,
  mk_phase1_msg (g (p1_inst r)) (p1_ballot r) (p1_promises_count r) (p1_highest_accepted_ballot
    r) (p1_highest_promised_ballot r) (p1_key r) (p1_value r).
#[global] Arguments set_p1_inst _ _ /.
#[export] Instance set_p1_ballot : Setter p1_ballot := λ g r,
  mk_phase1_msg (p1_inst r) (g (p1_ballot r)) (p1_promises_count r) (p1_highest_accepted_ballot
    r) (p1_highest_promised_ballot r) (p1_key r) (p1_value r).
#[global] Arguments set_p1_ballot _ _ /.
#[export] Instance set_p1_promises_count : Setter p1_promises_count := λ g r,
  mk_phase1_msg (p1_inst r) (p1_ballot r) (g (p1_promises_count r)) (p1_highest_accepted_ballot
    r) (p1_highest_promised_ballot r) (p1_key r) (p1_value r).
#[global] Arguments set_p1_promises_count _ _ /.
#[export] Instance set_p1_highest_accepted_ballot : Setter p1_highest_accepted_ballot := λ g r,
  mk_phase1_msg (p1_inst r) (p1_ballot r) (p1_promises_count r) (g (p1_highest_accepted_ballot
    r)) (p1_highest_promised_ballot r) (p1_key r) (p1_value r).
#[global] Arguments set_p1_highest_accepted_ballot _ _ /.
#[export] Instance set_p1_highest_promised_ballot : Setter p1_highest_promised_ballot := λ g r,
  mk_phase1_msg (p1_inst r) (p1_ballot r) (p1_promises_count r) (p1_highest_accepted_ballot r)
    (g (p1_highest_promised_ballot r)) (p1_key r) (p1_value r).
#[global] Arguments set_p1_highest_promised_ballot _ _ /.
#[export] Instance set_p1_key : Setter p1_key := λ g r,
  mk_phase1_msg (p1_inst r) (p1_ballot r) (p1_promises_count r) (p1_highest_accepted_ballot r)
    (p1_highest_promised_ballot r) (g (p1_key r)) (p1_value r).
#[global] Arguments set_p1_key _ _ /.
#[export] Instance set_p1_value : Setter p1_value := λ g r,
  mk_phase1_msg (p1_inst r) (p1_ballot r) (p1_promises_count r) (p1_highest_accepted_ballot r)
    (p1_highest_promised_ballot r) (p1_key r) (g (p1_value r)).
#[global] Arguments set_p1_value _ _ /.
#[export] Instance set_pr_from : Setter pr_from := λ g r,
  mk_phase1_range_msg (g (pr_from r)) (pr_to r) (pr_ballot r) (pr_promises_count r).
#[global] Arguments set_pr_from _ _ /.
#[export] Instance set_pr_to : Setter pr_to := λ g r,
  mk_phase1_range_msg (pr_from r) (g (pr_to r)) (pr_ballot r) (pr_promises_count r).
#[global] Arguments set_pr_to _ _ /.
#[export] Instance set_pr_ballot : Setter pr_ballot := λ g r,
  mk_phase1_range_msg (pr_from r) (pr_to r) (g (pr_ballot r)) (pr_promises_count r).
#[global] Arguments set_pr_ballot _ _ /.
#[export] Instance set_pr_promises_count : Setter pr_promises_count := λ g r,
  mk_phase1_range_msg (pr_from r) (pr_to r) (pr_ballot r) (g (pr_promises_count r)).
#[global] Arguments set_pr_promises_count _ _ /.
#[export] Instance set_p2_inst : Setter p2_inst := λ g r,
  mk_phase2_msg (g (p2_inst r)) (p2_ballot r) (p2_accepts_count r) (p2_key r).
#[global] Arguments set_p2_inst _ _ /.
#[export] Instance set_p2_ballot : Setter p2_ballot := λ g r,
  mk_phase2_msg (p2_inst r) (g (p2_ballot r)) (p2_accepts_count r) (p2_key r).
#[global] Arguments set_p2_ballot _ _ /.
#[export] Instance set_p2_accepts_count : Setter p2_accepts_count := λ g r,
  mk_phase2_msg (p2_inst r) (p2_ballot r) (g (p2_accepts_count r)) (p2_key r).
#[global] Arguments set_p2_accepts_count _ _ /.
#[export] Instance set_p2_key : Setter p2_key := λ g r,
  mk_phase2_msg (p2_inst r) (p2_ballot r) (p2_accepts_count r) (g (p2_key r)).
#[global] Arguments set_p2_key _ _ /.

Lemma cmd_len_nonneg v : 0 ≤ cmd_len v.
Proof. unfold cmd_len. lia. Qed.
