(* ===== verification/RingStorage.v ===== *)
(** * The stable storage of a RingPaxos acceptor

    [ring_paxos/lib/stable_storage_1.c] and [lp_stable_storage.h]: a table of
    the most recent instances.  A command is either in the command slot of its
    instance or in memory of its own; the pointers of a record are values
    ([cmd_ptr]) and the memory is explicit, so that a [free] of memory that is
    not allocated has no result. *)
From Stdlib Require Import Init.Byte.
From S2P Require Import Prelude RingUtil RingMessages.

(** [void *]: NULL, the command slot with an index, or memory from [malloc]. *)
Inductive cmd_ptr := PNull | PSlot (k : Z) | PHeap (p : positive).

#[export] Instance cmd_ptr_eq_dec : EqDecision cmd_ptr.
Proof. solve_decision. Defined.

Record instance_record := mk_instance_record {
  ir_inst : Z;                 (* inst_number *)
  ir_ballot : Z;
  accept_ballot : Z;
  accepted_cmd_key : command_id;
  accepted_cmd_size : Z;
  accepted_cmd : cmd_ptr;
  proposed_cmd_key : command_id;
  proposed_cmd_size : Z;
  proposed_cmd : cmd_ptr
}.

(** [stable_storage_mngr], and the memory the commands are in. *)
Record stable_storage_mngr := mk_ssm {
  ssm_size : Z;                (* unsigned *)
  instances_array : list instance_record;
  commands_array : list (list byte);
  cmd_heap : gmap positive (list byte)
}.

#[export] Instance set_ir_inst : Setter ir_inst := λ g r,
  mk_instance_record (g (ir_inst r)) (ir_ballot r) (accept_ballot r) (accepted_cmd_key r)
    (accepted_cmd_size r) (accepted_cmd r) (proposed_cmd_key r) (proposed_cmd_size r)
    (proposed_cmd r).
#[global] Arguments set_ir_inst _ _ /.
#[export] Instance set_ir_ballot : Setter ir_ballot := λ g r,
  mk_instance_record (ir_inst r) (g (ir_ballot r)) (accept_ballot r) (accepted_cmd_key r)
    (accepted_cmd_size r) (accepted_cmd r) (proposed_cmd_key r) (proposed_cmd_size r)
    (proposed_cmd r).
#[global] Arguments set_ir_ballot _ _ /.
#[export] Instance set_accept_ballot : Setter accept_ballot := λ g r,
  mk_instance_record (ir_inst r) (ir_ballot r) (g (accept_ballot r)) (accepted_cmd_key r)
    (accepted_cmd_size r) (accepted_cmd r) (proposed_cmd_key r) (proposed_cmd_size r)
    (proposed_cmd r).
#[global] Arguments set_accept_ballot _ _ /.
#[export] Instance set_accepted_cmd_key : Setter accepted_cmd_key := λ g r,
  mk_instance_record (ir_inst r) (ir_ballot r) (accept_ballot r) (g (accepted_cmd_key r))
    (accepted_cmd_size r) (accepted_cmd r) (proposed_cmd_key r) (proposed_cmd_size r)
    (proposed_cmd r).
#[global] Arguments set_accepted_cmd_key _ _ /.
#[export] Instance set_accepted_cmd_size : Setter accepted_cmd_size := λ g r,
  mk_instance_record (ir_inst r) (ir_ballot r) (accept_ballot r) (accepted_cmd_key r) (g
    (accepted_cmd_size r)) (accepted_cmd r) (proposed_cmd_key r) (proposed_cmd_size r)
    (proposed_cmd r).
#[global] Arguments set_accepted_cmd_size _ _ /.
#[export] Instance set_accepted_cmd : Setter accepted_cmd := λ g r,
  mk_instance_record (ir_inst r) (ir_ballot r) (accept_ballot r) (accepted_cmd_key r)
    (accepted_cmd_size r) (g (accepted_cmd r)) (proposed_cmd_key r) (proposed_cmd_size r)
    (proposed_cmd r).
#[global] Arguments set_accepted_cmd _ _ /.
#[export] Instance set_proposed_cmd_key : Setter proposed_cmd_key := λ g r,
  mk_instance_record (ir_inst r) (ir_ballot r) (accept_ballot r) (accepted_cmd_key r)
    (accepted_cmd_size r) (accepted_cmd r) (g (proposed_cmd_key r)) (proposed_cmd_size r)
    (proposed_cmd r).
#[global] Arguments set_proposed_cmd_key _ _ /.
#[export] Instance set_proposed_cmd_size : Setter proposed_cmd_size := λ g r,
  mk_instance_record (ir_inst r) (ir_ballot r) (accept_ballot r) (accepted_cmd_key r)
    (accepted_cmd_size r) (accepted_cmd r) (proposed_cmd_key r) (g (proposed_cmd_size r))
    (proposed_cmd r).
#[global] Arguments set_proposed_cmd_size _ _ /.
#[export] Instance set_proposed_cmd : Setter proposed_cmd := λ g r,
  mk_instance_record (ir_inst r) (ir_ballot r) (accept_ballot r) (accepted_cmd_key r)
    (accepted_cmd_size r) (accepted_cmd r) (proposed_cmd_key r) (proposed_cmd_size r) (g
    (proposed_cmd r)).
#[global] Arguments set_proposed_cmd _ _ /.
#[export] Instance set_instances_array : Setter instances_array := λ g r,
  mk_ssm (ssm_size r) (g (instances_array r)) (commands_array r) (cmd_heap r).
#[global] Arguments set_instances_array _ _ /.
#[export] Instance set_commands_array : Setter commands_array := λ g r,
  mk_ssm (ssm_size r) (instances_array r) (g (commands_array r)) (cmd_heap r).
#[global] Arguments set_commands_array _ _ /.
#[export] Instance set_cmd_heap : Setter cmd_heap := λ g r,
  mk_ssm (ssm_size r) (instances_array r) (commands_array r) (g (cmd_heap r)).
#[global] Arguments set_cmd_heap _ _ /.

Implicit Types (ir : instance_record) (g : stable_storage_mngr) (k : Z).

Abbreviation SM := (M stable_storage_mngr).

Definition clear_instance_record : instance_record :=
  mk_instance_record 0 0 0 clear_cmd_key 0 PNull clear_cmd_key 0 PNull.

Definition stable_storage_init (working_set_size : Z) : stable_storage_mngr :=
  let size := u32 working_set_size in
  mk_ssm size (replicate (Z.to_nat size) clear_instance_record)
    (replicate (Z.to_nat size) (replicate (Z.to_nat MAX_MESSAGE_SIZE) x00)) ∅.

(** [inst_number % ssm->size]; the remainder by 0 has no result. *)
Definition ssm_index (inst : Z) : SM Z :=
  g ← get; c_assert (negb (ssm_size g =? 0));; mret (inst mod ssm_size g).

(** [*ir], for the record with index [k]. *)
Definition get_ir k : SM instance_record := g ← get; lift_opt (arr_get (instances_array g) k).
Definition put_ir k ir : SM unit := modify (λ g, g <| instances_array ::= λ l, arr_set l k ir |>).

(** The index of the record; a record of an instance that was overwritten is
    asked from an archive that does not exist. *)
Definition ssm_get_record (inst : Z) : SM Z :=
  k ← ssm_index inst;
  ir ← get_ir k;
  if ir_inst ir =? 0 then put_ir k (ir <| ir_inst := inst |>);; mret k
  else if ir_inst ir <? inst then put_ir k (clear_instance_record <| ir_inst := inst |>);; mret k
  else if inst <? ir_inst ir then crash (* ssm_get_archived_record *)
  else mret k.

Definition ssm_get_command_slot (inst : Z) : SM cmd_ptr :=
  k ← ssm_get_record inst;
  ir ← get_ir k;
  c_assert (ir_inst ir =? inst);;
  mret (PSlot k).

(** ** Memory *)

(** The [n] bytes a pointer designates. *)
Definition mem_read (p : cmd_ptr) (n : Z) : SM (list byte) :=
  g ← get;
  b ← lift_opt (match p with
                | PNull => None
                | PSlot k => arr_get (commands_array g) k
                | PHeap q => cmd_heap g !! q
                end);
  c_assert ((0 <=? n) && (n <=? cmd_len b));;
  mret (take (Z.to_nat n) b).

(** [memcpy(p, v, size)] *)
Definition overwrite (b v : list byte) : list byte := v ++ drop (length v) b.

Definition mem_write (p : cmd_ptr) (v : list byte) : SM unit :=
  g ← get;
  match p with
  | PNull => crash
  | PSlot k =>
      b ← lift_opt (arr_get (commands_array g) k);
      c_assert (cmd_len v <=? cmd_len b);;
      modify (λ g, g <| commands_array ::= λ l, arr_set l k (overwrite b v) |>)
  | PHeap q =>
      b ← lift_opt (cmd_heap g !! q);
      c_assert (cmd_len v <=? cmd_len b);;
      modify (λ g, g <| cmd_heap ::= <[q := overwrite b v]> |>)
  end.

(** [malloc(n)], which is assumed to succeed, of uninitialised memory. *)
Definition mem_malloc (n : Z) : SM cmd_ptr :=
  g ← get;
  let q := fresh (dom (cmd_heap g)) in
  put (g <| cmd_heap ::= <[q := replicate (Z.to_nat n) x00]> |>);;
  mret (PHeap q).

(** [free(p)]: only of NULL or of memory from [malloc] that was not freed. *)
Definition mem_free (p : cmd_ptr) : SM unit :=
  g ← get;
  match p with
  | PNull => mret tt
  | PSlot _ => crash
  | PHeap q =>
      _ ← lift_opt (cmd_heap g !! q);
      modify (λ g, g <| cmd_heap ::= delete q |>)
  end.

(** [strncmp(a, b, n) == 0], for [n] bytes [a] and [b]. *)
Fixpoint strncmp_eq (a b : list byte) : bool :=
  match a, b with
  | x :: a, y :: b => if negb (bool_decide (x = y)) then false
                      else if bool_decide (x = x00) then true else strncmp_eq a b
  | _, _ => true
  end.

#[global] Arguments ssm_index : simpl never.
#[global] Arguments get_ir : simpl never.
#[global] Arguments put_ir : simpl never.
#[global] Arguments ssm_get_record : simpl never.
#[global] Arguments ssm_get_command_slot : simpl never.
#[global] Arguments mem_read : simpl never.
#[global] Arguments mem_write : simpl never.
#[global] Arguments mem_malloc : simpl never.
#[global] Arguments mem_free : simpl never.
