(* ===== verification/RingAcceptor.v ===== *)
(** * The acceptors of the ring

    [ring_paxos/ring-paxos/acceptor_helpers.c], the handlers of an acceptor
    that is not the multicaster, and its dispatch in [acceptor_events.c].  The
    messages given to [net_send_udp] for the successor are recorded in
    [acc_sent]; logging and event counters are not modelled. *)
From Stdlib Require Import Init.Byte.
From S2P Require Import Prelude RingUtil RingMessages RingStorage.

(** The part of [acceptor] a regular acceptor uses. *)
Record ring_acceptor := mk_ring_acceptor {
  ssm : stable_storage_mngr;
  highest_instance_seen : Z;
  acc_sent : list ring_msg
}.

#[export] Instance set_ssm : Setter ssm := λ g r,
  mk_ring_acceptor (g (ssm r)) (highest_instance_seen r) (acc_sent r).
#[global] Arguments set_ssm _ _ /.
#[export] Instance set_highest_instance_seen : Setter highest_instance_seen := λ g r,
  mk_ring_acceptor (ssm r) (g (highest_instance_seen r)) (acc_sent r).
#[global] Arguments set_highest_instance_seen _ _ /.
#[export] Instance set_acc_sent : Setter acc_sent := λ g r,
  mk_ring_acceptor (ssm r) (highest_instance_seen r) (g (acc_sent r)).
#[global] Arguments set_acc_sent _ _ /.

Implicit Types (a : ring_acceptor) (ir : instance_record) (g : stable_storage_mngr) (k : Z).

Abbreviation RA := (M ring_acceptor).

Definition on_ssm {A} (m : SM A) : RA A := zoom ssm (λ g a, a <| ssm := g |>) m.

(** [net_send_udp(acc->succ_send, ...)] *)
Definition send_successor (m : ring_msg) : RA unit := modify (λ a, a <| acc_sent := acc_sent a ++ [m] |>).

(** The fields of [forward_buffer] after the first 8 bytes, which [memcpy] does
    not fill: ballot, promises count and highest promised ballot are what the
    stack held. *)
Record stack_junk := mk_junk { junk_ballot : Z; junk_promises : Z; junk_promised : Z }.

Definition acceptor_handle_phase1_msg (junk : stack_junk) (msg : phase1_msg) (size : Z) : RA unit :=
  c_assert (size =? cmd_len (p1_value msg) + sizeof_phase1_msg);;
  k ← on_ssm (ssm_get_record (p1_inst msg));
  ir ← on_ssm (get_ir k);
  c_assert (ir_inst ir =? p1_inst msg);;
  if p1_ballot msg <? ir_ballot ir then
    let msg := if p1_highest_promised_ballot msg <? ir_ballot ir
               then msg <| p1_highest_promised_ballot := ir_ballot ir |> else msg in
    send_successor (MPhase1 msg)
  else
    modify (λ a, if highest_instance_seen a <? p1_inst msg
                 then a <| highest_instance_seen := p1_inst msg |> else a);;
    let ir := ir <| ir_ballot := p1_ballot msg |> in
    on_ssm (put_ir k ir);;
    let msg := msg <| p1_promises_count := u32 (p1_promises_count msg + 1) |> in
    if accept_ballot ir <=? p1_highest_accepted_ballot msg then send_successor (MPhase1 msg)
    else
      v ← on_ssm (mem_read (accepted_cmd ir) (accepted_cmd_size ir));
      c_assert (sizeof_phase1_msg + accepted_cmd_size ir <=? MAX_MESSAGE_SIZE);;
      send_successor (MPhase1 (mk_phase1_msg (p1_inst msg) (junk_ballot junk) (junk_promises junk)
        (accept_ballot ir) (junk_promised junk) (accepted_cmd_key ir) v)).

(** The two loops of [acceptor_handle_phase1_range_msg]. *)
Definition range_promise_body (ballot : Z) (i : Z) : RA unit :=
  k ← on_ssm (ssm_get_record i);
  ir ← on_ssm (get_ir k);
  c_assert (ir_inst ir =? i);;
  c_assert (ir_ballot ir =? 0);;
  on_ssm (put_ir k (ir <| ir_ballot := ballot |>)).

Definition range_single (msg : phase1_range_msg) (i : Z) : phase1_msg :=
  mk_phase1_msg i (pr_ballot msg) (pr_promises_count msg) 0 0 clear_cmd_key [].

Definition acceptor_handle_phase1_range_msg (junk : stack_junk) (msg : phase1_range_msg) (size : Z) : RA unit :=
  c_assert (size =? sizeof_phase1_range_msg);;
  a ← get;
  if highest_instance_seen a <? pr_from msg then
    modify (λ a, a <| highest_instance_seen := pr_to msg |>);;
    for_le 64 (pr_from msg) (pr_to msg) (range_promise_body (pr_ballot msg));;
    send_successor (MPhase1Range (msg <| pr_promises_count := u32 (pr_promises_count msg + 1) |>))
  else
    for_le 64 (pr_from msg) (pr_to msg) (λ i,
      let m := range_single msg i in acceptor_handle_phase1_msg junk m (PH1_MSG_SIZE m)).

(** [acceptor_p2_store_and_send] *)
Definition p2_store_and_send k ir (msg : phase2_msg) : RA unit :=
  on_ssm (put_ir k (ir <| ir_ballot := p2_ballot msg |> <| accept_ballot := p2_ballot msg |>));;
  send_successor (MPhase2 (msg <| p2_accepts_count := u32 (p2_accepts_count msg + 1) |>)).

Definition acceptor_handle_phase2_msg (msg : phase2_msg) (size : Z) : RA unit :=
  c_assert (size =? sizeof_phase2_msg);;
  k ← on_ssm (ssm_get_record (p2_inst msg));
  ir ← on_ssm (get_ir k);
  c_assert (ir_inst ir =? p2_inst msg);;
  if p2_ballot msg <? ir_ballot ir then mret tt
  else
    let key := p2_key msg in
    let is_proposed_cmd := CMD_KEY_EQUALS key (proposed_cmd_key ir) in
    let is_accepted_cmd := CMD_KEY_EQUALS key (accepted_cmd_key ir) in
    c_assert (negb (is_proposed_cmd && is_accepted_cmd));;
    if negb is_accepted_cmd && negb is_proposed_cmd then mret tt
    else
      modify (λ a, if highest_instance_seen a <? p2_inst msg
                   then a <| highest_instance_seen := p2_inst msg |> else a);;
      command_slot ← on_ssm (ssm_get_command_slot (p2_inst msg));
      if is_accepted_cmd then (* A4 *)
        if negb (bool_decide (proposed_cmd ir = PNull)) then (* A6 *)
          c_assert (negb (CMD_KEY_EQUALS key (proposed_cmd_key ir)));;
          c_assert (negb (bool_decide (proposed_cmd ir = command_slot)));;
          on_ssm (mem_free (proposed_cmd ir));;
          p2_store_and_send k (ir <| proposed_cmd_key := clear_cmd_key |> <| proposed_cmd := PNull |>
                                  <| proposed_cmd_size := 0 |>) msg
        else p2_store_and_send k ir msg
      else if is_proposed_cmd && bool_decide (accepted_cmd ir = PNull) then (* A2 *)
        c_assert (bool_decide (proposed_cmd ir = command_slot));;
        p2_store_and_send k (ir <| accepted_cmd_key := proposed_cmd_key ir |>
                                <| accepted_cmd := proposed_cmd ir |>
                                <| accepted_cmd_size := proposed_cmd_size ir |>
                                <| proposed_cmd_key := clear_cmd_key |> <| proposed_cmd := PNull |>
                                <| proposed_cmd_size := 0 |>) msg
      else (* A8: proposed_cmd is not set to NULL *)
        c_assert (negb (bool_decide (accepted_cmd ir = PNull)) && negb (bool_decide (proposed_cmd ir = PNull))
                  && negb (bool_decide (accepted_cmd ir = proposed_cmd ir)));;
        c_assert is_proposed_cmd;;
        v ← on_ssm (mem_read (proposed_cmd ir) (proposed_cmd_size ir));
        on_ssm (mem_write command_slot v);;
        on_ssm (mem_free (proposed_cmd ir));;
        p2_store_and_send k (ir <| accepted_cmd_size := proposed_cmd_size ir |>
                                <| accepted_cmd_key := proposed_cmd_key ir |>
                                <| proposed_cmd_size := 0 |> <| proposed_cmd_key := clear_cmd_key |>) msg.

(** [assert(size == msg->cmd_size); assert(strncmp(p, msg->cmd_value, ...) == 0)] *)
Definition assert_same_cmd (p : cmd_ptr) (size : Z) (msg : cmdmap_msg) : RA unit :=
  c_assert (size =? cmd_len (cm_value msg));;
  v ← on_ssm (mem_read p size);
  c_assert (strncmp_eq v (cm_value msg)).

(** A copy of the command in new memory. *)
Definition store_secondary k ir (msg : cmdmap_msg) : RA unit :=
  p ← on_ssm (mem_malloc (cmd_len (cm_value msg)));
  on_ssm (mem_write p (cm_value msg));;
  on_ssm (put_ir k (ir <| proposed_cmd := p |> <| proposed_cmd_size := cmd_len (cm_value msg) |>
                       <| proposed_cmd_key := cm_key msg |>)).

Definition acceptor_handle_cmdmap_msg (msg : cmdmap_msg) (size : Z) : RA unit :=
  c_assert (size =? CMDMAP_MSG_SIZE msg);;
  k ← on_ssm (ssm_get_record (cm_inst msg));
  ir ← on_ssm (get_ir k);
  c_assert (ir_inst ir =? cm_inst msg);;
  let key := cm_key msg in
  command_slot ← on_ssm (ssm_get_command_slot (cm_inst msg));
  if negb (bool_decide (accepted_cmd ir = PNull)) && CMD_KEY_EQUALS key (accepted_cmd_key ir) then (* M4 *)
    assert_same_cmd (accepted_cmd ir) (accepted_cmd_size ir) msg;;
    if negb (bool_decide (proposed_cmd ir = PNull)) then (* M6 *)
      c_assert (negb (bool_decide (proposed_cmd ir = accepted_cmd ir)));;
      on_ssm (mem_free (proposed_cmd ir));;
      on_ssm (put_ir k (ir <| proposed_cmd := PNull |> <| proposed_cmd_size := 0 |>
                           <| proposed_cmd_key := clear_cmd_key |>))
    else mret tt
  else if negb (bool_decide (proposed_cmd ir = PNull)) && CMD_KEY_EQUALS key (proposed_cmd_key ir) then (* M3, M7 *)
    assert_same_cmd (proposed_cmd ir) (proposed_cmd_size ir) msg
  else if bool_decide (accepted_cmd ir = PNull) then (* M1, M2 *)
    c_assert (accepted_cmd_size ir =? 0);;
    on_ssm (mem_write command_slot (cm_value msg));;
    on_ssm (put_ir k (ir <| proposed_cmd := command_slot |> <| proposed_cmd_size := cmd_len (cm_value msg) |>
                         <| proposed_cmd_key := key |>))
  else if bool_decide (proposed_cmd ir = PNull) then store_secondary k ir msg (* M5 *)
  else (* M8 *)
    same ← (if proposed_cmd_size ir =? cmd_len (cm_value msg)
            then v ← on_ssm (mem_read (proposed_cmd ir) (cmd_len (cm_value msg)));
                 mret (strncmp_eq v (cm_value msg))
            else mret false);
    c_assert (negb same);;
    on_ssm (mem_free (proposed_cmd ir));;
    store_secondary k ir msg.

(** [ssm_save_delivered_value] does nothing. *)
Definition acceptor_handle_acceptance_msg (msg : acceptance_msg) (size : Z) : RA unit :=
  c_assert (size =? sizeof_acceptance_msg).

(** ** Dispatch (acceptor_events.c) *)

Definition on_predecessor_msg (junk : stack_junk) (msg : ring_msg) (size : Z) : RA unit :=
  match msg with
  | MPhase1 m => acceptor_handle_phase1_msg junk m size
  | MPhase1Range m => acceptor_handle_phase1_range_msg junk m size
  | MPhase2 m => acceptor_handle_phase2_msg m size
  | _ => mret tt
  end.

(** [am_i_first_in_ring]: the acceptor with id 2. *)
Definition am_i_first_in_ring (self_acceptor_id : Z) : bool := self_acceptor_id =? 2.

Definition on_multicast_msg (self_acceptor_id : Z) (msg : ring_msg) (size : Z) : RA unit :=
  match msg with
  | MCmdmap m => acceptor_handle_cmdmap_msg m size
  | MAcceptance m => acceptor_handle_acceptance_msg m size
  | MPhase2 m => if am_i_first_in_ring self_acceptor_id then acceptor_handle_phase2_msg m size else mret tt
  | _ => mret tt
  end.

Definition regular_acceptor_init (working_set_size : Z) : ring_acceptor :=
  mk_ring_acceptor (stable_storage_init working_set_size) 0 [].
