(* ===== verification/RingAcceptorSpec.v ===== *)
(** * What an acceptor of the ring promises

    The acceptor as a table of abstract instances ([inst_state]) with three
    operations, and the proof that the handlers of [RingAcceptor], with their
    pointers and their explicit memory, refine it.  One transition of the
    source is outside of the refinement, the edge A8 of its map-accept graph,
    because it leaves a dangling pointer: [double_free]. *)
From Stdlib Require Import Init.Byte.
From S2P Require Import Prelude RingUtil RingMessages RingStorage RingAcceptor.

Implicit Types (ir : instance_record) (g : stable_storage_mngr) (k : Z).

(** ** The specification *)

(** A command with its key. *)
Abbreviation command := (command_id * list byte)%type.

Record inst_state := mk_inst_state {
  as_ballot : Z;
  as_accept_ballot : Z;
  as_accepted : option command;
  as_proposed : option command
}.

Definition inst_empty : inst_state := mk_inst_state 0 0 None None.

Definition key_is (c : option command) (key : command_id) : bool :=
  match c with
  | Some (key', _) => bool_decide (key = key')
  | None => false
  end.

Definition spec_phase1 (junk : stack_junk) (msg : phase1_msg) (st : inst_state) : inst_state * ring_msg :=
  if p1_ballot msg <? as_ballot st then
    (st, MPhase1 (msg <| p1_highest_promised_ballot := Z.max (p1_highest_promised_ballot msg) (as_ballot st) |>))
  else
    (mk_inst_state (p1_ballot msg) (as_accept_ballot st) (as_accepted st) (as_proposed st),
     match as_accepted st with
     | Some (key, v) =>
         if as_accept_ballot st <=? p1_highest_accepted_ballot msg
         then MPhase1 (msg <| p1_promises_count := u32 (p1_promises_count msg + 1) |>)
         else MPhase1 (mk_phase1_msg (p1_inst msg) (junk_ballot junk) (junk_promises junk)
                         (as_accept_ballot st) (junk_promised junk) key v)
     | None => MPhase1 (msg <| p1_promises_count := u32 (p1_promises_count msg + 1) |>)
     end).

(** [None]: the request is refused. *)
Definition spec_phase2 (msg : phase2_msg) (st : inst_state) : option (inst_state * ring_msg) :=
  let reply := MPhase2 (msg <| p2_accepts_count := u32 (p2_accepts_count msg + 1) |>) in
  if p2_ballot msg <? as_ballot st then None
  else if key_is (as_accepted st) (p2_key msg) then
    Some (mk_inst_state (p2_ballot msg) (p2_ballot msg) (as_accepted st) None, reply)
  else if key_is (as_proposed st) (p2_key msg) then
    Some (mk_inst_state (p2_ballot msg) (p2_ballot msg) (as_proposed st) None, reply)
  else None.

Definition spec_cmdmap (msg : cmdmap_msg) (st : inst_state) : inst_state :=
  if key_is (as_accepted st) (cm_key msg) then mk_inst_state (as_ballot st) (as_accept_ballot st) (as_accepted st) None
  else if key_is (as_proposed st) (cm_key msg) then st
  else mk_inst_state (as_ballot st) (as_accept_ballot st) (as_accepted st) (Some (cm_key msg, cm_value msg)).

(** The table: each slot holds the newest instance that used it. *)
Record ring_spec := mk_ring_spec {
  sp_table : list (Z * inst_state);
  sp_highest : Z;
  sp_sent : list ring_msg
}.

#[export] Instance set_sp_table : Setter sp_table := λ f r,
  mk_ring_spec (f (sp_table r)) (sp_highest r) (sp_sent r).
#[global] Arguments set_sp_table _ _ /.
#[export] Instance set_sp_highest : Setter sp_highest := λ f r,
  mk_ring_spec (sp_table r) (f (sp_highest r)) (sp_sent r).
#[global] Arguments set_sp_highest _ _ /.
#[export] Instance set_sp_sent : Setter sp_sent := λ f r,
  mk_ring_spec (sp_table r) (sp_highest r) (f (sp_sent r)).
#[global] Arguments set_sp_sent _ _ /.

Implicit Types (sp : ring_spec) (st : inst_state) (t : list (Z * inst_state)).

Definition table_index t (inst : Z) : Z := inst mod Z.of_nat (length t).

(** The state of an instance; an older instance in its slot is forgotten. *)
Definition table_get t (inst : Z) : inst_state :=
  match arr_get t (table_index t inst) with
  | Some (i, st) => if i =? inst then st else inst_empty
  | None => inst_empty
  end.

Definition table_set t (inst : Z) st : list (Z * inst_state) := arr_set t (table_index t inst) (inst, st).

(** The slot of the instance is not used by a newer one. *)
Definition table_recent t (inst : Z) : Prop :=
  ∀ x, arr_get t (table_index t inst) = Some x → x.1 ≤ inst.

Definition phase1_step (junk : stack_junk) (m : phase1_msg) sp : ring_spec :=
  let st := table_get (sp_table sp) (p1_inst m) in
  let '(st', reply) := spec_phase1 junk m st in
  mk_ring_spec (table_set (sp_table sp) (p1_inst m) st')
    (if p1_ballot m <? as_ballot st then sp_highest sp else Z.max (sp_highest sp) (p1_inst m))
    (sp_sent sp ++ [reply]).

(** A promise for an instance that has none. *)
Definition promise_fresh (ballot : Z) t (i : Z) : list (Z * inst_state) :=
  let st := table_get t i in
  table_set t i (mk_inst_state ballot (as_accept_ballot st) (as_accepted st) (as_proposed st)).

Definition range_insts (m : phase1_range_msg) : list Z := range (pr_from m) (pr_to m).

(** All the instances of the range are promised at once, or one by one. *)
Definition phase1_range_step (junk : stack_junk) (m : phase1_range_msg) sp : ring_spec :=
  if sp_highest sp <? pr_from m then
    mk_ring_spec (foldl (promise_fresh (pr_ballot m)) (sp_table sp) (range_insts m)) (pr_to m)
      (sp_sent sp ++ [MPhase1Range (m <| pr_promises_count := u32 (pr_promises_count m + 1) |>)])
  else foldl (λ sp i, phase1_step junk (range_single m i) sp) sp (range_insts m).

Definition phase2_step (m : phase2_msg) sp : ring_spec :=
  let st := table_get (sp_table sp) (p2_inst m) in
  match spec_phase2 m st with
  | Some (st', reply) =>
      mk_ring_spec (table_set (sp_table sp) (p2_inst m) st') (Z.max (sp_highest sp) (p2_inst m))
        (sp_sent sp ++ [reply])
  | None => sp <| sp_table ::= λ t, table_set t (p2_inst m) st |>
  end.

Definition cmdmap_step (m : cmdmap_msg) sp : ring_spec :=
  sp <| sp_table ::= λ t, table_set t (cm_inst m) (spec_cmdmap m (table_get t (cm_inst m))) |>.

Definition spec_step (junk : stack_junk) (msg : ring_msg) sp : ring_spec :=
  match msg with
  | MPhase1 m => phase1_step junk m sp
  | MPhase1Range m => phase1_range_step junk m sp
  | MPhase2 m => phase2_step m sp
  | MCmdmap m => cmdmap_step m sp
  | _ => sp
  end.

(** The values of two mappings of one instance: the same for the same key, and
    different, as the source compares them, where it asserts that they are. *)
Definition same_value (c : option command) (msg : cmdmap_msg) : Prop :=
  match c with
  | Some (key, v) => key = cm_key msg → v = cm_value msg
  | None => True
  end.

Definition other_value (c : option command) (msg : cmdmap_msg) : Prop :=
  match c with
  | Some (key, v) => key ≠ cm_key msg → cmd_len v = cmd_len (cm_value msg) → strncmp_eq v (cm_value msg) = false
  | None => True
  end.

(** When a message is handled safely. *)
Definition msg_safe (msg : ring_msg) sp : Prop :=
  match msg with
  | MPhase1 m => 1 ≤ p1_inst m ∧ table_recent (sp_table sp) (p1_inst m) ∧ 0 ≤ p1_highest_accepted_ballot m
  | MPhase1Range m =>
      1 ≤ pr_from m ∧ pr_from m ≤ pr_to m ∧ pr_to m < 2 ^ 64 - 1 ∧ 0 ≤ pr_ballot m ∧
      ∀ i, pr_from m ≤ i ≤ pr_to m → table_recent (sp_table sp) i
  | MPhase2 m =>
      let st := table_get (sp_table sp) (p2_inst m) in
      1 ≤ p2_inst m ∧ table_recent (sp_table sp) (p2_inst m) ∧ p2_key m ≠ clear_cmd_key ∧
      0 ≤ p2_ballot m ∧
      (* not the edge A8 *)
      (as_accepted st ≠ None → key_is (as_proposed st) (p2_key m) = false)
  | MCmdmap m =>
      let st := table_get (sp_table sp) (cm_inst m) in
      1 ≤ cm_inst m ∧ table_recent (sp_table sp) (cm_inst m) ∧ cm_key m ≠ clear_cmd_key ∧
      cmd_len (cm_value m) ≤ MAX_COMMAND_SIZE ∧
      same_value (as_accepted st) m ∧ same_value (as_proposed st) m ∧
      (as_accepted st ≠ None → other_value (as_proposed st) m)
  | _ => True
  end.

(** ** The representation *)

Definition holds_bytes (b v : list byte) : Prop := take (length v) b = v.

Record rec_ok g k ir (i : Z) st : Prop := {
  ro_inst : ir_inst ir = i;
  ro_slot : i = 0 ∧ st = inst_empty ∨ 0 < i ∧ i mod ssm_size g = k;
  ro_ballot : ir_ballot ir = as_ballot st;
  ro_accept : accept_ballot ir = as_accept_ballot st;
  ro_accepted :
    match as_accepted st with
    | None => accepted_cmd ir = PNull ∧ accepted_cmd_size ir = 0 ∧ accepted_cmd_key ir = clear_cmd_key ∧
              as_accept_ballot st = 0
    | Some (key, v) => accepted_cmd ir = PSlot k ∧ accepted_cmd_size ir = cmd_len v ∧
        accepted_cmd_key ir = key ∧ key ≠ clear_cmd_key ∧ cmd_len v ≤ MAX_COMMAND_SIZE ∧
        ∃ b, arr_get (commands_array g) k = Some b ∧ holds_bytes b v
    end;
  ro_proposed :
    match as_proposed st with
    | None => proposed_cmd ir = PNull ∧ proposed_cmd_size ir = 0 ∧ proposed_cmd_key ir = clear_cmd_key
    | Some (key, v) => proposed_cmd_size ir = cmd_len v ∧ proposed_cmd_key ir = key ∧
        key ≠ clear_cmd_key ∧ cmd_len v ≤ MAX_COMMAND_SIZE ∧
        match as_accepted st with
        | None => proposed_cmd ir = PSlot k ∧ ∃ b, arr_get (commands_array g) k = Some b ∧ holds_bytes b v
        | Some (key', _) => key' ≠ key ∧ ∃ p, proposed_cmd ir = PHeap p ∧ cmd_heap g !! p = Some v
        end
    end
}.

Record ssm_rel g t : Prop := {
  sr_size : ssm_size g = Z.of_nat (length t);
  sr_pos : 0 < ssm_size g;
  sr_len1 : length (instances_array g) = length t;
  sr_len2 : length (commands_array g) = length t;
  sr_room : ∀ k b, arr_get (commands_array g) k = Some b → cmd_len b = MAX_MESSAGE_SIZE;
  sr_rec : ∀ k ir i st, arr_get (instances_array g) k = Some ir → arr_get t k = Some (i, st) → rec_ok g k ir i st;
  sr_uniq : ∀ k k' ir ir' p, arr_get (instances_array g) k = Some ir → arr_get (instances_array g) k' = Some ir' →
    proposed_cmd ir = PHeap p → proposed_cmd ir' = PHeap p → k = k'
}.

(** [highest_instance_seen]: the instances above have no promise. *)
Definition promised_below t (highest : Z) : Prop :=
  ∀ k i st, arr_get t k = Some (i, st) → as_ballot st ≠ 0 → i ≤ highest.

Record ring_rel a sp : Prop := {
  rr_ssm : ssm_rel (ssm a) (sp_table sp);
  rr_below : promised_below (sp_table sp) (sp_highest sp);
  rr_highest : highest_instance_seen a = sp_highest sp;
  rr_sent : acc_sent a = sp_sent sp
}.

(** A record does not depend on the slots and the memory of the others. *)
Lemma rec_ok_frame g g' k ir i st :
  rec_ok g k ir i st → ssm_size g' = ssm_size g →
  arr_get (commands_array g') k = arr_get (commands_array g) k →
  (∀ p, proposed_cmd ir = PHeap p → cmd_heap g' !! p = cmd_heap g !! p) → rec_ok g' k ir i st.
Proof.
  intros [H1 H2 H3 H4 H5 H6] Hs Hc Hh. constructor; rewrite ?Hs; try done.
  - destruct (as_accepted st) as [[key v]|]; [|done]. by rewrite Hc.
  - destruct (as_proposed st) as [[key v]|]; [|done]. destruct H6 as (?&?&?&?&H6). split_and!; try done.
    destruct (as_accepted st) as [[key' v']|]; [|by rewrite Hc].
    destruct H6 as (? & p & Hp & Hv). split; [done|]. exists p. split; [done|]. by rewrite Hh.
Qed.

(** ** The storage *)

Lemma length_table_set t inst st : length (table_set t inst st) = length t.
Proof. apply length_arr_set. Qed.

Lemma table_index_set t inst st inst' : table_index (table_set t inst st) inst' = table_index t inst'.
Proof. unfold table_index. by rewrite length_table_set. Qed.

Lemma table_set_set t inst st st' : table_set (table_set t inst st) inst st' = table_set t inst st'.
Proof. unfold table_set at 1. rewrite table_index_set. apply arr_set_set. Qed.

Lemma table_index_range t inst : (0 < length t)%nat → 0 ≤ table_index t inst < Z.of_nat (length t).
Proof. intros H. unfold table_index. apply Z.mod_pos_bound. lia. Qed.

Lemma table_get_set t inst st : (0 < length t)%nat → table_get (table_set t inst st) inst = st.
Proof.
  intros H. unfold table_get. rewrite table_index_set. unfold table_set.
  rewrite arr_get_set_eq by (by apply table_index_range). by rewrite Z.eqb_refl.
Qed.

(** One record, its slot and its memory change. *)
Lemma ssm_rel_update g g' t k inst ir' st' :
  ssm_rel g t → k = table_index t inst → 1 ≤ inst →
  ssm_size g' = ssm_size g → instances_array g' = arr_set (instances_array g) k ir' →
  length (commands_array g') = length (commands_array g) →
  (∀ k', k' ≠ k → arr_get (commands_array g') k' = arr_get (commands_array g) k') →
  (∀ b, arr_get (commands_array g') k = Some b → cmd_len b = MAX_MESSAGE_SIZE) →
  (∀ k' ir p, k' ≠ k → arr_get (instances_array g) k' = Some ir → proposed_cmd ir = PHeap p →
     cmd_heap g' !! p = cmd_heap g !! p ∧ proposed_cmd ir' ≠ PHeap p) →
  rec_ok g' k ir' inst st' → ssm_rel g' (table_set t inst st').
Proof.
  intros [R1 R2 R3 R4 R5 R6 R7] Hk Hi Hs Hins Hlen Hother Hroom Hheap Hrec.
  assert (0 ≤ k) as Hk0.
  { rewrite Hk. apply table_index_range. lia. }
  constructor; rewrite ?length_table_set, ?Hs, ?Hins, ?length_arr_set, ?Hlen; try done.
  - intros k' b Hb. destruct (decide (k' = k)) as [->|Hne]; [by apply Hroom|].
    rewrite Hother in Hb by done. by eapply R5.
  - intros k' ir i st Hir Hst. unfold table_set in Hst. rewrite <-Hk in Hst.
    destruct (decide (k' = k)) as [->|Hne].
    + pose proof (arr_get_lt _ _ _ Hir) as Hlt. rewrite length_arr_set in Hlt.
      rewrite arr_get_set_eq in Hir by done. rewrite arr_get_set_eq in Hst by (rewrite <-R3; done).
      by simplify_eq.
    + rewrite arr_get_set_ne in Hir by done. rewrite arr_get_set_ne in Hst by done. eapply rec_ok_frame; [by eapply R6|done|by apply Hother|].
      intros p Hp. by eapply Hheap.
  - assert (∀ k1 k2 ir2 p, k1 = k → arr_get (arr_set (instances_array g) k ir') k2 = Some ir2 →
      proposed_cmd ir' = PHeap p → proposed_cmd ir2 = PHeap p → k1 = k2) as Hone.
    { intros k1 k2 ir2 p -> H2 Hp1 Hp2. destruct (decide (k2 = k)) as [->|Hne]; [done|].
      rewrite arr_get_set_ne in H2 by done. by destruct (Hheap _ _ _ Hne H2 Hp2). }
    intros k1 k2 ir1 ir2 p H1 H2 Hp1 Hp2.
    destruct (decide (k1 = k)) as [->|Hn1]; [|destruct (decide (k2 = k)) as [->|Hn2]].
    + pose proof (arr_get_lt _ _ _ H1) as Hlt. rewrite length_arr_set in Hlt.
      rewrite arr_get_set_eq in H1 by done. simplify_eq. by eapply Hone.
    + pose proof (arr_get_lt _ _ _ H2) as Hlt. rewrite length_arr_set in Hlt.
      rewrite arr_get_set_eq in H2 by done. simplify_eq. symmetry. by eapply Hone.
    + rewrite arr_get_set_ne in H1 by done. rewrite arr_get_set_ne in H2 by done. by eapply R7.
Qed.

(** Only the record changes. *)
Lemma ssm_rel_put g t k inst ir ir' st' :
  ssm_rel g t → k = table_index t inst → 1 ≤ inst → arr_get (instances_array g) k = Some ir →
  (∀ p, proposed_cmd ir' = PHeap p → proposed_cmd ir = PHeap p) →
  rec_ok g k ir' inst st' →
  ssm_rel (g <| instances_array := arr_set (instances_array g) k ir' |>) (table_set t inst st').
Proof.
  intros R Hk Hi Hir Hp Hrec. eapply ssm_rel_update; try done.
  - intros b Hb. by eapply (sr_room _ _ R).
  - intros k' ir2 p Hne H2 Hp2. split; [done|]. intros Hp'%Hp.
    destruct Hne. by eapply (sr_uniq _ _ R).
  - by apply (rec_ok_frame g).
Qed.

(** What the record of an instance is. *)
Definition at_record g t (inst : Z) k ir st : Prop :=
  k = table_index t inst ∧ arr_get (instances_array g) k = Some ir ∧ rec_ok g k ir inst st.

Lemma wp_put_ir k ir (Q : unit → stable_storage_mngr → Prop) g :
  Q tt (g <| instances_array := arr_set (instances_array g) k ir |>) → wp (put_ir k ir) Q g.
Proof. intros H. unfold put_ir. by wp_steps. Qed.

Lemma wp_get_ir k ir (Q : instance_record → stable_storage_mngr → Prop) g :
  arr_get (instances_array g) k = Some ir → Q ir g → wp (get_ir k) Q g.
Proof. intros H HQ. unfold get_ir. wp_steps. by eapply wp_lift_opt. Qed.

Lemma wp_ssm_index g t inst (Q : Z → stable_storage_mngr → Prop) :
  ssm_rel g t → Q (table_index t inst) g → wp (ssm_index inst) Q g.
Proof.
  intros [] HQ. unfold ssm_index. wp_steps. apply wp_assert; [|wp_steps].
  - apply negb_true_iff, Z.eqb_neq. lia.
  - by rewrite sr_size0.
Qed.

Lemma ssm_get_record_spec g t inst (Q : Z → stable_storage_mngr → Prop) :
  ssm_rel g t → 1 ≤ inst → table_recent t inst →
  (∀ g' ir, ssm_rel g' (table_set t inst (table_get t inst)) →
     at_record g' t inst (table_index t inst) ir (table_get t inst) → Q (table_index t inst) g') →
  wp (ssm_get_record inst) Q g.
Proof.
  intros R Hi Hrecent HQ. unfold ssm_get_record. wp_steps. eapply wp_ssm_index; [done|].
  set (k := table_index t inst) in *.
  assert (0 ≤ k < Z.of_nat (length t)) as Hk.
  { apply table_index_range. destruct R. lia. }
  destruct (arr_get_is_Some t k Hk) as [[i st] Hst].
  destruct (arr_get_is_Some (instances_array g) k) as [ir Hir]; [by rewrite (sr_len1 _ _ R)|].
  pose proof (sr_rec _ _ R _ _ _ _ Hir Hst) as Hrec. pose proof (ro_inst _ _ _ _ _ Hrec) as Hri.
  assert (i ≤ inst) as Hle by exact (Hrecent _ Hst).
  assert (table_get t inst = if i =? inst then st else inst_empty) as Hget.
  { unfold table_get. fold k. by rewrite Hst. }
  assert (inst mod ssm_size g = k) as Hmod.
  { unfold k, table_index. by rewrite (sr_size _ _ R). }
  assert (i < inst → ∀ g' ir', g' = g <| instances_array := arr_set (instances_array g) k ir' |> →
    ir' = clear_instance_record <| ir_inst := inst |> → Q k g') as Hfresh.
  { intros Hlt g' ir' -> ->. destruct (Z.eqb_spec i inst); [lia|].
    apply (HQ _ (clear_instance_record <| ir_inst := inst |>)); rewrite Hget.
    - eapply ssm_rel_put; [done|done|done|done|done|]. constructor; cbn; try done. right. lia.
    - split; [done|]. split; [cbn; by apply arr_get_set_eq, (arr_get_lt _ _ _ Hir)|].
      constructor; cbn; try done. right. lia. }
  wp_steps. eapply wp_get_ir; [done|]. rewrite Hri.
  destruct (Z.eqb_spec i 0) as [Hz|Hz].
  - wp_steps. apply wp_put_ir. wp_steps. eapply Hfresh; [lia|done|].
    destruct Hrec as [Q1 [[_ ->]|?] Q3 Q4 Q5 Q6]; [|lia]. cbn in *.
    destruct Q5 as (E1 & E2 & E3 & _), Q6 as (F1 & F2 & F3).
    destruct ir; cbn in *. by subst.
  - destruct (Z.ltb_spec i inst).
    + wp_steps. apply wp_put_ir. wp_steps. by eapply Hfresh.
    + destruct (Z.ltb_spec inst i); [lia|]. wp_steps. assert (i = inst) as -> by lia.
      rewrite Z.eqb_refl in Hget. apply (HQ _ ir); rewrite Hget; [|done].
      unfold table_set. fold k. by rewrite (arr_set_same _ _ _ Hst).
Qed.

(** The second look-up changes nothing. *)
Lemma ssm_get_command_slot_spec g t inst ir st (Q : cmd_ptr → stable_storage_mngr → Prop) :
  ssm_rel g (table_set t inst st) → at_record g t inst (table_index t inst) ir st → 1 ≤ inst →
  Q (PSlot (table_index t inst)) g → wp (ssm_get_command_slot inst) Q g.
Proof.
  intros R (_ & Hir & Hrec) Hi HQ. pose proof (ro_inst _ _ _ _ _ Hrec) as Hri.
  unfold ssm_get_command_slot, ssm_get_record. wp_steps.
  eapply wp_ssm_index; [done|]. rewrite table_index_set. wp_steps.
  eapply wp_get_ir; [done|]. rewrite Hri.
  destruct (Z.eqb_spec inst 0); [lia|]. rewrite Z.ltb_irrefl. wp_steps.
  eapply wp_get_ir; [done|]. wp_steps. apply wp_assert; [by rewrite Hri, Z.eqb_refl|]. by wp_steps.
Qed.

(** ** The table *)

Lemma table_recent_set t i j st : i ≤ j → table_recent t j → table_recent (table_set t i st) j.
Proof.
  intros Hij H x. rewrite table_index_set. unfold table_set. intros Hx.
  destruct (decide (table_index t i = table_index t j)) as [E|E].
  - pose proof (arr_get_lt _ _ _ Hx) as Hlt. rewrite length_arr_set in Hlt.
    rewrite E, arr_get_set_eq in Hx by done. by simplify_eq/=.
  - destruct t as [|y t]; [by apply arr_get_lt in Hx; rewrite length_arr_set in Hx; cbn in Hx; lia|].
    rewrite arr_get_set_ne in Hx; [by apply H| |done]. apply table_index_range. cbn. lia.
Qed.

Lemma promised_below_set t i st h h' :
  promised_below t h → h ≤ h' → (as_ballot st ≠ 0 → i ≤ h') → promised_below (table_set t i st) h'.
Proof.
  intros H Hle Hst k j st' Hk Hb. unfold table_set in Hk.
  pose proof (arr_get_lt _ _ _ Hk) as Hlt. rewrite length_arr_set in Hlt.
  destruct (decide (table_index t i = k)) as [E|E].
  - rewrite E, arr_get_set_eq in Hk by done. simplify_eq. by apply Hst.
  - rewrite arr_get_set_ne in Hk; [etrans; [by eapply H|done]| |done].
    apply table_index_range. lia.
Qed.

Lemma promised_below_get t h i : promised_below t h → as_ballot (table_get t i) ≠ 0 → i ≤ h.
Proof.
  intros H. unfold table_get. destruct (arr_get _ _) as [[j st]|] eqn:E; [|done].
  destruct (Z.eqb_spec j i) as [->|]; [|done]. by eapply H.
Qed.
