(* ===== verification/RingAcceptorRefine.v ===== *)
(** * The handlers of an acceptor of the ring implement its specification

    One lemma per handler of [RingAcceptor]: from a state that represents the
    specification's, and for a safe message, the handler returns in a state
    that represents the result of [spec_step]. *)
From Stdlib Require Import Init.Byte.
From S2P Require Import Prelude RingUtil RingMessages RingStorage RingAcceptor RingAcceptorSpec.

Implicit Types (ir : instance_record) (g : stable_storage_mngr) (k : Z).
Implicit Types (a : ring_acceptor) (sp : ring_spec) (st : inst_state) (t : list (Z * inst_state)).

(** ** Memory *)

Lemma holds_bytes_length b v : holds_bytes b v → (length v ≤ length b)%nat.
Proof. unfold holds_bytes. intros H%(f_equal length). rewrite length_take in H. lia. Qed.

Lemma holds_overwrite b v : holds_bytes (overwrite b v) v.
Proof. unfold holds_bytes, overwrite. by rewrite take_app_length. Qed.

Lemma overwrite_len b v : cmd_len v ≤ cmd_len b → cmd_len (overwrite b v) = cmd_len b.
Proof. unfold overwrite, cmd_len. rewrite length_app, length_drop. lia. Qed.

Lemma strncmp_eq_refl v : strncmp_eq v v = true.
Proof.
  induction v as [|x v IH]; cbn; [done|].
  rewrite (bool_decide_eq_true_2 (x = x)) by done. cbn. by case_bool_decide.
Qed.

Section memory.
Context (g : stable_storage_mngr) (b v : list byte).

Lemma wp_mem_read_slot q k n (Q : list byte → stable_storage_mngr → Prop) :
  q = PSlot k → arr_get (commands_array g) k = Some b → holds_bytes b v → n = cmd_len v →
  Q v g → wp (mem_read q n) Q g.
Proof.
  intros -> Hb Hv -> HQ. pose proof (holds_bytes_length _ _ Hv). unfold mem_read. wp_steps.
  eapply wp_lift_opt; [done|]. wp_steps. apply wp_assert.
  - unfold cmd_len. apply andb_true_intro. split; apply Z.leb_le; lia.
  - wp_steps. unfold cmd_len. by rewrite Nat2Z.id, Hv.
Qed.

Lemma wp_mem_read_heap q p n (Q : list byte → stable_storage_mngr → Prop) :
  q = PHeap p → cmd_heap g !! p = Some v → n = cmd_len v → Q v g → wp (mem_read q n) Q g.
Proof.
  intros -> Hb -> HQ. unfold mem_read. wp_steps.
  eapply wp_lift_opt; [done|]. wp_steps. apply wp_assert.
  - unfold cmd_len. apply andb_true_intro. split; apply Z.leb_le; lia.
  - wp_steps. unfold cmd_len. by rewrite Nat2Z.id, firstn_all.
Qed.

Lemma wp_mem_write_slot k (Q : unit → stable_storage_mngr → Prop) :
  arr_get (commands_array g) k = Some b → cmd_len v ≤ cmd_len b →
  Q tt (g <| commands_array := arr_set (commands_array g) k (overwrite b v) |>) →
  wp (mem_write (PSlot k) v) Q g.
Proof.
  intros Hb Hv HQ. unfold mem_write. wp_steps.
  eapply wp_lift_opt; [done|]. wp_steps. apply wp_assert; [by apply Z.leb_le|]. by wp_steps.
Qed.

Lemma wp_mem_write_heap p (Q : unit → stable_storage_mngr → Prop) :
  cmd_heap g !! p = Some b → cmd_len v = cmd_len b →
  Q tt (g <| cmd_heap := <[p := v]> (cmd_heap g) |>) →
  wp (mem_write (PHeap p) v) Q g.
Proof.
  intros Hb Hv HQ. unfold mem_write. wp_steps.
  eapply wp_lift_opt; [done|]. wp_steps. apply wp_assert; [apply Z.leb_le; lia|]. wp_steps.
  unfold overwrite. rewrite drop_ge, app_nil_r by (unfold cmd_len in Hv; lia). done.
Qed.

Lemma wp_mem_free q p (Q : unit → stable_storage_mngr → Prop) :
  q = PHeap p → cmd_heap g !! p = Some v →
  Q tt (g <| cmd_heap := delete p (cmd_heap g) |>) → wp (mem_free q) Q g.
Proof. intros -> Hv HQ. unfold mem_free. wp_steps. eapply wp_lift_opt; [done|]. by wp_steps. Qed.
End memory.

(** ** Records *)

Section records.
Context g k ir (inst : Z) st (key : command_id).
Context (Hok : rec_ok g k ir inst st).

Lemma accepted_null : bool_decide (accepted_cmd ir = PNull) = bool_decide (as_accepted st = None).
Proof using Hok.
  destruct Hok as [H1 H2 H3 H4 H5 H6]. destruct (as_accepted st) as [[key' v]|].
  - by destruct H5 as (-> & _).
  - by destruct H5 as (-> & _).
Qed.

Lemma proposed_null : bool_decide (proposed_cmd ir = PNull) = bool_decide (as_proposed st = None).
Proof using Hok.
  destruct Hok as [H1 H2 H3 H4 H5 H6]. destruct (as_proposed st) as [[key' v]|].
  - destruct H6 as (_ & _ & _ & _ & H6). destruct (as_accepted st) as [[? ?]|].
    + by destruct H6 as (_ & p & -> & _).
    + by destruct H6 as (-> & _).
  - by destruct H6 as (-> & _).
Qed.

Lemma accepted_key_is : key ≠ clear_cmd_key → CMD_KEY_EQUALS key (accepted_cmd_key ir) = key_is (as_accepted st) key.
Proof using Hok.
  intros Hk. rewrite CMD_KEY_EQUALS_decide. destruct Hok as [H1 H2 H3 H4 H5 H6].
  destruct (as_accepted st) as [[key' v]|]; cbn.
  - by destruct H5 as (_ & _ & -> & _).
  - destruct H5 as (_ & _ & -> & _). by apply bool_decide_eq_false_2.
Qed.

Lemma proposed_key_is : key ≠ clear_cmd_key → CMD_KEY_EQUALS key (proposed_cmd_key ir) = key_is (as_proposed st) key.
Proof using Hok.
  intros Hk. rewrite CMD_KEY_EQUALS_decide. destruct Hok as [H1 H2 H3 H4 H5 H6].
  destruct (as_proposed st) as [[key' v]|]; cbn.
  - by destruct H6 as (_ & -> & _).
  - destruct H6 as (_ & _ & ->). by apply bool_decide_eq_false_2.
Qed.
End records.

(** The record of an instance, and its slot and memory, get a new state. *)
Lemma ssm_put_spec g t inst ir st ir' st' :
  ssm_rel g (table_set t inst st) → at_record g t inst (table_index t inst) ir st → 1 ≤ inst →
  (∀ p, proposed_cmd ir' = PHeap p → proposed_cmd ir = PHeap p) →
  rec_ok g (table_index t inst) ir' inst st' →
  ssm_rel (g <| instances_array := arr_set (instances_array g) (table_index t inst) ir' |>) (table_set t inst st').
Proof.
  intros R (_ & Hir & _) Hi Hp Hrec. rewrite <-(table_set_set t inst st st').
  eapply ssm_rel_put; [done|by rewrite table_index_set|done|done|done|done].
Qed.

Lemma bump_highest a i :
  (if highest_instance_seen a <? i then a <| highest_instance_seen := i |> else a) =
  a <| highest_instance_seen := Z.max (highest_instance_seen a) i |>.
Proof.
  destruct (Z.ltb_spec (highest_instance_seen a) i).
  - by rewrite Z.max_r by lia.
  - rewrite Z.max_l by lia. by destruct a.
Qed.

(** ** Phase 1 *)

Lemma phase1_refines junk (m : phase1_msg) a sp :
  ring_rel a sp → msg_safe (MPhase1 m) sp →
  wp (acceptor_handle_phase1_msg junk m (PH1_MSG_SIZE m)) (λ _ a', ring_rel a' (phase1_step junk m sp)) a.
Proof.
  intros [R Hbel Hhi Hsent] (Hi & Hrecent & Hhab). unfold acceptor_handle_phase1_msg, on_ssm. wp_steps.
  apply wp_assert; [unfold PH1_MSG_SIZE; apply Z.eqb_eq; lia|]. wp_steps.
  eapply ssm_get_record_spec; [done..|]. intros g ir R1 Hat. wp_steps.
  pose proof Hat as (_ & Hir & Hok). set (st := table_get (sp_table sp) (p1_inst m)) in *.
  eapply wp_get_ir; [done|]. wp_steps. rewrite (ro_inst _ _ _ _ _ Hok).
  apply wp_assert; [by rewrite Z.eqb_refl|]. rewrite (ro_ballot _ _ _ _ _ Hok).
  unfold phase1_step, spec_phase1. fold st. destruct (Z.ltb_spec (p1_ballot m) (as_ballot st)) as [Hlt|Hge].
  - unfold send_successor. wp_steps. constructor; cbn.
    + done.
    + eapply promised_below_set; [done|lia|by apply promised_below_get].
    + done.
    + rewrite Hsent. repeat f_equal. destruct (Z.ltb_spec (p1_highest_promised_ballot m) (as_ballot st)).
      * by rewrite Z.max_r by lia.
      * rewrite Z.max_l by lia. by destruct m.
  - wp_steps. rewrite bump_highest. apply wp_put_ir. wp_steps. cbn.
    destruct Hok as [O1 O2 O3 O4 O5 O6].
    set (st' := mk_inst_state (p1_ballot m) (as_accept_ballot st) (as_accepted st) (as_proposed st)).
    set (g' := g <| instances_array := arr_set (instances_array g) (table_index (sp_table sp) (p1_inst m))
                      (ir <| ir_ballot := p1_ballot m |>) |>).
    assert (ssm_rel g' (table_set (sp_table sp) (p1_inst m) st')) as R2.
    { eapply ssm_put_spec; [done|done|done|done|]. constructor; cbn; try done. destruct O2 as [[? ?]|?]; [lia|by right]. }
    assert (promised_below (table_set (sp_table sp) (p1_inst m) st') (Z.max (sp_highest sp) (p1_inst m))) as Hb2.
    { eapply promised_below_set; [done|lia|lia]. }
    destruct (as_accepted st) as [[key v]|] eqn:Eacc.
    + destruct O5 as (Ha & Hs & Hkey & _ & Hv & b & Hb & Hbv). rewrite <-O4.
      destruct (accept_ballot ir <=? p1_highest_accepted_ballot m).
      * unfold send_successor. wp_steps. constructor; cbn; [done|done|by rewrite Hhi|by rewrite Hsent].
      * wp_steps. eapply wp_mem_read_slot; [done..|].
        wp_steps. apply wp_assert.
        { rewrite Hs. apply Z.leb_le. unfold MAX_COMMAND_SIZE in Hv. lia. }
        unfold send_successor. wp_steps. constructor; cbn; [done|done|by rewrite Hhi|]. by rewrite Hsent, Hkey.
    + destruct O5 as (_ & _ & _ & Hz). rewrite Hz in O4. destruct (Z.leb_spec (accept_ballot ir) (p1_highest_accepted_ballot m)); [|lia].
      unfold send_successor. wp_steps. constructor; cbn; [done|done|by rewrite Hhi|by rewrite Hsent].
Qed.

(** ** Ranges of instances *)

Lemma table_get_set_ne t i j st : i ≠ j → (0 < length t)%nat →
  table_get (table_set t i st) j = table_get t j ∨ table_get (table_set t i st) j = inst_empty.
Proof.
  intros Hne Hlen. unfold table_get. rewrite table_index_set. unfold table_set.
  pose proof (table_index_range t i Hlen) as Hi.
  destruct (decide (table_index t i = table_index t j)) as [E|E].
  - right. rewrite E in *. rewrite arr_get_set_eq by done. by destruct (Z.eqb_spec i j).
  - left. by rewrite arr_get_set_ne by (done || lia).
Qed.

Lemma promise_fresh_later ballot t i x : i < x → (0 < length t)%nat →
  table_recent t x ∧ as_ballot (table_get t x) = 0 →
  table_recent (promise_fresh ballot t i) x ∧ as_ballot (table_get (promise_fresh ballot t i) x) = 0.
Proof.
  intros Hi Hlen [H1 H2]. split; [apply table_recent_set; [lia|done]|].
  unfold promise_fresh. destruct (table_get_set_ne t i x (mk_inst_state ballot (as_accept_ballot (table_get t i))
    (as_accepted (table_get t i)) (as_proposed (table_get t i)))) as [-> | ->]; [lia|done|done|done].
Qed.

Lemma length_fold_fresh ballot dn t : length (foldl (promise_fresh ballot) t dn) = length t.
Proof. revert t. induction dn as [|i dn IH]; intros t; cbn; [done|]. rewrite IH. apply length_table_set. Qed.

Lemma fold_fresh_later ballot dn t x : (∀ i, i ∈ dn → i < x) → (0 < length t)%nat →
  table_recent t x ∧ as_ballot (table_get t x) = 0 →
  table_recent (foldl (promise_fresh ballot) t dn) x ∧ as_ballot (table_get (foldl (promise_fresh ballot) t dn) x) = 0.
Proof.
  revert t. induction dn as [|i dn IH]; intros t Hdn Hlen H; cbn; [done|]. apply IH.
  - intros j Hj. apply Hdn. by right.
  - unfold promise_fresh. by rewrite length_table_set.
  - apply promise_fresh_later; [apply Hdn; by left|done|done].
Qed.

Lemma range_body_spec ballot i a t :
  ssm_rel (ssm a) t → 1 ≤ i → table_recent t i ∧ as_ballot (table_get t i) = 0 →
  wp (range_promise_body ballot i) (λ _ a', ssm_rel (ssm a') (promise_fresh ballot t i) ∧
    highest_instance_seen a' = highest_instance_seen a ∧ acc_sent a' = acc_sent a) a.
Proof.
  intros R Hi [Hrecent Hz]. unfold range_promise_body, on_ssm. wp_steps.
  eapply ssm_get_record_spec; [done..|]. intros g ir R1 Hat. wp_steps.
  pose proof Hat as (_ & Hir & Hok). eapply wp_get_ir; [done|]. wp_steps.
  rewrite (ro_inst _ _ _ _ _ Hok). apply wp_assert; [by rewrite Z.eqb_refl|]. wp_steps.
  rewrite (ro_ballot _ _ _ _ _ Hok), Hz. apply wp_assert; [done|]. wp_steps. apply wp_put_ir. cbn.
  split; [|done]. destruct Hok as [O1 O2 O3 O4 O5 O6]. unfold promise_fresh. eapply ssm_put_spec; [done..|].
  constructor; cbn; try done. destruct O2 as [[? ?]|?]; [lia|by right].
Qed.

Lemma fold_fresh_below ballot to dn t h :
  promised_below t h → h ≤ to → (∀ i, i ∈ dn → i ≤ to) → promised_below (foldl (promise_fresh ballot) t dn) to.
Proof.
  intros H Hh Hdn. assert (promised_below t to) as Ht.
  { intros k i st Hk Hb. etrans; [by eapply H|done]. }
  clear H Hh. revert t Ht. induction dn as [|i dn IH]; intros t Ht; cbn; [done|]. apply IH.
  - intros j Hj. apply Hdn. by right.
  - eapply promised_below_set; [done|lia|]. intros _. apply Hdn. by left.
Qed.

Lemma phase1_step_recent junk m sp x : p1_inst m ≤ x →
  table_recent (sp_table sp) x → table_recent (sp_table (phase1_step junk m sp)) x.
Proof. intros H1 H2. unfold phase1_step. destruct (spec_phase1 _ _ _). by apply table_recent_set. Qed.

Lemma fold_phase1_recent junk m dn sp x : (∀ i, i ∈ dn → i < x) →
  table_recent (sp_table sp) x → table_recent (sp_table (foldl (λ sp i, phase1_step junk (range_single m i) sp) sp dn)) x.
Proof.
  revert sp. induction dn as [|i dn IH]; intros sp Hdn H; cbn; [done|]. apply IH.
  - intros j Hj. apply Hdn. by right.
  - apply phase1_step_recent; [|done]. cbn. pose proof (Hdn i). cut (i < x); [lia|]. apply Hdn. by left.
Qed.

Lemma phase1_range_refines junk (m : phase1_range_msg) a sp :
  ring_rel a sp → msg_safe (MPhase1Range m) sp →
  wp (acceptor_handle_phase1_range_msg junk m sizeof_phase1_range_msg)
     (λ _ a', ring_rel a' (phase1_range_step junk m sp)) a.
Proof.
  intros [R Hbel Hhi Hsent] (Hfrom & Hle & Hto & _ & Hrecent).
  unfold acceptor_handle_phase1_range_msg, phase1_range_step, for_le. wp_steps.
  apply wp_assert; [done|]. wp_steps. rewrite Hhi. unfold range_insts.
  set (t := sp_table sp) in *.
  destruct (Z.ltb_spec (sp_highest sp) (pr_from m)) as [Hlt|Hge].
  - assert (0 < length t)%nat as Hlen by (destruct R; lia).
    wp_steps. rewrite decide_False by lia.
    apply (wp_mfor (λ dn a', ssm_rel (ssm a') (foldl (promise_fresh (pr_ballot m)) t dn) ∧
      highest_instance_seen a' = pr_to m ∧ acc_sent a' = acc_sent a)); [done| |].
    + intros dn x rest a' E (R' & Hh' & Hs'). rewrite foldl_app. cbn [foldl].
      destruct (range_split _ _ _ _ _ E) as [Hx1 Hx2].
      eapply wp_mono; [eapply range_body_spec; [done|lia|]|].
      * apply fold_fresh_later; [by eauto using range_prefix_lt|done|].
        split; [apply Hrecent; lia|]. destruct (decide (as_ballot (table_get t x) = 0)) as [|Hb]; [done|].
        apply (promised_below_get _ _ _ Hbel) in Hb. lia.
      * cbn. intros _ a2 (? & -> & ->). done.
    + intros a' (R' & Hh' & Hs'). unfold send_successor. wp_steps. constructor; cbn; try done.
      * eapply fold_fresh_below; [done|lia|]. intros i [_ ?]%elem_of_range. done.
      * by rewrite Hs', Hsent.
  - rewrite decide_False by lia.
    apply (wp_mfor (λ dn a', ring_rel a' (foldl (λ sp i, phase1_step junk (range_single m i) sp) sp dn))); [done| |done].
    intros dn x rest a' E R'. rewrite foldl_app. cbn [foldl]. cbv zeta.
    destruct (range_split _ _ _ _ _ E) as [Hx1 Hx2].
    apply phase1_refines; [done|]. cbn. split; [lia|]. split; [|lia].
    apply fold_phase1_recent; [by eauto using range_prefix_lt|apply Hrecent; lia].
Qed.

(** ** Phase 2 *)

(** The memory of a second mapping is freed. *)
Lemma ssm_free_spec g t inst ir st p v ir' st' :
  ssm_rel g (table_set t inst st) → at_record g t inst (table_index t inst) ir st → 1 ≤ inst →
  proposed_cmd ir = PHeap p → cmd_heap g !! p = Some v → proposed_cmd ir' = PNull →
  rec_ok g (table_index t inst) ir' inst st' →
  ssm_rel (g <| cmd_heap := delete p (cmd_heap g) |>
             <| instances_array := arr_set (instances_array g) (table_index t inst) ir' |>) (table_set t inst st').
Proof.
  intros R (_ & Hir & _) Hi Hp Hv Hp' Hrec. rewrite <-(table_set_set t inst st st').
  eapply (ssm_rel_update g _ _ (table_index t inst)); try done.
  - by rewrite table_index_set.
  - intros b Hb. by eapply (sr_room _ _ R).
  - intros k' ir2 p2 Hne H2 Hp2. split; [|by rewrite Hp']. cbn. apply lookup_delete_ne.
    intros <-. destruct Hne. by apply (sr_uniq _ _ R _ _ _ _ _ H2 Hir Hp2 Hp).
  - eapply rec_ok_frame; [done..|]. intros p2 Hp2. by rewrite Hp' in Hp2.
Qed.

Lemma p2_store_spec k ir (m : phase2_msg) a sp st' :
  ssm_rel ((ssm a) <| instances_array := arr_set (instances_array (ssm a)) k
                      (ir <| ir_ballot := p2_ballot m |> <| accept_ballot := p2_ballot m |>) |>)
    (table_set (sp_table sp) (p2_inst m) st') →
  promised_below (sp_table sp) (sp_highest sp) →
  highest_instance_seen a = Z.max (sp_highest sp) (p2_inst m) → acc_sent a = sp_sent sp →
  wp (p2_store_and_send k ir m)
     (λ _ a', ring_rel a' (mk_ring_spec (table_set (sp_table sp) (p2_inst m) st')
        (Z.max (sp_highest sp) (p2_inst m))
        (sp_sent sp ++ [MPhase2 (m <| p2_accepts_count := u32 (p2_accepts_count m + 1) |>)]))) a.
Proof.
  intros R Hbel Hhi Hsent. unfold p2_store_and_send, on_ssm, send_successor. wp_steps.
  apply wp_put_ir. wp_steps. constructor; cbn; [done| |done|by rewrite Hsent].
  eapply promised_below_set; [done|lia|lia].
Qed.

Lemma proposed_other g k ir inst st key : rec_ok g k ir inst st →
  key_is (as_accepted st) key = true → key_is (as_proposed st) key = false.
Proof.
  intros [_ _ _ _ _ H6]. destruct (as_proposed st) as [[kp vp]|], (as_accepted st) as [[ka va]|]; try done; cbn.
  destruct H6 as (_ & _ & _ & _ & Hne & _). intros ->%bool_decide_eq_true_1. by apply bool_decide_eq_false_2.
Qed.

(** The slot of a valid record, for [i] at least 1. *)
Lemma ro_slot_pos g k ir inst st : rec_ok g k ir inst st → 1 ≤ inst → 0 < inst ∧ inst mod ssm_size g = k.
Proof. intros [_ [[? ?]|?] _ _ _ _] ?; [lia|done]. Qed.

Lemma phase2_refines (m : phase2_msg) a sp :
  ring_rel a sp → msg_safe (MPhase2 m) sp →
  wp (acceptor_handle_phase2_msg m sizeof_phase2_msg) (λ _ a', ring_rel a' (phase2_step m sp)) a.
Proof.
  intros [R Hbel Hhi Hsent] (Hi & Hrecent & Hkey & Hbal & HA8).
  unfold acceptor_handle_phase2_msg, on_ssm. wp_steps.
  apply wp_assert; [done|]. wp_steps.
  eapply ssm_get_record_spec; [done..|]. intros g ir R1 Hat. wp_steps.
  pose proof Hat as (_ & Hir & Hok). set (st := table_get (sp_table sp) (p2_inst m)) in *.
  eapply wp_get_ir; [done|]. wp_steps. rewrite (ro_inst _ _ _ _ _ Hok).
  apply wp_assert; [by rewrite Z.eqb_refl|]. rewrite (ro_ballot _ _ _ _ _ Hok).
  cbv zeta. unfold phase2_step, spec_phase2. fold st.
  assert (ring_rel (a <| ssm := g |>) (sp <| sp_table ::= λ t, table_set t (p2_inst m) st |>)) as Hsame.
  { constructor; cbn; try done. eapply promised_below_set; [done|lia|by apply promised_below_get]. }
  destruct (Z.ltb_spec (p2_ballot m) (as_ballot st)) as [Hlt|Hge]; [by wp_steps|].
  rewrite !(accepted_key_is _ _ _ _ _ _ Hok), !(proposed_key_is _ _ _ _ _ _ Hok) by done.
  wp_steps. apply wp_assert.
  { apply negb_true_iff, andb_false_iff. destruct (key_is (as_accepted st) (p2_key m)) eqn:E; [left|by right].
    by eapply proposed_other. }
  pose proof (ro_slot_pos _ _ _ _ _ Hok Hi) as Hslot.
  destruct (key_is (as_accepted st) (p2_key m)) eqn:Eacc; cbn [negb andb].
  - (* A4, A6 *)
    rewrite (proposed_other _ _ _ _ _ _ Hok Eacc).
    wp_steps. rewrite bump_highest. eapply ssm_get_command_slot_spec; [exact R1|exact Hat|done|]. wp_steps.
    rewrite (proposed_null _ _ _ _ _ Hok).
    destruct Hok as [O1 O2 O3 O4 O5 O6].
    destruct (as_accepted st) as [[ka va]|] eqn:Ea; [|done].
    destruct (as_proposed st) as [[kp vp]|] eqn:Ep; cbn [negb bool_decide].
    + destruct O6 as (_ & _ & _ & _ & _ & p & Hp & Hv).
      rewrite bool_decide_eq_false_2 by done. cbn [negb]. wp_steps. apply wp_assert; [done|]. wp_steps.
      apply wp_assert; [apply negb_true_iff, bool_decide_eq_false_2; by rewrite Hp|]. wp_steps. eapply wp_mem_free; [done|exact Hv|]. wp_steps.
      apply p2_store_spec; [|done|cbn; by rewrite Hhi|done]. cbn.
      eapply ssm_free_spec; [exact R1|done|done|done|done|done|]. by constructor; cbn; try done; right.
    + apply p2_store_spec; [|done|cbn; by rewrite Hhi|done]. cbn.
      destruct O6 as (Hp & Hps & Hpk).
      eapply ssm_put_spec; [exact R1|done|done|cbn; by rewrite Hp|]. by constructor; cbn; try done; right.
  - destruct (key_is (as_proposed st) (p2_key m)) eqn:Epro; cbn [negb andb]; [|by wp_steps].
    destruct (as_accepted st) as [[ka va]|] eqn:Ea.
    { exfalso. by discriminate HA8. }
    wp_steps. rewrite bump_highest. eapply ssm_get_command_slot_spec; [exact R1|exact Hat|done|]. wp_steps.
    rewrite (accepted_null _ _ _ _ _ Hok), Ea, bool_decide_eq_true_2 by done.
    destruct Hok as [O1 O2 O3 O4 O5 O6].
    destruct (as_proposed st) as [[kp vp]|] eqn:Ep; [|done]. rewrite Ea in O6, O5.
    destruct O6 as (Hs & Hk & Hkc & Hlen & Hp & b & Hb & Hbv).
    wp_steps. apply wp_assert; [by apply bool_decide_eq_true_2|].
    apply p2_store_spec; [|done|cbn; by rewrite Hhi|done]. cbn.
    eapply ssm_put_spec; [exact R1|done|done|done|]. constructor; cbn; try done; [by right|].
    split_and!; try done. by exists b.
Qed.

(** ** Mappings *)

(** The memory a record designates is allocated. *)
Lemma ssm_heap_live g t k ir p :
  ssm_rel g t → arr_get (instances_array g) k = Some ir → proposed_cmd ir = PHeap p → is_Some (cmd_heap g !! p).
Proof.
  intros R Hir Hp. destruct (arr_get_is_Some t k) as [[i st] Hst].
  { rewrite <-(sr_len1 _ _ R). by eapply arr_get_lt. }
  destruct (sr_rec _ _ R _ _ _ _ Hir Hst) as [_ _ _ _ _ H6]. rewrite Hp in H6.
  destruct (as_proposed st) as [[kp vp]|]; [|by destruct H6].
  destruct H6 as (_ & _ & _ & _ & H6). destruct (as_accepted st) as [[ka va]|].
  - destruct H6 as (_ & q & [= <-] & Hq). by exists vp.
  - by destruct H6.
Qed.

(** The record gets new memory, in place of what it had. *)
Lemma ssm_heap_spec g t inst ir st h p v ir' st' :
  ssm_rel g (table_set t inst st) → at_record g t inst (table_index t inst) ir st → 1 ≤ inst →
  h !! p = None → (∀ q, proposed_cmd ir ≠ PHeap q → h !! q = cmd_heap g !! q) →
  proposed_cmd ir' = PHeap p →
  rec_ok (g <| cmd_heap := <[p := v]> h |>) (table_index t inst) ir' inst st' →
  ssm_rel (g <| cmd_heap := <[p := v]> h |>
             <| instances_array := arr_set (instances_array g) (table_index t inst) ir' |>) (table_set t inst st').
Proof.
  intros R (_ & Hir & _) Hi Hp Hh Hp' Hrec. rewrite <-(table_set_set t inst st st').
  assert (∀ k' ir2 p2, k' ≠ table_index t inst → arr_get (instances_array g) k' = Some ir2 →
    proposed_cmd ir2 = PHeap p2 → h !! p2 = cmd_heap g !! p2 ∧ p2 ≠ p) as Hothers.
  { intros k' ir2 p2 Hne H2 Hp2. assert (h !! p2 = cmd_heap g !! p2) as E.
    { apply Hh. intros Hp3. destruct Hne. by apply (sr_uniq _ _ R _ _ _ _ _ H2 Hir Hp2 Hp3). }
    split; [done|]. intros ->. destruct (ssm_heap_live _ _ _ _ _ R H2 Hp2) as [? Hl]. by rewrite <-E, Hp in Hl. }
  eapply (ssm_rel_update g _ _ (table_index t inst)); try done.
  - by rewrite table_index_set.
  - intros b Hb. by eapply (sr_room _ _ R).
  - intros k' ir2 p2 Hne H2 Hp2. destruct (Hothers _ _ _ Hne H2 Hp2) as [E Hn]. split.
    + cbn. rewrite lookup_insert_ne by done. done.
    + rewrite Hp'. congruence.
  - by eapply rec_ok_frame.
Qed.

(** The slot of the instance is written. *)
Lemma ssm_slot_spec g t inst ir st b v ir' st' :
  ssm_rel g (table_set t inst st) → at_record g t inst (table_index t inst) ir st → 1 ≤ inst →
  arr_get (commands_array g) (table_index t inst) = Some b → cmd_len v ≤ cmd_len b →
  (∀ p, proposed_cmd ir' ≠ PHeap p) →
  rec_ok (g <| commands_array := arr_set (commands_array g) (table_index t inst) (overwrite b v) |>)
    (table_index t inst) ir' inst st' →
  ssm_rel (g <| commands_array := arr_set (commands_array g) (table_index t inst) (overwrite b v) |>
             <| instances_array := arr_set (instances_array g) (table_index t inst) ir' |>) (table_set t inst st').
Proof.
  intros R (_ & Hir & _) Hi Hb Hv Hp' Hrec. rewrite <-(table_set_set t inst st st').
  pose proof (arr_get_lt _ _ _ Hb) as Hlt.
  eapply (ssm_rel_update g _ _ (table_index t inst)); try done.
  - by rewrite table_index_set.
  - apply length_arr_set.
  - intros k' Hne. cbn. by rewrite arr_get_set_ne by (done || lia).
  - intros b' Hb'. cbn in Hb'. rewrite arr_get_set_eq in Hb' by done. injection Hb' as <-.
    rewrite overwrite_len by done. by eapply (sr_room _ _ R).
  - by eapply rec_ok_frame.
Qed.

Lemma assert_same_spec q size (m : cmdmap_msg) a (Q : unit → ring_acceptor → Prop) :
  size = cmd_len (cm_value m) →
  (∃ k b, q = PSlot k ∧ arr_get (commands_array (ssm a)) k = Some b ∧ holds_bytes b (cm_value m)) ∨
  (∃ p, q = PHeap p ∧ cmd_heap (ssm a) !! p = Some (cm_value m)) →
  Q tt a → wp (assert_same_cmd q size m) Q a.
Proof.
  intros -> Hq HQ. unfold assert_same_cmd, on_ssm. wp_steps. apply wp_assert; [apply Z.eqb_refl|]. wp_steps.
  assert (∀ P : list byte → stable_storage_mngr → Prop, P (cm_value m) (ssm a) →
    wp (mem_read q (cmd_len (cm_value m))) P (ssm a)) as Hread.
  { intros P HP. destruct Hq as [(k & b & Hq & Hb & Hv)|(p & Hq & Hv)].
    - by eapply wp_mem_read_slot.
    - by eapply wp_mem_read_heap. }
  apply Hread. apply wp_assert; [by rewrite strncmp_eq_refl|]. by destruct a.
Qed.

Lemma store_secondary_spec k ir (m : cmdmap_msg) a (Q : unit → ring_acceptor → Prop) :
  (∀ p, cmd_heap (ssm a) !! p = None →
     Q tt (a <| ssm := (ssm a) <| cmd_heap := <[p := cm_value m]> (cmd_heap (ssm a)) |>
                  <| instances_array := arr_set (instances_array (ssm a)) k
                       (ir <| proposed_cmd := PHeap p |> <| proposed_cmd_size := cmd_len (cm_value m) |>
                           <| proposed_cmd_key := cm_key m |>) |> |>)) →
  wp (store_secondary k ir m) Q a.
Proof.
  intros HQ. unfold store_secondary, on_ssm, mem_malloc. wp_steps.
  set (p := fresh (dom (cmd_heap (ssm a)))).
  assert (cmd_heap (ssm a) !! p = None) as Hp by apply not_elem_of_dom, is_fresh.
  eapply wp_mem_write_heap; [by apply lookup_insert_eq| |].
  - unfold cmd_len. rewrite length_replicate. lia.
  - wp_steps. apply wp_put_ir. specialize (HQ p Hp). cbn in *. by rewrite insert_insert_eq.
Qed.

(** A mapping is kept for an instance where another command was accepted. *)
Lemma cmdmap_secondary (m : cmdmap_msg) a sp g h ir ka va :
  let st := table_get (sp_table sp) (cm_inst m) in
  let k := table_index (sp_table sp) (cm_inst m) in
  ring_rel a sp → 1 ≤ cm_inst m →
  ssm_rel g (table_set (sp_table sp) (cm_inst m) st) → at_record g (sp_table sp) (cm_inst m) k ir st →
  as_accepted st = Some (ka, va) → ka ≠ cm_key m → cm_key m ≠ clear_cmd_key →
  cmd_len (cm_value m) ≤ MAX_COMMAND_SIZE →
  (∀ q, proposed_cmd ir ≠ PHeap q → h !! q = cmd_heap g !! q) →
  wp (store_secondary k ir m) (λ _ a', ring_rel a'
    (sp <| sp_table ::= λ t, table_set t (cm_inst m)
       (mk_inst_state (as_ballot st) (as_accept_ballot st) (as_accepted st) (Some (cm_key m, cm_value m))) |>))
    (a <| ssm := g <| cmd_heap := h |> |>).
Proof.
  intros st k [_ Hbel Hhi Hsent] Hi R1 Hat Ea Hka Hkey Hlen Hh. apply store_secondary_spec. cbn. intros p Hp.
  pose proof Hat as (_ & Hir & Hok). pose proof (ro_slot_pos _ _ _ _ _ Hok Hi) as Hslot.
  constructor; cbn; [|eapply promised_below_set; [done|lia|by apply promised_below_get]|done|done].
  eapply (ssm_heap_spec g _ _ ir st h); [done|done|done|done|done|done|].
  destruct Hok as [O1 O2 O3 O4 O5 O6]. rewrite Ea in *. constructor; cbn; rewrite ?Ea; try done; [by right|].
  split_and!; try done. exists p. split; [done|]. apply lookup_insert_eq.
Qed.

Lemma table_set_eta t i st :
  table_set t i (mk_inst_state (as_ballot st) (as_accept_ballot st) (as_accepted st) (as_proposed st)) = table_set t i st.
Proof. by destruct st. Qed.

(** A mapping of a command that is accepted already. *)
Lemma cmdmap_known (m : cmdmap_msg) a sp g ir va :
  let st := table_get (sp_table sp) (cm_inst m) in
  let k := table_index (sp_table sp) (cm_inst m) in
  ring_rel a sp → 1 ≤ cm_inst m →
  ssm_rel g (table_set (sp_table sp) (cm_inst m) st) → at_record g (sp_table sp) (cm_inst m) k ir st →
  as_accepted st = Some (cm_key m, va) → va = cm_value m →
  wp (assert_same_cmd (accepted_cmd ir) (accepted_cmd_size ir) m;;
      if negb (bool_decide (proposed_cmd ir = PNull)) then
        c_assert (negb (bool_decide (proposed_cmd ir = accepted_cmd ir)));;
        on_ssm (mem_free (proposed_cmd ir));;
        on_ssm (put_ir k (ir <| proposed_cmd := PNull |> <| proposed_cmd_size := 0 |>
                             <| proposed_cmd_key := clear_cmd_key |>))
      else mret tt)
    (λ _ a', ring_rel a' (sp <| sp_table ::= λ t, table_set t (cm_inst m)
       (mk_inst_state (as_ballot st) (as_accept_ballot st) (as_accepted st) None) |>))
    (a <| ssm := g |>).
Proof.
  intros st k [_ Hbel Hhi Hsent] Hi R1 Hat Ea ->. pose proof Hat as (_ & Hir & Hok).
  pose proof (ro_slot_pos _ _ _ _ _ Hok Hi) as Hslot.
  rewrite (proposed_null _ _ _ _ _ Hok). destruct Hok as [O1 O2 O3 O4 O5 O6]. rewrite Ea in O5, O6.
  destruct O5 as (Hp & Hs & Hk & Hkc & Hlen & b & Hb & Hbv).
  wp_steps. apply assert_same_spec; [done|left; eauto|].
  destruct (as_proposed st) as [[kp vp]|] eqn:Ep; cbn [negb bool_decide].
  - destruct O6 as (_ & _ & _ & _ & _ & p & Hq & Hv). rewrite bool_decide_eq_false_2 by done. cbn [negb].
    unfold on_ssm. wp_steps. apply wp_assert; [apply negb_true_iff, bool_decide_eq_false_2; by rewrite Hq, Hp|].
    wp_steps. eapply wp_mem_free; [done|exact Hv|]. wp_steps. apply wp_put_ir.
    constructor; cbn; [|eapply promised_below_set; [done|lia|by apply promised_below_get]|done|done].
    eapply ssm_free_spec; [exact R1|done|done|done|done|done|].
    constructor; cbn; rewrite ?Ea; try done; [by right|]. split_and!; try done. by exists b.
  - rewrite bool_decide_eq_true_2 by done. wp_steps.
    constructor; cbn; [|eapply promised_below_set; [done|lia|by apply promised_below_get]|done|done].
    rewrite <-Ep. fold st. by rewrite table_set_eta.
Qed.

(** The mapping is written in the slot of the instance. *)
Lemma cmdmap_first (m : cmdmap_msg) a sp g ir :
  let st := table_get (sp_table sp) (cm_inst m) in
  let k := table_index (sp_table sp) (cm_inst m) in
  ring_rel a sp → 1 ≤ cm_inst m →
  ssm_rel g (table_set (sp_table sp) (cm_inst m) st) → at_record g (sp_table sp) (cm_inst m) k ir st →
  as_accepted st = None → cm_key m ≠ clear_cmd_key → cmd_len (cm_value m) ≤ MAX_COMMAND_SIZE →
  wp (c_assert (accepted_cmd_size ir =? 0);;
      on_ssm (mem_write (PSlot k) (cm_value m));;
      on_ssm (put_ir k (ir <| proposed_cmd := PSlot k |> <| proposed_cmd_size := cmd_len (cm_value m) |>
                           <| proposed_cmd_key := cm_key m |>)))
    (λ _ a', ring_rel a' (sp <| sp_table ::= λ t, table_set t (cm_inst m)
       (mk_inst_state (as_ballot st) (as_accept_ballot st) (as_accepted st) (Some (cm_key m, cm_value m))) |>))
    (a <| ssm := g |>).
Proof.
  intros st k [R Hbel Hhi Hsent] Hi R1 Hat Ea Hkey Hlen. pose proof Hat as (_ & Hir & Hok).
  pose proof (ro_slot_pos _ _ _ _ _ Hok Hi) as Hslot.
  destruct Hok as [O1 O2 O3 O4 O5 O6]. rewrite Ea in O5, O6. destruct O5 as (Ha & Hz & Hac & Hab).
  destruct (arr_get_is_Some (commands_array g) k) as [b Hb].
  { rewrite (sr_len2 _ _ R1), length_table_set. apply table_index_range. destruct R. lia. }
  pose proof (sr_room _ _ R1 _ _ Hb) as Hroom. pose proof (arr_get_lt _ _ _ Hb) as Hlt.
  assert (cmd_len (cm_value m) ≤ cmd_len b) as Hv.
  { rewrite Hroom. unfold MAX_COMMAND_SIZE, sizeof_phase1_msg in Hlen. lia. }
  unfold on_ssm. wp_steps. apply wp_assert; [by apply Z.eqb_eq|]. wp_steps.
  eapply wp_mem_write_slot; [exact Hb|done|]. wp_steps. apply wp_put_ir.
  constructor; cbn; [|eapply promised_below_set; [done|lia|by apply promised_below_get]|done|done].
  eapply (ssm_slot_spec g _ _ ir st); [done|done|done|done|done|done|].
  constructor; cbn; rewrite ?Ea; try done; [by right|]. split_and!; try done.
  exists (overwrite b (cm_value m)). split; [by apply arr_get_set_eq|apply holds_overwrite].
Qed.

(** The mapping replaces another one. *)
Lemma cmdmap_replace (m : cmdmap_msg) a sp g ir ka va kp vp p :
  let st := table_get (sp_table sp) (cm_inst m) in
  let k := table_index (sp_table sp) (cm_inst m) in
  ring_rel a sp → 1 ≤ cm_inst m →
  ssm_rel g (table_set (sp_table sp) (cm_inst m) st) → at_record g (sp_table sp) (cm_inst m) k ir st →
  as_accepted st = Some (ka, va) → ka ≠ cm_key m → cm_key m ≠ clear_cmd_key →
  cmd_len (cm_value m) ≤ MAX_COMMAND_SIZE →
  kp ≠ cm_key m → other_value (Some (kp, vp)) m →
  proposed_cmd ir = PHeap p → proposed_cmd_size ir = cmd_len vp → cmd_heap g !! p = Some vp →
  wp (same ← (if proposed_cmd_size ir =? cmd_len (cm_value m)
              then v ← on_ssm (mem_read (proposed_cmd ir) (cmd_len (cm_value m)));
                   mret (strncmp_eq v (cm_value m))
              else mret false);
      c_assert (negb same);;
      on_ssm (mem_free (proposed_cmd ir));;
      store_secondary k ir m)
    (λ _ a', ring_rel a' (sp <| sp_table ::= λ t, table_set t (cm_inst m)
       (mk_inst_state (as_ballot st) (as_accept_ballot st) (as_accepted st) (Some (cm_key m, cm_value m))) |>))
    (a <| ssm := g |>).
Proof.
  intros st k R0 Hi R1 Hat Ea Hka Hkey Hlen Hkp Hother Hp Hs Hv. unfold on_ssm. wp_steps.
  eapply (wp_mono _ (λ b a', b = false ∧ a' = a <| ssm := g |>)).
  { destruct (Z.eqb_spec (proposed_cmd_size ir) (cmd_len (cm_value m))) as [E|E]; wp_steps; [|done].
    rewrite <-E. eapply wp_mem_read_heap; [done|exact Hv|done|]. wp_steps. split; [|done].
    apply Hother; [done|]. by rewrite <-Hs. }
  intros _ _ [-> ->]. wp_steps. apply wp_assert; [done|]. wp_steps.
  eapply wp_mem_free; [done|exact Hv|].
  eapply (cmdmap_secondary m a sp g _ ir); try done. intros q Hq. apply lookup_delete_ne. congruence.
Qed.

Lemma cmdmap_refines (m : cmdmap_msg) a sp :
  ring_rel a sp → msg_safe (MCmdmap m) sp →
  wp (acceptor_handle_cmdmap_msg m (CMDMAP_MSG_SIZE m)) (λ _ a', ring_rel a' (cmdmap_step m sp)) a.
Proof.
  intros R0 (Hi & Hrecent & Hkey & Hlen & Hsame1 & Hsame2 & Hother). pose proof R0 as [R Hbel Hhi Hsent].
  unfold acceptor_handle_cmdmap_msg, on_ssm. wp_steps. apply wp_assert; [by apply Z.eqb_eq|]. wp_steps.
  eapply ssm_get_record_spec; [done..|]. intros g ir R1 Hat. wp_steps.
  pose proof Hat as (_ & Hir & Hok). set (st := table_get (sp_table sp) (cm_inst m)) in *.
  set (k := table_index (sp_table sp) (cm_inst m)) in *.
  eapply wp_get_ir; [done|]. wp_steps. rewrite (ro_inst _ _ _ _ _ Hok).
  apply wp_assert; [by rewrite Z.eqb_refl|]. cbv zeta. wp_steps.
  eapply ssm_get_command_slot_spec; [exact R1|exact Hat|done|]. fold k.
  change (a <| ssm := g |> <| ssm := _ |> <| ssm := _ |>) with (a <| ssm := g |>).
  pose proof (ro_slot_pos _ _ _ _ _ Hok Hi) as Hslot.
  rewrite (accepted_null _ _ _ _ _ Hok), (accepted_key_is _ _ _ _ _ _ Hok) by done.
  rewrite (proposed_key_is _ _ _ _ _ _ Hok) by done.
  assert (cmdmap_step m sp = sp <| sp_table ::= λ t, table_set t (cm_inst m) (spec_cmdmap m st) |>) as -> by done.
  unfold spec_cmdmap. destruct (as_accepted st) as [[ka va]|] eqn:Ea.
  - rewrite (bool_decide_eq_false_2 (Some _ = None)) by done. cbn [negb andb].
    destruct (key_is (Some (ka, va)) (cm_key m)) eqn:Eka; cbn in Eka.
    { (* M4, M6 *) apply bool_decide_eq_true_1 in Eka as <-. rewrite <-Ea.
      eapply cmdmap_known; try done. by apply Hsame1. }
    apply bool_decide_eq_false_1 in Eka.
    rewrite (proposed_null _ _ _ _ _ Hok). pose proof Hok as [O1 O2 O3 O4 O5 O6]. rewrite Ea in O6.
    destruct (as_proposed st) as [[kp vp]|] eqn:Ep.
    + rewrite (bool_decide_eq_false_2 (Some _ = None)) by done. cbn [negb andb key_is].
      destruct O6 as (Hs & Hk & Hkc & Hl & Hne & p & Hp & Hv).
      case_bool_decide as Ek.
      * (* M7 *) subst kp. assert (vp = cm_value m) as -> by by apply Hsame2.
        apply assert_same_spec; [done|by right; eauto|].
        constructor; cbn; [done|eapply promised_below_set; [done|lia|by apply promised_below_get]|done|done].
      * (* M8 *) rewrite <-Ea. by eapply (cmdmap_replace m a sp g ir ka va kp vp p); try done; apply Hother.
    + rewrite bool_decide_eq_true_2 by done. cbn [negb andb key_is].
      (* M5 *) rewrite <-Ea. by eapply (cmdmap_secondary m a sp g (cmd_heap g) ir).
  - rewrite bool_decide_eq_true_2 by done. cbn [negb andb key_is]. 
    rewrite (proposed_null _ _ _ _ _ Hok). pose proof Hok as [O1 O2 O3 O4 O5 O6]. rewrite Ea in O5, O6.
    destruct (negb (bool_decide (as_proposed st = None)) && key_is (as_proposed st) (cm_key m)) eqn:Ek.
    + (* M3 *) apply andb_prop in Ek as [_ Ek]. rewrite Ek. destruct (as_proposed st) as [[kp vp]|] eqn:Ep; [|done].
      cbn in Ek. apply bool_decide_eq_true_1 in Ek as <-. destruct O6 as (Hs & Hk & Hkc & Hl & Hp & b & Hb & Hbv).
      assert (vp = cm_value m) as -> by by apply Hsame2.
      apply assert_same_spec; [done|left; by eauto|].
      constructor; cbn; [done|eapply promised_below_set; [done|lia|by apply promised_below_get]|done|done].
    + (* M1, M2 *) assert (key_is (as_proposed st) (cm_key m) = false) as ->.
      { destruct (as_proposed st); [|done]. by rewrite (bool_decide_eq_false_2 (Some _ = None)) in Ek. }
      rewrite <-Ea. by apply (cmdmap_first m a sp g ir).
Qed.
