(* ===== verification/RingAcceptorProps.v ===== *)
(** * What an acceptor of the ring guarantees

    Runs of an acceptor: it implements its specification on every safe run,
    it keeps its promises, and the run outside of the safe ones that frees a
    command twice. *)
From Stdlib Require Import Init.Byte.
From S2P Require Import Prelude RingUtil RingMessages RingStorage RingAcceptor RingAcceptorSpec RingAcceptorRefine.

Implicit Types (ir : instance_record) (g : stable_storage_mngr) (k : Z).
Implicit Types (a : ring_acceptor) (sp : ring_spec) (st : inst_state) (t : list (Z * inst_state)).

(** ** Runs *)

(** A message from the predecessor or from the multicast group. *)
Inductive ring_event := EvPredecessor (msg : ring_msg) | EvMulticast (msg : ring_msg).

Definition handle_event (self : Z) (junk : stack_junk) (ev : ring_event) : RA unit :=
  match ev with
  | EvPredecessor msg => on_predecessor_msg junk msg (ring_msg_size msg)
  | EvMulticast msg => on_multicast_msg self msg (ring_msg_size msg)
  end.

(** The message the specification handles; the others are ignored. *)
Definition ev_msg (self : Z) (ev : ring_event) : option ring_msg :=
  match ev with
  | EvPredecessor ((MPhase1 _ | MPhase1Range _ | MPhase2 _) as msg) => Some msg
  | EvMulticast (MCmdmap m) => Some (MCmdmap m)
  | EvMulticast (MPhase2 m) => if am_i_first_in_ring self then Some (MPhase2 m) else None
  | _ => None
  end.

Definition spec_event (self : Z) (junk : stack_junk) sp (ev : ring_event) : ring_spec :=
  match ev_msg self ev with Some msg => spec_step junk msg sp | None => sp end.

Definition ev_safe (self : Z) sp (ev : ring_event) : Prop :=
  match ev_msg self ev with Some msg => msg_safe msg sp | None => True end.

Fixpoint run_safe (self : Z) (junk : stack_junk) (evs : list ring_event) sp : Prop :=
  match evs with
  | [] => True
  | ev :: evs => ev_safe self sp ev ∧ run_safe self junk evs (spec_event self junk sp ev)
  end.

Definition spec_init (working_set_size : Z) : ring_spec :=
  mk_ring_spec (replicate (Z.to_nat working_set_size) (0, inst_empty)) 0 [].

Lemma ring_init_rel n : 0 < n < 2 ^ 32 → ring_rel (regular_acceptor_init n) (spec_init n).
Proof.
  intros Hn. assert (u32 n = n) as E by (apply wrap_small; lia).
  constructor; [| |done|done].
  - unfold regular_acceptor_init, stable_storage_init, spec_init. rewrite E. constructor; cbn.
    + rewrite length_replicate. lia.
    + lia.
    + by rewrite !length_replicate.
    + by rewrite !length_replicate.
    + intros k b ->%arr_get_replicate_inv. unfold cmd_len. rewrite length_replicate.
      rewrite Z2Nat.id; [done|]. unfold MAX_MESSAGE_SIZE, MAX_TCP_PAYLOAD. lia.
    + intros k ir i st ->%arr_get_replicate_inv Hst%arr_get_replicate_inv. injection Hst as -> ->.
      constructor; cbn; try done. by left.
    + intros k k' ir ir' p ->%arr_get_replicate_inv _. done.
  - intros k i st [= -> ->]%arr_get_replicate_inv. done.
Qed.

Lemma event_refines self junk ev a sp : ring_rel a sp → ev_safe self sp ev →
  wp (handle_event self junk ev) (λ _ a', ring_rel a' (spec_event self junk sp ev)) a.
Proof.
  intros R Hs. unfold ev_safe, spec_event in *.
  destruct ev as [[]|[]]; cbn [ev_msg handle_event on_predecessor_msg on_multicast_msg] in *;
    try (by apply wp_ret); cbn [ring_msg_size spec_step].
  - by apply phase1_refines.
  - by apply phase1_range_refines.
  - by apply phase2_refines.
  - destruct (am_i_first_in_ring self); [by apply phase2_refines|by apply wp_ret].
  - by apply cmdmap_refines.
Qed.

Lemma run_refines self junk evs a sp : ring_rel a sp → run_safe self junk evs sp →
  wp (mfor evs (handle_event self junk)) (λ _ a', ring_rel a' (foldl (spec_event self junk) sp evs)) a.
Proof.
  revert a sp. induction evs as [|ev evs IH]; intros a sp R Hs; cbn; [by apply wp_ret|].
  destruct Hs as [Hs1 Hs2]. apply wp_bind. eapply wp_mono; [by apply event_refines|].
  intros [] a' R'. by apply IH.
Qed.

(** A small run: instance 1 of a table of one slot. *)
Definition key_a : command_id := mk_command_id 1 1 1.
Definition key_b : command_id := mk_command_id 2 1 1.

Definition run_a : list ring_event :=
  [EvMulticast (MCmdmap (mk_cmdmap_msg 1 key_a [x01]));
   EvPredecessor (MPhase2 (mk_phase2_msg 1 101 0 key_a));
   EvMulticast (MCmdmap (mk_cmdmap_msg 1 key_b [x02; x03]))].

Definition no_junk : stack_junk := mk_junk 0 0 0.

Lemma table_recent_check t inst :
  match arr_get t (table_index t inst) with Some x => x.1 <=? inst | None => true end = true → table_recent t inst.
Proof. unfold table_recent. intros H x Hx. rewrite Hx in H. by apply Z.leb_le. Qed.

Lemma run_a_safe : run_safe 3 no_junk run_a (spec_init 1).
Proof.
  unfold run_a. cbn [run_safe]. unfold ev_safe, spec_event. cbn [ev_msg msg_safe]. cbv zeta.
  split_and!; try done; try (by apply table_recent_check); by vm_compute.
Qed.

(** C8. The acceptor implements its specification: on every run of safe messages
    from its initial state, with any table size, every handler returns - no
    assertion fails, no memory is used that is not allocated, no copy exceeds
    its buffer - and the records, the highest instance seen and the messages
    sent to the successor are those of the table of abstract instances. *)
Theorem ring_acceptor_refines self junk n evs :
  0 < n < 2 ^ 32 → run_safe self junk evs (spec_init n) →
  ∃ a, mfor evs (handle_event self junk) (regular_acceptor_init n) = Some (tt, a) ∧
    ring_rel a (foldl (spec_event self junk) (spec_init n) evs).
Proof.
  intros Hn Hs. destruct (wp_total _ _ _ (run_refines self junk evs _ _ (ring_init_rel n Hn) Hs)) as ([] & a & H).
  by exists a.
Qed.

Lemma ring_acceptor_refines_witness :
  ∃ a, mfor run_a (handle_event 3 no_junk) (regular_acceptor_init 1) = Some (tt, a) ∧
    ring_rel a (foldl (spec_event 3 no_junk) (spec_init 1) run_a).
Proof. apply (ring_acceptor_refines 3 no_junk 1 run_a); [lia|apply run_a_safe]. Defined.

(** ** Promises are kept *)

Definition table_le t t' : Prop :=
  length t' = length t ∧
  ∀ k i st i' st', arr_get t k = Some (i, st) → arr_get t' k = Some (i', st') →
    i ≤ i' ∧ (i = i' → as_ballot st ≤ as_ballot st').

Lemma table_le_refl t : table_le t t.
Proof. split; [done|]. intros k i st i' st' H1 H2. rewrite H1 in H2. simplify_eq. lia. Qed.

Lemma table_le_trans t1 t2 t3 : table_le t1 t2 → table_le t2 t3 → table_le t1 t3.
Proof.
  intros [L1 H1] [L2 H2]. split; [congruence|]. intros k i st i' st' E1 E3.
  destruct (arr_get_is_Some t2 k) as [[i2 st2] E2]; [rewrite L1; by eapply arr_get_lt|].
  destruct (H1 _ _ _ _ _ E1 E2) as [? Ha], (H2 _ _ _ _ _ E2 E3) as [? Hb]. split; [lia|].
  intros ->. assert (i2 = i') as -> by lia. specialize (Ha eq_refl). specialize (Hb eq_refl). lia.
Qed.

Lemma table_le_set t inst st : table_recent t inst → as_ballot (table_get t inst) ≤ as_ballot st →
  table_le t (table_set t inst st).
Proof.
  intros Hrecent Hle. split; [apply length_table_set|]. intros k i s i' s' E1 E2. unfold table_set in E2.
  destruct (decide (table_index t inst = k)) as [E|E].
  - subst k. rewrite arr_get_set_eq in E2 by by eapply arr_get_lt. injection E2 as <- <-.
    split; [by apply (Hrecent _ E1)|]. intros ->. unfold table_get in Hle. by rewrite E1, Z.eqb_refl in Hle.
  - rewrite arr_get_set_ne in E2; [rewrite E1 in E2; simplify_eq; lia| |done].
    apply table_index_range. apply arr_get_lt in E1. lia.
Qed.

Lemma phase1_step_le junk m sp : table_recent (sp_table sp) (p1_inst m) →
  table_le (sp_table sp) (sp_table (phase1_step junk m sp)).
Proof.
  intros H. unfold phase1_step, spec_phase1.
  destruct (Z.ltb_spec (p1_ballot m) (as_ballot (table_get (sp_table sp) (p1_inst m)))).
  - by apply table_le_set.
  - destruct (as_accepted _) as [[? ?]|]; by apply table_le_set.
Qed.

Lemma fold_range_le {S} (f : S → Z → S) (tab : S → list (Z * inst_state)) (P : S → Z → Prop) from to s :
  (∀ s i, P s i → table_le (tab s) (tab (f s i))) →
  (∀ dn x rest, range from to = dn ++ x :: rest → P (foldl f s dn) x) →
  table_le (tab s) (tab (foldl f s (range from to))).
Proof.
  intros Hf HP. assert (∀ dn rest, range from to = dn ++ rest → table_le (tab s) (tab (foldl f s dn))) as H.
  { intros dn. induction dn as [|x dn IH] using rev_ind; intros rest E; [apply table_le_refl|].
    rewrite <-app_assoc in E. rewrite foldl_app. eapply table_le_trans; [by eapply IH|]. by eapply Hf, HP. }
  apply (H _ []). by rewrite app_nil_r.
Qed.

Lemma phase1_range_step_le junk m sp : promised_below (sp_table sp) (sp_highest sp) → (0 < length (sp_table sp))%nat →
  msg_safe (MPhase1Range m) sp → table_le (sp_table sp) (sp_table (phase1_range_step junk m sp)).
Proof.
  intros Hbel Hlen (Hf & Hle & Hto & Hb & Hrecent). unfold phase1_range_step.
  destruct (Z.ltb_spec (sp_highest sp) (pr_from m)); unfold range_insts; cbn [sp_table].
  - apply (fold_range_le _ (λ t, t) (λ t i, table_recent t i ∧ as_ballot (table_get t i) = 0)).
    + intros t i [H1 H2]. apply table_le_set; [done|]. rewrite H2. done.
    + intros dn x rest E. destruct (range_split _ _ _ _ _ E) as [Hx1 Hx2].
      apply fold_fresh_later; [by eauto using range_prefix_lt|done|]. split; [apply Hrecent; lia|].
      destruct (decide (as_ballot (table_get (sp_table sp) x) = 0)) as [|Hn]; [done|].
      apply (promised_below_get _ _ _ Hbel) in Hn. lia.
  - apply (fold_range_le _ sp_table (λ sp i, table_recent (sp_table sp) i)).
    + intros sp' i H1. by apply phase1_step_le.
    + intros dn x rest E. destruct (range_split _ _ _ _ _ E) as [Hx1 Hx2].
      apply fold_phase1_recent; [by eauto using range_prefix_lt|apply Hrecent; lia].
Qed.

Lemma phase2_step_le m sp : table_recent (sp_table sp) (p2_inst m) →
  table_le (sp_table sp) (sp_table (phase2_step m sp)).
Proof.
  intros H. unfold phase2_step, spec_phase2.
  destruct (Z.ltb_spec (p2_ballot m) (as_ballot (table_get (sp_table sp) (p2_inst m)))); [by apply table_le_set|].
  destruct (key_is _ _); [by apply table_le_set|]. destruct (key_is _ _); by apply table_le_set.
Qed.

Lemma cmdmap_step_le m sp : table_recent (sp_table sp) (cm_inst m) →
  table_le (sp_table sp) (sp_table (cmdmap_step m sp)).
Proof.
  intros H. unfold cmdmap_step, spec_cmdmap. cbn.
  destruct (key_is _ _); [by apply table_le_set|]. destruct (key_is _ _); by apply table_le_set.
Qed.

Lemma spec_event_le self junk a sp ev : ring_rel a sp → ev_safe self sp ev →
  table_le (sp_table sp) (sp_table (spec_event self junk sp ev)).
Proof.
  intros [R Hbel _ _] Hs. unfold ev_safe, spec_event in *. destruct (ev_msg self ev) as [msg|]; [|apply table_le_refl].
  destruct msg as [m|m|m|m|m|m|m|m]; try apply table_le_refl.
  - by apply phase1_step_le, Hs.
  - apply phase1_range_step_le; [done|destruct R; lia|done].
  - by apply phase2_step_le, Hs.
  - by apply cmdmap_step_le, Hs.
Qed.

Lemma run_safe_app self junk evs1 evs2 sp : run_safe self junk (evs1 ++ evs2) sp ↔
  run_safe self junk evs1 sp ∧ run_safe self junk evs2 (foldl (spec_event self junk) sp evs1).
Proof.
  revert sp. induction evs1 as [|ev evs1 IH]; intros sp; cbn; [tauto|]. rewrite IH. tauto.
Qed.

Lemma run_table_le self junk evs a sp : ring_rel a sp → run_safe self junk evs sp →
  table_le (sp_table sp) (sp_table (foldl (spec_event self junk) sp evs)).
Proof.
  revert a sp. induction evs as [|ev evs IH]; intros a sp R Hs; cbn; [apply table_le_refl|].
  destruct Hs as [Hs1 Hs2]. eapply table_le_trans; [by eapply spec_event_le|].
  destruct (wp_total _ _ _ (event_refines self junk ev a sp R Hs1)) as ([] & a' & _ & R'). by eapply IH.
Qed.

(** What the records say about the table. *)
Lemma ring_rel_record a sp k ir : ring_rel a sp → arr_get (instances_array (ssm a)) k = Some ir →
  ∃ st, arr_get (sp_table sp) k = Some (ir_inst ir, st) ∧ ir_ballot ir = as_ballot st.
Proof.
  intros [R _ _ _] Hir. destruct (arr_get_is_Some (sp_table sp) k) as [[i st] Hst].
  { rewrite <-(sr_len1 _ _ R). by eapply arr_get_lt. }
  pose proof (sr_rec _ _ R _ _ _ _ Hir Hst) as Hok. exists st.
  by rewrite (ro_inst _ _ _ _ _ Hok), (ro_ballot _ _ _ _ _ Hok).
Qed.

(** C20. Promises are kept: between two moments of a run, the record of a slot
    is of the same or of a newer instance, and the ballot promised for the same
    instance has not decreased. *)
Theorem ring_promises_kept self junk n evs1 evs2 :
  0 < n < 2 ^ 32 → run_safe self junk (evs1 ++ evs2) (spec_init n) →
  ∃ a1 a2, mfor evs1 (handle_event self junk) (regular_acceptor_init n) = Some (tt, a1) ∧
    mfor evs2 (handle_event self junk) a1 = Some (tt, a2) ∧
    ∀ k ir1 ir2, arr_get (instances_array (ssm a1)) k = Some ir1 → arr_get (instances_array (ssm a2)) k = Some ir2 →
      ir_inst ir1 ≤ ir_inst ir2 ∧ (ir_inst ir1 = ir_inst ir2 → ir_ballot ir1 ≤ ir_ballot ir2).
Proof.
  intros Hn [Hs1 Hs2]%run_safe_app.
  destruct (wp_total _ _ _ (run_refines self junk evs1 _ _ (ring_init_rel n Hn) Hs1)) as ([] & a1 & E1 & R1).
  destruct (wp_total _ _ _ (run_refines self junk evs2 _ _ R1 Hs2)) as ([] & a2 & E2 & R2).
  exists a1, a2. split_and!; [done|done|]. intros k ir1 ir2 H1 H2.
  destruct (ring_rel_record _ _ _ _ R1 H1) as (st1 & T1 & ->), (ring_rel_record _ _ _ _ R2 H2) as (st2 & T2 & ->).
  by apply (proj2 (run_table_le self junk evs2 a1 _ R1 Hs2) k).
Qed.

Lemma ring_promises_kept_witness :
  ∃ a1 a2, mfor (take 2 run_a) (handle_event 3 no_junk) (regular_acceptor_init 1) = Some (tt, a1) ∧
    mfor (drop 2 run_a) (handle_event 3 no_junk) a1 = Some (tt, a2) ∧
    ∀ k ir1 ir2, arr_get (instances_array (ssm a1)) k = Some ir1 → arr_get (instances_array (ssm a2)) k = Some ir2 →
      ir_inst ir1 ≤ ir_inst ir2 ∧ (ir_inst ir1 = ir_inst ir2 → ir_ballot ir1 ≤ ir_ballot ir2).
Proof. apply (ring_promises_kept 3 no_junk 1); [lia|rewrite take_drop; apply run_a_safe]. Defined.

(** ** The edge A8 *)

(** The record designates memory that was freed. *)
Definition dangling g (inst : Z) (key : command_id) : Prop :=
  let k := inst mod ssm_size g in
  ∃ ir p, ssm_size g ≠ 0 ∧ arr_get (instances_array g) k = Some ir ∧ ir_inst ir = inst ∧
    accepted_cmd ir = PSlot k ∧ accepted_cmd_key ir = key ∧
    proposed_cmd ir = PHeap p ∧ proposed_cmd_size ir = 0 ∧ proposed_cmd_key ir = clear_cmd_key ∧
    cmd_heap g !! p = None.

Lemma A8_dangling (m : phase2_msg) a sp ka va vp :
  let st := table_get (sp_table sp) (p2_inst m) in
  ring_rel a sp → 1 ≤ p2_inst m → table_recent (sp_table sp) (p2_inst m) →
  as_accepted st = Some (ka, va) → as_proposed st = Some (p2_key m, vp) → as_ballot st ≤ p2_ballot m →
  wp (acceptor_handle_phase2_msg m sizeof_phase2_msg) (λ _ a', dangling (ssm a') (p2_inst m) (p2_key m)) a.
Proof.
  intros st [R Hbel Hhi Hsent] Hi Hrecent Ea Ep Hbal. unfold acceptor_handle_phase2_msg, on_ssm. wp_steps.
  apply wp_assert; [done|]. wp_steps.
  eapply ssm_get_record_spec; [done..|]. fold st. intros g ir R1 Hat. wp_steps.
  set (k := table_index (sp_table sp) (p2_inst m)) in *.
  pose proof Hat as (_ & Hir & Hok). pose proof (ro_slot_pos _ _ _ _ _ Hok Hi) as [_ Hmod].
  pose proof (sr_pos _ _ R1) as Hpos.
  eapply wp_get_ir; [done|]. wp_steps. rewrite (ro_inst _ _ _ _ _ Hok).
  apply wp_assert; [by rewrite Z.eqb_refl|]. rewrite (ro_ballot _ _ _ _ _ Hok). cbv zeta.
  destruct (Z.ltb_spec (p2_ballot m) (as_ballot st)); [lia|].
  pose proof Hok as [O1 O2 O3 O4 O5 O6]. rewrite Ea in O5, O6. rewrite Ep in O6.
  destruct O6 as (Hs & Hk & Hkc & Hl & Hne & p & Hp & Hv), O5 as (Hap & Has & Hak & _ & Hal & b & Hb & Hbv).
  rewrite (accepted_key_is _ _ _ _ _ _ Hok), (proposed_key_is _ _ _ _ _ _ Hok), Ea, Ep by done. cbn [key_is].
  rewrite (bool_decide_eq_true_2 (p2_key m = p2_key m)), (bool_decide_eq_false_2 (p2_key m = ka)) by congruence.
  cbn [negb andb]. wp_steps. apply wp_assert; [done|]. wp_steps. rewrite bump_highest.
  eapply ssm_get_command_slot_spec; [exact R1|exact Hat|done|]. fold k. wp_steps.
  rewrite (accepted_null _ _ _ _ _ Hok), (proposed_null _ _ _ _ _ Hok), Ea, Ep.
  rewrite !(bool_decide_eq_false_2 (Some _ = None)) by done. cbn [negb andb]. wp_steps.
  apply wp_assert; [apply negb_true_iff, bool_decide_eq_false_2; by rewrite Hap, Hp|]. wp_steps.
  apply wp_assert; [done|]. wp_steps. eapply wp_mem_read_heap; [done|exact Hv|done|]. wp_steps.
  eapply wp_mem_write_slot; [exact Hb| |].
  { rewrite (sr_room _ _ R1 _ _ Hb). unfold MAX_COMMAND_SIZE, sizeof_phase1_msg in Hl. lia. }
  wp_steps. eapply wp_mem_free; [done|exact Hv|]. unfold p2_store_and_send, on_ssm, send_successor. wp_steps.
  apply wp_put_ir. wp_steps. unfold dangling. cbn. rewrite Hmod.
  eexists _, p. split_and!; [lia|by eapply arr_get_set_eq, arr_get_lt|..]; try done.
  apply lookup_delete_eq.
Qed.

Lemma freed_None g p n : cmd_heap g !! p = None → mem_read (PHeap p) n g = None ∧ mem_free (PHeap p) g = None.
Proof. intros H. unfold mem_read, mem_free, mbind, M_bind, get. by rewrite H. Qed.

(** A mapping for such an instance, of any other command, has no result. *)
Lemma dangling_crash (m : cmdmap_msg) a key : dangling (ssm a) (cm_inst m) key → 1 ≤ cm_inst m →
  cm_key m ≠ key → cm_key m ≠ clear_cmd_key → acceptor_handle_cmdmap_msg m (CMDMAP_MSG_SIZE m) a = None.
Proof.
  intros (ir & p & Hsz & Hir & Hinst & Hap & Hak & Hp & Hs & Hk & Hv) Hi Hne Hkc.
  assert (∀ Q : Z → stable_storage_mngr → Prop, Q (cm_inst m mod ssm_size (ssm a)) (ssm a) →
    wp (ssm_get_record (cm_inst m)) Q (ssm a)) as Hget.
  { intros Q HQ. unfold ssm_get_record, ssm_index. wp_steps. apply wp_assert; [by apply negb_true_iff, Z.eqb_neq|].
    wp_steps. eapply wp_get_ir; [done|]. rewrite Hinst.
    destruct (Z.eqb_spec (cm_inst m) 0); [lia|]. rewrite Z.ltb_irrefl. by wp_steps. }
  unfold acceptor_handle_cmdmap_msg, on_ssm. apply wp_bind_None, wp_assert; [by apply Z.eqb_eq|].
  apply wp_bind_None. wp_steps. apply Hget. apply wp_bind_None. wp_steps. eapply wp_get_ir; [done|].
  apply wp_bind_None, wp_assert; [by rewrite Hinst, Z.eqb_refl|]. cbv zeta.
  apply wp_bind_None. unfold ssm_get_command_slot. wp_steps. apply Hget. wp_steps. eapply wp_get_ir; [done|].
  wp_steps. apply wp_assert; [by rewrite Hinst, Z.eqb_refl|]. wp_steps.
  rewrite Hap, Hp, Hs, Hak, Hk, !CMD_KEY_EQUALS_decide, !bool_decide_eq_false_2 by done. cbn [negb andb].
  assert (a <| ssm := ssm a |> = a) as Ea by by destruct a. cbn [set_ssm setter] in *. rewrite !Ea.
  destruct (freed_None (ssm a) p (cmd_len (cm_value m)) Hv) as [Hread Hfree].
  destruct (0 =? cmd_len (cm_value m)); unfold mbind, M_bind, zoom; cbn; by rewrite ?Hread, ?Hfree.
Qed.

(** Accepting a second command for an instance (the edge A8) leaves the
    record with a pointer to memory that was freed: the next mapping of another
    command for that instance reads or frees it again, and has no result. *)
Theorem double_free (m : phase2_msg) (m' : cmdmap_msg) a sp ka va vp :
  let st := table_get (sp_table sp) (p2_inst m) in
  ring_rel a sp → 1 ≤ p2_inst m → table_recent (sp_table sp) (p2_inst m) →
  as_accepted st = Some (ka, va) → as_proposed st = Some (p2_key m, vp) → as_ballot st ≤ p2_ballot m →
  cm_inst m' = p2_inst m → cm_key m' ≠ p2_key m → cm_key m' ≠ clear_cmd_key →
  ∃ a', acceptor_handle_phase2_msg m sizeof_phase2_msg a = Some (tt, a') ∧
    acceptor_handle_cmdmap_msg m' (CMDMAP_MSG_SIZE m') a' = None.
Proof.
  intros st R Hi Hrecent Ea Ep Hb Hinst Hne Hkc.
  destruct (wp_total _ _ _ (A8_dangling m a sp ka va vp R Hi Hrecent Ea Ep Hb)) as ([] & a' & E & Hd).
  exists a'. split; [done|]. rewrite <-Hinst in Hd, Hi. by eapply dangling_crash.
Qed.

Lemma double_free_witness :
  ∃ a a', mfor run_a (handle_event 3 no_junk) (regular_acceptor_init 1) = Some (tt, a) ∧
    acceptor_handle_phase2_msg (mk_phase2_msg 1 102 0 key_b) sizeof_phase2_msg a = Some (tt, a') ∧
    let m' := mk_cmdmap_msg 1 (mk_command_id 3 1 1) [x04] in
    acceptor_handle_cmdmap_msg m' (CMDMAP_MSG_SIZE m') a' = None.
Proof.
  destruct (wp_total _ _ _ (run_refines 3 no_junk run_a _ _ (ring_init_rel 1 ltac:(lia)) run_a_safe))
    as ([] & a & E & R).
  destruct (double_free (mk_phase2_msg 1 102 0 key_b) (mk_cmdmap_msg 1 (mk_command_id 3 1 1) [x04])
    a _ key_a [x01] [x02; x03] R) as (a' & E1 & E2).
  1: by cbn. 1: by apply table_recent_check. all: try done.
  exists a, a'. split_and!; done.
Defined.
