(* ===== verification/McasterStorage.v ===== *)
(** * The multicaster's table of open instances

    [ring_paxos/lib/mcaster_storage.c] with [lp_mcaster_storage.h], and the
    queue of client values of [ring_paxos/lib/client_values_manager.c].  The
    queue is any implementation of the interface [Deque].  A record owns the
    command its pointer designates: the pointer is the bytes of the command, or
    [None] for NULL. *)
From Stdlib Require Import Init.Byte.
From S2P Require Import Prelude Timers RingUtil RingQueue RingMessages RingConfig.

(** ** Records *)

Inductive mcaster_instance_status :=
  st_empty | st_ready | st_p1_pending | st_p1_done | st_p2_pending | st_done.

#[export] Instance mcaster_instance_status_eq_dec : EqDecision mcaster_instance_status.
Proof. solve_decision. Defined.

Record mcaster_instance_record := mk_mir {
  mir_inst : Z;                              (* inst_number *)
  mir_status : mcaster_instance_status;
  mir_ballot : Z;
  assigned_cmd_key : command_id;
  assigned_cmd_value : option (list byte);
  assigned_cmd_size : Z;
  mir_timeout : timeval;
  repeat_cmdmap_timeout : timeval
}.

#[export] Instance set_mir_inst : Setter mir_inst := λ g r,
  mk_mir (g (mir_inst r)) (mir_status r) (mir_ballot r) (assigned_cmd_key r)
    (assigned_cmd_value r) (assigned_cmd_size r) (mir_timeout r) (repeat_cmdmap_timeout r).
#[global] Arguments set_mir_inst _ _ /.
#[export] Instance set_mir_status : Setter mir_status := λ g r,
  mk_mir (mir_inst r) (g (mir_status r)) (mir_ballot r) (assigned_cmd_key r)
    (assigned_cmd_value r) (assigned_cmd_size r) (mir_timeout r) (repeat_cmdmap_timeout r).
#[global] Arguments set_mir_status _ _ /.
#[export] Instance set_mir_ballot : Setter mir_ballot := λ g r,
  mk_mir (mir_inst r) (mir_status r) (g (mir_ballot r)) (assigned_cmd_key r)
    (assigned_cmd_value r) (assigned_cmd_size r) (mir_timeout r) (repeat_cmdmap_timeout r).
#[global] Arguments set_mir_ballot _ _ /.
#[export] Instance set_assigned_cmd_key : Setter assigned_cmd_key := λ g r,
  mk_mir (mir_inst r) (mir_status r) (mir_ballot r) (g (assigned_cmd_key r))
    (assigned_cmd_value r) (assigned_cmd_size r) (mir_timeout r) (repeat_cmdmap_timeout r).
#[global] Arguments set_assigned_cmd_key _ _ /.
#[export] Instance set_assigned_cmd_value : Setter assigned_cmd_value := λ g r,
  mk_mir (mir_inst r) (mir_status r) (mir_ballot r) (assigned_cmd_key r) (g (assigned_cmd_value
    r)) (assigned_cmd_size r) (mir_timeout r) (repeat_cmdmap_timeout r).
#[global] Arguments set_assigned_cmd_value _ _ /.
#[export] Instance set_assigned_cmd_size : Setter assigned_cmd_size := λ g r,
  mk_mir (mir_inst r) (mir_status r) (mir_ballot r) (assigned_cmd_key r) (assigned_cmd_value r)
    (g (assigned_cmd_size r)) (mir_timeout r) (repeat_cmdmap_timeout r).
#[global] Arguments set_assigned_cmd_size _ _ /.
#[export] Instance set_mir_timeout : Setter mir_timeout := λ g r,
  mk_mir (mir_inst r) (mir_status r) (mir_ballot r) (assigned_cmd_key r) (assigned_cmd_value r)
    (assigned_cmd_size r) (g (mir_timeout r)) (repeat_cmdmap_timeout r).
#[global] Arguments set_mir_timeout _ _ /.
#[export] Instance set_repeat_cmdmap_timeout : Setter repeat_cmdmap_timeout := λ g r,
  mk_mir (mir_inst r) (mir_status r) (mir_ballot r) (assigned_cmd_key r) (assigned_cmd_value r)
    (assigned_cmd_size r) (mir_timeout r) (g (repeat_cmdmap_timeout r)).
#[global] Arguments set_repeat_cmdmap_timeout _ _ /.

(** [struct mcaster_storage_mngr_t] with the queue [cvm] it points to. *)
Record mcaster_storage_mngr (Q : Type) := mk_msm {
  seq_number : Z;                            (* uint16_t *)
  array_size : Z;                            (* unsigned long *)
  mirs : list mcaster_instance_record;       (* instances_array *)
  cvm : Q
}.
Arguments mk_msm {Q}.
Arguments seq_number {Q} _.
Arguments array_size {Q} _.
Arguments mirs {Q} _.
Arguments cvm {Q} _.

Implicit Types (mir : mcaster_instance_record) (k inst : Z).

Section setters.
Context {Q : Type}.
#[export] Instance set_seq_number : Setter (@seq_number Q) := λ g r,
  mk_msm (g (seq_number r)) (array_size r) (mirs r) (cvm r).
#[export] Instance set_mirs : Setter (@mirs Q) := λ g r,
  mk_msm (seq_number r) (array_size r) (g (mirs r)) (cvm r).
#[export] Instance set_cvm : Setter (@cvm Q) := λ g r,
  mk_msm (seq_number r) (array_size r) (mirs r) (g (cvm r)).
End setters.
#[global] Arguments set_seq_number {Q} _ _ /.
#[global] Arguments set_mirs {Q} _ _ /.
#[global] Arguments set_cvm {Q} _ _ /.

Definition mcaster_storage_clear_record mir : mcaster_instance_record :=
  mk_mir 0 st_empty 0 clear_cmd_key None 0 (mir_timeout mir) (repeat_cmdmap_timeout mir).

(** [calloc] *)
Definition calloc_mir : mcaster_instance_record :=
  mk_mir 0 st_empty 0 clear_cmd_key None 0 timeval_zero timeval_zero.

(** ** Operations *)

Section operations.
Context {Q : Type} `{!DequeOps Q (list byte)} (cfg : config_mngr).

Abbreviation MS := (M (mcaster_storage_mngr Q)).

(** *** Client values (client_values_manager.c) *)

Definition on_cvm {A} (m : M Q A) : MS A := zoom cvm (λ q g, g <| cvm := q |>) m.

(** The value and its size. *)
Definition cvm_get_next_value : MS (option (option (list byte) * Z)) :=
  e ← on_cvm d_pop; mret ((λ e, (data e, size e)) <$> e).

(** The queue gets a copy of the value. *)
Definition cvm_save_value (cmd_value : list byte) : MS bool :=
  on_cvm (d_append (mk_queue_element (Some cmd_value) (cmd_len cmd_value))).

Definition cvm_push_back_value (cmd_value : option (list byte)) (cmd_size : Z) : MS bool :=
  on_cvm (d_prepend (mk_queue_element cmd_value cmd_size)).

(** [client_values_mngr_init_queue] *)
Definition client_values_mngr_init_queue (queue_length : Z) : option Q := d_init queue_length.

(** *** The table (mcaster_storage.c) *)

Definition create_value_key : MS command_id :=
  msm ← get;
  let cmd_key := mk_command_id (self_acceptor_id cfg) incarnation_number (seq_number msm) in
  modify (λ g, g <| seq_number := u16 (seq_number g + 1) |>);;
  modify (λ g, if seq_number g =? 0xFFFF then g <| seq_number := 1 |> else g);;
  mret cmd_key.

(** The number of entries is an [int]. *)
Definition mcaster_storage_init (q : Q) : option (mcaster_storage_mngr Q) :=
  let number_of_entries := working_set_size cfg * 2 in
  if in_int number_of_entries
  then Some (mk_msm 1 number_of_entries (replicate (Z.to_nat number_of_entries) calloc_mir) q)
  else None.

(** [*mir], for the record with index [k]. *)
Definition get_mir k : MS mcaster_instance_record := g ← get; lift_opt (arr_get (mirs g) k).
Definition put_mir k mir : MS unit := modify (λ g, g <| mirs ::= λ l, arr_set l k mir |>).

(** The index of the record.  [free] of the old value is not modelled. *)
Definition mcaster_storage_get inst : MS Z :=
  g ← get;
  c_assert (negb (array_size g =? 0));;
  let k := inst mod array_size g in
  mir ← get_mir k;
  if mir_inst mir =? 0 then put_mir k (mir <| mir_inst := inst |> <| mir_status := st_ready |>);; mret k
  else if mir_inst mir <? inst then
    c_assert (bool_decide (mir_status mir = st_done));;
    put_mir k ((mcaster_storage_clear_record mir) <| mir_inst := inst |> <| mir_status := st_ready |>);;
    mret k
  else if inst <? mir_inst mir then crash
  else mret k.

Definition mcaster_storage_assign_value k (cmd_value : option (list byte)) (cmd_size : Z) : MS unit :=
  mir ← get_mir k;
  c_assert (bool_decide (assigned_cmd_value mir = None));;
  cmd_key ← create_value_key;
  put_mir k (mir <| assigned_cmd_value := cmd_value |> <| assigned_cmd_size := cmd_size |>
                 <| assigned_cmd_key := cmd_key |>).

(** [memcmp(p, v, size) == 0] *)
Definition memcmp_eq (p : option (list byte)) (v : list byte) : MS bool :=
  p ← lift_opt p;
  c_assert (cmd_len v <=? cmd_len p);;
  mret (bool_decide (take (length v) p = v)).

Definition mcaster_storage_replace_assigned_value k (cmd_key : command_id) (cmd_value : list byte) : MS unit :=
  mir ← get_mir k;
  put_mir k (mir <| assigned_cmd_key := cmd_key |>);;
  same ← (if assigned_cmd_size mir =? cmd_len cmd_value then memcmp_eq (assigned_cmd_value mir) cmd_value
          else mret false);
  if same : bool then mret tt
  else
    success ← cvm_push_back_value (assigned_cmd_value mir) (assigned_cmd_size mir);
    c_assert success;;
    put_mir k (mir <| assigned_cmd_key := cmd_key |> <| assigned_cmd_size := cmd_len cmd_value |>
                   <| assigned_cmd_value := Some cmd_value |>).
End operations.

#[global] Arguments get_mir : simpl never.
#[global] Arguments put_mir : simpl never.
#[global] Arguments mcaster_storage_get : simpl never.
#[global] Arguments mcaster_storage_assign_value : simpl never.
#[global] Arguments mcaster_storage_replace_assigned_value : simpl never.
#[global] Arguments create_value_key : simpl never.
#[global] Arguments cvm_get_next_value : simpl never.
#[global] Arguments cvm_save_value : simpl never.
#[global] Arguments cvm_push_back_value : simpl never.
