(* ===== verification/RingMcaster.v ===== *)
(** * The multicaster of RingPaxos

    [ring_paxos/ring-paxos/acceptor_helpers_mcaster.c], the handlers of the
    acceptor that is the leader, and its half of the dispatch in
    [acceptor_events.c].  The messages given to [net_send_udp] are recorded:
    those for the successor in [succ_sent] and those for the multicast group in
    [mcast_sent].  Event counters, logging and the flush of the send buffers are
    not modelled; the clock is an argument of the periodic check. *)
From Stdlib Require Import Init.Byte.
From S2P Require Import Prelude Timers RingUtil RingQueue RingMessages RingConfig McasterStorage.

(** The part of [acceptor] the multicaster uses; [p1_pending_count] is never
    read or written. *)
Record multicaster (Q : Type) := mk_multicaster {
  msm : mcaster_storage_mngr Q;
  mcaster_clock : timeval;
  p1_ready_count : Z;             (* unsigned *)
  p1_highest_open : Z;            (* iid_t *)
  highest_closed_iid : Z;
  highest_open_iid : Z;
  succ_sent : list ring_msg;
  mcast_sent : list ring_msg
}.
Arguments mk_multicaster {Q}.
Arguments msm {Q} _.
Arguments mcaster_clock {Q} _.
Arguments p1_ready_count {Q} _.
Arguments p1_highest_open {Q} _.
Arguments highest_closed_iid {Q} _.
Arguments highest_open_iid {Q} _.
Arguments succ_sent {Q} _.
Arguments mcast_sent {Q} _.

Section setters.
Context {Q : Type}.
#[export] Instance set_msm : Setter (@msm Q) := λ g r,
  mk_multicaster (g (msm r)) (mcaster_clock r) (p1_ready_count r) (p1_highest_open r) (highest_closed_iid r) (highest_open_iid r) (succ_sent r) (mcast_sent r).
#[export] Instance set_mcaster_clock : Setter (@mcaster_clock Q) := λ g r,
  mk_multicaster (msm r) (g (mcaster_clock r)) (p1_ready_count r) (p1_highest_open r) (highest_closed_iid r) (highest_open_iid r) (succ_sent r) (mcast_sent r).
#[export] Instance set_p1_ready_count : Setter (@p1_ready_count Q) := λ g r,
  mk_multicaster (msm r) (mcaster_clock r) (g (p1_ready_count r)) (p1_highest_open r) (highest_closed_iid r) (highest_open_iid r) (succ_sent r) (mcast_sent r).
#[export] Instance set_p1_highest_open : Setter (@p1_highest_open Q) := λ g r,
  mk_multicaster (msm r) (mcaster_clock r) (p1_ready_count r) (g (p1_highest_open r)) (highest_closed_iid r) (highest_open_iid r) (succ_sent r) (mcast_sent r).
#[export] Instance set_highest_closed_iid : Setter (@highest_closed_iid Q) := λ g r,
  mk_multicaster (msm r) (mcaster_clock r) (p1_ready_count r) (p1_highest_open r) (g (highest_closed_iid r)) (highest_open_iid r) (succ_sent r) (mcast_sent r).
#[export] Instance set_highest_open_iid : Setter (@highest_open_iid Q) := λ g r,
  mk_multicaster (msm r) (mcaster_clock r) (p1_ready_count r) (p1_highest_open r) (highest_closed_iid r) (g (highest_open_iid r)) (succ_sent r) (mcast_sent r).
#[export] Instance set_succ_sent : Setter (@succ_sent Q) := λ g r,
  mk_multicaster (msm r) (mcaster_clock r) (p1_ready_count r) (p1_highest_open r) (highest_closed_iid r) (highest_open_iid r) (g (succ_sent r)) (mcast_sent r).
#[export] Instance set_mcast_sent : Setter (@mcast_sent Q) := λ g r,
  mk_multicaster (msm r) (mcaster_clock r) (p1_ready_count r) (p1_highest_open r) (highest_closed_iid r) (highest_open_iid r) (succ_sent r) (g (mcast_sent r)).
End setters.
#[global] Arguments set_msm {Q} _ _ /.
#[global] Arguments set_mcaster_clock {Q} _ _ /.
#[global] Arguments set_p1_ready_count {Q} _ _ /.
#[global] Arguments set_p1_highest_open {Q} _ _ /.
#[global] Arguments set_highest_closed_iid {Q} _ _ /.
#[global] Arguments set_highest_open_iid {Q} _ _ /.
#[global] Arguments set_succ_sent {Q} _ _ /.
#[global] Arguments set_mcast_sent {Q} _ _ /.

Implicit Types (mir : mcaster_instance_record) (k inst : Z).

(** The range loops of the multicaster have an [unsigned] counter and a 64-bit
    bound: they do not end for a bound that the counter cannot exceed. *)
Definition for_le_u32 {St} (from to : Z) (f : Z → M St unit) : M St unit :=
  if decide (2 ^ 32 - 1 ≤ to) then crash else mfor (range (u32 from) to) f.

Section handlers.
Context {Q : Type} `{!DequeOps Q (list byte)} (cfg : config_mngr).

Abbreviation MC := (M (multicaster Q)).

Definition on_msm {A} (m : M (mcaster_storage_mngr Q) A) : MC A := zoom msm (λ g a, a <| msm := g |>) m.

Definition send_succ (m : ring_msg) : MC unit := modify (λ a, a <| succ_sent := succ_sent a ++ [m] |>).
Definition send_mcast (m : ring_msg) : MC unit := modify (λ a, a <| mcast_sent := mcast_sent a ++ [m] |>).

(** [gettimeofday] *)
Definition mcaster_update_wallclock (now : timeval) : MC unit := modify (λ a, a <| mcaster_clock := now |>).

(** Changes a record. *)
Definition update_mir k (f : mcaster_instance_record → mcaster_instance_record) : MC unit :=
  mir ← on_msm (get_mir k); on_msm (put_mir k (f mir)).

(** [timer_set_timeout(&acc->mcaster_clock, ...)] *)
Definition deadline (interval : timeval) : MC timeval :=
  a ← get; mret (timer_set_timeout (mcaster_clock a) interval).

(** ** Sending *)

(** The key of the message is not initialised. *)
Definition mcaster_do_phase1 (junk_key : command_id) k : MC unit :=
  mir ← on_msm (get_mir k);
  c_assert (negb (mir_ballot mir =? 0));;
  send_succ (MPhase1 (mk_phase1_msg (mir_inst mir) (mir_ballot mir) 0 0 0 junk_key []));;
  d ← deadline (p1_interval cfg);
  update_mir k (λ mir, mir <| mir_timeout := d |> <| mir_status := st_p1_pending |>).

Definition mcaster_do_phase1_range (from to b : Z) : MC unit :=
  send_succ (MPhase1Range (mk_phase1_range_msg from to b 0)).

Definition mcaster_do_phase2 k : MC unit :=
  mir ← on_msm (get_mir k);
  send_mcast (MPhase2 (mk_phase2_msg (mir_inst mir) (mir_ballot mir) 0 (assigned_cmd_key mir)));;
  d ← deadline (p2_interval cfg);
  update_mir k (λ mir, mir <| mir_status := st_p2_pending |> <| mir_timeout := d |>).

(** [memcpy] of the value into a buffer on the stack. *)
Definition copy_value mir : option (list byte) :=
  match assigned_cmd_value mir with
  | Some v => if assigned_cmd_size mir <=? cmd_len v then Some (take (Z.to_nat (assigned_cmd_size mir)) v) else None
  | None => if assigned_cmd_size mir =? 0 then Some [] else None
  end.

Definition mcaster_broadcast_mapping k : MC unit :=
  mir ← on_msm (get_mir k);
  c_assert (sizeof_cmdmap_msg + assigned_cmd_size mir <=? MAX_MESSAGE_SIZE);;
  v ← lift_opt (copy_value mir);
  send_mcast (MCmdmap (mk_cmdmap_msg (mir_inst mir) (assigned_cmd_key mir) v));;
  d ← deadline (retransmit_request_interval cfg);
  update_mir k (λ mir, mir <| repeat_cmdmap_timeout := d |>).

Definition mcaster_broadcast_acceptance k : MC unit :=
  mir ← on_msm (get_mir k);
  c_assert (bool_decide (mir_status mir = st_done));;
  send_mcast (MAcceptance (mk_acceptance_msg (mir_inst mir) (assigned_cmd_key mir))).

(** ** Periodic checks *)

(** The body of the loop of [mcaster_open_new_instances_P1]. *)
Definition open_p1_body (b i : Z) : MC unit :=
  k ← on_msm (mcaster_storage_get i);
  mir ← on_msm (get_mir k);
  c_assert ((mir_inst mir =? i) && bool_decide (mir_status mir = st_ready));;
  d ← deadline (p1_interval cfg);
  on_msm (put_mir k (mir <| mir_status := st_p1_pending |> <| mir_ballot := b |> <| mir_timeout := d |>)).

Definition mcaster_open_new_instances_P1 : MC unit :=
  a ← get;
  let active_count := u32 (p1_ready_count a + p1_ready_count a) in
  if u32 (preexecution_window_size cfg) / 2 <=? active_count then mret tt
  else
    let to_open := u32 (preexecution_window_size cfg - active_count) in
    let b := make_first_ballot (self_acceptor_id cfg) incarnation_number in
    let from := u64 (p1_highest_open a + 1) in
    let to := u64 (p1_highest_open a + to_open) in
    for_le_u32 from to (open_p1_body b);;
    mcaster_do_phase1_range from to b;;
    modify (λ a, a <| p1_highest_open := u64 (p1_highest_open a + to_open) |>);;
    modify (λ a, a <| p1_ready_count := u32 (p1_ready_count a + to_open) |>).

Definition check_expired_body (junk_key : command_id) (i : Z) : MC unit :=
  k ← on_msm (mcaster_storage_get i);
  mir ← on_msm (get_mir k);
  c_assert (mir_inst mir =? i);;
  a ← get;
  match mir_status mir with
  | st_p1_pending =>
      if timer_is_expired (mir_timeout mir) (mcaster_clock a) then mcaster_do_phase1 junk_key k else mret tt
  | st_p2_pending =>
      if timer_is_expired (mir_timeout mir) (mcaster_clock a)
      then mcaster_broadcast_mapping k;; mcaster_do_phase2 k else mret tt
  | _ => mret tt
  end.

Definition mcaster_check_expired_instances (junk_key : command_id) : MC unit :=
  a ← get;
  let upper_bound := Z.max (highest_open_iid a) (p1_highest_open a) in
  for_le 64 (u64 (highest_closed_iid a + 1)) upper_bound (check_expired_body junk_key).

(** One iteration of the loop of [mcaster_open_new_instances_P2]; [false] is [break]. *)
Definition open_p2_body : MC bool :=
  a ← get;
  let current_iid := u64 (highest_open_iid a + 1) in
  if p1_highest_open a <? current_iid then mret false
  else if p1_ready_count a =? 0 then mret false
  else
    k ← on_msm (mcaster_storage_get current_iid);
    mir ← on_msm (get_mir k);
    c_assert (mir_inst mir =? current_iid);;
    if negb (bool_decide (mir_status mir = st_p1_done)) then
      c_assert (bool_decide (mir_status mir = st_p1_pending));; mret false
    else
      c_assert (negb (mir_ballot mir =? 0));;
      r ← on_msm cvm_get_next_value;
      match r with
      | None => mret false
      | Some (client_cmd_value, client_cmd_size) =>
          on_msm (mcaster_storage_assign_value cfg k client_cmd_value client_cmd_size);;
          modify (λ a, a <| p1_ready_count := u32 (p1_ready_count a - 1) |>);;
          mcaster_broadcast_mapping k;;
          mcaster_do_phase2 k;;
          modify (λ a, a <| highest_open_iid := u64 (highest_open_iid a + 1) |>);;
          mret true
      end.

(** Every iteration that does not break opens an instance. *)
Fixpoint open_p2_loop (fuel : nat) (open_count : Z) : MC unit :=
  match fuel with
  | O => crash
  | S fuel =>
      a ← get;
      let active := u64 (highest_open_iid a - highest_closed_iid a) in
      if 0 <? u64 (u32 (max_active_instances cfg) - active) then
        go_on ← open_p2_body;
        if negb go_on then mret tt
        else if max_p2_open_per_iteration cfg <=? open_count + 1 then mret tt
        else open_p2_loop fuel (open_count + 1)
      else mret tt
  end.

Definition mcaster_open_new_instances_P2 : MC unit :=
  open_p2_loop (S (Z.to_nat (max_p2_open_per_iteration cfg))) 0.

Definition on_mcaster_periodic_check (junk_key : command_id) (t1 t2 t3 : timeval) : MC unit :=
  mcaster_update_wallclock t1;;
  mcaster_open_new_instances_P1;;
  mcaster_update_wallclock t2;;
  mcaster_check_expired_instances junk_key;;
  mcaster_update_wallclock t3;;
  mcaster_open_new_instances_P2.

(** ** Messages that went around the ring *)

Definition range_done_body (i : Z) : MC unit :=
  k ← on_msm (mcaster_storage_get i);
  mir ← on_msm (get_mir k);
  c_assert ((mir_inst mir =? i) && bool_decide (mir_status mir = st_p1_pending));;
  on_msm (put_mir k (mir <| mir_status := st_p1_done |>)).

Definition mcaster_handle_phase1_range_msg (msg : phase1_range_msg) (size : Z) : MC unit :=
  c_assert (size =? sizeof_phase1_range_msg);;
  if negb (is_my_ballot (pr_ballot msg) (self_acceptor_id cfg) incarnation_number) then mret tt
  else
    a ← get;
    c_assert (highest_closed_iid a <? pr_from msg);;
    if pr_promises_count msg <? quorum_size cfg then
      mcaster_do_phase1_range (pr_from msg) (pr_to msg) (pr_ballot msg)
    else
      let count := u32 (pr_to msg - pr_from msg + 1) in
      modify (λ a, a <| p1_ready_count := u32 (p1_ready_count a - count) |>);;
      modify (λ a, a <| p1_ready_count := u32 (p1_ready_count a + count) |>);;
      for_le_u32 (pr_from msg) (pr_to msg) range_done_body.

Definition mcaster_handle_phase1_msg (junk_key : command_id) (msg : phase1_msg) (size : Z) : MC unit :=
  c_assert (size =? PH1_MSG_SIZE msg);;
  a ← get;
  if p1_inst msg <=? highest_closed_iid a then mret tt
  else if negb (is_my_ballot (p1_ballot msg) (self_acceptor_id cfg) incarnation_number) then mret tt
  else
    k ← on_msm (mcaster_storage_get (p1_inst msg));
    mir ← on_msm (get_mir k);
    c_assert (mir_inst mir =? p1_inst msg);;
    if negb (bool_decide (mir_status mir = st_p1_pending)) then mret tt
    else if negb (mir_ballot mir =? p1_ballot msg) then mret tt
    else if p1_promises_count msg <? quorum_size cfg then
      (if negb (p1_highest_promised_ballot msg =? 0)
       then on_msm (put_mir k (mir <| mir_ballot := raise_ballot (mir_ballot mir) (p1_highest_promised_ballot msg) |>))
       else mret tt);;
      mcaster_do_phase1 junk_key k
    else
      modify (λ a, a <| p1_ready_count := u32 (p1_ready_count a - 1) |>);;
      modify (λ a, a <| p1_ready_count := u32 (p1_ready_count a + 1) |>);;
      on_msm (put_mir k (mir <| mir_status := st_p1_done |>));;
      if bool_decide (assigned_cmd_value mir = None) then mret tt
      else if p1_highest_accepted_ballot msg =? 0 then mcaster_do_phase2 k
      else if CMD_KEY_EQUALS (assigned_cmd_key mir) (p1_key msg) then mcaster_do_phase2 k
      else
        on_msm (mcaster_storage_replace_assigned_value k (p1_key msg) (p1_value msg));;
        mcaster_do_phase2 k.

(** The loop that closes instances in order; [k] is the record [mir] points to. *)
Fixpoint close_loop (fuel : nat) k : MC unit :=
  match fuel with
  | O => crash
  | S fuel =>
      mir ← on_msm (get_mir k);
      a ← get;
      if bool_decide (mir_status mir = st_done) && (mir_inst mir =? u64 (highest_closed_iid a + 1)) then
        modify (λ a, a <| highest_closed_iid := u64 (highest_closed_iid a + 1) |>);;
        a ← get;
        k' ← on_msm (mcaster_storage_get (u64 (highest_closed_iid a + 1)));
        mir' ← on_msm (get_mir k');
        c_assert (mir_inst mir' =? u64 (highest_closed_iid a + 1));;
        close_loop fuel k'
      else mret tt
  end.

Definition mcaster_handle_phase2_msg (msg : phase2_msg) (size : Z) : MC unit :=
  c_assert (size =? sizeof_phase2_msg);;
  a ← get;
  if p2_inst msg <=? highest_closed_iid a then mret tt
  else
    k ← on_msm (mcaster_storage_get (p2_inst msg));
    mir ← on_msm (get_mir k);
    c_assert (mir_inst mir =? p2_inst msg);;
    if negb (bool_decide (mir_status mir = st_p2_pending)) then mret tt
    else if negb (mir_ballot mir =? p2_ballot msg) then mret tt
    else
      c_assert (CMD_KEY_EQUALS (assigned_cmd_key mir) (p2_key msg));;
      if p2_accepts_count msg <? quorum_size cfg then
        mcaster_broadcast_mapping k;;
        mcaster_do_phase2 k
      else
        on_msm (put_mir k (mir <| mir_status := st_done |>));;
        mcaster_broadcast_acceptance k;;
        a ← get;
        close_loop (S (S (Z.to_nat (highest_open_iid a - highest_closed_iid a)))) k.

(** ** Requests of learners and clients *)

Definition map_request_body (inst : Z) : MC unit :=
  k ← on_msm (mcaster_storage_get inst);
  mir ← on_msm (get_mir k);
  c_assert (mir_inst mir =? inst);;
  a ← get;
  if timer_is_expired (repeat_cmdmap_timeout mir) (mcaster_clock a) then mcaster_broadcast_mapping k else mret tt.

Definition mcaster_handle_map_request (insts : list Z) (size : Z) : MC unit :=
  c_assert (size =? REQS_MSG_SIZE insts);;
  mfor insts map_request_body.

Definition chosenval_request_body (inst : Z) : MC unit :=
  k ← on_msm (mcaster_storage_get inst);
  mir ← on_msm (get_mir k);
  c_assert (mir_inst mir =? inst);;
  if bool_decide (mir_status mir = st_done) then mcaster_broadcast_acceptance k else mret tt.

Definition mcaster_handle_chosenval_request (insts : list Z) (size : Z) : MC unit :=
  c_assert (size =? REQS_MSG_SIZE insts);;
  mfor insts chosenval_request_body.

Definition mcaster_handle_value_submit (cmd_value : list byte) (size : Z) : MC bool :=
  c_assert (sizeof_submit_cmd_msg + cmd_len cmd_value =? size);;
  on_msm (cvm_save_value cmd_value).

(** ** Dispatch and initialization *)

(** A message of a client; the result of the callback is dropped. *)
Definition client_values_mngr_handle_data (msg : ring_msg) (msg_size : Z) : MC unit :=
  match msg with
  | MSubmit cmd_value => _ ← mcaster_handle_value_submit cmd_value msg_size; mret tt
  | _ => mret tt
  end.

(** The branch of [on_predecessor_msg] for the leader. *)
Definition on_predecessor_msg_leader (junk_key : command_id) (msg : ring_msg) (size : Z) : MC unit :=
  match msg with
  | MPhase1 m => mcaster_handle_phase1_msg junk_key m size
  | MPhase1Range m => mcaster_handle_phase1_range_msg m size
  | MPhase2 m => mcaster_handle_phase2_msg m size
  | MMapRequest l => mcaster_handle_map_request l size
  | MChosenvalRequest l => mcaster_handle_chosenval_request l size
  | _ => mret tt
  end.

Definition am_i_leader : bool := self_acceptor_id cfg =? 1.

(** The length of the queue of client values. *)
Definition client_queue_length : Z := 250.

Definition multicaster_init : option (multicaster Q) :=
  q ← client_values_mngr_init_queue client_queue_length;
  g ← mcaster_storage_init cfg q;
  Some (mk_multicaster g timeval_zero 0 0 0 0 [] []).
End handlers.
