(* ===== verification/RingMcasterInv.v ===== *)
(** * The invariant of the multicaster

    What the counters and the table of [RingMcaster] mean: instances up to
    [highest_closed_iid] are closed, those up to [highest_open_iid] have a value
    of a client, those up to [p1_highest_open] are in phase 1 or through it.
    The [i]-th value the clients submitted is the value of instance [i], its
    key is a function of [i], and every message to the multicast group says so.
    Each handler keeps the invariant and does not stop. *)
From Stdlib Require Import Init.Byte.
From S2P Require Import Prelude Timers RingUtil RingQueue RingMessages RingConfig McasterStorage RingMcaster.

Implicit Types (mir : mcaster_instance_record) (k inst i : Z) (subs : list (list byte)) (acked : Z → Prop).

(** ** Keys *)

(** The sequence number of the [i]-th key. *)
Definition seq_of i : Z := (i - 1) mod 65534 + 1.

Lemma seq_of_range i : 1 ≤ seq_of i ≤ 65534.
Proof. unfold seq_of. pose proof (Z.mod_pos_bound (i - 1) 65534). lia. Qed.

Lemma seq_of_succ i : seq_of (i + 1) = if u16 (seq_of i + 1) =? 0xFFFF then 1 else u16 (seq_of i + 1).
Proof.
  pose proof (seq_of_range i). rewrite wrap_small by lia. unfold seq_of in *.
  replace (i + 1 - 1) with (i - 1 + 1) by lia.
  destruct (Z.eqb_spec ((i - 1) mod 65534 + 1 + 1) 65535) as [E|E].
  - rewrite <-Z.add_mod_idemp_l by lia. replace ((i - 1) mod 65534) with 65533 by lia. done.
  - rewrite <-Z.add_mod_idemp_l by lia. rewrite Z.mod_small by lia. done.
Qed.

(** ** The table *)

Section table.
Context (cfg : config_mngr).

Definition key_of i : command_id := mk_command_id (self_acceptor_id cfg) incarnation_number (seq_of i).

Lemma key_of_not_clear i : key_of i ≠ clear_cmd_key.
Proof. unfold key_of, clear_cmd_key. intros [= _ H]. pose proof (seq_of_range i). lia. Qed.

(** The ballot of an instance is one of this acceptor, hence not 0. *)
Definition my_ballot (b : Z) : Prop := ballot_of (self_acceptor_id cfg) incarnation_number b.

(** The [i]-th value. *)
Definition value_of subs i : option (list byte) := subs !! Z.to_nat (i - 1).

(** The counters: closed, open, and phase 1 open. *)
Record window := mk_window { w_closed : Z; w_open : Z; w_p1 : Z }.
Implicit Types (w : window).

Definition status_ok w i (s : mcaster_instance_status) : Prop :=
  (i ≤ w_closed w → s = st_done) ∧
  (w_closed w < i ≤ w_open w → s = st_p2_pending ∨ s = st_done) ∧
  (w_open w < i ≤ w_p1 w → s = st_p1_pending ∨ s = st_p1_done) ∧
  (w_p1 w < i → s = st_ready).

(** A record: unused, or of an instance that is opened, or of the next one. *)
Inductive mir_ok (size : Z) w subs acked k mir : Prop :=
  | mir_unused : mir_inst mir = 0 → assigned_cmd_value mir = None → assigned_cmd_size mir = 0 →
      assigned_cmd_key mir = clear_cmd_key → mir_ok size w subs acked k mir
  | mir_used : 1 ≤ mir_inst mir ≤ w_p1 w + 1 → mir_inst mir mod size = k →
      status_ok w (mir_inst mir) (mir_status mir) →
      (mir_inst mir ≤ w_p1 w → my_ballot (mir_ballot mir)) →
      (mir_status mir = st_done → acked (mir_inst mir)) →
      match assigned_cmd_value mir with
      | Some v => mir_inst mir ≤ w_open w ∧ value_of subs (mir_inst mir) = Some v ∧
                  assigned_cmd_size mir = cmd_len v ∧ assigned_cmd_key mir = key_of (mir_inst mir)
      | None => w_open w < mir_inst mir ∧ assigned_cmd_size mir = 0 ∧ assigned_cmd_key mir = clear_cmd_key
      end → mir_ok size w subs acked k mir.

Record table_ok (size : Z) w subs acked (l : list mcaster_instance_record) : Prop := {
  to_counts : 0 ≤ w_closed w ≤ w_open w ∧ w_open w ≤ w_p1 w;
  to_room : w_p1 w < w_closed w + size;
  to_len : Z.of_nat (length l) = size;
  to_rec k mir : arr_get l k = Some mir → mir_ok size w subs acked k mir;
  to_present i : w_closed w < i ≤ w_p1 w → ∃ mir, arr_get l (i mod size) = Some mir ∧ mir_inst mir = i
}.

(** The record of an instance. *)
Definition mir_at (size : Z) (l : list mcaster_instance_record) inst mir : Prop :=
  arr_get l (inst mod size) = Some mir ∧ mir_inst mir = inst.

(** A record changes, and stays a record of its instance. *)
Lemma table_ok_put size w subs acked l inst mir mir' :
  table_ok size w subs acked l → mir_at size l inst mir → mir_inst mir' = inst →
  mir_ok size w subs acked (inst mod size) mir' → table_ok size w subs acked (arr_set l (inst mod size) mir').
Proof.
  intros [H1 H2 H3 H4 H5] [Hat Hinst] Hinst' Hok. pose proof (arr_get_lt _ _ _ Hat) as Hk.
  constructor; rewrite ?length_arr_set; try done.
  - intros k m Hm. destruct (decide (inst mod size = k)) as [<-|Hne].
    + rewrite arr_get_set_eq in Hm by done. by injection Hm as <-.
    + rewrite arr_get_set_ne in Hm; [by apply H4|lia|done].
  - intros i Hi. destruct (H5 i Hi) as (m & Hm & Hmi). destruct (decide (inst mod size = i mod size)) as [E|Hne].
    + exists mir'. rewrite E, arr_get_set_eq; [|rewrite <-E; done]. split; [done|]. rewrite <-E, Hat in Hm.
      injection Hm as <-. congruence.
    + exists m. by rewrite arr_get_set_ne by (done || lia).
Qed.

Lemma mir_at_put size l inst mir mir' : mir_at size l inst mir → mir_inst mir' = inst →
  mir_at size (arr_set l (inst mod size) mir') inst mir'.
Proof. intros [H _] Hi. split; [|done]. apply arr_get_set_eq. by eapply arr_get_lt. Qed.

(** Two instances of the window do not share a record. *)
Lemma same_slot size a b : 0 < size → a mod size = b mod size → a < b → a + size ≤ b.
Proof.
  intros Hs E Hlt. pose proof (Z.div_mod a size ltac:(lia)). pose proof (Z.div_mod b size ltac:(lia)).
  rewrite E in *. assert (a / size < b / size) by nia. nia.
Qed.
End table.

(** ** The operations of the table *)

Section storage.
Context {Q : Type} `{!DequeOps Q (list byte)} (cfg : config_mngr).
Implicit Types (g : mcaster_storage_mngr Q).

Lemma wp_get_mir k mir (P : mcaster_instance_record → mcaster_storage_mngr Q → Prop) g :
  arr_get (mirs g) k = Some mir → P mir g → wp (get_mir k) P g.
Proof. intros H HP. unfold get_mir. wp_steps. by eapply wp_lift_opt. Qed.

Lemma wp_put_mir k mir (P : unit → mcaster_storage_mngr Q → Prop) g :
  P tt (g <| mirs := arr_set (mirs g) k mir |>) → wp (put_mir k mir) P g.
Proof. intros HP. unfold put_mir. by wp_steps. Qed.

(** A record that exists. *)
Lemma ms_get_present g inst mir (P : Z → mcaster_storage_mngr Q → Prop) :
  mir_at (array_size g) (mirs g) inst mir → 1 ≤ inst → array_size g ≠ 0 →
  P (inst mod array_size g) g → wp (mcaster_storage_get inst) P g.
Proof.
  intros [Hat Hinst] Hi Hs HP. unfold mcaster_storage_get. wp_steps.
  apply wp_assert; [by apply negb_true_iff, Z.eqb_neq|]. cbv zeta. wp_steps. eapply wp_get_mir; [done|].
  rewrite Hinst. destruct (Z.eqb_spec inst 0); [lia|]. rewrite Z.ltb_irrefl. by wp_steps.
Qed.

(** The record of the next instance takes the slot of one that is closed. *)
Lemma ms_get_next g w subs acked (P : Z → mcaster_storage_mngr Q → Prop) :
  let inst := w_p1 w + 1 in
  let size := array_size g in
  table_ok cfg size w subs acked (mirs g) → 0 < size →
  (∀ l mir, table_ok cfg size w subs acked l → mir_at size l inst mir →
     mir_status mir = st_ready → assigned_cmd_value mir = None → assigned_cmd_size mir = 0 →
     assigned_cmd_key mir = clear_cmd_key → P (inst mod size) (g <| mirs := l |>)) →
  wp (mcaster_storage_get inst) P g.
Proof.
  intros inst size T Hs HP. pose proof T as [H1 H2 H3 H4 H5]. pose proof (Z.mod_pos_bound inst size Hs) as Hk.
  destruct (arr_get_is_Some (mirs g) (inst mod size)) as [mir Hm]; [by rewrite H3|].
  assert (∀ mir', mir_inst mir' = inst → mir_status mir' = st_ready → assigned_cmd_value mir' = None →
    assigned_cmd_size mir' = 0 → assigned_cmd_key mir' = clear_cmd_key → mir_inst mir ≤ w_closed w →
    P (inst mod size) (g <| mirs := arr_set (mirs g) (inst mod size) mir' |>)) as Hnew.
  { intros mir' Hi Hst Hv Hsz Hkey Hold. apply (HP _ mir'); try done.
    - constructor; rewrite ?length_arr_set; try done.
      + intros k m Hk'. destruct (decide (inst mod size = k)) as [<-|Hne].
        * rewrite arr_get_set_eq in Hk' by (by eapply arr_get_lt). injection Hk' as <-.
          apply mir_used; rewrite ?Hi, ?Hv, ?Hst; try done; try (unfold inst; lia).
          -- unfold status_ok, inst. split_and!; intros; try done; lia.
          -- split_and!; [unfold inst; lia|done|done].
        * rewrite arr_get_set_ne in Hk'; [by apply H4|lia|done].
      + intros i Hi'. destruct (H5 i Hi') as (m & Hm' & Hmi). exists m. split; [|done].
        rewrite arr_get_set_ne; [done|lia|]. intros E. rewrite <-E, Hm in Hm'. injection Hm' as ->. lia.
    - split; [|done]. apply arr_get_set_eq. by eapply arr_get_lt. }
  unfold mcaster_storage_get. fold size. wp_steps. apply wp_assert; [apply negb_true_iff, Z.eqb_neq; lia|].
  cbv zeta. wp_steps. eapply wp_get_mir; [done|].
  destruct (H4 _ _ Hm) as [Hu Hv Hsz Hkey|Hu Hmod Hst Hb Hd Hval].
  - rewrite Hu. cbn [Z.eqb]. wp_steps. apply wp_put_mir. wp_steps. apply Hnew; try done. rewrite Hu. lia.
  - destruct (Z.eqb_spec (mir_inst mir) 0); [lia|]. destruct (Z.ltb_spec (mir_inst mir) inst) as [Hlt|Hge].
    + pose proof (same_slot size _ inst Hs Hmod Hlt). assert (mir_inst mir ≤ w_closed w) as Hold by (unfold inst in *; lia).
      wp_steps. apply wp_assert; [by apply bool_decide_eq_true, (proj1 Hst)|]. wp_steps. apply wp_put_mir. wp_steps. by apply Hnew.
    + assert (mir_inst mir = inst) as Hi by (unfold inst in *; lia). rewrite Hi, Z.ltb_irrefl. wp_steps.
      replace g with (g <| mirs := mirs g |>) at 2 by (by destruct g).
      apply (HP _ mir); try done.
      * destruct Hst as (_ & _ & _ & Hst). apply Hst. unfold inst in *. lia.
      * destruct (assigned_cmd_value mir); [|done]. unfold inst in *. lia.
      * destruct (assigned_cmd_value mir); [|apply Hval]. unfold inst in *. lia.
      * destruct (assigned_cmd_value mir); [|apply Hval]. unfold inst in *. lia.
Qed.
End storage.

(** ** The state of the multicaster *)

Section multicaster.
Context {Q : Type} `{!DequeOps Q (list byte), !Deque Q (list byte)} (cfg : config_mngr).
Implicit Types (a : multicaster Q) (w : window) (new : list ring_msg).

(** What a message to the group says. *)
Definition mcast_ok w subs acked (msg : ring_msg) : Prop :=
  match msg with
  | MCmdmap m => 1 ≤ cm_inst m ≤ w_p1 w + 1 ∧
      (cm_key m = clear_cmd_key ∧ cm_value m = [] ∨
       cm_inst m ≤ w_open w ∧ cm_key m = key_of cfg (cm_inst m) ∧ value_of subs (cm_inst m) = Some (cm_value m))
  | MPhase2 m => 1 ≤ p2_inst m ≤ w_open w ∧ p2_key m = key_of cfg (p2_inst m)
  | MAcceptance m => 1 ≤ am_inst m ≤ w_open w ∧ am_key m = key_of cfg (am_inst m) ∧ acked (am_inst m)
  | _ => False
  end.

Lemma mcast_ok_mono w w' subs acked msg : w_open w ≤ w_open w' → w_p1 w ≤ w_p1 w' →
  mcast_ok w subs acked msg → mcast_ok w' subs acked msg.
Proof.
  intros Ho Hp. destruct msg as [| |m|m|m| | |]; cbn; try done.
  - intros ([? ?] & ?). split; [lia|done].
  - intros (? & [?|(? & ? & ?)]); (split; [lia|]); [by left|right]. split_and!; [lia|done..].
  - intros ([? ?] & ? & ?). split_and!; [lia|lia|done..].
Qed.

Definition window_of a : window := mk_window (highest_closed_iid a) (highest_open_iid a) (p1_highest_open a).

Definition value_element (v : list byte) : queue_element (list byte) := mk_queue_element (Some v) (cmd_len v).

Record mc_inv a subs acked : Prop := {
  mi_table : table_ok cfg (array_size (msm a)) (window_of a) subs acked (mirs (msm a));
  mi_size : array_size (msm a) = working_set_size cfg * 2;
  mi_active : highest_open_iid a - highest_closed_iid a ≤ max_active_instances cfg;
  mi_ready : p1_ready_count a = p1_highest_open a - highest_open_iid a;
  mi_ready_max : p1_ready_count a ≤ preexecution_window_size cfg;
  mi_bound : p1_highest_open a < 2 ^ 32 - 1;
  mi_seq : seq_number (msm a) = seq_of (highest_open_iid a + 1);
  mi_queue : d_rep client_queue_length (cvm (msm a)) (value_element <$> drop (Z.to_nat (highest_open_iid a)) subs);
  mi_subs : highest_open_iid a ≤ Z.of_nat (length subs);
  mi_acked i : 1 ≤ i ≤ highest_closed_iid a → acked i;
  mi_small : Forall (λ v, cmd_len v ≤ MAX_COMMAND_SIZE) subs;
  mi_log : Forall (mcast_ok (window_of a) subs acked) (mcast_sent a)
}.

Definition mc_inv_w w subs acked a : Prop := mc_inv a subs acked ∧ window_of a = w.

(** One record changes, and messages are sent. *)
Record upd a a' k mir' new : Prop := {
  u_msm : msm a' = (msm a) <| mirs := arr_set (mirs (msm a)) k mir' |>;
  u_clock : mcaster_clock a' = mcaster_clock a;
  u_ready : p1_ready_count a' = p1_ready_count a;
  u_p1 : p1_highest_open a' = p1_highest_open a;
  u_closed : highest_closed_iid a' = highest_closed_iid a;
  u_open : highest_open_iid a' = highest_open_iid a;
  u_mcast : mcast_sent a' = mcast_sent a ++ new
}.

Lemma upd_trans a1 a2 a3 k m1 m2 n1 n2 : upd a1 a2 k m1 n1 → upd a2 a3 k m2 n2 → upd a1 a3 k m2 (n1 ++ n2).
Proof.
  intros [H1 H2 H3 H4 H5 H6 H7] [K1 K2 K3 K4 K5 K6 K7].
  constructor; [|congruence..|by rewrite K7, H7, app_assoc]. rewrite K1, H1. cbn. by rewrite arr_set_set.
Qed.

Lemma upd_get a a' k mir mir' new :
  arr_get (mirs (msm a)) k = Some mir → upd a a' k mir' new → arr_get (mirs (msm a')) k = Some mir'.
Proof. intros H [-> _ _ _ _ _ _]. cbn. by eapply arr_get_set_eq, arr_get_lt. Qed.

Lemma upd_inv a a' subs acked inst mir mir' new :
  mc_inv a subs acked → upd a a' (inst mod array_size (msm a)) mir' new →
  mir_at (array_size (msm a)) (mirs (msm a)) inst mir → mir_inst mir' = inst →
  mir_ok cfg (array_size (msm a)) (window_of a) subs acked (inst mod array_size (msm a)) mir' →
  Forall (mcast_ok (window_of a) subs acked) new → mc_inv_w (window_of a) subs acked a'.
Proof.
  intros [] [U1 U2 U3 U4 U5 U6 U7] Hat Hi Hok Hnew.
  assert (window_of a' = window_of a) as Hw by (unfold window_of; congruence).
  split; [|done]. constructor; rewrite ?Hw, ?U1, ?U3, ?U4, ?U5, ?U6, ?U7; try done; cbn.
  - by eapply table_ok_put.
  - by apply Forall_app_2.
Qed.

(** *** The helpers *)

Lemma wp_on_get_mir a k mir (P : mcaster_instance_record → multicaster Q → Prop) :
  arr_get (mirs (msm a)) k = Some mir → P mir a → wp (on_msm (get_mir k)) P a.
Proof. intros H HP. unfold on_msm. wp_steps. eapply wp_get_mir; [done|]. by destruct a. Qed.

Lemma wp_on_put_mir a k mir' (P : unit → multicaster Q → Prop) :
  (∀ a', upd a a' k mir' [] → P tt a') → wp (on_msm (put_mir k mir')) P a.
Proof.
  intros HP. unfold on_msm. wp_steps. apply wp_put_mir. apply HP.
  constructor; cbn; try done. by rewrite app_nil_r.
Qed.

Lemma wp_update_mir a k mir f (P : unit → multicaster Q → Prop) :
  arr_get (mirs (msm a)) k = Some mir → (∀ a', upd a a' k (f mir) [] → P tt a') → wp (update_mir k f) P a.
Proof. intros H HP. unfold update_mir. wp_steps. eapply wp_on_get_mir; [done|]. by apply wp_on_put_mir. Qed.

(** Messages alone. *)
Lemma upd_mcast a k mir m : arr_get (mirs (msm a)) k = Some mir →
  upd a (a <| mcast_sent := mcast_sent a ++ [m] |>) k mir [m].
Proof. intros H. constructor; cbn; try done. rewrite (arr_set_same _ _ _ H). by destruct (msm a). Qed.

Lemma upd_succ a k mir l : arr_get (mirs (msm a)) k = Some mir →
  upd a (a <| succ_sent := l |>) k mir [].
Proof.
  intros H. constructor; cbn; try done.
  - rewrite (arr_set_same _ _ _ H). by destruct (msm a).
  - by rewrite app_nil_r.
Qed.

Lemma wp_do_phase1 junk a k mir (P : unit → multicaster Q → Prop) :
  arr_get (mirs (msm a)) k = Some mir → mir_ballot mir ≠ 0 →
  (∀ a' d, upd a a' k (mir <| mir_timeout := d |> <| mir_status := st_p1_pending |>) [] → P tt a') →
  wp (mcaster_do_phase1 cfg junk k) P a.
Proof.
  intros H Hb HP. unfold mcaster_do_phase1, send_succ, deadline. wp_steps. eapply wp_on_get_mir; [done|]. wp_steps.
  apply wp_assert; [by apply negb_true_iff, Z.eqb_neq|]. wp_steps.
  eapply wp_update_mir; [done|]. intros a' U. eapply HP.
  apply (upd_trans _ _ _ _ _ _ [] [] (upd_succ _ _ _ _ H) U).
Qed.

Lemma wp_do_phase2 a k mir (P : unit → multicaster Q → Prop) :
  arr_get (mirs (msm a)) k = Some mir →
  (∀ a' d, upd a a' k (mir <| mir_status := st_p2_pending |> <| mir_timeout := d |>)
     [MPhase2 (mk_phase2_msg (mir_inst mir) (mir_ballot mir) 0 (assigned_cmd_key mir))] → P tt a') →
  wp (mcaster_do_phase2 cfg k) P a.
Proof.
  intros H HP. unfold mcaster_do_phase2, send_mcast, deadline. wp_steps. eapply wp_on_get_mir; [done|]. wp_steps.
  eapply wp_update_mir; [done|]. intros a' U. eapply HP.
  apply (upd_trans _ _ _ _ _ _ [_] [] (upd_mcast _ _ _ _ H) U).
Qed.

Lemma wp_broadcast_mapping a k mir v (P : unit → multicaster Q → Prop) :
  arr_get (mirs (msm a)) k = Some mir → copy_value mir = Some v → assigned_cmd_size mir ≤ MAX_COMMAND_SIZE →
  (∀ a' d, upd a a' k (mir <| repeat_cmdmap_timeout := d |>)
     [MCmdmap (mk_cmdmap_msg (mir_inst mir) (assigned_cmd_key mir) v)] → P tt a') →
  wp (mcaster_broadcast_mapping cfg k) P a.
Proof.
  intros H Hv Hs HP. unfold mcaster_broadcast_mapping, send_mcast, deadline. wp_steps.
  eapply wp_on_get_mir; [done|]. wp_steps.
  apply wp_assert; [apply Z.leb_le; unfold MAX_COMMAND_SIZE, sizeof_phase1_msg, sizeof_cmdmap_msg in *; lia|].
  wp_steps. eapply wp_lift_opt; [done|]. wp_steps.
  eapply wp_update_mir; [done|]. intros a' U. eapply HP.
  apply (upd_trans _ _ _ _ _ _ [_] [] (upd_mcast _ _ _ _ H) U).
Qed.

Lemma wp_broadcast_acceptance a k mir (P : unit → multicaster Q → Prop) :
  arr_get (mirs (msm a)) k = Some mir → mir_status mir = st_done →
  (∀ a', upd a a' k mir [MAcceptance (mk_acceptance_msg (mir_inst mir) (assigned_cmd_key mir))] → P tt a') →
  wp (mcaster_broadcast_acceptance k) P a.
Proof.
  intros H Hs HP. unfold mcaster_broadcast_acceptance, send_mcast. wp_steps. eapply wp_on_get_mir; [done|]. wp_steps.
  apply wp_assert; [by apply bool_decide_eq_true|]. wp_steps. by apply HP, upd_mcast.
Qed.

Lemma copy_value_some mir v : assigned_cmd_value mir = Some v → assigned_cmd_size mir = cmd_len v → copy_value mir = Some v.
Proof.
  intros Hv Hs. unfold copy_value. rewrite Hv, Hs, Z.leb_refl. unfold cmd_len. by rewrite Nat2Z.id, firstn_all.
Qed.
(** *** The handlers *)

Context (Hcfg : config_ok cfg) (Hself : 1 ≤ self_acceptor_id cfg < 2 ^ 8).

Lemma my_ballot_pos b : my_ballot cfg b → b ≠ 0.
Proof using Hself.
  intros Hb ->. destruct (ballot_of_owner (self_acceptor_id cfg) incarnation_number 0) as [H _]; [|by vm_compute|done|].
  - unfold in_u. lia.
  - unfold ballot_owner, incarnation_number in H. rewrite Z.mod_0_l in H by lia. lia.
Qed.

(** The record of an instance that phase 1 was opened for. *)
Lemma inv_record a subs acked i : mc_inv a subs acked → highest_closed_iid a < i ≤ p1_highest_open a →
  ∃ mir, mir_at (array_size (msm a)) (mirs (msm a)) i mir ∧
    mir_ok cfg (array_size (msm a)) (window_of a) subs acked (i mod array_size (msm a)) mir.
Proof.
  intros H Hi. destruct (to_present _ _ _ _ _ _ (mi_table _ _ _ H) i) as (mir & Hm & Hmi); [by cbn|].
  exists mir. split; [done|]. by eapply to_rec; [apply (mi_table _ _ _ H)|].
Qed.

Lemma inv_size a subs acked : mc_inv a subs acked → 0 < array_size (msm a).
Proof using Hcfg. intros H. rewrite (mi_size _ _ _ H). destruct Hcfg. lia. Qed.

(** The parts of a record that do not change with its status. *)
Lemma mir_ok_status size w subs acked k mir mir' :
  mir_ok cfg size w subs acked k mir → 1 ≤ mir_inst mir → mir_inst mir' = mir_inst mir →
  assigned_cmd_value mir' = assigned_cmd_value mir → assigned_cmd_size mir' = assigned_cmd_size mir →
  assigned_cmd_key mir' = assigned_cmd_key mir →
  (mir_inst mir ≤ w_p1 w → my_ballot cfg (mir_ballot mir) → my_ballot cfg (mir_ballot mir')) →
  status_ok w (mir_inst mir) (mir_status mir') → (mir_status mir' = st_done → acked (mir_inst mir)) →
  mir_ok cfg size w subs acked k mir'.
Proof.
  intros [Hu|Hr Hmod Hst Hb Hd Hval] Hi E1 E2 E3 E4 E5 E6 E7; [lia|].
  apply mir_used; rewrite ?E1, ?E2, ?E3, ?E4; try done. intros Hle. by apply E5, Hb.
Qed.

(** What an open record is worth: its command is the value of its instance. *)
Lemma mir_ok_value size w subs acked k mir : mir_ok cfg size w subs acked k mir → 1 ≤ mir_inst mir ≤ w_open w →
  ∃ v, assigned_cmd_value mir = Some v ∧ value_of subs (mir_inst mir) = Some v ∧
    assigned_cmd_size mir = cmd_len v ∧ assigned_cmd_key mir = key_of cfg (mir_inst mir).
Proof.
  intros [Hu|Hr Hmod Hst Hb Hd Hval] Hi; [lia|]. destruct (assigned_cmd_value mir) as [v|]; [|lia].
  destruct Hval as (_ & ? & ? & ?). by exists v.
Qed.

Lemma value_small a subs acked i v : mc_inv a subs acked → value_of subs i = Some v → cmd_len v ≤ MAX_COMMAND_SIZE.
Proof. intros H Hv. exact (Forall_lookup_1 _ _ _ _ (mi_small _ _ _ H) Hv). Qed.

Lemma upd_refl a k mir : arr_get (mirs (msm a)) k = Some mir → upd a a k mir [].
Proof.
  intros H. constructor; try done; [|by rewrite app_nil_r]. rewrite (arr_set_same _ _ _ H). by destruct (msm a).
Qed.

(** Phase 1 of an instance is sent again, possibly with another ballot. *)
Lemma retry_p1 a a1 subs acked junk i mir b :
  let k := i mod array_size (msm a) in
  mc_inv a subs acked → mir_at (array_size (msm a)) (mirs (msm a)) i mir →
  mir_ok cfg (array_size (msm a)) (window_of a) subs acked k mir → 1 ≤ i ≤ p1_highest_open a →
  mir_status mir = st_p1_pending → my_ballot cfg b → upd a a1 k (mir <| mir_ballot := b |>) [] →
  wp (mcaster_do_phase1 cfg junk k) (λ _, mc_inv_w (window_of a) subs acked) a1.
Proof using Hself.
  intros k H Hat Hok Hi Hst Hb U. destruct Hat as [Hat <-].
  eapply wp_do_phase1; [by eapply upd_get|by apply my_ballot_pos|]. intros a' d U'.
  pose proof (upd_trans _ _ _ _ _ _ _ _ U U') as U2. eapply upd_inv; [done|exact U2|by split|done| |constructor].
  eapply mir_ok_status; [exact Hok|lia|done..| | |done]; cbn.
  - done.
  - destruct Hok as [|Hr Hmod Hso _ _ _]; [lia|]. by rewrite <-Hst.
Qed.

(** The mapping and phase 2 of an open instance are sent again. *)
Lemma retry_p2 a subs acked i mir :
  let k := i mod array_size (msm a) in
  mc_inv a subs acked → mir_at (array_size (msm a)) (mirs (msm a)) i mir →
  mir_ok cfg (array_size (msm a)) (window_of a) subs acked k mir → 1 ≤ i ≤ p1_highest_open a →
  mir_status mir = st_p2_pending →
  wp (mcaster_broadcast_mapping cfg k;; mcaster_do_phase2 cfg k) (λ _, mc_inv_w (window_of a) subs acked) a.
Proof.
  intros k H Hat Hok Hi Hst. pose proof (mi_table _ _ _ H) as T. pose proof (to_counts _ _ _ _ _ _ T) as Hc. cbn in Hc.
  destruct Hat as [Hat <-]. pose proof Hok as [|Hr Hmod Hso Hb Hd Hval]; [lia|].
  assert (mir_inst mir ≤ highest_open_iid a) as Hopen.
  { destruct (Z.le_gt_cases (mir_inst mir) (highest_open_iid a)) as [|Hgt]; [done|].
    destruct Hso as (_ & _ & Hso & _). cbn in Hso. rewrite Hst in Hso. destruct (Hso ltac:(lia)); done. }
  destruct (mir_ok_value _ _ _ _ _ _ Hok) as (v & Hv & Hvo & Hs & Hkey); [cbn; lia|].
  pose proof (value_small _ _ _ _ _ H Hvo) as Hsmall.
  wp_steps. eapply wp_broadcast_mapping; [done|by apply copy_value_some|lia|]. intros a1 d1 U1.
  eapply wp_do_phase2; [by eapply upd_get|]. intros a' d U2. cbn in U2.
  eapply upd_inv; [done|exact (upd_trans _ _ _ _ _ _ _ _ U1 U2)|by split|done| |].
  - eapply mir_ok_status; [exact Hok|lia|done..| | |done]; cbn; [done|]. by rewrite <-Hst.
  - apply Forall_cons_2; [|by apply Forall_singleton; cbn; split; [lia|]]. cbn. split; [lia|]. right. by split_and!.
Qed.

(** *** Timeouts *)

Lemma wp_on_ms_get_present a inst mir (P : Z → multicaster Q → Prop) :
  mir_at (array_size (msm a)) (mirs (msm a)) inst mir → 1 ≤ inst → 0 < array_size (msm a) →
  P (inst mod array_size (msm a)) a → wp (on_msm (mcaster_storage_get inst)) P a.
Proof.
  intros Hat Hi Hs HP. unfold on_msm. wp_steps. eapply ms_get_present; [done|done|lia|]. by destruct a.
Qed.

Lemma check_expired_body_spec a subs acked junk i :
  mc_inv a subs acked → highest_closed_iid a < i ≤ p1_highest_open a →
  wp (check_expired_body cfg junk i) (λ _, mc_inv_w (window_of a) subs acked) a.
Proof using Hself Hcfg.
  intros H Hi. destruct (inv_record _ _ _ _ H Hi) as (mir & Hat & Hok). pose proof Hat as [Hm Hmi].
  pose proof (to_counts _ _ _ _ _ _ (mi_table _ _ _ H)) as Hc. cbn in Hc.
  unfold check_expired_body. wp_steps. eapply wp_on_ms_get_present; [done|lia|by eapply inv_size|]. wp_steps.
  eapply wp_on_get_mir; [done|]. wp_steps. apply wp_assert; [by apply Z.eqb_eq|]. wp_steps.
  assert (wp (mret ()) (λ _, mc_inv_w (window_of a) subs acked) a) as Hskip by by apply wp_ret.
  destruct (mir_status mir) eqn:Hst; try done; destruct (timer_is_expired _ _); try done.
  - eapply retry_p1; [done|done|done|lia|done| |].
    + destruct Hok as [|_ _ _ Hb _ _]; [lia|]. apply Hb. cbn. lia.
    + destruct mir; by apply upd_refl.
  - eapply retry_p2; [done|done|done|lia|done].
Qed.

Lemma check_expired_spec a subs acked junk :
  mc_inv a subs acked → wp (mcaster_check_expired_instances cfg junk) (λ _, mc_inv_w (window_of a) subs acked) a.
Proof using Hself Hcfg.
  intros H. unfold mcaster_check_expired_instances, for_le. wp_steps. cbv zeta.
  pose proof (to_counts _ _ _ _ _ _ (mi_table _ _ _ H)) as Hc. cbn in Hc. pose proof (mi_bound _ _ _ H) as Hb.
  rewrite Z.max_r by lia. rewrite decide_False by lia. rewrite wrap_small by lia.
  apply (wp_mfor_inv (mc_inv_w (window_of a) subs acked)); [done| |done].
  intros i a' [Hi1 Hi2]%elem_of_range [H' Hw]. rewrite <-Hw. injection Hw as E1 E2 E3.
  apply check_expired_body_spec; [done|lia].
Qed.

(** *** Opening instances *)

(** The next instance begins phase 1. *)
Lemma table_ok_p1 size w subs acked l mir mir' :
  let i := w_p1 w + 1 in
  table_ok cfg size w subs acked l → mir_at size l i mir → i < w_closed w + size →
  assigned_cmd_value mir = None → assigned_cmd_size mir = 0 → assigned_cmd_key mir = clear_cmd_key →
  mir_inst mir' = i → mir_status mir' = st_p1_pending → my_ballot cfg (mir_ballot mir') →
  assigned_cmd_value mir' = None → assigned_cmd_size mir' = 0 → assigned_cmd_key mir' = clear_cmd_key →
  table_ok cfg size (mk_window (w_closed w) (w_open w) i) subs acked (arr_set l (i mod size) mir').
Proof.
  intros i [T1 T2 T3 T4 T5] [Hat Hinst] Hroom Hv Hs Hk Hi' Hst' Hb' Hv' Hs' Hk'.
  pose proof (arr_get_lt _ _ _ Hat) as Hlt.
  constructor; rewrite ?length_arr_set; cbn; try done; try lia.
  - intros k m Hm. destruct (decide (i mod size = k)) as [<-|Hne].
    + rewrite arr_get_set_eq in Hm by done. injection Hm as <-.
      apply mir_used; rewrite ?Hi', ?Hv', ?Hst'; cbn; try done; try lia.
      * unfold status_ok; cbn. split_and!; intros; try lia. by left.
      * split_and!; try done. lia.
    + rewrite arr_get_set_ne in Hm; [|lia|done].
      destruct (T4 _ _ Hm) as [Hu|Hr Hmod Hso Hb Hd Hval]; [by apply mir_unused|].
      assert (mir_inst m ≠ i) as Hni by (intros E; congruence).
      assert (mir_inst m ≤ w_p1 w) as Hle by lia.
      apply mir_used; cbn; try done; try lia; [|by intros _; apply Hb].
      destruct Hso as (S1 & S2 & S3 & S4). unfold status_ok; cbn. split_and!; try done; intros; [apply S3; lia|lia].
  - intros j Hj. destruct (decide (i mod size = j mod size)) as [E|E].
    + exists mir'. rewrite E, arr_get_set_eq by (by rewrite <-E). split; [done|]. rewrite Hi'.
      destruct (Z.eq_dec j i) as [|Hn]; [done|].
      destruct (T5 j ltac:(lia)) as (m & Hm & Hmj). rewrite <-E, Hat in Hm. injection Hm as <-. congruence.
    + destruct (Z.eq_dec j i) as [->|Hn]; [done|]. destruct (T5 j ltac:(lia)) as (m & Hm & Hmj).
      exists m. by rewrite arr_get_set_ne by (done || lia).
Qed.

Lemma open_p1_body_spec a w subs acked b :
  let i := w_p1 w + 1 in
  let size := array_size (msm a) in
  table_ok cfg size w subs acked (mirs (msm a)) → 0 < size → i < w_closed w + size → my_ballot cfg b →
  wp (open_p1_body cfg b i) (λ _ a', ∃ l, a' = a <| msm := (msm a) <| mirs := l |> |> ∧
    table_ok cfg size (mk_window (w_closed w) (w_open w) i) subs acked l) a.
Proof.
  intros i size T Hs Hroom Hb. unfold open_p1_body, on_msm, deadline. wp_steps.
  eapply ms_get_next; [done|done|]. intros l mir T' Hat Hst Hv Hsz Hkey. wp_steps. fold size i.
  eapply wp_get_mir; [apply Hat|]. wp_steps. apply wp_assert.
  { rewrite (proj2 Hat), Z.eqb_refl, Hst. done. }
  wp_steps. apply wp_put_mir. cbn. eexists. split; [reflexivity|].
  eapply table_ok_p1; try done. apply Hat.
Qed.

Lemma cfg_bounds : 0 < preexecution_window_size cfg < 2 ^ 31 ∧ 0 < max_active_instances cfg < 2 ^ 31 ∧
  preexecution_window_size cfg + max_active_instances cfg < working_set_size cfg.
Proof using Hcfg. destruct Hcfg. lia. Qed.

Lemma open_P1_spec a subs acked :
  mc_inv a subs acked → p1_highest_open a + preexecution_window_size cfg < 2 ^ 32 - 1 →
  wp (mcaster_open_new_instances_P1 cfg) (λ _ a', mc_inv a' subs acked) a.
Proof using Hself Hcfg.
  intros H Hbound. pose proof cfg_bounds as (HW & HA & Hroom).
  pose proof H as [T Hsz Hact Hready Hmax Hb Hseq Hq Hsubs Hacked Hsmall Hlog].
  pose proof (to_counts _ _ _ _ _ _ T) as Hc. cbn in Hc. pose proof (inv_size _ _ _ H) as Hspos.
  unfold mcaster_open_new_instances_P1. wp_steps.
  rewrite (wrap_small 32 (preexecution_window_size cfg)) by lia.
  rewrite (wrap_small 32 (p1_ready_count a + p1_ready_count a)) by lia. cbv zeta.
  destruct (Z.leb_spec (preexecution_window_size cfg / 2) (p1_ready_count a + p1_ready_count a)) as [Hle|Hlt]; [by wp_steps|].
  pose proof (Z.div_mod (preexecution_window_size cfg) 2 ltac:(lia)) as Hdiv.
  pose proof (Z.mod_pos_bound (preexecution_window_size cfg) 2 ltac:(lia)) as Hmod.
  set (n := preexecution_window_size cfg - (p1_ready_count a + p1_ready_count a)).
  assert (0 < n ≤ preexecution_window_size cfg) as Hn by (unfold n; lia).
  rewrite (wrap_small 32 n), !(wrap_small 64 (p1_highest_open a + _)) by lia.
  unfold for_le_u32. rewrite decide_False by lia. rewrite (wrap_small 32) by lia. wp_steps.
  set (size := array_size (msm a)) in *.
  apply (wp_mfor (λ dn a', ∃ l, a' = a <| msm := (msm a) <| mirs := l |> |> ∧ table_ok cfg size
    (mk_window (highest_closed_iid a) (highest_open_iid a) (p1_highest_open a + Z.of_nat (length dn))) subs acked l)).
  - exists (mirs (msm a)). split; [destruct a as [[]]; done|]. cbn. by rewrite Z.add_0_r.
  - intros dn i rest a' E (l & -> & T'). destruct (range_split _ _ _ _ _ E) as [Hi1 Hi2].
    replace i with (w_p1 (mk_window (highest_closed_iid a) (highest_open_iid a) (p1_highest_open a + Z.of_nat (length dn))) + 1) by (cbn; lia).
    eapply wp_mono; [apply open_p1_body_spec with (subs := subs) (acked := acked)|].
    + exact T'.
    + done.
    + cbn. fold size. lia.
    + apply ballot_first.
    + intros _ a2 (l2 & -> & T2). exists l2. split; [done|]. rewrite length_app. cbn in T2 |- *.
      by replace (p1_highest_open a + Z.of_nat (length dn + 1)) with (p1_highest_open a + Z.of_nat (length dn) + 1) by lia.
  - intros a' (l & -> & T'). unfold mcaster_do_phase1_range, send_succ. wp_steps.
    assert (Z.of_nat (length (range (p1_highest_open a + 1) (p1_highest_open a + n))) = n) as Hlen.
    { unfold range. rewrite length_seqZ. lia. }
    rewrite Hlen in T'.
    assert (Forall (mcast_ok (mk_window (highest_closed_iid a) (highest_open_iid a) (p1_highest_open a + n)) subs acked)
      (mcast_sent a)) as Hlog'.
    { eapply list.Forall_impl; [exact Hlog|]. intros msg. apply mcast_ok_mono; cbn; lia. }
    constructor; cbn; rewrite ?(wrap_small 64 (p1_highest_open a + n)), ?(wrap_small 32 (p1_ready_count a + n)) by lia;
      try done; try lia; unfold n; lia.
Qed.

(** The next instance gets the next value of the clients. *)
Lemma table_ok_open size w subs acked l mir mir' v :
  let i := w_open w + 1 in
  table_ok cfg size w subs acked l → mir_at size l i mir → i ≤ w_p1 w → 0 < size →
  mir_inst mir' = i → mir_status mir' = st_p2_pending → mir_ballot mir' = mir_ballot mir →
  assigned_cmd_value mir' = Some v → assigned_cmd_size mir' = cmd_len v → assigned_cmd_key mir' = key_of cfg i →
  value_of subs i = Some v →
  table_ok cfg size (mk_window (w_closed w) i (w_p1 w)) subs acked (arr_set l (i mod size) mir').
Proof.
  intros i [T1 T2 T3 T4 T5] [Hat Hinst] Hi Hs Hi' Hst' Hb' Hv' Hs' Hk' Hvo.
  pose proof (arr_get_lt _ _ _ Hat) as Hlt. pose proof (T4 _ _ Hat) as Hok.
  constructor; rewrite ?length_arr_set; cbn; try done; try lia.
  - intros k m Hm. destruct (decide (i mod size = k)) as [<-|Hne].
    + rewrite arr_get_set_eq in Hm by done. injection Hm as <-. destruct Hok as [|Hr Hmod Hso Hb Hd Hval]; [lia|].
      apply mir_used; rewrite ?Hi', ?Hv', ?Hst', ?Hb'; cbn; try done; try lia.
      * unfold status_ok; cbn. split_and!; intros; try lia. by left.
      * intros _. apply Hb. lia.
    + rewrite arr_get_set_ne in Hm; [|lia|done].
      destruct (T4 _ _ Hm) as [Hu|Hr Hmod Hso Hb Hd Hval]; [by apply mir_unused|].
      assert (mir_inst m ≠ i) as Hni by (intros E; congruence).
      apply mir_used; cbn; try done.
      * destruct Hso as (S1 & S2 & S3 & S4). unfold status_ok; cbn. split_and!; try done; intros; [apply S2|apply S3]; lia.
      * destruct (assigned_cmd_value m); destruct Hval as (? & ?); (split; [lia|done]).
  - intros j Hj. destruct (T5 j Hj) as (m & Hm & Hmj). destruct (decide (i mod size = j mod size)) as [E|E].
    + exists mir'. rewrite E, arr_get_set_eq by (by rewrite <-E). split; [done|]. rewrite Hi'.
      rewrite <-E, Hat in Hm. injection Hm as <-. congruence.
    + exists m. by rewrite arr_get_set_ne by (done || lia).
Qed.

Lemma wp_create_value_key g i (P : command_id → mcaster_storage_mngr Q → Prop) :
  seq_number g = seq_of i → P (key_of cfg i) (g <| seq_number := seq_of (i + 1) |>) → wp (create_value_key cfg) P g.
Proof.
  intros Hs HP. unfold create_value_key. wp_steps. rewrite Hs. cbn.
  pose proof (seq_of_succ i) as Hsucc. destruct (u16 (seq_of i + 1) =? 65535); cbn; rewrite <-Hsucc; exact HP.
Qed.

Lemma wp_assign_value g k mir i v (P : unit → mcaster_storage_mngr Q → Prop) :
  arr_get (mirs g) k = Some mir → assigned_cmd_value mir = None → seq_number g = seq_of i →
  P tt (g <| seq_number := seq_of (i + 1) |>
          <| mirs := arr_set (mirs g) k (mir <| assigned_cmd_value := Some v |> <| assigned_cmd_size := cmd_len v |>
                                             <| assigned_cmd_key := key_of cfg i |>) |>) →
  wp (mcaster_storage_assign_value cfg k (Some v) (cmd_len v)) P g.
Proof.
  intros H Hv Hs HP. unfold mcaster_storage_assign_value. wp_steps. eapply wp_get_mir; [done|]. wp_steps.
  apply wp_assert; [by apply bool_decide_eq_true|]. wp_steps. eapply wp_create_value_key; [done|]. by apply wp_put_mir.
Qed.

(** The head of the queue is the next value. *)
Lemma wp_next_value g subs n (P : option (option (list byte) * Z) → mcaster_storage_mngr Q → Prop) :
  d_rep client_queue_length (cvm g) (value_element <$> drop n subs) →
  (∀ q, d_rep client_queue_length q (value_element <$> drop (S n) subs) →
     P ((λ v, (Some v, cmd_len v)) <$> subs !! n) (g <| cvm := q |>)) →
  wp cvm_get_next_value P g.
Proof.
  intros Hq HP. unfold cvm_get_next_value, on_cvm. wp_steps. eapply wp_mono; [by apply d_pop_law|].
  intros r q [-> Hq']. wp_steps. destruct (subs !! n) as [v|] eqn:Hv.
  - pose proof (drop_S _ _ _ Hv) as Hd. rewrite Hd in *. cbn in *. by apply HP.
  - apply lookup_ge_None in Hv. rewrite (drop_ge subs n) in * by done. cbn in *.
    specialize (HP q). rewrite drop_ge in HP by lia. by apply HP.
Qed.

(** The state after the next instance was opened with the value [v]. *)
Lemma opened_inv a a' subs acked mir v d1 d2 :
  let i := highest_open_iid a + 1 in
  let k := i mod array_size (msm a) in
  let mir1 := mir <| assigned_cmd_value := Some v |> <| assigned_cmd_size := cmd_len v |>
                  <| assigned_cmd_key := key_of cfg i |> in
  mc_inv a subs acked → mir_at (array_size (msm a)) (mirs (msm a)) i mir → i ≤ p1_highest_open a →
  highest_open_iid a - highest_closed_iid a < max_active_instances cfg →
  value_of subs i = Some v → cmd_len v ≤ MAX_COMMAND_SIZE →
  d_rep client_queue_length (cvm (msm a')) (value_element <$> drop (S (Z.to_nat (highest_open_iid a))) subs) →
  mirs (msm a') = arr_set (mirs (msm a)) k (mir1 <| repeat_cmdmap_timeout := d1 |>
                     <| mir_status := st_p2_pending |> <| mir_timeout := d2 |>) →
  array_size (msm a') = array_size (msm a) → seq_number (msm a') = seq_of (i + 1) →
  p1_ready_count a' = p1_ready_count a - 1 → p1_highest_open a' = p1_highest_open a →
  highest_closed_iid a' = highest_closed_iid a → highest_open_iid a' = i →
  mcast_sent a' = mcast_sent a ++ [MCmdmap (mk_cmdmap_msg i (key_of cfg i) v);
                                   MPhase2 (mk_phase2_msg i (mir_ballot mir) 0 (key_of cfg i))] →
  mc_inv a' subs acked.
Proof using Hcfg.
  intros i k mir1 H Hat Hi Hact Hv Hsmallv Eq Emirs Esz Eseq Eready Ep1 Ecl Eop Emc.
  pose proof (inv_size _ _ _ H) as Hspos.
  pose proof H as [T Hsz Hact' Hready Hmax Hb Hseq Hq Hsubs Hacked Hsmall Hlog].
  pose proof (to_counts _ _ _ _ _ _ T) as Hc. cbn in Hc. destruct Hat as [Hm Hmi].
  assert (window_of a' = mk_window (highest_closed_iid a) i (p1_highest_open a)) as Hw by (unfold window_of; congruence).
  assert ((Z.to_nat (highest_open_iid a) < length subs)%nat) as Hlen.
  { unfold value_of in Hv. apply lookup_lt_Some in Hv. unfold i in Hv. lia. }
  constructor; rewrite ?Hw, ?Esz, ?Eseq, ?Eready, ?Ep1, ?Ecl, ?Eop; try done; unfold i; try lia.
  - rewrite Emirs. by eapply (table_ok_open _ (window_of a)).
  - by replace (Z.to_nat (highest_open_iid a + 1)) with (S (Z.to_nat (highest_open_iid a))) by lia.
  - rewrite Emc. apply Forall_app_2.
    + eapply list.Forall_impl; [exact Hlog|]. intros msg. apply mcast_ok_mono; cbn; lia.
    + apply Forall_cons_2; [|apply Forall_singleton]; cbn; fold i.
      * split; [lia|]. right. by split_and!.
      * split; [lia|done].
Qed.

Lemma open_P2_body_spec a subs acked :
  mc_inv a subs acked → highest_open_iid a - highest_closed_iid a < max_active_instances cfg →
  wp (open_p2_body cfg) (λ _ a', mc_inv a' subs acked) a.
Proof using Hself Hcfg.
  intros H Hact. pose proof (inv_size _ _ _ H) as Hspos.
  pose proof H as [T Hsz Hact' Hready Hmax Hb Hseq Hq Hsubs Hacked Hsmall Hlog].
  pose proof (to_counts _ _ _ _ _ _ T) as Hc. cbn in Hc. pose proof cfg_bounds as (HW & HA & Hroom).
  unfold open_p2_body. wp_steps. cbv zeta. rewrite (wrap_small 64) by lia. set (i := highest_open_iid a + 1).
  destruct (Z.ltb_spec (p1_highest_open a) i) as [|Hi]; [by wp_steps|].
  destruct (Z.eqb_spec (p1_ready_count a) 0) as [|Hr]; [by wp_steps|].
  destruct (inv_record _ _ _ i H) as (mir & Hat & Hok); [lia|]. pose proof Hat as [Hm Hmi].
  wp_steps. eapply wp_on_ms_get_present; [done|lia|done|]. wp_steps. eapply wp_on_get_mir; [done|]. wp_steps.
  apply wp_assert; [by apply Z.eqb_eq|]. destruct Hok as [|Hrange Hmod Hso Hbal Hd Hval]; [lia|].
  destruct Hso as (_ & _ & Hso & _). rewrite Hmi in Hso, Hbal, Hval. destruct (Hso ltac:(cbn; lia)) as [Hst|Hst]; rewrite Hst.
  { rewrite (bool_decide_eq_false_2 (st_p1_pending = st_p1_done)) by done. cbn [negb]. wp_steps.
    apply wp_assert; [done|]. by wp_steps. }
  rewrite (bool_decide_eq_true_2 (st_p1_done = _)) by done. cbn [negb]. wp_steps. apply wp_assert.
  { apply negb_true_iff, Z.eqb_neq. apply my_ballot_pos, Hbal. cbn. lia. }
  assert (assigned_cmd_value mir = None) as Hnone.
  { destruct (assigned_cmd_value mir); [|done]. cbn in Hval. lia. }
  wp_steps. unfold on_msm at 1. wp_steps. eapply wp_next_value; [exact Hq|]. intros q Hq'.
  destruct (subs !! Z.to_nat (highest_open_iid a)) as [v|] eqn:Ev; cbn [fmap option_fmap option_map].
  - assert (value_of subs i = Some v) as Hv.
    { unfold value_of. by replace (Z.to_nat (i - 1)) with (Z.to_nat (highest_open_iid a)) by lia. }
    pose proof (value_small _ _ _ _ _ H Hv) as Hsmallv.
    unfold on_msm at 1. wp_steps. eapply wp_assign_value; [exact Hm|done|exact Hseq|]. wp_steps.
    eapply wp_broadcast_mapping.
    + cbn. eapply arr_get_set_eq, arr_get_lt, Hm.
    + by apply copy_value_some.
    + done.
    + intros a1 d1 U1. wp_steps. eapply wp_do_phase2.
      { eapply upd_get; [|exact U1]. cbn. eapply arr_get_set_eq, arr_get_lt, Hm. }
      intros a2 d2 U2. wp_steps. pose proof (upd_trans _ _ _ _ _ _ _ _ U1 U2) as [V1 V2 V3 V4 V5 V6 V7].
      eapply (opened_inv a _ subs acked mir v d1 d2); try done; cbn; rewrite ?V1, ?V3, ?V4, ?V5, ?V6, ?V7; cbn; try done.
      * rewrite arr_set_set. done.
      * rewrite wrap_small by lia. done.
      * rewrite wrap_small by lia. done.
      * by rewrite Hmi.
  - wp_steps. constructor; cbn; try done. apply lookup_ge_None in Ev.
    rewrite (drop_ge subs) in Hq' by lia. rewrite (drop_ge subs) by lia. done.
Qed.

Lemma open_P2_loop_spec fuel a subs acked count :
  mc_inv a subs acked → max_p2_open_per_iteration cfg - count < Z.of_nat fuel → 0 < Z.of_nat fuel →
  wp (open_p2_loop cfg fuel count) (λ _ a', mc_inv a' subs acked) a.
Proof using Hself Hcfg.
  revert a count. induction fuel as [|fuel IH]; intros a count H Hf Hpos; [lia|]. cbn [open_p2_loop].
  pose proof (to_counts _ _ _ _ _ _ (mi_table _ _ _ H)) as Hc. cbn in Hc. pose proof (mi_bound _ _ _ H) as Hb.
  pose proof (mi_active _ _ _ H) as Hact. pose proof cfg_bounds as (HW & HA & Hroom).
  wp_steps. cbv zeta. rewrite (wrap_small 64 (highest_open_iid a - _)), (wrap_small 32), (wrap_small 64) by lia.
  destruct (Z.ltb_spec 0 (max_active_instances cfg - (highest_open_iid a - highest_closed_iid a))); [|by wp_steps].
  wp_steps. eapply wp_mono; [apply open_P2_body_spec; [done|lia]|]. intros go_on a' H'.
  destruct go_on; cbn [negb]; [|by wp_steps].
  destruct (Z.leb_spec (max_p2_open_per_iteration cfg) (count + 1)); [by wp_steps|]. apply IH; [done|lia|lia].
Qed.

Lemma clock_inv a subs acked t : mc_inv a subs acked → mc_inv (a <| mcaster_clock := t |>) subs acked.
Proof. by intros []. Qed.

Lemma periodic_check_spec a subs acked junk t1 t2 t3 :
  mc_inv a subs acked → p1_highest_open a + preexecution_window_size cfg < 2 ^ 32 - 1 →
  wp (on_mcaster_periodic_check cfg junk t1 t2 t3) (λ _ a', mc_inv a' subs acked) a.
Proof using Hself Hcfg.
  intros H Hb. unfold on_mcaster_periodic_check, mcaster_update_wallclock, mcaster_open_new_instances_P2. wp_steps.
  eapply wp_mono; [by apply open_P1_spec; [apply clock_inv|]|]. intros [] a1 H1. wp_steps.
  eapply wp_mono; [by apply check_expired_spec, clock_inv|]. intros [] a2 [H2 _]. wp_steps.
  apply open_P2_loop_spec; [by apply clock_inv|lia|lia].
Qed.

(** *** Messages from the ring *)

(** The instances of a range message are all in phase 1. *)
Definition pending_p1 a i : Prop :=
  ∃ mir, mir_at (array_size (msm a)) (mirs (msm a)) i mir ∧ mir_status mir = st_p1_pending.

(** When a message is handled safely: it is about instances that were opened,
    and it carries the key it was sent with. *)
Definition ring_msg_ok a (msg : ring_msg) : Prop :=
  match msg with
  | MPhase1 m => is_my_ballot (p1_ballot m) (self_acceptor_id cfg) incarnation_number = true →
      p1_inst m ≤ p1_highest_open a ∧ in_u 32 (p1_highest_promised_ballot m)
  | MPhase1Range m => is_my_ballot (pr_ballot m) (self_acceptor_id cfg) incarnation_number = true →
      highest_closed_iid a < pr_from m ≤ pr_to m ∧ pr_to m ≤ p1_highest_open a ∧
      (quorum_size cfg ≤ pr_promises_count m → ∀ i, pr_from m ≤ i ≤ pr_to m → pending_p1 a i)
  | MPhase2 m => p2_inst m ≤ p1_highest_open a ∧ p2_key m = key_of cfg (p2_inst m)
  | MMapRequest l | MChosenvalRequest l =>
      Forall (λ i, 1 ≤ i ∧ ∃ mir, mir_at (array_size (msm a)) (mirs (msm a)) i mir) l
  | _ => True
  end.

Lemma ready_recount r n : in_u 32 r → u32 (u32 (r - n) + n) = r.
Proof.
  intros Hr. unfold wrap. rewrite Z.add_mod_idemp_l by lia. replace (r - n + n) with r by lia. by apply wrap_small.
Qed.

(** An instance in phase 1 has no value: the branches of [mcaster_handle_phase1_msg]
    for an instance that has one are never taken. *)
Lemma p1_pending_no_value size w subs acked k mir :
  mir_ok cfg size w subs acked k mir → 1 ≤ mir_inst mir → w_closed w ≤ w_open w → mir_status mir = st_p1_pending →
  w_open w < mir_inst mir ∧ assigned_cmd_value mir = None.
Proof.
  intros [|Hr Hmod (S1 & S2 & _) Hb Hd Hval] Hi Hw Hst; [lia|]. rewrite Hst in *.
  assert (w_open w < mir_inst mir) as Hlt.
  { destruct (Z.le_gt_cases (mir_inst mir) (w_closed w)); [by discriminate S1|].
    destruct (Z.le_gt_cases (mir_inst mir) (w_open w)); [by destruct S2|lia]. }
  split; [done|]. destruct (assigned_cmd_value mir); [|done]. lia.
Qed.

(** Phase 1 of an instance is complete. *)
Lemma p1_done_inv a a' subs acked mir :
  let k := mir_inst mir mod array_size (msm a) in
  mc_inv a subs acked → arr_get (mirs (msm a)) k = Some mir → 1 ≤ mir_inst mir ≤ p1_highest_open a →
  mir_status mir = st_p1_pending → upd a a' k (mir <| mir_status := st_p1_done |>) [] →
  mc_inv_w (window_of a) subs acked a'.
Proof.
  intros k H Hm Hi Hst U. pose proof (to_rec _ _ _ _ _ _ (mi_table _ _ _ H) _ _ Hm) as Hok.
  pose proof (to_counts _ _ _ _ _ _ (mi_table _ _ _ H)) as Hc. cbn in Hc.
  destruct (p1_pending_no_value _ _ _ _ _ _ Hok) as [Ho _]; [lia|cbn; lia|done|]. cbn in Ho.
  eapply upd_inv; [done|exact U|by split|done| |constructor].
  eapply mir_ok_status; [exact Hok|lia|done..| |done]. unfold status_ok; cbn.
  split_and!; intros; [lia|lia|by right|lia].
Qed.

Lemma phase1_msg_spec a subs acked junk (m : phase1_msg) :
  mc_inv a subs acked → ring_msg_ok a (MPhase1 m) →
  wp (mcaster_handle_phase1_msg cfg junk m (PH1_MSG_SIZE m)) (λ _ a', mc_inv a' subs acked) a.
Proof using Hself Hcfg.
  intros H Hmsg. unfold mcaster_handle_phase1_msg. wp_steps. apply wp_assert; [by apply Z.eqb_eq|]. wp_steps.
  pose proof (to_counts _ _ _ _ _ _ (mi_table _ _ _ H)) as Hc. cbn in Hc. pose proof (inv_size _ _ _ H) as Hspos.
  destruct (Z.leb_spec (p1_inst m) (highest_closed_iid a)); [by wp_steps|].
  destruct (is_my_ballot _ _ _) eqn:Emine; cbn [negb]; [|by wp_steps]. destruct (Hmsg Emine) as [Hle Hu].
  destruct (inv_record _ _ _ (p1_inst m) H) as (mir & Hat & Hok); [lia|]. pose proof Hat as [Hm Hmi].
  wp_steps. eapply wp_on_ms_get_present; [done|lia|done|]. wp_steps. eapply wp_on_get_mir; [done|]. wp_steps.
  apply wp_assert; [by apply Z.eqb_eq|].
  destruct (decide (mir_status mir = st_p1_pending)) as [Hst|Hst];
    [rewrite bool_decide_eq_true_2 by done|rewrite bool_decide_eq_false_2 by done]; cbn [negb]; [|by wp_steps].
  destruct (mir_ballot mir =? p1_ballot m); cbn [negb]; [|by wp_steps].
  assert (my_ballot cfg (mir_ballot mir)) as Hbal.
  { destruct Hok as [|_ _ _ Hb _ _]; [lia|]. apply Hb. cbn. lia. }
  destruct (p1_promises_count m <? quorum_size cfg).
  - wp_steps. destruct (p1_highest_promised_ballot m =? 0); cbn [negb].
    + wp_steps. eapply wp_mono; [eapply (retry_p1 a a _ _ _ _ mir (mir_ballot mir)); try done; [lia|]|by intros [] ? [? _]].
      destruct mir; by apply upd_refl.
    + wp_steps. apply wp_on_put_mir. intros a1 U1.
      eapply wp_mono; [eapply (retry_p1 a a1 _ _ _ _ mir (raise_ballot (mir_ballot mir) _)); try done;
        [lia|by apply ballot_raise]|by intros [] ? [? _]].
  - destruct (p1_pending_no_value _ _ _ _ _ _ Hok) as [Ho Hnone]; [lia|cbn; lia|done|]. cbn in Ho.
    pose proof (mi_ready _ _ _ H) as Hr. pose proof (mi_bound _ _ _ H) as Hb. wp_steps. cbn.
    rewrite ready_recount by (unfold in_u; lia).
    rewrite (bool_decide_eq_true_2 (assigned_cmd_value mir = None)) by done. apply wp_on_put_mir. intros a1 U1.
    wp_steps. rewrite <-Hmi in *. eapply (p1_done_inv a); try done; [lia|]. destruct U1. by constructor.
Qed.

Lemma range_done_body_spec a subs acked i :
  mc_inv a subs acked → highest_closed_iid a < i ≤ p1_highest_open a → pending_p1 a i →
  wp (range_done_body i) (λ _ a', mc_inv_w (window_of a) subs acked a' ∧
    ∀ j, j ≠ i → pending_p1 a j ↔ pending_p1 a' j) a.
Proof using Hself Hcfg.
  intros H Hi (mir & Hat & Hst). pose proof Hat as [Hm Hmi]. pose proof (inv_size _ _ _ H) as Hspos.
  pose proof (to_counts _ _ _ _ _ _ (mi_table _ _ _ H)) as Hc. cbn in Hc.
  unfold range_done_body. wp_steps. eapply wp_on_ms_get_present; [done|lia|done|]. wp_steps.
  eapply wp_on_get_mir; [done|]. wp_steps. apply wp_assert; [by rewrite Hmi, Z.eqb_refl, Hst|]. wp_steps.
  apply wp_on_put_mir. intros a' U. split.
  - subst i. eapply (p1_done_inv a); try done; lia.
  - intros j Hj. unfold pending_p1, mir_at. rewrite (u_msm _ _ _ _ _ U). cbn.
    destruct (decide (i mod array_size (msm a) = j mod array_size (msm a))) as [E|E].
    + rewrite <-E, arr_get_set_eq, Hm by (by eapply arr_get_lt).
      split; intros (m & [[= <-] Hjmi] & _); [congruence|]. cbn in Hjmi. congruence.
    + by rewrite arr_get_set_ne by (done || apply (arr_get_lt _ _ _ Hm)).
Qed.

Lemma phase1_range_msg_spec a subs acked (m : phase1_range_msg) :
  mc_inv a subs acked → ring_msg_ok a (MPhase1Range m) →
  wp (mcaster_handle_phase1_range_msg cfg m sizeof_phase1_range_msg) (λ _ a', mc_inv a' subs acked) a.
Proof using Hself Hcfg.
  intros H Hmsg. unfold mcaster_handle_phase1_range_msg. wp_steps. apply wp_assert; [done|].
  destruct (is_my_ballot _ _ _) eqn:Emine; cbn [negb]; [|by wp_steps]. destruct (Hmsg Emine) as (Hfrom & Hto & Hpend).
  pose proof (to_counts _ _ _ _ _ _ (mi_table _ _ _ H)) as Hc. cbn in Hc.
  pose proof (mi_ready _ _ _ H) as Hr. pose proof (mi_bound _ _ _ H) as Hb.
  wp_steps. apply wp_assert; [apply Z.ltb_lt; lia|].
  destruct (Z.ltb_spec (pr_promises_count m) (quorum_size cfg)).
  - unfold mcaster_do_phase1_range, send_succ. wp_steps. by destruct H.
  - cbv zeta. wp_steps. cbn. rewrite ready_recount by (unfold in_u; lia).
    unfold for_le_u32. rewrite decide_False by lia. rewrite wrap_small by lia.
    set (a0 := mk_multicaster _ _ _ _ _ _ _ _). assert (a0 = a) as -> by by destruct a.
    apply (wp_mfor (λ dn a', mc_inv_w (window_of a) subs acked a' ∧
      ∀ i, pr_from m ≤ i ≤ pr_to m → i ∉ dn → pending_p1 a' i)).
    + split; [done|]. intros i Hi _. by apply Hpend.
    + intros dn i rest a' E [[H' Hw] Hp]. injection Hw as W1 W2 W3.
      assert (i ∈ range (pr_from m) (pr_to m)) as Hin%elem_of_range by (rewrite E, elem_of_app; right; by left).
      assert (i ∉ dn) as Hni by (intros Hd; pose proof (range_prefix_lt _ _ _ _ _ _ E Hd); lia).
      eapply wp_mono; [apply range_done_body_spec with (subs := subs) (acked := acked); [done|lia|by apply Hp]|].
      intros [] a2 [[H2 Hw2] Hp2]. split; [split; [done|unfold window_of in *; congruence]|].
      intros j Hj Hnj. rewrite elem_of_app, list_elem_of_singleton in Hnj.
      apply Hp2; [tauto|]. apply Hp; tauto.
    + by intros a' [[H' _] _].
Qed.

(** *** Closing instances *)

Lemma table_ok_close size w subs acked l mir :
  let i := w_closed w + 1 in
  table_ok cfg size w subs acked l → mir_at size l i mir → mir_status mir = st_done → i ≤ w_open w →
  table_ok cfg size (mk_window i (w_open w) (w_p1 w)) subs acked l.
Proof.
  intros i [T1 T2 T3 T4 T5] [Hm Hmi] Hst Hi. constructor; cbn; try done; try lia.
  - intros k m Hk. destruct (T4 _ _ Hk) as [Hu|Hr Hmod (S1 & S2 & S3 & S4) Hb Hd Hval]; [by apply mir_unused|].
    apply mir_used; cbn; try done. unfold status_ok; cbn. split_and!; try done; intros.
    + destruct (Z.eq_dec (mir_inst m) i) as [E|E]; [|apply S1; lia].
      rewrite <-Hmod, E, Hm in Hk. by injection Hk as <-.
    + apply S2. lia.
  - intros j Hj. apply T5. lia.
Qed.

(** An instance in phase 2 is open. *)
Lemma p2_pending_open size w subs acked k mir :
  mir_ok cfg size w subs acked k mir → 1 ≤ mir_inst mir → w_closed w ≤ w_open w → mir_status mir = st_p2_pending →
  mir_inst mir ≤ w_open w.
Proof.
  intros [|Hr Hmod (S1 & S2 & S3 & S4) Hb Hd Hval] Hi Hw Hst; [lia|]. rewrite Hst in *.
  destruct (Z.le_gt_cases (mir_inst mir) (w_open w)) as [|Ho]; [done|].
  destruct (Z.le_gt_cases (mir_inst mir) (w_p1 w)) as [Hp|Hp].
  - by destruct (S3 ltac:(lia)).
  - by specialize (S4 ltac:(lia)).
Qed.

(** An instance that is done has a value. *)
Lemma done_open size w subs acked k mir :
  mir_ok cfg size w subs acked k mir → 1 ≤ mir_inst mir → mir_status mir = st_done → mir_inst mir ≤ w_open w.
Proof.
  intros [|Hr Hmod (S1 & S2 & S3 & S4) Hb Hd Hval] Hi Hst; [lia|]. rewrite Hst in *.
  destruct (Z.le_gt_cases (mir_inst mir) (w_open w)) as [|Ho]; [done|].
  destruct (Z.le_gt_cases (mir_inst mir) (w_p1 w)) as [Hp|Hp].
  - by destruct (S3 ltac:(lia)).
  - by specialize (S4 ltac:(lia)).
Qed.

(** The record after the last closed one: it is of the window, or of the next instance. *)
Lemma get_after_closed a subs acked :
  mc_inv a subs acked →
  wp (on_msm (mcaster_storage_get (highest_closed_iid a + 1))) (λ k a', mc_inv_w (window_of a) subs acked a' ∧
    k = (highest_closed_iid a + 1) mod array_size (msm a') ∧
    ∃ mir, mir_at (array_size (msm a')) (mirs (msm a')) (highest_closed_iid a + 1) mir) a.
Proof using Hcfg.
  intros H. pose proof (to_counts _ _ _ _ _ _ (mi_table _ _ _ H)) as Hc. cbn in Hc. pose proof (inv_size _ _ _ H) as Hspos.
  destruct (Z.le_gt_cases (highest_closed_iid a + 1) (p1_highest_open a)) as [Hle|Hgt].
  - destruct (inv_record _ _ _ (highest_closed_iid a + 1) H) as (mir & Hat & Hok); [lia|].
    eapply wp_on_ms_get_present; [done|lia|done|]. split; [done|]. split; [done|]. by exists mir.
  - replace (highest_closed_iid a) with (w_p1 (window_of a)) at 1 by (cbn; lia). unfold on_msm. wp_steps.
    eapply ms_get_next; [apply (mi_table _ _ _ H)|done|]. intros l mir T' Hat _ _ _ _. cbn in *.
    assert (p1_highest_open a = highest_closed_iid a) as E by lia. rewrite E in Hat. split; [|split; [by rewrite E|by exists mir]].
    split; [|done]. destruct H. by constructor.
Qed.

Lemma close_loop_spec fuel a subs acked k mir :
  mc_inv a subs acked → arr_get (mirs (msm a)) k = Some mir →
  highest_open_iid a - highest_closed_iid a + 1 < Z.of_nat fuel →
  wp (close_loop fuel k) (λ _ a', mc_inv a' subs acked) a.
Proof using Hcfg.
  revert a k mir. induction fuel as [|fuel IH]; intros a k mir H Hm Hf;
    pose proof (to_counts _ _ _ _ _ _ (mi_table _ _ _ H)) as Hc; cbn in Hc; [lia|].
  pose proof (mi_bound _ _ _ H) as Hb. pose proof (to_rec _ _ _ _ _ _ (mi_table _ _ _ H) _ _ Hm) as Hok.
  cbn [close_loop]. wp_steps. eapply wp_on_get_mir; [done|]. wp_steps. rewrite wrap_small by lia.
  destruct (bool_decide (mir_status mir = st_done)) eqn:Est; cbn [andb]; [|by wp_steps].
  destruct (Z.eqb_spec (mir_inst mir) (highest_closed_iid a + 1)) as [E|]; [|by wp_steps].
  apply bool_decide_eq_true_1 in Est.
  pose proof (done_open _ _ _ _ _ _ Hok ltac:(lia) Est) as Ho. cbn in Ho.
  assert (mir_at (array_size (msm a)) (mirs (msm a)) (highest_closed_iid a + 1) mir) as Hat.
  { split; [|done]. destruct Hok as [|_ Hmod _ _ _ _]; [lia|]. by rewrite <-E, Hmod. }
  wp_steps. set (a1 := a <| highest_closed_iid := _ |>).
  assert (highest_closed_iid a1 = highest_closed_iid a + 1) as Ea1 by (cbn; apply wrap_small; lia).
  rewrite Ea1, (wrap_small 64 (_ + 1 + 1)) by lia. rewrite <-Ea1.
  assert (mc_inv a1 subs acked) as H1.
  { assert (window_of a1 = mk_window (highest_closed_iid a + 1) (highest_open_iid a) (p1_highest_open a)) as Hw.
    { unfold window_of. by rewrite Ea1. }
    destruct H. constructor; rewrite ?Hw, ?Ea1; try done; try (cbn; lia).
    - eapply (table_ok_close _ (window_of a)); cbn; try done. lia.
    - intros i Hi. destruct (Z.eq_dec i (mir_inst mir)) as [->|Hni]; [|apply mi_acked0; lia].
      destruct Hok as [|_ _ _ _ Hd _]; [lia|by apply Hd]. }
  eapply wp_mono; [by apply (get_after_closed a1)|]. intros k' a2 ([H2 Hw2] & -> & mir2 & Hm2 & Hi2). cbn beta.
  wp_steps. eapply wp_on_get_mir; [done|]. wp_steps. apply wp_assert; [by apply Z.eqb_eq|].
  eapply IH; [done|done|]. injection Hw2 as W1 W2 W3. cbn in *. lia.
Qed.

Lemma acked_mono a subs acked acked' : mc_inv a subs acked → (∀ i, acked i → acked' i) → mc_inv a subs acked'.
Proof.
  intros [T ? ? ? ? ? ? ? ? Hacked ? Hlog] Hsub. constructor; try done; [|by eauto|].
  - destruct T as [T1 T2 T3 T4 T5]. constructor; try done. intros k mir Hk.
    destruct (T4 _ _ Hk); [by apply mir_unused|apply mir_used; try done]. eauto.
  - eapply list.Forall_impl; [exact Hlog|]. intros msg. destruct msg; cbn; try done. intros (? & ? & ?). eauto.
Qed.

(** The instances that a message acknowledges. *)
Definition acked_after (m : phase2_msg) acked : Z → Prop :=
  λ i, acked i ∨ (quorum_size cfg ≤ p2_accepts_count m ∧ i = p2_inst m).

Lemma phase2_msg_spec a subs acked (m : phase2_msg) :
  mc_inv a subs acked → ring_msg_ok a (MPhase2 m) →
  wp (mcaster_handle_phase2_msg cfg m sizeof_phase2_msg) (λ _ a', mc_inv a' subs (acked_after m acked)) a.
Proof using Hcfg.
  intros H0 [Hle Hkey]. assert (mc_inv a subs (acked_after m acked)) as H by (eapply acked_mono; [done|by left]).
  pose proof (to_counts _ _ _ _ _ _ (mi_table _ _ _ H)) as Hc. cbn in Hc. pose proof (inv_size _ _ _ H) as Hspos.
  unfold mcaster_handle_phase2_msg. wp_steps. apply wp_assert; [done|]. wp_steps.
  destruct (Z.leb_spec (p2_inst m) (highest_closed_iid a)); [by wp_steps|].
  destruct (inv_record _ _ _ (p2_inst m) H) as (mir & Hat & Hok); [lia|]. pose proof Hat as [Hm Hmi].
  wp_steps. eapply wp_on_ms_get_present; [done|lia|done|]. wp_steps. eapply wp_on_get_mir; [done|]. wp_steps.
  apply wp_assert; [by apply Z.eqb_eq|].
  destruct (bool_decide (mir_status mir = st_p2_pending)) eqn:Hst; cbn [negb]; [|by wp_steps].
  apply bool_decide_eq_true_1 in Hst. destruct (mir_ballot mir =? p2_ballot m); cbn [negb]; [|by wp_steps].
  pose proof (p2_pending_open _ _ _ _ _ _ Hok ltac:(lia) ltac:(cbn; lia) Hst) as Ho. cbn in Ho.
  destruct (mir_ok_value _ _ _ _ _ _ Hok) as (v & Hv & Hvo & Hs & Hk); [cbn; lia|].
  wp_steps. apply wp_assert; [rewrite Hk, Hkey, Hmi; by rewrite CMD_KEY_EQUALS_decide, bool_decide_eq_true|].
  destruct (Z.ltb_spec (p2_accepts_count m) (quorum_size cfg)) as [|Hq].
  - eapply wp_mono; [by eapply retry_p2; try done; lia|]. by intros [] ? [? _].
  - wp_steps. apply wp_on_put_mir. intros a1 U1. wp_steps.
    eapply wp_broadcast_acceptance; [by eapply upd_get|done|]. intros a2 U2. cbn in U2. wp_steps.
    pose proof (upd_trans _ _ _ _ _ _ _ _ U1 U2) as U. cbn [app] in U.
    assert (mc_inv_w (window_of a) subs (acked_after m acked) a2) as [H2 Hw].
    { eapply upd_inv; [done|exact U|done|done| |].
      - eapply mir_ok_status; [exact Hok|lia|done..| |]; cbn.
        + unfold status_ok; cbn. split_and!; intros; [done|by right|lia|lia].
        + intros _. right. by rewrite Hmi.
      - apply Forall_singleton. cbn. split_and!; [lia..|done|]. right. by rewrite Hmi. }
    eapply close_loop_spec; [done|by eapply upd_get|]. lia.
Qed.
End multicaster.
