(* ===== verification/RingMcasterProps.v ===== *)
(** * Properties of the multicaster

    Requests and client values keep the invariant of [RingMcasterInv], hence
    every run does: the multicaster decides the order of the values of the
    clients, instance by instance, and reports an instance as chosen only after
    a quorum accepted it.  Then the two ways in which it goes wrong: the value
    that phase 1 found is dropped, and a late answer to phase 1 stops it. *)
From Stdlib Require Import Init.Byte.
From S2P Require Import Prelude Timers RingUtil RingQueue RingMessages RingConfig McasterStorage RingMcaster RingMcasterInv.

Implicit Types (mir : mcaster_instance_record) (k inst i : Z) (subs : list (list byte)) (acked : Z → Prop).

(** ** Requests and client values *)

Section requests.
Context {Q : Type} `{!DequeOps Q (list byte), !Deque Q (list byte)} (cfg : config_mngr).
Context (Hcfg : config_ok cfg).
Implicit Types (a : multicaster Q).

Definition has_record a i : Prop := 1 ≤ i ∧ ∃ mir, mir_at (array_size (msm a)) (mirs (msm a)) i mir.

(** A step that does not change the instances of the records. *)
Lemma upd_has_record a a' inst mir mir' new i :
  upd a a' (inst mod array_size (msm a)) mir' new → mir_at (array_size (msm a)) (mirs (msm a)) inst mir →
  mir_inst mir' = inst → has_record a i → has_record a' i.
Proof.
  intros U [Hm Hmi] Hi' [Hi (m & Hat & Hati)]. split; [done|]. rewrite (u_msm _ _ _ _ _ U). cbn.
  destruct (decide (inst mod array_size (msm a) = i mod array_size (msm a))) as [E|E].
  - exists mir'. rewrite E in *. rewrite Hm in Hat. injection Hat as <-. split; [|congruence].
    by eapply arr_get_set_eq, arr_get_lt.
  - exists m. split; [|done]. rewrite arr_get_set_ne; [done| |done]. apply (arr_get_lt _ _ _ Hm).
Qed.

(** The mapping of an instance, which is empty before the instance is open. *)
Lemma mapping_of_record a subs acked mir :
  let k := mir_inst mir mod array_size (msm a) in
  mc_inv cfg a subs acked → arr_get (mirs (msm a)) k = Some mir → 1 ≤ mir_inst mir →
  ∃ v, copy_value mir = Some v ∧ assigned_cmd_size mir ≤ MAX_COMMAND_SIZE ∧
    mcast_ok cfg (window_of a) subs acked (MCmdmap (mk_cmdmap_msg (mir_inst mir) (assigned_cmd_key mir) v)).
Proof.
  intros k H Hm Hi. destruct (to_rec _ _ _ _ _ _ (mi_table _ _ _ _ H) _ _ Hm) as [|Hr Hmod Hst Hb Hd Hval]; [lia|].
  destruct (assigned_cmd_value mir) as [v|] eqn:Ev.
  - destruct Hval as (Ho & Hv & Hs & Hk). exists v. split; [by apply copy_value_some|]. rewrite Hs.
    split; [by eapply value_small|]. cbn. split; [done|]. right. by split_and!.
  - destruct Hval as (Ho & Hs & Hk). exists []. unfold copy_value. rewrite Ev, Hs. split; [done|]. split; [done|].
    cbn. split; [done|]. by left.
Qed.

Definition keeps_records a subs acked (_ : unit) (a' : multicaster Q) : Prop :=
  mc_inv cfg a' subs acked ∧ ∀ i, has_record a i → has_record a' i.

Lemma upd_keeps a a' subs acked inst mir mir' new :
  mc_inv cfg a subs acked → upd a a' (inst mod array_size (msm a)) mir' new →
  mir_at (array_size (msm a)) (mirs (msm a)) inst mir → mir_inst mir' = inst →
  mir_ok cfg (array_size (msm a)) (window_of a) subs acked (inst mod array_size (msm a)) mir' →
  Forall (mcast_ok cfg (window_of a) subs acked) new → keeps_records a subs acked tt a'.
Proof.
  intros H U Hat Hi Hok Hnew. split; [|by intros; eapply upd_has_record].
  by destruct (upd_inv _ _ _ _ _ _ _ _ _ H U Hat Hi Hok Hnew).
Qed.

Lemma map_request_body_spec a subs acked i :
  mc_inv cfg a subs acked → has_record a i → wp (map_request_body cfg i) (keeps_records a subs acked) a.
Proof using Hcfg.
  intros H [Hi (mir & Hat)]. pose proof Hat as [Hm Hmi]. unfold map_request_body. wp_steps.
  eapply wp_on_ms_get_present; [done|done|by eapply inv_size|]. wp_steps. eapply wp_on_get_mir; [done|]. wp_steps.
  apply wp_assert; [by apply Z.eqb_eq|]. wp_steps. destruct (timer_is_expired _ _); [|by apply wp_ret].
  destruct (mapping_of_record a subs acked mir) as (v & Hv & Hs & Hmsg); [done|by rewrite Hmi|lia|].
  eapply wp_broadcast_mapping; [done|done|done|]. intros a' d U.
  eapply upd_keeps; [done|exact U|done|done| |by apply Forall_singleton].
  pose proof (to_rec _ _ _ _ _ _ (mi_table _ _ _ _ H) _ _ Hm) as [|]; [lia|]. by apply mir_used.
Qed.

Lemma chosenval_request_body_spec a subs acked i :
  mc_inv cfg a subs acked → has_record a i → wp (chosenval_request_body i) (keeps_records a subs acked) a.
Proof using Hcfg.
  intros H [Hi (mir & Hat)]. pose proof Hat as [Hm Hmi]. unfold chosenval_request_body. wp_steps.
  eapply wp_on_ms_get_present; [done|done|by eapply inv_size|]. wp_steps. eapply wp_on_get_mir; [done|]. wp_steps.
  apply wp_assert; [by apply Z.eqb_eq|]. destruct (decide (mir_status mir = st_done)) as [Hst|Hst];
    [rewrite bool_decide_eq_true_2 by done|rewrite bool_decide_eq_false_2 by done; by apply wp_ret].
  pose proof (to_rec _ _ _ _ _ _ (mi_table _ _ _ _ H) _ _ Hm) as Hok.
  pose proof (done_open _ _ _ _ _ _ _ Hok ltac:(lia) Hst) as Ho.
  destruct (mir_ok_value _ _ _ _ _ _ _ Hok) as (v & _ & _ & _ & Hk); [lia|].
  eapply wp_broadcast_acceptance; [done|done|]. intros a' U.
  eapply upd_keeps; [done|exact U|done|done|done|]. apply Forall_singleton. cbn. split_and!; [lia|done|done|].
  destruct Hok as [|_ _ _ _ Hd _]; [lia|by apply Hd].
Qed.

Lemma requests_spec a subs acked (l : list Z) (body : Z → M (multicaster Q) unit) :
  (∀ a i, mc_inv cfg a subs acked → has_record a i → wp (body i) (keeps_records a subs acked) a) →
  mc_inv cfg a subs acked → Forall (has_record a) l → wp (mfor l body) (λ _ a', mc_inv cfg a' subs acked) a.
Proof.
  intros Hbody H Hl. apply (wp_mfor_inv (λ a', mc_inv cfg a' subs acked ∧ Forall (has_record a') l)); [done| |by intros ? []].
  intros i a1 Hi [H1 Hl1]. eapply wp_mono; [apply Hbody; [done|by eapply list.Forall_forall]|].
  intros _ a2 [H2 Hr]. split; [done|]. by eapply list.Forall_impl.
Qed.

(** *** A value of a client *)

Lemma total_bytes_small subs n : Forall (λ v, cmd_len v ≤ MAX_COMMAND_SIZE) subs →
  total_bytes (value_element <$> drop n subs) ≤ Z.of_nat (length (drop n subs)) * MAX_COMMAND_SIZE.
Proof.
  intros H. assert (Forall (λ v, cmd_len v ≤ MAX_COMMAND_SIZE) (drop n subs)) as Hd by (by apply Forall_drop).
  induction Hd as [|v l Hv _ IH]; [done|]. rewrite fmap_cons, total_bytes_cons. cbn [length value_element size]. lia.
Qed.

(** The value is the last of the queue, unless the queue is full. *)
Lemma value_submit_spec a subs acked (v : list byte) :
  mc_inv cfg a subs acked → cmd_len v ≤ MAX_COMMAND_SIZE →
  wp (client_values_mngr_handle_data (MSubmit v) (ring_msg_size (MSubmit v)))
    (λ _ a', mc_inv cfg a' (subs ++ [v]) acked ∨ mc_inv cfg a' subs acked) a.
Proof.
  intros H Hv. pose proof H as [T Hsz Hact Hready Hmax Hb Hseq Hq Hsubs Hacked Hsmall Hlog].
  unfold client_values_mngr_handle_data, mcaster_handle_value_submit, cvm_save_value, on_cvm, on_msm.
  wp_steps. apply wp_assert; [by apply Z.eqb_eq|]. wp_steps.
  pose proof (d_len _ _ _ Hq) as Hlen. rewrite length_fmap in Hlen.
  destruct (Z.lt_ge_cases (Z.of_nat (length (drop (Z.to_nat (highest_open_iid a)) subs))) client_queue_length) as [Hlt|Hge].
  - eapply wp_mono; [eapply d_append_law; [exact Hq|cbn; unfold cmd_len; lia|by rewrite length_fmap|]|].
    { pose proof (total_bytes_small subs (Z.to_nat (highest_open_iid a)) Hsmall) as Hbytes. cbn [size].
      assert (client_queue_length * MAX_COMMAND_SIZE ≤ MAX_QUEUE_SIZE_BYTES) as Hroom by (by vm_compute).
      assert (0 ≤ MAX_COMMAND_SIZE) as Hpos by (by vm_compute). nia. }
    intros b q [-> Hq']. wp_steps. left.
    assert (∀ i u, value_of subs i = Some u → value_of (subs ++ [v]) i = Some u) as Hmono.
    { intros i u Hi. unfold value_of in *. by apply lookup_app_l_Some. }
    constructor; cbn; try done.
    + destruct T as [T1 T2 T3 T4 T5]. constructor; try done. intros k mir Hk.
      destruct (T4 _ _ Hk) as [|Hr Hmod Hst Hbal Hd Hval]; [by apply mir_unused|apply mir_used; try done].
      destruct (assigned_cmd_value mir); [|done]. destruct Hval as (? & ? & ? & ?). by split_and!; [|apply Hmono| |].
    + rewrite drop_app_le by lia. by rewrite fmap_app.
    + rewrite length_app. lia.
    + apply Forall_app_2; [done|by apply Forall_singleton].
    + eapply list.Forall_impl; [exact Hlog|]. intros msg. destruct msg; cbn; try done.
      intros (? & [?|(? & ? & ?)]); (split; [done|]); [by left|right]. split_and!; [done..|by apply Hmono].
  - eapply wp_mono; [eapply d_append_full_law; [exact Hq|rewrite length_fmap; lia]|].
    intros b q [-> Hq']. wp_steps. right. by constructor.
Qed.
End requests.

(** ** Runs *)

(** What wakes the multicaster up: its timer, with the clock at three moments,
    data of its predecessor (which sets the clock), a message of its predecessor,
    or a message of a client.  The key is the memory that the message of
    [mcaster_do_phase1] is made of. *)
Inductive mc_event :=
  | EvClock (t : timeval)
  | EvTick (junk_key : command_id) (t1 t2 t3 : timeval)
  | EvRing (junk_key : command_id) (msg : ring_msg)
  | EvClient (msg : ring_msg).

Implicit Types (ev : mc_event) (evs : list mc_event).

Section runs.
Context {Q : Type} `{!DequeOps Q (list byte)} (cfg : config_mngr).
Implicit Types (a : multicaster Q).

Definition mc_exec ev : M (multicaster Q) unit :=
  match ev with
  | EvClock t => mcaster_update_wallclock t
  | EvTick junk_key t1 t2 t3 => on_mcaster_periodic_check cfg junk_key t1 t2 t3
  | EvRing junk_key msg => on_predecessor_msg_leader cfg junk_key msg (ring_msg_size msg)
  | EvClient msg => client_values_mngr_handle_data msg (ring_msg_size msg)
  end.

(** The events that do not stop the multicaster: the instance numbers fit in 32
    bits, a message of the ring is about instances that were opened, and a value
    fits in a message. *)
Definition event_ok a ev : Prop :=
  match ev with
  | EvClock _ => True
  | EvTick _ _ _ _ => p1_highest_open a + preexecution_window_size cfg < 2 ^ 32 - 1
  | EvRing _ msg => ring_msg_ok cfg a msg
  | EvClient (MSubmit v) => cmd_len v ≤ MAX_COMMAND_SIZE
  | EvClient _ => True
  end.

Fixpoint run_safe evs a : Prop :=
  match evs with
  | [] => True
  | ev :: evs => event_ok a ev ∧ wp (mc_exec ev) (λ _, run_safe evs) a
  end.

(** The values of the clients, in order. *)
Definition client_values evs : list (list byte) :=
  omap (λ ev, match ev with EvClient (MSubmit v) => Some v | _ => None end) evs.

(** A message with a quorum of accepts came back. *)
Definition acked_by evs i : Prop :=
  ∃ junk m, EvRing junk (MPhase2 m) ∈ evs ∧ p2_inst m = i ∧ quorum_size cfg ≤ p2_accepts_count m.
End runs.

Section correctness.
Context {Q : Type} `{!DequeOps Q (list byte), !Deque Q (list byte)} (cfg : config_mngr).
Context (Hcfg : config_ok cfg) (Hleader : am_i_leader cfg = true).
Implicit Types (a : multicaster Q).

Lemma leader_id : 1 ≤ self_acceptor_id cfg < 2 ^ 8.
Proof using Hleader. apply Z.eqb_eq in Hleader. lia. Qed.

Lemma multicaster_init_spec : working_set_size cfg < 2 ^ 30 →
  ∃ a, multicaster_init cfg = Some a ∧ mc_inv cfg a [] (λ _, False) ∧ mcast_sent a = [].
Proof using Hcfg.
  intros Hsmall. destruct (d_init_law client_queue_length) as (q & Hq & Hrep); [by unfold client_queue_length|].
  pose proof (cfg_bounds _ Hcfg) as (HW & HA & Hroom).
  unfold multicaster_init, client_values_mngr_init_queue. rewrite Hq. unfold mcaster_storage_init.
  assert (in_int (working_set_size cfg * 2) = true) as -> by (unfold in_int; apply andb_true_intro; split; [apply Z.leb_le|apply Z.ltb_lt]; lia).
  eexists. split; [reflexivity|]. split; [|done]. constructor; cbn; try done; try lia.
  - constructor; cbn; [lia|lia|rewrite length_replicate; lia| |intros; lia].
    intros k mir ->%arr_get_replicate_inv. by apply mir_unused.
Qed.

(** One event. *)
Lemma mc_exec_spec a subs acked ev :
  mc_inv cfg a subs acked → event_ok cfg a ev →
  wp (mc_exec cfg ev) (λ _ a', ∃ vs, vs `sublist_of` client_values [ev] ∧
    mc_inv cfg a' (subs ++ vs) (λ i, acked i ∨ acked_by cfg [ev] i)) a.
Proof using Hcfg Hleader.
  pose proof leader_id as Hself. intros H Hok.
  assert (∀ a', mc_inv cfg a' subs acked → ∃ vs, vs `sublist_of` client_values [ev] ∧
    mc_inv cfg a' (subs ++ vs) (λ i, acked i ∨ acked_by cfg [ev] i)) as Hsame.
  { intros a' H'. exists []. split; [apply sublist_nil_l|]. rewrite app_nil_r.
    eapply acked_mono; [exact H'|by left]. }
  assert (wp (mret tt) (λ _ a', mc_inv cfg a' subs acked) a) as Hskip by (by apply wp_ret).
  destruct ev as [t|junk t1 t2 t3|junk msg|msg]; cbn in Hok |- *.
  - unfold mcaster_update_wallclock. wp_steps. by apply Hsame, clock_inv.
  - eapply wp_mono; [by apply periodic_check_spec|]. intros []. exact Hsame.
  - destruct msg as [m|m|m|m|m|l|l|v]; unfold on_predecessor_msg_leader;
      try (eapply wp_mono; [exact Hskip|intros []; exact Hsame]).
    + eapply wp_mono; [by apply phase1_msg_spec|]. intros []. exact Hsame.
    + eapply wp_mono; [by apply phase1_range_msg_spec|]. intros []. exact Hsame.
    + eapply wp_mono; [by apply phase2_msg_spec|]. intros [] a' H'. exists []. split; [apply sublist_nil_l|].
      rewrite app_nil_r. eapply acked_mono; [exact H'|]. intros i [Hi|[Hq ->]]; [by left|right].
      exists junk, m. split_and!; [by left|done|done].
    + apply (wp_mono _ (λ _ a', mc_inv cfg a' subs acked)); [|intros []; exact Hsame]. unfold mcaster_handle_map_request. wp_steps.
      apply wp_assert; [by apply Z.eqb_eq|]. apply requests_spec; [|done|done]. intros. by apply map_request_body_spec.
    + apply (wp_mono _ (λ _ a', mc_inv cfg a' subs acked)); [|intros []; exact Hsame]. unfold mcaster_handle_chosenval_request. wp_steps.
      apply wp_assert; [by apply Z.eqb_eq|]. apply requests_spec; [|done|done]. intros. by apply chosenval_request_body_spec.
  - destruct msg; try (eapply wp_mono; [exact Hskip|intros []; exact Hsame]).
    eapply wp_mono; [by apply value_submit_spec|]. intros [] a' [H'|H']; [|by apply Hsame].
    eexists [_]. split; [reflexivity|]. eapply acked_mono; [exact H'|by left].
Qed.

Lemma client_values_app evs evs' : client_values (evs ++ evs') = client_values evs ++ client_values evs'.
Proof. apply omap_app. Qed.

Lemma acked_by_app evs evs' i : acked_by cfg evs i ∨ acked_by cfg evs' i → acked_by cfg (evs ++ evs') i.
Proof.
  unfold acked_by. intros [(j & m & ? & ?)|(j & m & ? & ?)]; exists j, m; (split; [rewrite elem_of_app; tauto|done]).
Qed.

Lemma mc_run_spec evs past a subs :
  mc_inv cfg a subs (acked_by cfg past) → subs `sublist_of` client_values past → run_safe cfg evs a →
  wp (mfor evs (mc_exec cfg)) (λ _ a', ∃ subs', subs' `sublist_of` client_values (past ++ evs) ∧
    mc_inv cfg a' subs' (acked_by cfg (past ++ evs))) a.
Proof using Hcfg Hleader.
  revert past a subs. induction evs as [|ev evs IH]; intros past a subs H Hsub Hsafe; cbn [mfor].
  - apply wp_ret. exists subs. by rewrite app_nil_r.
  - destruct Hsafe as [Hok Hsafe]. apply wp_bind. eapply wp_mono; [apply wp_and; [by apply mc_exec_spec|exact Hsafe]|].
    intros [] a' [(vs & Hvs & H') Hsafe']. change (ev :: evs) with ([ev] ++ evs). rewrite app_assoc.
    eapply IH; [|rewrite client_values_app; by apply sublist_app|done].
    eapply acked_mono; [exact H'|]. intros i. apply acked_by_app.
Qed.

(** A safe run from the initial state ends, in a state that satisfies the invariant. *)
Lemma mc_run_inv evs a0 : working_set_size cfg < 2 ^ 30 → multicaster_init cfg = Some a0 → run_safe cfg evs a0 →
  ∃ a subs, mfor evs (mc_exec cfg) a0 = Some (tt, a) ∧ subs `sublist_of` client_values evs ∧
    mc_inv cfg a subs (acked_by cfg evs).
Proof using Hcfg Hleader.
  intros Hs E Hsafe. destruct (multicaster_init_spec Hs) as (a0' & E' & H & _). rewrite E in E'. injection E' as <-.
  destruct (wp_total _ _ _ (mc_run_spec evs [] a0 [] ltac:(by eapply acked_mono; [exact H|]) ltac:(apply sublist_nil_l) Hsafe))
    as ([] & a & Hrun & subs & Hsub & Hinv).
  by exists a, subs.
Qed.
End correctness.


(** ** What the multicaster does wrong *)

Section errors.
Context {Q : Type} `{!DequeOps Q (list byte), !Deque Q (list byte)} (cfg : config_mngr).
Implicit Types (a : multicaster Q).

(** C37. What the acceptors report about their accepted values makes no difference:
    the value that an earlier ballot may have chosen is dropped, and the
    instance later gets a value of this multicaster. *)
Theorem promised_value_ignored a subs acked junk (m : phase1_msg) b key v :
  config_ok cfg → am_i_leader cfg = true → mc_inv cfg a subs acked → ring_msg_ok cfg a (MPhase1 m) →
  on_predecessor_msg_leader cfg junk (MPhase1 m) (PH1_MSG_SIZE m) a =
  (let m' := m <| p1_highest_accepted_ballot := b |> <| p1_key := key |> <| p1_value := v |> in
   on_predecessor_msg_leader cfg junk (MPhase1 m') (PH1_MSG_SIZE m') a).
Proof.
  intros Hcfg Hl H Hmsg. cbv zeta. set (m' := m <| p1_highest_accepted_ballot := b |> <| p1_key := key |> <| p1_value := v |>).
  unfold on_predecessor_msg_leader, mcaster_handle_phase1_msg.
  unfold mbind, M_bind, c_assert, get. rewrite !Z.eqb_refl.
  change (p1_inst m') with (p1_inst m). change (p1_ballot m') with (p1_ballot m).
  destruct (Z.leb_spec (p1_inst m) (highest_closed_iid a)); [done|].
  destruct (is_my_ballot _ _ _) eqn:Emine; cbn [negb]; [|done]. destruct (Hmsg Emine) as [Hle Hu].
  destruct (inv_record _ _ _ _ (p1_inst m) H) as (mir & Hat & Hok); [lia|].
  pose proof (to_counts _ _ _ _ _ _ (mi_table _ _ _ _ H)) as Hc. cbn in Hc.
  assert (on_msm (mcaster_storage_get (p1_inst m)) a = Some (p1_inst m mod array_size (msm a), a)) as ->.
  { apply wp_exact. eapply wp_on_ms_get_present; [done|lia|by eapply inv_size|done]. }
  assert (on_msm (get_mir (p1_inst m mod array_size (msm a))) a = Some (mir, a)) as ->.
  { apply wp_exact. eapply wp_on_get_mir; [apply Hat|done]. }
  rewrite (proj2 Hat), Z.eqb_refl. case_bool_decide as Hst; cbn [negb]; [|done].
  destruct (mir_ballot mir =? p1_ballot m); cbn [negb]; [|done].
  destruct (p1_pending_no_value _ _ _ _ _ _ _ Hok) as [_ ->]; [rewrite (proj2 Hat); lia|cbn; lia|done|].
  by rewrite bool_decide_eq_true_2 by done.
Qed.

(** The record of an instance of the window, read. *)
Lemma read_record a subs acked i : config_ok cfg → mc_inv cfg a subs acked → highest_closed_iid a < i ≤ p1_highest_open a →
  ∃ mir, mir_at (array_size (msm a)) (mirs (msm a)) i mir ∧
    on_msm (mcaster_storage_get i) a = Some (i mod array_size (msm a), a) ∧
    on_msm (get_mir (i mod array_size (msm a))) a = Some (mir, a).
Proof.
  intros Hcfg H Hi. destruct (inv_record _ _ _ _ i H Hi) as (mir & Hat & Hok). exists mir. split; [done|].
  pose proof (to_counts _ _ _ _ _ _ (mi_table _ _ _ _ H)) as Hc. cbn in Hc.
  split; apply wp_exact; [eapply wp_on_ms_get_present|eapply wp_on_get_mir]; try done; [lia|by eapply inv_size|apply Hat].
Qed.

Lemma range_done_body_None a subs acked i : config_ok cfg → mc_inv cfg a subs acked →
  highest_closed_iid a < i ≤ p1_highest_open a → ¬ pending_p1 a i → range_done_body i a = None.
Proof.
  intros Hcfg H Hi Hn. destruct (read_record _ _ _ _ Hcfg H Hi) as (mir & Hat & Eg & Er).
  unfold range_done_body, mbind, M_bind, c_assert. rewrite Eg, Er, (bool_decide_eq_false_2 (mir_status mir = _)).
  - by rewrite andb_false_r.
  - intros Hst. apply Hn. by exists mir.
Qed.

Lemma pending_p1_dec a subs acked i : config_ok cfg → mc_inv cfg a subs acked →
  highest_closed_iid a < i ≤ p1_highest_open a → pending_p1 a i ∨ ¬ pending_p1 a i.
Proof.
  intros Hcfg H Hi. destruct (read_record _ _ _ _ Hcfg H Hi) as (mir & Hat & _ & _).
  destruct (decide (mir_status mir = st_p1_pending)) as [Hst|Hst]; [left; by exists mir|right].
  intros (mir' & Hat' & Hst'). destruct Hat, Hat'. congruence.
Qed.

Lemma pending_all a subs acked l : config_ok cfg → mc_inv cfg a subs acked →
  Forall (λ i, highest_closed_iid a < i ≤ p1_highest_open a) l →
  Forall (pending_p1 a) l ∨ Exists (λ i, ¬ pending_p1 a i) l.
Proof.
  intros Hcfg H Hl. induction Hl as [|i l Hi _ [IH|IH]]; [by left| |right; by right].
  destruct (pending_p1_dec a subs acked i) as [Hp|Hp]; [done..|left; by constructor|right; by left].
Qed.

(** When a range message of phase 1 stops the multicaster: when an instance of
    the range is closed, and, with a quorum of promises, when phase 1 of one of
    them is complete already. *)
Theorem range_msg_aborts_iff a subs acked junk (m : phase1_range_msg) :
  config_ok cfg → am_i_leader cfg = true → mc_inv cfg a subs acked →
  is_my_ballot (pr_ballot m) (self_acceptor_id cfg) incarnation_number = true →
  0 ≤ pr_from m ≤ pr_to m → pr_to m ≤ p1_highest_open a →
  on_predecessor_msg_leader cfg junk (MPhase1Range m) sizeof_phase1_range_msg a = None ↔
  pr_from m ≤ highest_closed_iid a ∨
  (quorum_size cfg ≤ pr_promises_count m ∧ ∃ i, pr_from m ≤ i ≤ pr_to m ∧ ¬ pending_p1 a i).
Proof.
  intros Hcfg Hl H Hmine Hr Hto. pose proof (leader_id _ Hl) as Hself.
  pose proof (mi_bound _ _ _ _ H) as Hb.
  destruct (Z.le_gt_cases (pr_from m) (highest_closed_iid a)) as [Hle|Hgt].
  { split; [by left|intros _]. unfold on_predecessor_msg_leader, mcaster_handle_phase1_range_msg, mbind, M_bind, c_assert, get.
    rewrite Z.eqb_refl, Hmine. cbn [negb]. by rewrite (proj2 (Z.ltb_ge _ _) Hle). }
  split.
  - intros Hnone. right. assert (¬ ring_msg_ok cfg a (MPhase1Range m)) as Hbad.
    { intros Hok. pose proof (phase1_range_msg_spec cfg Hcfg Hself a subs acked m H Hok) as Hwp.
      unfold on_predecessor_msg_leader in Hnone. unfold wp in Hwp. by rewrite Hnone in Hwp. }
    destruct (Z.le_gt_cases (quorum_size cfg) (pr_promises_count m)) as [Hq|Hq].
    + split; [done|]. destruct (pending_all a subs acked (range (pr_from m) (pr_to m))) as [Hall|Hex]; [done|done| | |].
      * apply list.Forall_forall. intros i Hi%elem_of_range. lia.
      * contradict Hbad. intros _. split_and!; [lia..|]. intros _ i Hi.
        eapply list.Forall_forall; [exact Hall|by apply elem_of_range].
      * apply list.Exists_exists in Hex as (i & Hi%elem_of_range & Hn). by exists i.
    + contradict Hbad. intros _. split_and!; lia.
  - intros [|(Hq & i & Hi & Hni)]; [lia|].
    unfold on_predecessor_msg_leader, mcaster_handle_phase1_range_msg. apply wp_bind_None, wp_assert; [done|].
    rewrite Hmine. cbn [negb]. apply wp_bind_None, wp_get, wp_bind_None, wp_assert; [by apply Z.ltb_lt|].
    destruct (Z.ltb_spec (pr_promises_count m) (quorum_size cfg)); [lia|]. cbv zeta.
    pose proof (mi_ready _ _ _ _ H) as Hready. pose proof (to_counts _ _ _ _ _ _ (mi_table _ _ _ _ H)) as Hc. cbn in Hc.
    do 2 apply wp_bind_None, wp_modify. cbn. rewrite ready_recount by (unfold in_u; lia).
    unfold for_le_u32. rewrite decide_False by lia. rewrite wrap_small by lia.
    set (a0 := mk_multicaster _ _ _ _ _ _ _ _). assert (a0 = a) as -> by by destruct a.
    apply (mfor_None (λ a', mc_inv_w cfg (window_of a) subs acked a' ∧ ¬ pending_p1 a' i) _ _ i);
      [by apply elem_of_range|done| |].
    + intros a' [[H' Hw] Hni']. injection Hw as W1 W2 W3. eapply range_done_body_None; [done..|lia|done].
    + intros j a' [Hj1 Hj2]%elem_of_range [[H' Hw] Hni']. pose proof Hw as Hw'. injection Hw as W1 W2 W3.
      destruct (pending_p1_dec a' subs acked j) as [Hp|Hp]; [done..|lia| |].
      * right. assert (j ≠ i) as Hji by congruence.
        eapply wp_mono; [apply range_done_body_spec with (subs := subs) (acked := acked); [done..|lia|done]|].
        intros [] a2 [[H2 Hw2] Hp2]. split; [split; [done|congruence]|]. by rewrite <-Hp2 by done.
      * left. eapply range_done_body_None; [done..|lia|done].
Qed.
End errors.

(** ** Concrete runs *)

(** A small working set, with the intervals of the cluster's configuration. *)
Definition small_cfg : config_mngr :=
  ((cluster_cfg <| working_set_size := 4 |>) <| max_active_instances := 1 |>) <| preexecution_window_size := 2 |>.

Lemma small_cfg_ok : config_ok small_cfg.
Proof. constructor; vm_compute; congruence. Qed.

Definition first_ballot : Z := make_first_ballot 1 incarnation_number.
Definition at_ms (n : Z) : timeval := mk_timeval 0 (n * 1000).

(** One value of a client, from its arrival to the acceptance. *)
Definition one_value_run : list mc_event :=
  [EvTick clear_cmd_key (at_ms 0) (at_ms 0) (at_ms 0);
   EvRing clear_cmd_key (MPhase1Range (mk_phase1_range_msg 1 2 first_ballot 2));
   EvClient (MSubmit [x01; x02]);
   EvTick clear_cmd_key (at_ms 1) (at_ms 1) (at_ms 1);
   EvRing clear_cmd_key (MPhase2 (mk_phase2_msg 1 first_ballot 2 (key_of small_cfg 1)))].

Abbreviation client_queue := (lpqueue (list byte)).

Definition run_from_init cfg evs : option (multicaster client_queue) :=
  a0 ← multicaster_init cfg; snd <$> mfor evs (mc_exec cfg) a0.

Example one_value_sent :
  mcast_sent <$> run_from_init small_cfg one_value_run =
  Some [MCmdmap (mk_cmdmap_msg 1 (key_of small_cfg 1) [x01; x02]);
        MPhase2 (mk_phase2_msg 1 first_ballot 0 (key_of small_cfg 1));
        MAcceptance (mk_acceptance_msg 1 (key_of small_cfg 1))].
Proof. vm_compute. reflexivity. Qed.

Lemma run_safe_step {Q} `{!DequeOps Q (list byte)} cfg ev evs (a a' : multicaster Q) :
  event_ok cfg a ev → mc_exec cfg ev a = Some (tt, a') → run_safe cfg evs a' → run_safe cfg (ev :: evs) a.
Proof. intros Hok E Hs. split; [done|]. unfold wp. by rewrite E. Qed.

(** Computes the next state of a concrete run. *)
Ltac run_step := eapply run_safe_step; [|vm_compute; reflexivity|].

Lemma one_value_safe (a0 : multicaster client_queue) :
  multicaster_init small_cfg = Some a0 → run_safe small_cfg one_value_run a0.
Proof.
  intros E. vm_compute in E. injection E as <-. unfold one_value_run.
  run_step; [by vm_compute|]. run_step.
  { intros _. split_and!; [by vm_compute..|]. intros _ i Hi. cbn in Hi.
    assert (i = 1 ∨ i = 2) as [->| ->] by lia; eexists; (split; [split; reflexivity|reflexivity]). }
  run_step; [by vm_compute|]. run_step; [by vm_compute|]. run_step; [by vm_compute|]. done.
Qed.


(** The first instance was accepted with another command, at a ballot of
    acceptor 2; phase 1 reports it, and phase 2 is executed with a value of this
    multicaster's clients. *)
Definition promise_with_value (b : Z) (key : command_id) (v : list byte) : phase1_msg :=
  mk_phase1_msg 1 first_ballot 2 b 0 key v.

Definition opened_one : list mc_event :=
  [EvTick clear_cmd_key (at_ms 0) (at_ms 0) (at_ms 0)].


(** The state after [evs] satisfies the invariant. *)
Lemma reached_inv evs (a : multicaster client_queue) :
  (∀ a0 : multicaster client_queue, multicaster_init small_cfg = Some a0 → run_safe small_cfg evs a0) →
  run_from_init small_cfg evs = Some a →
  ∃ subs, mc_inv small_cfg a subs (acked_by small_cfg evs).
Proof.
  intros Hsafe Hrun. unfold run_from_init in Hrun. destruct (multicaster_init small_cfg) as [a0|] eqn:E; [|done].
  destruct (mc_run_inv small_cfg small_cfg_ok ltac:(by vm_compute) evs a0 ltac:(by vm_compute) E (Hsafe a0 eq_refl))
    as (a' & subs & Hrun' & _ & Hinv).
  change (snd <$> mfor evs (mc_exec small_cfg) a0 = Some a) in Hrun. rewrite Hrun' in Hrun. injection Hrun as <-.
  by exists subs.
Qed.

Lemma opened_one_safe (a0 : multicaster client_queue) : multicaster_init small_cfg = Some a0 → run_safe small_cfg opened_one a0.
Proof. intros E. vm_compute in E. injection E as <-. run_step; [by vm_compute|]. done. Qed.

Lemma promised_value_ignored_witness :
  ∃ a : multicaster client_queue, run_from_init small_cfg opened_one = Some a ∧
    let lost := promise_with_value 66048 (mk_command_id 2 0 1) [x07] in
    let nothing := promise_with_value 0 clear_cmd_key [] in
    on_predecessor_msg_leader small_cfg clear_cmd_key (MPhase1 lost) (PH1_MSG_SIZE lost) a =
    on_predecessor_msg_leader small_cfg clear_cmd_key (MPhase1 nothing) (PH1_MSG_SIZE nothing) a.
Proof.
  destruct (run_from_init small_cfg opened_one) as [a|] eqn:E; [|by vm_compute in E].
  exists a. split; [done|]. destruct (reached_inv _ _ opened_one_safe E) as [subs H].
  apply (promised_value_ignored small_cfg a subs (acked_by small_cfg opened_one) clear_cmd_key (promise_with_value 66048 (mk_command_id 2 0 1) [x07])
    0 clear_cmd_key []); [exact small_cfg_ok|by vm_compute|exact H|].
  intros _. vm_compute in E. injection E as <-. by vm_compute.
Defined.

(** Its consequence: acceptor 2 had [x07] accepted for instance 1, and the
    multicaster sends [x01] for it. *)
Example promised_value_lost :
  mcast_sent <$> run_from_init small_cfg (opened_one ++
    [EvRing clear_cmd_key (MPhase1 (promise_with_value 66048 (mk_command_id 2 0 1) [x07]));
     EvClient (MSubmit [x01]);
     EvTick clear_cmd_key (at_ms 1) (at_ms 1) (at_ms 1)]) =
  Some [MCmdmap (mk_cmdmap_msg 1 (key_of small_cfg 1) [x01]);
        MPhase2 (mk_phase2_msg 1 first_ballot 0 (key_of small_cfg 1))].
Proof. vm_compute. reflexivity. Qed.

(** Phase 1 times out, is repeated for each instance, and instance 1 completes;
    then the answer to the first message arrives. *)
Definition late_range_run : list mc_event :=
  opened_one ++
  [EvTick clear_cmd_key (at_ms 20) (at_ms 20) (at_ms 20);
   EvRing clear_cmd_key (MPhase1 (promise_with_value 0 clear_cmd_key []))].

Lemma late_range_safe (a0 : multicaster client_queue) :
  multicaster_init small_cfg = Some a0 → run_safe small_cfg late_range_run a0.
Proof.
  intros E. vm_compute in E. injection E as <-. unfold late_range_run, opened_one. cbn [app].
  run_step; [by vm_compute|]. run_step; [by vm_compute|]. run_step; [by vm_compute|]. done.
Qed.

Lemma range_msg_aborts_iff_witness :
  ∃ a : multicaster client_queue, run_from_init small_cfg late_range_run = Some a ∧
    on_predecessor_msg_leader small_cfg clear_cmd_key (MPhase1Range (mk_phase1_range_msg 1 2 first_ballot 2))
      sizeof_phase1_range_msg a = None.
Proof.
  destruct (run_from_init small_cfg late_range_run) as [a|] eqn:E; [|by vm_compute in E].
  exists a. split; [done|]. destruct (reached_inv _ _ late_range_safe E) as [subs H].
  assert (p1_highest_open a = 2 ∧ ¬ pending_p1 a 1) as [Ep Hn].
  { vm_compute in E. injection E as <-. split; [done|]. intros (mir & [Hm _] & Hst). vm_compute in Hm. by injection Hm as <-. }
  clear E. refine (proj2 (range_msg_aborts_iff small_cfg a subs (acked_by small_cfg late_range_run) clear_cmd_key
    (mk_phase1_range_msg 1 2 first_ballot 2) small_cfg_ok eq_refl H eq_refl _ _) _); [done|by rewrite Ep|].
  right. split; [by vm_compute|]. by exists 1.
Defined.
