(* ===== verification/RingUdp.v ===== *)
(** * The UDP senders and receivers of RingPaxos

    [ring_paxos/lib/network_udp.c] with [lp_network.h].  A sender collects
    messages, each behind a header with its size and type, in the buffer of one
    packet; a receiver calls back for every message of a packet.  The buffers
    are explicit, so that an access beyond their end has no result.

    The system calls are parameters: what the [n]-th [send] returns for a number
    of bytes ([send_result]), whether creating and connecting a socket succeeds,
    and the datagram that [recvfrom] reads ([None] for an error).  The bytes given
    to [send] are recorded in [attempts], the calls of the callbacks in
    [recv_log]. *)
From Stdlib Require Import Init.Byte String.
From Equations Require Import Equations.
From S2P Require Import Prelude Bytes Timers RingMessages.

Definition MAX_UDP_PAYLOAD : Z := 9000 - 12.

(** [lp_message_header]: [size] at 0, [type] at 4, [data] at 8. *)
Definition sizeof_lp_message_header : Z := 8.

(** ** Statistics *)

Record udp_stats := mk_udp_stats {
  st_bytes : Z;             (* unsigned long *)
  st_msgs : Z;
  st_tot_msgs : Z;
  st_last_print_time : Z    (* int *)
}.

(** The printed line: Mbit/s, seconds and kbytes per packet. *)
Definition print_stats (current_time : Z) (st : udp_stats) : option (Z * Z * Z) * udp_stats :=
  let elapsed_time := current_time - st_last_print_time st in
  if (elapsed_time =? 0) || (st_msgs st =? 0) then (None, st)
  else
    let Mbps := u64 (st_bytes st * 8) / (1024 * 1024) / u64 elapsed_time in
    let avg_pack_size_kb := st_bytes st / 1024 / st_msgs st in
    (Some (Mbps, elapsed_time, avg_pack_size_kb),
     mk_udp_stats 0 0 (u64 (st_tot_msgs st + st_msgs st)) current_time).

Definition count_packet (bytes : Z) (st : udp_stats) : udp_stats :=
  mk_udp_stats (u64 (st_bytes st + bytes)) (u64 (st_msgs st + 1)) (st_tot_msgs st) (st_last_print_time st).

(** ** The sender *)

Record udp_sender := mk_udp_sender {
  us_multicast : bool;
  us_ip : string;
  us_port : Z;
  send_buf : list byte;              (* send_buf_size bytes *)
  current_buf_size : Z;              (* int *)
  autoflush_event : option timeval;  (* the interval of the periodic event *)
  us_stats : udp_stats;
  sends : nat;                       (* the number of calls of send *)
  attempts : list (list byte * Z)    (* their bytes and results *)
}.

#[export] Instance set_us_multicast : Setter us_multicast := λ g r,
  mk_udp_sender (g (us_multicast r)) (us_ip r) (us_port r) (send_buf r) (current_buf_size r) (autoflush_event r) (us_stats r) (sends r) (attempts r).
#[global] Arguments set_us_multicast _ _ /.
#[export] Instance set_send_buf : Setter send_buf := λ g r,
  mk_udp_sender (us_multicast r) (us_ip r) (us_port r) (g (send_buf r)) (current_buf_size r) (autoflush_event r) (us_stats r) (sends r) (attempts r).
#[global] Arguments set_send_buf _ _ /.
#[export] Instance set_current_buf_size : Setter current_buf_size := λ g r,
  mk_udp_sender (us_multicast r) (us_ip r) (us_port r) (send_buf r) (g (current_buf_size r)) (autoflush_event r) (us_stats r) (sends r) (attempts r).
#[global] Arguments set_current_buf_size _ _ /.
#[export] Instance set_autoflush_event : Setter autoflush_event := λ g r,
  mk_udp_sender (us_multicast r) (us_ip r) (us_port r) (send_buf r) (current_buf_size r) (g (autoflush_event r)) (us_stats r) (sends r) (attempts r).
#[global] Arguments set_autoflush_event _ _ /.
#[export] Instance set_us_stats : Setter us_stats := λ g r,
  mk_udp_sender (us_multicast r) (us_ip r) (us_port r) (send_buf r) (current_buf_size r) (autoflush_event r) (g (us_stats r)) (sends r) (attempts r).
#[global] Arguments set_us_stats _ _ /.
#[export] Instance set_sends : Setter sends := λ g r,
  mk_udp_sender (us_multicast r) (us_ip r) (us_port r) (send_buf r) (current_buf_size r) (autoflush_event r) (us_stats r) (g (sends r)) (attempts r).
#[global] Arguments set_sends _ _ /.
#[export] Instance set_attempts : Setter attempts := λ g r,
  mk_udp_sender (us_multicast r) (us_ip r) (us_port r) (send_buf r) (current_buf_size r) (autoflush_event r) (us_stats r) (sends r) (g (attempts r)).
#[global] Arguments set_attempts _ _ /.

(** [NULL] for a malformed address and when a system call fails.  The assertion
    on the sizes is about constants. *)
Definition udp_sender_init (inet_addr_ok : string → bool) (socket_ok connect_ok : bool) (now : Z)
    (addr_str : string) (port : Z) : option udp_sender :=
  let len := Z.of_nat (String.length addr_str) in
  if (16 <=? len) || (len <? 7) then None
  else if negb socket_ok then None
  else if negb (inet_addr_ok addr_str) then None
  else if negb connect_ok then None
  else Some (mk_udp_sender false addr_str port (replicate (Z.to_nat MAX_UDP_PAYLOAD) x00) 0 None
               (mk_udp_stats 0 0 0 now) 0 []).

Definition mcast_sender_init (inet_addr_ok : string → bool) (socket_ok connect_ok setsockopt_ok : bool) (now : Z)
    (addr_str : string) (port : Z) : option udp_sender :=
  us ← udp_sender_init inet_addr_ok socket_ok connect_ok now addr_str port;
  if setsockopt_ok then Some (us <| us_multicast := true |>) else None.

(** Stores bytes into a buffer. *)
Definition buf_write (off : Z) (bs buf : list byte) : option (list byte) :=
  if decide (0 ≤ off ∧ off + blen bs ≤ blen buf)
  then Some (take (Z.to_nat off) buf ++ bs ++ drop (Z.to_nat (off + blen bs)) buf)
  else None.

Definition write_send_buf (off : Z) (bs : list byte) : M udp_sender unit :=
  us ← get; buf ← lift_opt (buf_write off bs (send_buf us)); modify (λ us, us <| send_buf := buf |>).

Section sender.
Context (send_result : nat → Z → Z).

Definition udp_sender_force_flush : M udp_sender Z :=
  us ← get;
  c_assert (current_buf_size us <=? MAX_UDP_PAYLOAD);;
  if current_buf_size us =? 0 then mret 0
  else
    let data_sent := send_result (sends us) (current_buf_size us) in
    modify (λ us, us <| sends := S (sends us) |>
      <| attempts := attempts us ++ [(take (Z.to_nat (current_buf_size us)) (send_buf us), data_sent)] |>);;
    if data_sent <? 0 then modify (λ us, us <| current_buf_size := 0 |>);; mret 1
    else
      modify (λ us, us <| us_stats ::= count_packet data_sent |>);;
      c_assert (data_sent =? current_buf_size us);;
      modify (λ us, us <| current_buf_size := 0 |>);;
      mret 0.

(** The header and the data of a message. *)
Definition write_message (destination : Z) (data : list byte) (type : Z) : M udp_sender unit :=
  write_send_buf destination (le_split 2 (blen data));;
  write_send_buf (destination + 4) (le_split 4 type);;
  write_send_buf (destination + sizeof_lp_message_header) data.

(** [data] is the [size] bytes that are sent. *)
Definition net_send_udp (data : list byte) (type : Z) : M udp_sender unit :=
  let size := blen data in
  if MAX_MESSAGE_SIZE <? size then mret tt
  else
    let total_size := size + sizeof_lp_message_header in
    us ← get;
    (if MAX_MESSAGE_SIZE <? current_buf_size us + total_size then _ ← udp_sender_force_flush; mret tt else mret tt);;
    us ← get;
    let destination := current_buf_size us in
    write_message destination data type;;
    modify (λ us, us <| current_buf_size := current_buf_size us + total_size |>);;
    us ← get;
    if MAX_MESSAGE_SIZE - current_buf_size us <=? sizeof_lp_message_header
    then _ ← udp_sender_force_flush; mret tt else mret tt.

Definition udp_autoflush_cb : M udp_sender unit := _ ← udp_sender_force_flush; mret tt.
End sender.

Definition udp_sender_enable_autoflush (milliseconds : Z) (us : udp_sender) : udp_sender :=
  us <| autoflush_event := Some (mk_timeval (milliseconds / 1000) (milliseconds mod 1000 * 1000)) |>.

Definition udp_sender_print_stats (current_time : Z) (us : udp_sender) : option (Z * Z * Z) * udp_sender :=
  let '(line, st) := print_stats current_time (us_stats us) in (line, us <| us_stats := st |>).

(** ** The receiver *)

(** The calls of the callbacks. *)
Inductive recv_event :=
  | PreRecv | PostRecv | PostDeliver
  | Message (type : Z) (data : list byte).

Record udp_receiver := mk_udp_receiver {
  ur_multicast : bool;
  ur_ip : string;
  ur_port : Z;
  recv_buf : list byte;
  pre_recv_cb : bool;      (* whether the callback is set *)
  post_recv_cb : bool;
  post_dlvr_cb : bool;
  ur_stats : udp_stats;
  recv_log : list recv_event
}.

#[export] Instance set_ur_multicast : Setter ur_multicast := λ g r,
  mk_udp_receiver (g (ur_multicast r)) (ur_ip r) (ur_port r) (recv_buf r) (pre_recv_cb r) (post_recv_cb r) (post_dlvr_cb r) (ur_stats r) (recv_log r).
#[global] Arguments set_ur_multicast _ _ /.
#[export] Instance set_recv_buf : Setter recv_buf := λ g r,
  mk_udp_receiver (ur_multicast r) (ur_ip r) (ur_port r) (g (recv_buf r)) (pre_recv_cb r) (post_recv_cb r) (post_dlvr_cb r) (ur_stats r) (recv_log r).
#[global] Arguments set_recv_buf _ _ /.
#[export] Instance set_pre_recv_cb : Setter pre_recv_cb := λ g r,
  mk_udp_receiver (ur_multicast r) (ur_ip r) (ur_port r) (recv_buf r) (g (pre_recv_cb r)) (post_recv_cb r) (post_dlvr_cb r) (ur_stats r) (recv_log r).
#[global] Arguments set_pre_recv_cb _ _ /.
#[export] Instance set_post_recv_cb : Setter post_recv_cb := λ g r,
  mk_udp_receiver (ur_multicast r) (ur_ip r) (ur_port r) (recv_buf r) (pre_recv_cb r) (g (post_recv_cb r)) (post_dlvr_cb r) (ur_stats r) (recv_log r).
#[global] Arguments set_post_recv_cb _ _ /.
#[export] Instance set_post_dlvr_cb : Setter post_dlvr_cb := λ g r,
  mk_udp_receiver (ur_multicast r) (ur_ip r) (ur_port r) (recv_buf r) (pre_recv_cb r) (post_recv_cb r) (g (post_dlvr_cb r)) (ur_stats r) (recv_log r).
#[global] Arguments set_post_dlvr_cb _ _ /.
#[export] Instance set_ur_stats : Setter ur_stats := λ g r,
  mk_udp_receiver (ur_multicast r) (ur_ip r) (ur_port r) (recv_buf r) (pre_recv_cb r) (post_recv_cb r) (post_dlvr_cb r) (g (ur_stats r)) (recv_log r).
#[global] Arguments set_ur_stats _ _ /.
#[export] Instance set_recv_log : Setter recv_log := λ g r,
  mk_udp_receiver (ur_multicast r) (ur_ip r) (ur_port r) (recv_buf r) (pre_recv_cb r) (post_recv_cb r) (post_dlvr_cb r) (ur_stats r) (g (recv_log r)).
#[global] Arguments set_recv_log _ _ /.

(** The address is optional; a longer one than 15 characters fails the assertion
    (the outer [None]), a system call that fails gives NULL (the inner one). *)
Definition udp_receiver_init (socket_ok bind_ok : bool) (now : Z) (addr_str : option string) (port : Z) :
    option (option udp_receiver) :=
  let ip := default EmptyString addr_str in
  if negb (Z.of_nat (String.length ip) <? 16) then None
  else if negb socket_ok then Some None
  else if negb bind_ok then Some None
  else Some (Some (mk_udp_receiver false ip port (replicate (Z.to_nat MAX_UDP_PAYLOAD) x00) false false false
                     (mk_udp_stats 0 0 0 now) [])).

Definition mcast_receiver_init (socket_ok bind_ok setsockopt_ok : bool) (now : Z) (addr_str : option string) (port : Z) :
    option (option udp_receiver) :=
  match addr_str with
  | None => Some None
  | Some _ =>
      r ← udp_receiver_init socket_ok bind_ok now addr_str port;
      Some (ur ← r; if setsockopt_ok : bool then Some (ur <| ur_multicast := true |>) else None)
  end.

Definition udp_receiver_set_preread_callback (set : bool) (ur : udp_receiver) : udp_receiver := ur <| pre_recv_cb := set |>.
Definition udp_receiver_set_postread_callback (set : bool) (ur : udp_receiver) : udp_receiver := ur <| post_recv_cb := set |>.
Definition udp_receiver_set_postdeliver_callback (set : bool) (ur : udp_receiver) : udp_receiver := ur <| post_dlvr_cb := set |>.

Definition call_back (ev : recv_event) : M udp_receiver unit := modify (λ ur, ur <| recv_log := recv_log ur ++ [ev] |>).

(** The loop over the messages of a packet of [udatasize] bytes; the offset is a
    [uint16_t]. *)
Fixpoint recv_loop (fuel : nat) (udatasize current_offset : Z) : M udp_receiver unit :=
  match fuel with
  | O => crash
  | S fuel =>
      if current_offset <? udatasize then
        ur ← get;
        size ← lift_opt (rd 2 current_offset (recv_buf ur));
        if udatasize <? u64 (current_offset + sizeof_lp_message_header + size) then mret tt
        else
          type ← lift_opt (rd 4 (current_offset + 4) (recv_buf ur));
          data ← lift_opt (rd_bytes size (current_offset + sizeof_lp_message_header) (recv_buf ur));
          call_back (Message type data);;
          recv_loop fuel udatasize (u16 (current_offset + (size + sizeof_lp_message_header)))
      else mret tt
  end.

(** [recvfrom] fills the buffer from its start and drops what does not fit. *)
Definition udp_read_callback_wrapper (datagram : option (list byte)) : M udp_receiver unit :=
  ur ← get;
  (if pre_recv_cb ur then call_back PreRecv else mret tt);;
  match datagram with
  | None => mret tt
  | Some dg =>
      let datasize := Z.min (blen dg) MAX_UDP_PAYLOAD in
      modify (λ ur, ur <| recv_buf ::= λ buf, take (Z.to_nat datasize) dg ++ drop (Z.to_nat datasize) buf |>);;
      modify (λ ur, ur <| ur_stats ::= count_packet datasize |>);;
      (if post_recv_cb ur then call_back PostRecv else mret tt);;
      let udatasize := u16 datasize in
      recv_loop (S (Z.to_nat udatasize)) udatasize 0;;
      (if post_dlvr_cb ur then call_back PostDeliver else mret tt)
  end.

Definition udp_receiver_print_stats (current_time : Z) (ur : udp_receiver) : option (Z * Z * Z) * udp_receiver :=
  let '(line, st) := print_stats current_time (ur_stats ur) in (line, ur <| ur_stats := st |>).

(** ** The reference parser

    A packet is a sequence of frames; what follows the last complete frame is
    its tail. *)

Definition frame_len (bs : list byte) : Z := le_combine (take 2 bs).
Definition frame_type (bs : list byte) : Z := le_combine (take 4 (drop 4 bs)).
Definition frame_data (bs : list byte) : list byte := take (Z.to_nat (frame_len bs)) (drop 8 bs).
Definition frame_size (bs : list byte) : Z := frame_len bs + sizeof_lp_message_header.
Definition next_frames (bs : list byte) : list byte := drop (Z.to_nat (frame_size bs)) bs.
Definition has_frame (bs : list byte) : Prop := sizeof_lp_message_header ≤ blen bs ∧ frame_size bs ≤ blen bs.

Lemma frame_len_range bs : 0 ≤ frame_len bs < 2 ^ 16.
Proof.
  unfold frame_len. pose proof (le_combine_bound (take 2 bs)) as [H1 H2]. split; [done|].
  eapply Z.lt_le_trans; [exact H2|]. apply Z.pow_le_mono_r; [lia|]. rewrite length_take. lia.
Qed.

Lemma next_frames_lt bs : has_frame bs → (length (next_frames bs) < length bs)%nat.
Proof.
  intros [H _]. pose proof (frame_len_range bs). unfold next_frames, frame_size, sizeof_lp_message_header, blen in *.
  rewrite length_drop. lia.
Qed.

Equations? parse_packet (bs : list byte) : list (Z * list byte) by wf (length bs) lt :=
  parse_packet bs with decide (has_frame bs) => {
    | left H => (frame_type bs, frame_data bs) :: parse_packet (next_frames bs);
    | right _ => [] }.
Proof. by apply next_frames_lt. Qed.

Equations? packet_tail (bs : list byte) : list byte by wf (length bs) lt :=
  packet_tail bs with decide (has_frame bs) => {
    | left H => packet_tail (next_frames bs);
    | right _ => bs }.
Proof. by apply next_frames_lt. Qed.

Lemma parse_packet_frame bs : has_frame bs → parse_packet bs = (frame_type bs, frame_data bs) :: parse_packet (next_frames bs).
Proof. intros H. rewrite parse_packet_equation_1. unfold parse_packet_unfold_clause_1. by destruct (decide (has_frame bs)). Qed.
Lemma parse_packet_end bs : ¬ has_frame bs → parse_packet bs = [].
Proof. intros H. rewrite parse_packet_equation_1. unfold parse_packet_unfold_clause_1. by destruct (decide (has_frame bs)). Qed.
Lemma packet_tail_frame bs : has_frame bs → packet_tail bs = packet_tail (next_frames bs).
Proof. intros H. rewrite packet_tail_equation_1. unfold packet_tail_unfold_clause_1. by destruct (decide (has_frame bs)). Qed.
Lemma packet_tail_end bs : ¬ has_frame bs → packet_tail bs = bs.
Proof. intros H. rewrite packet_tail_equation_1. unfold packet_tail_unfold_clause_1. by destruct (decide (has_frame bs)). Qed.

(** ** The receiver is the reference parser *)

(** The bytes of a part of a buffer. *)
Lemma rd_part n pre bs rest : (n ≤ length bs)%nat → rd n (blen pre) (pre ++ bs ++ rest) = Some (le_combine (take n bs)).
Proof.
  intros Hn. unfold rd, blen. rewrite decide_True by (rewrite !length_app; lia).
  by rewrite Nat2Z.id, drop_app_length, take_app_le by done.
Qed.

Lemma rd_bytes_part n pre bs rest : 0 ≤ n ≤ blen bs → rd_bytes n (blen pre) (pre ++ bs ++ rest) = Some (take (Z.to_nat n) bs).
Proof.
  unfold blen. intros Hn. unfold rd_bytes, blen. rewrite decide_True by (rewrite !length_app; lia).
  by rewrite Nat2Z.id, drop_app_length, take_app_le by lia.
Qed.

Definition logged (ms : list (Z * list byte)) : list recv_event := (λ m, Message m.1 m.2) <$> ms.

(** The bytes of a part of a part. *)
Lemma drop_part n pre bs (rest : list byte) : (n ≤ length bs)%nat →
  pre ++ bs ++ rest = (pre ++ take n bs) ++ drop n bs ++ rest ∧ blen (pre ++ take n bs) = blen pre + Z.of_nat n.
Proof.
  intros Hn. unfold blen. rewrite length_app, length_take. split; [|lia].
  by rewrite <-app_assoc, (app_assoc (take n bs)), take_drop.
Qed.

(** What the receiver reads of a complete frame. *)
Lemma read_frame pre bs rest : has_frame bs →
  rd 2 (blen pre) (pre ++ bs ++ rest) = Some (frame_len bs) ∧
  rd 4 (blen pre + 4) (pre ++ bs ++ rest) = Some (frame_type bs) ∧
  rd_bytes (frame_len bs) (blen pre + 8) (pre ++ bs ++ rest) = Some (frame_data bs).
Proof.
  intros [H8 Hfit]. pose proof (frame_len_range bs). unfold frame_size, sizeof_lp_message_header, blen in H8, Hfit. split_and!.
  - by apply rd_part; lia.
  - destruct (drop_part 4 pre bs rest) as [-> E]; [lia|]. replace (blen pre + 4) with (blen (pre ++ take 4 bs)) by lia. by apply rd_part; rewrite length_drop; lia.
  - destruct (drop_part 8 pre bs rest) as [-> E]; [lia|]. replace (blen pre + 8) with (blen (pre ++ take 8 bs)) by lia. apply rd_bytes_part. unfold blen. rewrite length_drop. lia.
Qed.

(** Where the receiver stops: the tail of the packet, read with what follows it. *)
Lemma read_tail pre bs stale : ¬ has_frame bs → bs ≠ [] → blen (pre ++ bs) < 2 ^ 16 →
  if decide (stale = [] ∧ length bs = 1%nat) then rd 2 (blen pre) (pre ++ bs ++ stale) = None
  else ∃ sz, rd 2 (blen pre) (pre ++ bs ++ stale) = Some sz ∧ blen pre + blen bs < u64 (blen pre + 8 + sz).
Proof.
  intros Hf Hne Hlen. rewrite blen_app in Hlen. pose proof (blen_nonneg pre). pose proof (blen_nonneg bs).
  assert (length bs ≠ 0%nat) as Hl by (by intros ?%nil_length_inv).
  assert (∀ sz, 0 ≤ sz < 2 ^ 16 → (sz = frame_len bs ∨ blen bs < 8) → blen pre + blen bs < u64 (blen pre + 8 + sz)) as Hbreak.
  { intros sz Hsz Hor. rewrite wrap_small by lia. unfold has_frame, frame_size, sizeof_lp_message_header in Hf.
    destruct Hor as [->|?]; lia. }
  destruct (Nat.le_gt_cases 2 (length bs)) as [H2|H2].
  { rewrite decide_False by lia. exists (frame_len bs). split; [by apply rd_part|].
    apply Hbreak; [apply frame_len_range|by left]. }
  destruct stale as [|b stale].
  - rewrite decide_True by (split; [done|lia]). unfold rd. rewrite decide_False; [done|].
    intros [_ Hr]. rewrite app_nil_r, length_app in Hr. unfold blen in *. lia.
  - rewrite decide_False by (intros [? _]; done). exists (le_combine (bs ++ [b])). split.
    + replace (pre ++ bs ++ b :: stale) with (pre ++ (bs ++ [b]) ++ stale) by (by rewrite <-(app_assoc bs)).
      rewrite rd_part by (rewrite length_app; cbn; lia). rewrite take_ge; [done|rewrite length_app; cbn; lia].
    + apply Hbreak; [|right; unfold blen; lia]. pose proof (le_combine_bound (bs ++ [b])) as Hb. rewrite length_app in Hb.
      replace (length bs + length [b])%nat with 2%nat in Hb by (cbn; lia). done.
Qed.

(** The buffer holds [pre], which is done, [bs], and [stale] bytes of packets
    before. *)
Lemma recv_loop_spec fuel pre bs stale ur :
  recv_buf ur = pre ++ bs ++ stale → blen (pre ++ bs) < 2 ^ 16 → (length bs < fuel)%nat →
  recv_loop fuel (blen (pre ++ bs)) (blen pre) ur =
  if decide (stale = [] ∧ length (packet_tail bs) = 1%nat) then None
  else Some (tt, ur <| recv_log := recv_log ur ++ logged (parse_packet bs) |>).
Proof.
  revert pre bs ur. induction fuel as [|fuel IH]; intros pre bs ur Hbuf Hlen Hfuel; [lia|].
  pose proof Hlen as Hlen'. rewrite blen_app in Hlen'. pose proof (blen_nonneg pre) as Hpre. pose proof (blen_nonneg bs) as Hbs.
  cbn [recv_loop]. rewrite blen_app.
  destruct (decide (bs = [])) as [->|Hne].
  { change (blen []) with 0. rewrite Z.add_0_r, Z.ltb_irrefl.
    rewrite packet_tail_end, parse_packet_end by (intros [? _]; unfold sizeof_lp_message_header, blen in *; cbn in *; lia).
    rewrite decide_False by (intros [_ ?]; done). cbn. rewrite app_nil_r. by destruct ur. }
  assert (0 < blen bs) as Hpos by (destruct bs; [done|unfold blen; cbn; lia]).
  rewrite (proj2 (Z.ltb_lt _ _)) by lia. unfold mbind, M_bind, get, lift_opt. rewrite Hbuf.
  change sizeof_lp_message_header with 8. destruct (decide (has_frame bs)) as [Hf|Hf].
  - destruct (read_frame pre bs stale Hf) as (-> & -> & ->). pose proof (frame_len_range bs) as Hfl.
    pose proof Hf as [H8 Hfit]. unfold frame_size, sizeof_lp_message_header in *.
    rewrite (wrap_small 64) by lia. rewrite (proj2 (Z.ltb_ge _ _)) by lia. rewrite (wrap_small 16) by lia.
    rewrite (packet_tail_frame _ Hf), (parse_packet_frame _ Hf).
    set (len := Z.to_nat (frame_len bs + 8)).
    destruct (drop_part len pre bs stale) as [Hsplit Hoff]; [unfold len, blen in *; lia|].
    replace (blen pre + (frame_len bs + 8)) with (blen (pre ++ take len bs)) by (unfold len in *; lia).
    assert (pre ++ bs = (pre ++ take len bs) ++ next_frames bs) as Hall.
    { unfold next_frames, frame_size, sizeof_lp_message_header. fold len. by rewrite <-app_assoc, take_drop. }
    rewrite <-blen_app, Hall. unfold call_back, modify. rewrite IH.
    + cbn. case_decide; [done|]. do 2 f_equal. destruct ur; cbn. by rewrite <-app_assoc.
    + cbn. by rewrite Hbuf, Hsplit.
    + by rewrite <-Hall, blen_app.
    + pose proof (next_frames_lt _ Hf). lia.
  - pose proof (read_tail pre bs stale Hf Hne Hlen) as Ht. rewrite (packet_tail_end _ Hf), (parse_packet_end _ Hf).
    cbn [logged fmap list_fmap]. rewrite app_nil_r.
    destruct (decide (stale = [] ∧ length bs = 1%nat)); [by rewrite Ht|].
    destruct Ht as (sz & -> & Hbreak). rewrite (proj2 (Z.ltb_lt _ _) Hbreak). by destruct ur.
Qed.

Definition packet_log (ur : udp_receiver) (dg : list byte) : list recv_event :=
  (if pre_recv_cb ur then [PreRecv] else []) ++ (if post_recv_cb ur then [PostRecv] else []) ++
  logged (parse_packet dg) ++ (if post_dlvr_cb ur then [PostDeliver] else []).

Lemma decide_ext_and {A} (P P' R : Prop) `{!Decision P, !Decision P', !Decision R} (x y : A) : (P ↔ P') →
  (if decide (P ∧ R) then x else y) = (if decide (P' ∧ R) then x else y).
Proof. intros H. apply decide_ext. by rewrite H. Qed.

(** One packet.  It is read beyond the end of the buffer exactly when it fills
    the buffer and its last message is followed by one byte. *)
Lemma receive_packet ur dg :
  let packet := take (Z.to_nat MAX_UDP_PAYLOAD) dg in
  blen (recv_buf ur) = MAX_UDP_PAYLOAD →
  udp_read_callback_wrapper (Some dg) ur =
  if decide (blen packet = MAX_UDP_PAYLOAD ∧ length (packet_tail packet) = 1%nat) then None
  else Some (tt, ur <| recv_buf := packet ++ drop (length packet) (recv_buf ur) |>
                    <| ur_stats := count_packet (blen packet) (ur_stats ur) |>
                    <| recv_log := recv_log ur ++ packet_log ur packet |>).
Proof.
  intros packet Hbuf. pose proof (blen_nonneg dg) as Hdg.
  assert (Z.min (blen dg) MAX_UDP_PAYLOAD = blen packet) as Hsize.
  { unfold packet, blen. rewrite length_take. unfold MAX_UDP_PAYLOAD. lia. }
  assert (take (Z.to_nat (blen packet)) dg = packet) as Htake.
  { unfold packet, blen. rewrite length_take, Nat2Z.id. destruct (Nat.le_gt_cases (Z.to_nat MAX_UDP_PAYLOAD) (length dg)).
    - by rewrite Nat.min_l.
    - rewrite Nat.min_r by lia. rewrite !take_ge by lia. done. }
  set (stale := drop (length packet) (recv_buf ur)).
  assert (stale = [] ↔ blen packet = MAX_UDP_PAYLOAD) as Hstale.
  { unfold stale. rewrite <-length_zero_iff_nil, length_drop. unfold blen in *. unfold MAX_UDP_PAYLOAD in *. lia. }
  assert (0 ≤ blen packet ≤ MAX_UDP_PAYLOAD) as Hlen by (unfold MAX_UDP_PAYLOAD in *; lia).
  unfold udp_read_callback_wrapper. rewrite Hsize, Htake. replace (Z.to_nat (blen packet)) with (length packet) by (unfold blen; lia).
  fold stale. rewrite wrap_small by (unfold MAX_UDP_PAYLOAD in *; lia).
  assert (∀ ur', recv_buf ur' = packet ++ stale → recv_loop (S (length packet)) (blen packet) 0 ur' =
    if decide (blen packet = MAX_UDP_PAYLOAD ∧ length (packet_tail packet) = 1%nat) then None
    else Some (tt, ur' <| recv_log := recv_log ur' ++ logged (parse_packet packet) |>)) as Hloop.
  { intros ur' Hur'. pose proof (recv_loop_spec (S (length packet)) [] packet stale ur' Hur'
      ltac:(cbn; unfold MAX_UDP_PAYLOAD in *; lia) ltac:(lia)) as E.
    change (blen []) with 0 in E. cbn [app] in E. rewrite E. by apply decide_ext_and. }
  unfold packet_log, call_back, mbind, M_bind, get, modify. destruct ur as [? ? ? buf pre post dlvr ? log]. cbn in *.
  replace (Z.to_nat (blen packet)) with (length packet) by (unfold blen; lia). fold stale.
  destruct pre, post; cbn; rewrite Hloop by done; case_decide; try done; destruct dlvr; cbn; by rewrite <-?app_assoc, ?app_nil_r.
Qed.

(** ** Frames that are written are read *)

Lemma has_frame_app bs x : has_frame bs → has_frame (bs ++ x) ∧ frame_len (bs ++ x) = frame_len bs ∧
  frame_type (bs ++ x) = frame_type bs ∧ frame_data (bs ++ x) = frame_data bs ∧ next_frames (bs ++ x) = next_frames bs ++ x.
Proof.
  intros [H8 Hfit]. pose proof (frame_len_range bs). pose proof (blen_nonneg x).
  assert (frame_len (bs ++ x) = frame_len bs) as El.
  { unfold frame_len. rewrite take_app_le; [done|]. unfold sizeof_lp_message_header, blen in *. lia. }
  unfold has_frame, next_frames, frame_size, frame_data, frame_type, sizeof_lp_message_header in *. rewrite El, blen_app.
  split; [lia|]. split; [done|]. unfold blen in *. rewrite !drop_app_le, !take_app_le by (rewrite ?length_drop; lia). done.
Qed.

Lemma no_frame_nil : ¬ has_frame [].
Proof. intros [H _]. by vm_compute in H. Qed.

(** Bytes after complete frames. *)
Lemma parse_packet_app bs x : packet_tail bs = [] →
  parse_packet (bs ++ x) = parse_packet bs ++ parse_packet x ∧ packet_tail (bs ++ x) = packet_tail x.
Proof.
  remember (length bs) as n eqn:Hn. revert bs Hn. induction n as [n IH] using lt_wf_ind. intros bs -> Ht. destruct (decide (has_frame bs)) as [Hf|Hf].
  - destruct (has_frame_app bs x Hf) as (Hf' & _ & E1 & E2 & E3). rewrite packet_tail_frame in Ht by done.
    destruct (IH _ (next_frames_lt _ Hf) (next_frames bs)) as [Hp Htx]; [done|done|].
    rewrite (parse_packet_frame _ Hf'), (parse_packet_frame bs Hf), (packet_tail_frame _ Hf'), E1, E2, E3, Hp, Htx. done.
  - rewrite packet_tail_end in Ht by done. subst bs. by rewrite (parse_packet_end []) by apply no_frame_nil.
Qed.

(** A frame, with the two bytes between the size and the type. *)
Definition frame (m : Z * list byte) (padding : list byte) : list byte :=
  le_split 2 (blen m.2) ++ padding ++ le_split 4 m.1 ++ m.2.

Lemma parse_frame m padding : in_u 32 m.1 → blen m.2 < 2 ^ 16 → length padding = 2%nat →
  parse_packet (frame m padding) = [m] ∧ packet_tail (frame m padding) = [] ∧ blen (frame m padding) = blen m.2 + 8.
Proof.
  destruct m as [t d]. cbn. intros Ht Hd Hp. pose proof (blen_nonneg d). unfold frame; cbn.
  assert (frame_len (le_split 2 (blen d) ++ padding ++ le_split 4 t ++ d) = blen d) as El.
  { unfold frame_len. rewrite take_app_length' by (by rewrite length_le_split). rewrite le_combine_split. by apply Z.mod_small. }
  assert (blen (le_split 2 (blen d) ++ padding ++ le_split 4 t ++ d) = blen d + 8) as Hlen.
  { rewrite !blen_app, !blen_le_split. unfold blen. lia. }
  assert (has_frame (le_split 2 (blen d) ++ padding ++ le_split 4 t ++ d)) as Hf.
  { unfold has_frame, frame_size, sizeof_lp_message_header. rewrite El, Hlen. lia. }
  assert (next_frames (le_split 2 (blen d) ++ padding ++ le_split 4 t ++ d) = []) as Hn.
  { apply drop_ge. unfold frame_size, sizeof_lp_message_header. rewrite El. unfold blen in Hlen |- *. lia. }
  assert (drop 4 (le_split 2 (blen d) ++ padding ++ le_split 4 t ++ d) = le_split 4 t ++ d) as E4.
  { rewrite app_assoc. apply drop_app_length'. by rewrite length_app, length_le_split, Hp. }
  rewrite (parse_packet_frame _ Hf), (packet_tail_frame _ Hf), Hn, parse_packet_end, packet_tail_end by apply no_frame_nil.
  split_and!; [|done|done]. unfold frame_type, frame_data. rewrite E4, El. do 2 f_equal.
  - rewrite take_app_length' by (by rewrite length_le_split). rewrite le_combine_split. by apply Z.mod_small.
  - change (8%nat) with (4 + 4)%nat. rewrite <-drop_drop, E4, drop_app_length' by (by rewrite length_le_split).
    unfold blen. by rewrite Nat2Z.id, firstn_all.
Qed.

(** ** The sender *)

Section sender_spec.
Context (send_result : nat → Z → Z).
Hypothesis send_atomic : ∀ n size, send_result n size < 0 ∨ send_result n size = size.

(** The packets and the buffer hold the messages [all]. *)
Record sender_inv (us : udp_sender) (all : list (Z * list byte)) : Prop := {
  si_buf : blen (send_buf us) = MAX_UDP_PAYLOAD;
  si_cur : 0 ≤ current_buf_size us ≤ MAX_UDP_PAYLOAD;
  si_tail : packet_tail (take (Z.to_nat (current_buf_size us)) (send_buf us)) = [];
  si_all : concat (parse_packet <$> (attempts us).*1) ++ parse_packet (take (Z.to_nat (current_buf_size us)) (send_buf us)) = all;
  si_packets : Forall (λ p, 0 < blen p ≤ MAX_UDP_PAYLOAD ∧ packet_tail p = []) (attempts us).*1
}.

Lemma flush_spec us all : sender_inv us all →
  wp (udp_sender_force_flush send_result) (λ _ us', sender_inv us' all ∧ current_buf_size us' = 0) us.
Proof using send_atomic.
  intros H. pose proof H as [Hbuf Hcur Htail Hall Hps]. unfold udp_sender_force_flush. wp_steps.
  apply wp_assert; [apply Z.leb_le; lia|]. destruct (Z.eqb_spec (current_buf_size us) 0) as [E|E]; [by wp_steps|].
  set (packet := take (Z.to_nat (current_buf_size us)) (send_buf us)) in *.
  assert (sender_inv (us <| sends := S (sends us) |> <| attempts := attempts us ++ [(packet, send_result (sends us) (current_buf_size us))] |>
    <| current_buf_size := 0 |>) all) as H0.
  { constructor; cbn.
    - done.
    - lia.
    - by rewrite packet_tail_end by apply no_frame_nil.
    - rewrite fmap_app, fmap_app, concat_app. cbn. change (take (Z.to_nat 0) (send_buf us)) with (@nil byte).
      rewrite (parse_packet_end []) by apply no_frame_nil. by rewrite !app_nil_r.
    - rewrite fmap_app. apply Forall_app_2; [done|]. apply Forall_singleton. cbn. split; [|done]. unfold packet, blen in *.
      rewrite length_take. lia. }
  wp_steps. destruct (Z.ltb_spec (send_result (sends us) (current_buf_size us)) 0); [by wp_steps|].
  wp_steps. destruct (send_atomic (sends us) (current_buf_size us)) as [|Ea]; [lia|].
  apply wp_assert; [by apply Z.eqb_eq|]. wp_steps. split; [|done]. by destruct H0.
Qed.

(** A write replaces bytes of the buffer. *)
Lemma buf_write_at off pre old rest bs buf : off = blen pre → buf = pre ++ old ++ rest → blen old = blen bs →
  buf_write off bs buf = Some (pre ++ bs ++ rest).
Proof.
  intros -> -> Hl. unfold buf_write, blen in *. rewrite decide_True by (rewrite !length_app; lia).
  replace (Z.to_nat (Z.of_nat (length pre) + Z.of_nat (length bs))) with (length (pre ++ old)) by (rewrite length_app; lia).
  by rewrite (app_assoc pre old), drop_app_length, <-app_assoc, Nat2Z.id, take_app_length.
Qed.

Lemma cut_bytes n (l : list byte) : 0 ≤ n ≤ blen l → ∃ a b, l = a ++ b ∧ blen a = n.
Proof.
  intros Hn. exists (take (Z.to_nat n) l), (drop (Z.to_nat n) l). unfold blen in *. rewrite length_take, take_drop. split; [done|lia].
Qed.

(** The three writes of a message make a frame. *)
Lemma write_frame us type data (P : unit → udp_sender → Prop) :
  let cur := current_buf_size us in
  0 ≤ cur → cur + (blen data + 8) ≤ blen (send_buf us) →
  (∀ buf padding, blen buf = blen (send_buf us) → length padding = 2%nat →
     take (Z.to_nat (cur + (blen data + 8))) buf = take (Z.to_nat cur) (send_buf us) ++ frame (type, data) padding →
     P tt (us <| send_buf := buf |>)) →
  wp (write_message cur data type) P us.
Proof.
  intros cur Hcur Hfit HP. pose proof (blen_nonneg data) as Hd.
  destruct (cut_bytes cur (send_buf us)) as (pre & b1 & E1 & L1); [lia|].
  assert (blen (send_buf us) = cur + blen b1) as Lb by (rewrite E1, blen_app; lia).
  destruct (cut_bytes 2 b1) as (sz & b2 & E2 & L2); [lia|]. rewrite E2, blen_app in Lb.
  destruct (cut_bytes 2 b2) as (padding & b3 & E3 & L3); [lia|]. rewrite E3, blen_app in Lb.
  destruct (cut_bytes 4 b3) as (ty & b4 & E4 & L4); [lia|]. rewrite E4, blen_app in Lb.
  destruct (cut_bytes (blen data) b4) as (old & rest & E5 & L5); [lia|].
  rewrite E2, E3, E4, E5 in E1. set (b := le_split 2 (blen data)) in *. set (t := le_split 4 type).
  assert (blen b = 2) as Lsize by apply blen_le_split. assert (blen t = 4) as Ltype by apply blen_le_split.
  unfold write_message, write_send_buf. change sizeof_lp_message_header with 8. fold b t. wp_steps. eapply wp_lift_opt; [eapply (buf_write_at _ pre sz); [done|exact E1|lia]|]. wp_steps. cbn.
  eapply wp_lift_opt.
  { eapply (buf_write_at _ (pre ++ b ++ padding) ty); [rewrite !blen_app; lia|by rewrite <-!app_assoc|lia]. }
  wp_steps. cbn. eapply wp_lift_opt.
  { eapply (buf_write_at _ (pre ++ b ++ padding ++ t) old); [rewrite !blen_app; lia|by rewrite <-!app_assoc|lia]. }
  wp_steps. cbn. apply (HP _ padding); [|unfold blen in L3; lia|].
  - rewrite E1, !blen_app. lia.
  - rewrite E1. replace (Z.to_nat cur) with (length pre) by (unfold blen in L1; lia). rewrite take_app_length.
    unfold frame. cbn. fold b t. rewrite (app_assoc _ data rest), <-!app_assoc, (app_assoc t), (app_assoc padding), (app_assoc b), (app_assoc pre).
    apply take_app_length'. apply Nat2Z.inj. fold (blen (pre ++ b ++ padding ++ t ++ data)). rewrite !blen_app. lia.
Qed.

Lemma send_spec us all data type : sender_inv us all → in_u 32 type →
  wp (net_send_udp send_result data type) (λ _ us',
    sender_inv us' (all ++ if MAX_MESSAGE_SIZE <? blen data then [] else [(type, data)])) us.
Proof using send_atomic.
  intros H Htype. pose proof (blen_nonneg data). unfold net_send_udp. cbv zeta.
  destruct (Z.ltb_spec MAX_MESSAGE_SIZE (blen data)) as [|Hsize]; [wp_steps; by rewrite app_nil_r|]. wp_steps.
  set (total := blen data + sizeof_lp_message_header).
  assert (wp (if MAX_MESSAGE_SIZE <? current_buf_size us + total then _ ← udp_sender_force_flush send_result; mret () else mret ())
    (λ _ us', sender_inv us' all ∧ (current_buf_size us' = 0 ∨ current_buf_size us' + total ≤ MAX_MESSAGE_SIZE)) us) as Hroom.
  { destruct (Z.ltb_spec MAX_MESSAGE_SIZE (current_buf_size us + total)).
    - wp_steps. eapply wp_mono; [by apply flush_spec|]. intros _ us' [H' E]. wp_steps. split; [done|by left].
    - wp_steps. split; [done|right; lia]. }
  eapply wp_mono; [exact Hroom|]. intros [] us1 [[Hbuf Hcur Htail Hall Hps] Hfit]. wp_steps.
  assert (current_buf_size us1 + total ≤ MAX_UDP_PAYLOAD) as Hfit'.
  { unfold total, MAX_UDP_PAYLOAD, MAX_MESSAGE_SIZE, MAX_TCP_PAYLOAD, sizeof_lp_message_header in *. lia. }
  apply write_frame; [lia|rewrite Hbuf; exact Hfit'|]. intros buf padding Hlen Hpad Htake. wp_steps. cbn.
  change (blen data + 8) with total in Htake.
  destruct (parse_frame (type, data) padding) as (Hp & Ht & Hl); [done| |done|].
  { cbn. unfold MAX_MESSAGE_SIZE, MAX_TCP_PAYLOAD in *. lia. }
  assert (sender_inv (us1 <| send_buf := buf |> <| current_buf_size := current_buf_size us1 + total |>) (all ++ [(type, data)])) as H2.
  { constructor; cbn.
    - by rewrite Hlen.
    - unfold total, sizeof_lp_message_header in *. lia.
    - rewrite Htake. rewrite (proj2 (parse_packet_app _ _ Htail)). exact Ht.
    - rewrite Htake, (proj1 (parse_packet_app _ _ Htail)), Hp, app_assoc. by rewrite Hall.
    - done. }
  destruct (MAX_MESSAGE_SIZE - (current_buf_size us1 + total) <=? sizeof_lp_message_header); [|by wp_steps].
  wp_steps. eapply wp_mono; [by apply flush_spec|]. intros _ us' [H' _]. by wp_steps.
Qed.
End sender_spec.

(** ** Transport *)

Definition messages (log : list recv_event) : list (Z * list byte) :=
  omap (λ ev, match ev with Message t d => Some (t, d) | _ => None end) log.

Lemma messages_logged ms : messages (logged ms) = ms.
Proof. induction ms as [|[t d] ms IH]; [done|]. cbn. by f_equal. Qed.

Lemma messages_packet_log ur dg : messages (packet_log ur dg) = parse_packet dg.
Proof.
  unfold packet_log, messages. rewrite !omap_app. fold (messages (logged (parse_packet dg))). rewrite messages_logged.
  destruct (pre_recv_cb ur), (post_recv_cb ur), (post_dlvr_cb ur); cbn; by rewrite ?app_nil_r.
Qed.

(** What [recvfrom] leaves of a datagram. *)
Definition truncated (dg : list byte) : list byte := take (Z.to_nat MAX_UDP_PAYLOAD) dg.

Definition overreads (dg : list byte) : Prop :=
  blen (truncated dg) = MAX_UDP_PAYLOAD ∧ length (packet_tail (truncated dg)) = 1%nat.

Definition receive_all (dgs : list (list byte)) : M udp_receiver unit := mfor dgs (λ dg, udp_read_callback_wrapper (Some dg)).

Lemma receive_all_spec dgs ur : blen (recv_buf ur) = MAX_UDP_PAYLOAD →
  if decide (Exists overreads dgs) then receive_all dgs ur = None
  else wp (receive_all dgs) (λ _ ur', messages (recv_log ur') = messages (recv_log ur) ++ concat (parse_packet ∘ truncated <$> dgs)) ur.
Proof.
  revert ur. induction dgs as [|dg dgs IH]; intros ur Hbuf.
  { rewrite decide_False by (by intros ?%Exists_nil). apply wp_ret. by rewrite app_nil_r. }
  pose proof (receive_packet ur dg Hbuf) as E. cbn zeta in E. fold (truncated dg) in E. fold (overreads dg) in E.
  set (ur' := ur <| recv_buf := _ |> <| ur_stats := _ |> <| recv_log := _ |>) in E.
  assert (blen (recv_buf ur') = MAX_UDP_PAYLOAD) as Hbuf'.
  { cbn. rewrite <-Hbuf. unfold blen, truncated. rewrite length_app, length_drop, length_take. unfold blen in Hbuf. lia. }
  assert (messages (recv_log ur') = messages (recv_log ur) ++ parse_packet (truncated dg)) as Hlog.
  { cbn. unfold messages. rewrite omap_app. f_equal. apply messages_packet_log. }
  specialize (IH ur' Hbuf'). unfold receive_all, wp in *. cbn [mfor]. unfold mbind, M_bind. rewrite E.
  destruct (decide (overreads dg)) as [Hbad|Hok]; [by rewrite decide_True by (by left)|].
  case_decide as Hrest.
  - rewrite decide_True by (by right). exact IH.
  - rewrite decide_False by (by intros [?|?]%List.Exists_cons).
    destruct (mfor dgs _ ur') as [[u ur2]|]; [|done]. rewrite IH, Hlog, <-app_assoc. done.
Qed.


(** What a user of a sender does; a flush is forced or the periodic one. *)
Inductive send_op := OpSend (data : list byte) (type : Z) | OpFlush.

Definition exec_op (send_result : nat → Z → Z) (op : send_op) : M udp_sender unit :=
  match op with
  | OpSend data type => net_send_udp send_result data type
  | OpFlush => udp_autoflush_cb send_result
  end.

Definition op_ok (op : send_op) : Prop :=
  match op with
  | OpSend _ type => in_u 32 type
  | OpFlush => True
  end.

(** The messages that are not too long. *)
Definition sent_messages (ops : list send_op) : list (Z * list byte) :=
  omap (λ op, match op with
              | OpSend data type => if MAX_MESSAGE_SIZE <? blen data then None else Some (type, data)
              | OpFlush => None
              end) ops.

Section transport.
Context (send_result : nat → Z → Z) (send_atomic : ∀ n size, send_result n size < 0 ∨ send_result n size = size).

Lemma exec_op_spec us all op : sender_inv us all → op_ok op →
  wp (exec_op send_result op) (λ _ us', sender_inv us' (all ++ sent_messages [op])) us.
Proof using send_atomic.
  intros H Hop. destruct op as [data type|]; cbn in *.
  - eapply wp_mono; [by apply send_spec|]. intros [] us'. by destruct (MAX_MESSAGE_SIZE <? blen data).
  - unfold udp_autoflush_cb. wp_steps. eapply wp_mono; [by apply flush_spec|]. intros _ us' [H' _]. wp_steps. by rewrite app_nil_r.
Qed.

Lemma exec_ops_spec us all ops : sender_inv us all → Forall op_ok ops →
  wp (mfor ops (exec_op send_result)) (λ _ us', sender_inv us' (all ++ sent_messages ops)) us.
Proof using send_atomic.
  intros H Hops. apply (wp_mfor (λ dn us', sender_inv us' (all ++ sent_messages dn))); [cbn; by rewrite app_nil_r| |done].
  intros dn op rest us' -> H'. apply list.Forall_app in Hops as [_ [Hop _]%list.Forall_cons].
  eapply wp_mono; [by apply exec_op_spec|]. intros [] us2 H2. unfold sent_messages in *. by rewrite omap_app, app_assoc.
Qed.
End transport.

(** A new sender has sent nothing. *)
Lemma sender_init_inv inet_addr_ok socket_ok connect_ok now addr port us :
  udp_sender_init inet_addr_ok socket_ok connect_ok now addr port = Some us → sender_inv us [].
Proof.
  intros E. unfold udp_sender_init in E. repeat (case_match; try done). injection E as <-. constructor.
  - change (blen (replicate (Z.to_nat MAX_UDP_PAYLOAD) x00) = MAX_UDP_PAYLOAD). unfold blen. by rewrite length_replicate.
  - by vm_compute.
  - change (packet_tail [] = []). by rewrite packet_tail_end by apply no_frame_nil.
  - change ([] ++ parse_packet [] = []). by rewrite parse_packet_end by apply no_frame_nil.
  - by constructor.
Qed.

(** C17. What is sent is received.  When [send] sends a datagram as a whole or fails,
    as it does for UDP, any sequence of messages and flushes, followed by a
    flush, ends without an access beyond the buffer; the packets given to [send],
    each of at most [MAX_UDP_PAYLOAD] bytes, hold exactly the messages that are
    not too long, in order; and a receiver of any of these packets, some of them
    lost, repeated or in another order, calls back for exactly their messages. *)
Theorem udp_transport send_result inet_addr_ok socket_ok connect_ok now addr port us0 ops :
  (∀ n size, send_result n size < 0 ∨ send_result n size = size) →
  udp_sender_init inet_addr_ok socket_ok connect_ok now addr port = Some us0 → Forall op_ok ops →
  wp (mfor (ops ++ [OpFlush]) (exec_op send_result)) (λ _ us,
    let packets := (attempts us).*1 in
    concat (parse_packet <$> packets) = sent_messages ops ∧
    Forall (λ p, 0 < blen p ≤ MAX_UDP_PAYLOAD) packets ∧
    ∀ received ur, Forall (λ p, p ∈ packets) received → blen (recv_buf ur) = MAX_UDP_PAYLOAD →
      wp (receive_all received)
        (λ _ ur', messages (recv_log ur') = messages (recv_log ur) ++ concat (parse_packet <$> received)) ur) us0.
Proof.
  intros Hatomic E Hops. apply sender_init_inv in E as H0.
  apply wp_mfor_app. eapply wp_mono; [by eapply (exec_ops_spec send_result Hatomic _ [])|]. cbn [app]. intros [] us1 H1. cbn [mfor exec_op].
  unfold udp_autoflush_cb. wp_steps. eapply wp_mono; [by apply flush_spec|]. intros _ us [[Hbuf Hcur Htail Hall Hps] Hempty]. wp_steps.
  rewrite Hempty in Hall. change (take (Z.to_nat 0) (send_buf us)) with (@nil byte) in Hall. rewrite (parse_packet_end []), app_nil_r in Hall by apply no_frame_nil.
  split_and!; [done|by eapply list.Forall_impl; [exact Hps|intros ? []]|].
  intros received ur Hrec Hur. pose proof (receive_all_spec received ur Hur) as Hspec.
  assert (Forall (λ p, truncated p = p ∧ packet_tail p = []) received) as Hwhole.
  { eapply list.Forall_impl; [exact Hrec|]. intros p Hp. eapply list.Forall_forall in Hps as [Hlen Ht]; [|exact Hp].
    split; [|done]. apply take_ge. unfold blen in Hlen. lia. }
  rewrite decide_False in Hspec.
  - eapply wp_mono; [exact Hspec|]. intros [] ur' ->. f_equal. f_equal. apply list_fmap_ext.
    intros i p Hp. cbn. f_equal. by apply (Forall_lookup_1 _ _ _ _ Hwhole Hp).
  - intros (p & Hp & Hover1 & Hover2)%list.Exists_exists. eapply list.Forall_forall in Hwhole as [Et Ht]; [|exact Hp].
    rewrite Et, Ht in Hover2. done.
Qed.

(** ** Concrete runs *)

Definition all_sent (_ : nat) (size : Z) : Z := size.

(** Two messages in one packet; a third one that is too long is not sent. *)
Definition example_ops : list send_op :=
  [OpSend [x61; x62] 9; OpSend [] 3; OpSend (replicate (Z.to_nat 8981) x00) 1].

Definition example_sender : option udp_sender := udp_sender_init (λ _, true) true true 0 "127.0.0.1" 6666.
Definition example_receiver : udp_receiver :=
  mk_udp_receiver false "127.0.0.1" 6666 (replicate (Z.to_nat MAX_UDP_PAYLOAD) x00) true false true (mk_udp_stats 0 0 0 0) [].

Definition sent_packets (send_result : nat → Z → Z) (ops : list send_op) : option (list (list byte)) :=
  us ← example_sender; r ← mfor (ops ++ [OpFlush]) (exec_op send_result) us; Some (attempts r.2).*1.

Example example_packets :
  sent_packets all_sent example_ops =
  Some [[x02; x00; x00; x00; x09; x00; x00; x00; x61; x62; x00; x00; x00; x00; x03; x00; x00; x00]].
Proof. vm_compute. reflexivity. Qed.

Lemma udp_transport_witness :
  ∃ us us' ur', example_sender = Some us ∧
    mfor (example_ops ++ [OpFlush]) (exec_op all_sent) us = Some (tt, us') ∧
    receive_all (attempts us').*1 example_receiver = Some (tt, ur') ∧
    messages (recv_log ur') = [(9, [x61; x62]); (3, [])].
Proof.
  destruct example_sender as [us|] eqn:E; [|by vm_compute in E].
  assert (Forall op_ok example_ops) as Hops by (by repeat constructor).
  pose proof (udp_transport all_sent (λ _, true) true true 0 "127.0.0.1" 6666 us example_ops ltac:(by right) E Hops) as H.
  apply wp_total in H as ([] & us' & Hrun & Hall & _ & Hrecv).
  specialize (Hrecv (attempts us').*1 example_receiver ltac:(by apply list.Forall_forall) ltac:(by vm_compute)).
  apply wp_total in Hrecv as ([] & ur' & Hr & Hlog). exists us, us', ur'. split_and!; [done..|].
  rewrite Hlog, Hall. vm_compute. reflexivity.
Defined.

(** A datagram that fills the buffer: one message, and one byte. *)
Definition overreading_datagram : list byte :=
  le_split 2 8979 ++ [x00; x00] ++ le_split 4 1 ++ replicate (Z.to_nat 8980) x00.

