(* ===== verification/RingLearner.v ===== *)
(** * The learner and the submit proxy of RingPaxos

    [ring_paxos/lib/ringpaxos_learner.c] and [ringpaxos_submit_proxy.c].  The
    learner hands the messages of the multicast group to its delivery queue,
    whose callbacks collect the numbers of the instances that are missing in two
    request messages.  The delivery queue records the calls of its callbacks in
    a log; [on_dq] runs them, in order, after the operation that made them, since
    they do not touch the queue.  The messages given to [net_send_udp] and the
    flushes of the sender are recorded in [net_log]. *)
From Stdlib Require Import Init.Byte.
From S2P Require Import Prelude Timers RingUtil RingMessages DeliveryQueue.

Inductive net_event := NetSend (msg : ring_msg) | NetFlush.

(** [learner_t]; a request buffer is the entries that are filled in,
    [requests_count] of them. *)
Record ring_learner := mk_ring_learner {
  lrn_dq : delivery_queue;
  missing_cmd_request_buf : list Z;
  missing_acc_request_buf : list Z;
  net_log : list net_event
}.

#[export] Instance set_lrn_dq : Setter lrn_dq := λ g r,
  mk_ring_learner (g (lrn_dq r)) (missing_cmd_request_buf r) (missing_acc_request_buf r) (net_log r).
#[global] Arguments set_lrn_dq _ _ /.
#[export] Instance set_missing_cmd_request_buf : Setter missing_cmd_request_buf := λ g r,
  mk_ring_learner (lrn_dq r) (g (missing_cmd_request_buf r)) (missing_acc_request_buf r) (net_log r).
#[global] Arguments set_missing_cmd_request_buf _ _ /.
#[export] Instance set_missing_acc_request_buf : Setter missing_acc_request_buf := λ g r,
  mk_ring_learner (lrn_dq r) (missing_cmd_request_buf r) (g (missing_acc_request_buf r)) (net_log r).
#[global] Arguments set_missing_acc_request_buf _ _ /.
#[export] Instance set_net_log : Setter net_log := λ g r,
  mk_ring_learner (lrn_dq r) (missing_cmd_request_buf r) (missing_acc_request_buf r) (g (net_log r)).
#[global] Arguments set_net_log _ _ /.

Abbreviation LE := (M ring_learner).

Definition learner_send (msg : ring_msg) : LE unit := modify (λ l, l <| net_log := net_log l ++ [NetSend msg] |>).
Definition learner_flush : LE unit := modify (λ l, l <| net_log := net_log l ++ [NetFlush] |>).

(** [msg->inst_number[msg->requests_count] = inst_number] in a buffer of
    [MAX_MESSAGE_SIZE] bytes. *)
Definition add_request (inst : Z) (buf : list Z) : option (list Z) :=
  if REQS_MSG_SIZE (buf ++ [inst]) <=? MAX_MESSAGE_SIZE then Some (buf ++ [inst]) else None.

Definition on_missing_cmdmap (inst : Z) : LE unit :=
  l ← get;
  buf ← lift_opt (add_request inst (missing_cmd_request_buf l));
  modify (λ l, l <| missing_cmd_request_buf := buf |>);;
  if REPEAT_REQUEST_MAX_ENTRIES <=? Z.of_nat (length buf) then
    learner_send (MMapRequest buf);;
    learner_flush;;
    modify (λ l, l <| missing_cmd_request_buf := [] |>)
  else mret tt.

Definition on_missing_acceptance (inst : Z) : LE unit :=
  l ← get;
  buf ← lift_opt (add_request inst (missing_acc_request_buf l));
  modify (λ l, l <| missing_acc_request_buf := buf |>);;
  if REPEAT_REQUEST_MAX_ENTRIES <=? Z.of_nat (length buf) then
    learner_send (MChosenvalRequest buf);;
    learner_flush;;
    modify (λ l, l <| missing_acc_request_buf := [] |>)
  else mret tt.

Definition post_delivery_check : LE unit :=
  l ← get;
  (if 0 <? Z.of_nat (length (missing_cmd_request_buf l)) then
     learner_send (MMapRequest (missing_cmd_request_buf l));;
     modify (λ l, l <| missing_cmd_request_buf := [] |>)
   else mret tt);;
  (if 0 <? Z.of_nat (length (missing_acc_request_buf l)) then
     learner_send (MChosenvalRequest (missing_acc_request_buf l));;
     modify (λ l, l <| missing_acc_request_buf := [] |>)
   else mret tt);;
  learner_flush.

(** What the callbacks of the delivery queue do; delivering is the application's. *)
Definition dq_callback (ev : dq_event) : LE unit :=
  match ev with
  | Deliver _ _ => mret tt
  | MissingCmdmap inst => on_missing_cmdmap inst
  | MissingAcceptance inst => on_missing_acceptance inst
  | PostCheck => post_delivery_check
  end.

Definition on_dq (m : M delivery_queue unit) : LE unit := λ l,
  match m (lrn_dq l) with
  | Some (_, dq') => mfor (drop (length (dq_log (lrn_dq l))) (dq_log dq')) dq_callback (l <| lrn_dq := dq' |>)
  | None => None
  end.

(** A message of the multicast group. *)
Definition on_mcast_msg (msg : ring_msg) (size : Z) : LE unit :=
  match msg with
  | MCmdmap m =>
      c_assert (size =? CMDMAP_MSG_SIZE m);;
      on_dq (delivery_queue_handle_command_map (cm_inst m) (cm_key m) (cm_value m))
  | MAcceptance m =>
      c_assert (size =? sizeof_acceptance_msg);;
      on_dq (delivery_queue_handle_acceptance (am_inst m) (am_key m))
  | _ => mret tt
  end.

(** After the messages of a packet. *)
Definition post_receive_check : LE unit := on_dq dq_deliver_loop.

(** The timer of the delivery queue. *)
Definition learner_periodic_check (now : timeval) : LE unit := on_dq (dq_periodic_check now).

Definition learner_delayed_start : LE unit := modify (λ l, l <| lrn_dq ::= dq_delayed_start |>).

Definition ring_learner_init (working_set_size : Z) : ring_learner :=
  mk_ring_learner (delivery_queue_init working_set_size true) [] [] [].

(** ** The submit proxy *)

Definition LARGEST_PAXOS_HEADER : Z := 14.

(** What is given to [net_send_udp] for a command; [None] is an early return. *)
Definition submit_command (cmd : list byte) : option ring_msg :=
  if MAX_MESSAGE_SIZE - LARGEST_PAXOS_HEADER <? ring_msg_size (MSubmit cmd) then None else Some (MSubmit cmd).
