(* ===== verification/RingLearnerProps.v ===== *)
(** * What a learner of RingPaxos guarantees

    The log of the delivery queue only grows, so that every call of a callback
    is made once; the requests for missing instances are sent exactly as the
    queue asks for them, in messages that fit; and what the learner delivers is
    what its delivery queue delivers, in the order of the instances. *)
From Stdlib Require Import Init.Byte.
From S2P Require Import Prelude Steps Timers RingUtil RingMessages DeliveryQueue RingLearner.

Implicit Types (l : ring_learner) (ev : dq_event) (q : delivery_queue).

(** ** The log grows *)

(** No operation of the queue takes anything back from its log, or changes its
    callbacks. *)
Definition extends q q' : Prop := dq_log q `prefix_of` dq_log q' ∧ pc_cb q' = pc_cb q.

#[local] Instance extends_preorder : PreOrder extends.
Proof.
  split; [by intros q|]. intros q1 q2 q3 [H1 E1] [H2 E2]. split; [by etrans|congruence].
Qed.

#[local] Abbreviation grows := (steps extends).

Lemma grows_get_entry i : grows (dq_get_entry i).
Proof.
  intros q. unfold dq_get_entry. apply wlp_get. repeat (apply wlp_bind, wlp_assert; intros _).
  apply wlp_bind, wlp_lift_opt. intros e _. apply wlp_bind, wlp_assert. done.
Qed.
Lemma grows_put_entry i e : grows (dq_put_entry i e).
Proof. by apply steps_modify. Qed.
Lemma grows_get_slot e : grows (dq_get_slot e).
Proof. unfold dq_get_slot. solve_steps. Qed.
Lemma grows_put_slot e v : grows (dq_put_slot e v).
Proof. by apply steps_modify. Qed.
Lemma grows_call ev : grows (dq_call ev).
Proof. apply steps_modify. intros q. split; [by eexists|done]. Qed.
#[local] Hint Resolve grows_get_entry grows_put_entry grows_get_slot grows_put_slot grows_call : steps.

Lemma grows_deliver_fuel fuel : grows (dq_deliver_fuel fuel).
Proof. induction fuel as [|fuel IH]; cbn [dq_deliver_fuel]; solve_steps. Qed.
Lemma grows_deliver_loop : grows dq_deliver_loop.
Proof. apply steps_get. intros q. apply grows_deliver_fuel. Qed.
Lemma grows_check_entry now i : grows (dq_check_entry now i).
Proof. unfold dq_check_entry. solve_steps. Qed.
#[local] Hint Resolve grows_deliver_loop grows_check_entry : steps.
Lemma grows_check_loop now insts : grows (dq_check_loop now insts).
Proof. induction insts as [|i insts IH]; cbn [dq_check_loop]; solve_steps. Qed.
#[local] Hint Resolve grows_check_loop : steps.
Lemma grows_periodic_check now : grows (dq_periodic_check now).
Proof. unfold dq_periodic_check. solve_steps. Qed.
Lemma grows_late_start i : grows (dq_late_start i).
Proof. unfold dq_late_start. solve_steps. Qed.
#[local] Hint Resolve grows_late_start : steps.
Lemma grows_command_map i key v : grows (delivery_queue_handle_command_map i key v).
Proof. unfold delivery_queue_handle_command_map. solve_steps. Qed.
Lemma grows_acceptance i key : grows (delivery_queue_handle_acceptance i key).
Proof. unfold delivery_queue_handle_acceptance. solve_steps. Qed.

(** ** Requests *)

Definition missing_cmds (log : list dq_event) : list Z :=
  omap (λ ev, match ev with MissingCmdmap i => Some i | _ => None end) log.
Definition missing_accs (log : list dq_event) : list Z :=
  omap (λ ev, match ev with MissingAcceptance i => Some i | _ => None end) log.

Definition cmd_requests (log : list net_event) : list Z :=
  concat (omap (λ e, match e with NetSend (MMapRequest insts) => Some insts | _ => None end) log).
Definition acc_requests (log : list net_event) : list Z :=
  concat (omap (λ e, match e with NetSend (MChosenvalRequest insts) => Some insts | _ => None end) log).

Lemma missing_cmds_app log log' : missing_cmds (log ++ log') = missing_cmds log ++ missing_cmds log'.
Proof. apply omap_app. Qed.
Lemma missing_accs_app log log' : missing_accs (log ++ log') = missing_accs log ++ missing_accs log'.
Proof. apply omap_app. Qed.
Lemma cmd_requests_app log log' : cmd_requests (log ++ log') = cmd_requests log ++ cmd_requests log'.
Proof. unfold cmd_requests. by rewrite omap_app, concat_app. Qed.
Lemma acc_requests_app log log' : acc_requests (log ++ log') = acc_requests log ++ acc_requests log'.
Proof. unfold acc_requests. by rewrite omap_app, concat_app. Qed.

#[local] Arguments missing_cmds : simpl never.
#[local] Arguments missing_accs : simpl never.
#[local] Arguments cmd_requests : simpl never.
#[local] Arguments acc_requests : simpl never.

Lemma cmd_requests_cmd insts : cmd_requests [NetSend (MMapRequest insts)] = insts.
Proof. apply app_nil_r. Qed.
Lemma acc_requests_acc insts : acc_requests [NetSend (MChosenvalRequest insts)] = insts.
Proof. apply app_nil_r. Qed.
Lemma cmd_requests_acc insts : cmd_requests [NetSend (MChosenvalRequest insts)] = [].
Proof. done. Qed.
Lemma acc_requests_cmd insts : acc_requests [NetSend (MMapRequest insts)] = [].
Proof. done. Qed.
Lemma cmd_requests_flush : cmd_requests [NetFlush] = [].
Proof. done. Qed.
Lemma acc_requests_flush : acc_requests [NetFlush] = [].
Proof. done. Qed.

Create Rewrite HintDb logs.
#[local] Hint Rewrite missing_cmds_app missing_accs_app cmd_requests_app acc_requests_app cmd_requests_cmd
  acc_requests_acc cmd_requests_acc acc_requests_cmd cmd_requests_flush acc_requests_flush @app_nil_r : logs.

(** A message that the sender does not refuse, and that is not empty. *)
Definition net_event_ok (ev : net_event) : Prop :=
  match ev with
  | NetSend (MMapRequest insts) | NetSend (MChosenvalRequest insts) =>
      insts ≠ [] ∧ REQS_MSG_SIZE insts ≤ MAX_MESSAGE_SIZE
  | NetSend _ => False
  | NetFlush => True
  end.

(** After the callbacks for [log]: the requests that were sent, and those in the
    buffers, are those of [log]. *)
Record requests_ok (log : list dq_event) l : Prop := {
  rq_cmd : cmd_requests (net_log l) ++ missing_cmd_request_buf l = missing_cmds log;
  rq_acc : acc_requests (net_log l) ++ missing_acc_request_buf l = missing_accs log;
  rq_cmd_len : Z.of_nat (length (missing_cmd_request_buf l)) < REPEAT_REQUEST_MAX_ENTRIES;
  rq_acc_len : Z.of_nat (length (missing_acc_request_buf l)) < REPEAT_REQUEST_MAX_ENTRIES;
  rq_net : Forall net_event_ok (net_log l)
}.

(** No request waits. *)
Definition drained l : Prop :=
  missing_cmd_request_buf l = [] ∧ missing_acc_request_buf l = [] ∧ list.last (net_log l) = Some NetFlush.

Lemma add_request_fits i (buf : list Z) : Z.of_nat (length buf) < REPEAT_REQUEST_MAX_ENTRIES →
  add_request i buf = Some (buf ++ [i]) ∧ REQS_MSG_SIZE (buf ++ [i]) ≤ MAX_MESSAGE_SIZE.
Proof.
  intros H. assert (REQS_MSG_SIZE (buf ++ [i]) ≤ MAX_MESSAGE_SIZE) as Hs.
  { unfold REQS_MSG_SIZE. rewrite length_app. cbn [length].
    assert (sizeof_requests_msg + REPEAT_REQUEST_MAX_ENTRIES * sizeof_ring_iid ≤ MAX_MESSAGE_SIZE) by (by vm_compute).
    unfold sizeof_ring_iid in *. lia. }
  split; [|done]. unfold add_request. by rewrite (proj2 (Z.leb_le _ _) Hs).
Qed.

Lemma on_missing_cmdmap_spec log l i : requests_ok log l →
  wp (on_missing_cmdmap i) (λ _ l', requests_ok (log ++ [MissingCmdmap i]) l' ∧ lrn_dq l' = lrn_dq l) l.
Proof.
  intros [H1 H2 H3 H4 H5]. destruct (add_request_fits i _ H3) as [E Hs].
  unfold on_missing_cmdmap, learner_send, learner_flush. wp_steps. eapply wp_lift_opt; [exact E|]. wp_steps.
  destruct (Z.leb_spec REPEAT_REQUEST_MAX_ENTRIES (Z.of_nat (length (missing_cmd_request_buf l ++ [i])))); wp_steps;
    (split; [constructor; cbn|done]); autorewrite with logs; try done.
  - by rewrite <-H1, app_assoc.
  - apply Forall_app_2; [|by apply Forall_singleton]. apply Forall_app_2; [done|]. apply Forall_singleton. cbn.
    split; [|done]. by destruct (missing_cmd_request_buf l).
  - by rewrite <-H1, app_assoc.
Qed.

Lemma on_missing_acceptance_spec log l i : requests_ok log l →
  wp (on_missing_acceptance i) (λ _ l', requests_ok (log ++ [MissingAcceptance i]) l' ∧ lrn_dq l' = lrn_dq l) l.
Proof.
  intros [H1 H2 H3 H4 H5]. destruct (add_request_fits i _ H4) as [E Hs].
  unfold on_missing_acceptance, learner_send, learner_flush. wp_steps. eapply wp_lift_opt; [exact E|]. wp_steps.
  destruct (Z.leb_spec REPEAT_REQUEST_MAX_ENTRIES (Z.of_nat (length (missing_acc_request_buf l ++ [i])))); wp_steps;
    (split; [constructor; cbn|done]); autorewrite with logs; try done.
  - by rewrite <-H2, app_assoc.
  - apply Forall_app_2; [|by apply Forall_singleton]. apply Forall_app_2; [done|]. apply Forall_singleton. cbn.
    split; [|done]. by destruct (missing_acc_request_buf l).
  - by rewrite <-H2, app_assoc.
Qed.

Lemma request_buffer_fits (buf : list Z) : Z.of_nat (length buf) < REPEAT_REQUEST_MAX_ENTRIES → REQS_MSG_SIZE buf ≤ MAX_MESSAGE_SIZE.
Proof. intros H. destruct (add_request_fits 0 buf H) as [_ Hs]. unfold REQS_MSG_SIZE, sizeof_ring_iid in *. rewrite length_app in Hs. lia. Qed.

Lemma post_delivery_check_spec log l : requests_ok log l →
  wp post_delivery_check (λ _ l', requests_ok (log ++ [PostCheck]) l' ∧ drained l' ∧ lrn_dq l' = lrn_dq l) l.
Proof.
  intros [H1 H2 H3 H4 H5]. pose proof (request_buffer_fits _ H3). pose proof (request_buffer_fits _ H4).
  unfold post_delivery_check, learner_send, learner_flush. wp_steps.
  destruct l as [q [|c cs] [|d ds] net]; cbn -[REQS_MSG_SIZE] in *; wp_steps;
    (split; [constructor; cbn -[REQS_MSG_SIZE]|split; [|done]]); autorewrite with logs in *; try done;
    try (repeat apply Forall_app_2; try done; by apply Forall_singleton);
    try (unfold drained; cbn; by rewrite last_snoc).
Qed.

(** The callbacks of a log, one after the other. *)
Lemma callbacks_spec log l evs : requests_ok log l →
  wp (mfor evs dq_callback) (λ _ l', requests_ok (log ++ evs) l' ∧ lrn_dq l' = lrn_dq l) l.
Proof.
  revert log l. induction evs as [|ev evs IH]; intros log l H; cbn [mfor].
  { apply wp_ret. by rewrite app_nil_r. }
  apply wp_bind, (wp_mono _ (λ _ l', requests_ok (log ++ [ev]) l' ∧ lrn_dq l' = lrn_dq l)).
  - destruct ev; cbn [dq_callback].
    + apply wp_ret. split; [|done]. destruct H as [H1 H2 H3 H4 H5]. by constructor; autorewrite with logs.
    + by apply on_missing_cmdmap_spec.
    + by apply on_missing_acceptance_spec.
    + eapply wp_mono; [by apply post_delivery_check_spec|]. by intros [] l' (? & ? & ?).
  - intros [] l' [H' E]. eapply wp_mono; [by apply IH|]. intros [] l2 [H2 E2].
    rewrite <-app_assoc in H2. split; [done|congruence].
Qed.

(** ** The learner *)

(** A learner with a sound queue, which calls its post-check callback, and with
    the requests that its queue asked for. *)
Section learner.
Context (n L K : Z) (accepted : Z → Prop) (cmd_of : Z → command_id → list byte) (chosen : Z → command_id).

Record learner_ok l : Prop := {
  lo_dq : dq_good n L K accepted cmd_of chosen L (lrn_dq l);
  lo_pc : pc_cb (lrn_dq l) = true;
  lo_requests : requests_ok (dq_log (lrn_dq l)) l
}.

(** An operation of the queue, and then its callbacks. *)
Lemma wp_on_dq m l q' evs (Q : unit → ring_learner → Prop) :
  m (lrn_dq l) = Some (tt, q') → dq_log q' = dq_log (lrn_dq l) ++ evs →
  wp (mfor evs dq_callback) Q (l <| lrn_dq := q' |>) → wp (on_dq m) Q l.
Proof. intros E El H. unfold wp, on_dq. by rewrite E, El, drop_app_length. Qed.

Lemma requests_ok_dq log l q : requests_ok log l → requests_ok log (l <| lrn_dq := q |>).
Proof. intros []. by constructor. Qed.

Lemma on_dq_spec m l : learner_ok l → grows m → wp m (λ _ q', dq_good n L K accepted cmd_of chosen L q') (lrn_dq l) →
  wp (on_dq m) (λ _ l', learner_ok l') l.
Proof.
  intros [H1 H2 H3] Hm Hwp. destruct (wp_total _ _ _ Hwp) as ([] & q' & E & Hq'). destruct (steps_run _ _ _ _ _ Hm E) as [[evs El] Epc].
  eapply wp_on_dq; [exact E|exact El|]. eapply wp_mono; [by apply callbacks_spec, requests_ok_dq|].
  cbn. intros [] l' [Hr <-]. constructor; [done|congruence|by rewrite El].
Qed.

(** The timer of the queue ends with its post-check callback. *)
Lemma periodic_check_post now q q' : pc_cb q = true → dq_periodic_check now q = Some (tt, q') →
  ∃ evs, dq_log q' = dq_log q ++ evs ++ [PostCheck].
Proof.
  intros Hpc. unfold dq_periodic_check, mbind, M_bind, get. set (insts := range _ _).
  destruct (dq_check_loop now insts q) as [[[] q1]|] eqn:E; [|done]. rewrite Hpc. intros [= <-].
  destruct (steps_run _ _ _ _ _ (grows_check_loop _ _) E) as [[evs El] _]. exists evs. cbn. by rewrite El, app_assoc.
Qed.

Lemma learner_tick_spec now l : learner_ok l → wp (dq_periodic_check now) (λ _ q', dq_good n L K accepted cmd_of chosen L q') (lrn_dq l) →
  wp (learner_periodic_check now) (λ _ l', learner_ok l' ∧ drained l') l.
Proof.
  intros [H1 H2 H3] Hwp. destruct (wp_total _ _ _ Hwp) as ([] & q' & E & Hq').
  destruct (periodic_check_post _ _ _ H2 E) as [evs El]. destruct (steps_run _ _ _ _ _ (grows_periodic_check _) E) as [_ Epc].
  eapply wp_on_dq; [exact E|exact El|]. apply wp_mfor_app. eapply wp_mono; [by apply callbacks_spec, requests_ok_dq|].
  intros [] l1 [Hr1 E1]. cbn [mfor dq_callback]. wp_steps. eapply wp_mono; [by apply post_delivery_check_spec|].
  cbn in *. intros [] l' (Hr & Hd & E2). apply wp_ret. split; [|done]. rewrite E1 in E2.
  constructor; rewrite E2; [done|congruence|by rewrite El, app_assoc].
Qed.

(** *** Runs *)

(** A message of a packet, the end of a packet, or the timer. *)
Inductive learner_event :=
  | LrnMsg (msg : ring_msg)
  | LrnPacketEnd
  | LrnTick (now : timeval).

Definition learner_exec (ev : learner_event) : LE unit :=
  match ev with
  | LrnMsg msg => on_mcast_msg msg (ring_msg_size msg)
  | LrnPacketEnd => post_receive_check
  | LrnTick now => learner_periodic_check now
  end.

(** The values that are mapped and the decisions are those of [cmd_of] and
    [chosen]; other messages of the group do not matter. *)
Definition learner_msg_ok (msg : ring_msg) : Prop :=
  match msg with
  | MCmdmap m => cm_inst m ≤ K ∧ cm_value m = cmd_of (cm_inst m) (cm_key m)
  | MAcceptance m => accepted (am_inst m) ∧ am_key m = chosen (am_inst m)
  | _ => True
  end.

Definition learner_event_ok (ev : learner_event) : Prop :=
  match ev with
  | LrnMsg msg => learner_msg_ok msg
  | _ => True
  end.

Hypothesis n_pos : 0 < n.
Hypothesis accepted_le : ∀ i, accepted i → i ≤ L.
Hypothesis L_bound : Z.max L K + n < 2 ^ 64.

Lemma learner_init_ok : 0 ≤ L → 0 ≤ K → learner_ok (ring_learner_init n).
Proof using n_pos L_bound.
  intros HL HK. constructor; [by apply delivery_queue_init_good|done|]. by constructor; try apply Forall_nil_2.
Qed.

Lemma learner_exec_spec (ev : learner_event) l : learner_ok l → learner_event_ok ev →
  wp (learner_exec ev) (λ _ l', learner_ok l' ∧ (match ev with LrnTick _ => drained l' | _ => True end)) l.
Proof using n_pos L_bound accepted_le.
  intros H Hev. assert (∀ m, grows m → wp m (λ _ q', dq_good n L K accepted cmd_of chosen L q') (lrn_dq l) →
    wp (on_dq m) (λ _ l', learner_ok l' ∧ True) l) as Hon.
  { intros m Hm Hwp. eapply wp_mono; [by apply on_dq_spec|]. by intros [] l'. }
  assert (wp (mret tt) (λ _ l', learner_ok l' ∧ True) l) as Hskip by by apply wp_ret.
  pose proof (lo_dq _ H) as Hq. destruct ev as [msg| |now]; cbn in Hev |- *.
  - destruct msg as [?|?|?|m|m|?|?|?]; try exact Hskip; destruct Hev as [HL Hv]; unfold on_mcast_msg; wp_steps;
      (apply wp_assert; [by apply Z.eqb_eq|]); wp_steps; apply Hon.
    + apply grows_command_map.
    + rewrite Hv. by apply handle_command_map_spec.
    + apply grows_acceptance.
    + rewrite Hv. by apply handle_acceptance_spec.
  - apply Hon; [apply grows_deliver_loop|]. destruct Hq as (hd & Hinv & _). by eapply wp_dq_deliver_loop.
  - apply learner_tick_spec; [done|]. by apply dq_periodic_check_spec.
Qed.

Lemma learner_run_spec evs l : learner_ok l → Forall learner_event_ok evs →
  wp (mfor evs learner_exec) (λ _ l', learner_ok l') l.
Proof using n_pos L_bound accepted_le.
  intros H Hevs. apply (wp_mfor_inv learner_ok); [done| |done]. intros ev l1 Hev H1.
  eapply wp_mono; [apply learner_exec_spec; [done|by eapply list.Forall_forall]|]. by intros [] l2 [? _].
Qed.

(** What a sound learner has delivered. *)
Lemma learner_ok_deliveries l : learner_ok l →
  0 ≤ highest_delivered (lrn_dq l) ∧ (∀ i, 1 ≤ i ≤ highest_delivered (lrn_dq l) → accepted i) ∧
  deliveries (dq_log (lrn_dq l)) = delivery_of cmd_of chosen <$> range 1 (highest_delivered (lrn_dq l)).
Proof. intros [(hd & [[] _] & _) _ _]. rewrite df_hd. split_and!; [lia|done|done]. Qed.
End learner.


Definition example_learner_run : list learner_event :=
  [LrnMsg (MCmdmap (mk_cmdmap_msg 2 (mk_command_id 3 4 2) [x63])); LrnMsg (MAcceptance (mk_acceptance_msg 2 (mk_command_id 3 4 2)));
   LrnPacketEnd; LrnTick (mk_timeval 5 20);
   LrnMsg (MAcceptance (mk_acceptance_msg 1 (mk_command_id 3 4 1)));
   LrnMsg (MCmdmap (mk_cmdmap_msg 1 (mk_command_id 3 4 1) [x61; x62])); LrnPacketEnd].


(** The same run, evaluated: the hole is requested, then both values are delivered. *)
Example learner_run_example :
  (λ p, (net_log p.2, deliveries (dq_log (lrn_dq p.2)))) <$> mfor example_learner_run learner_exec (ring_learner_init 4)
  = Some ([NetSend (MMapRequest [1]); NetSend (MChosenvalRequest [1]); NetFlush], [Deliver [x61; x62] 2; Deliver [x63] 1]).
Proof. vm_compute. reflexivity. Qed.
