(* ===== verification/RingSystem.v ===== *)
(** * The multicaster and the learners together

    What the multicaster sends is what the learners receive, lost, repeated and
    reordered by the network: the learners deliver the values of the clients in
    one order.  Then what a learner's requests do to the multicaster, and what
    the submit proxy lets through. *)
From Stdlib Require Import Init.Byte.
From S2P Require Import Prelude Timers RingUtil RingQueue RingMessages DeliveryQueue RingConfig McasterStorage RingMcaster RingMcasterInv RingMcasterProps RingLearner RingLearnerProps.

Implicit Types (subs : list (list byte)) (msg : ring_msg) (l : ring_learner) (i : Z).

(** ** The log of the multicaster, as a learner sees it *)

Section log.
Context (cfg : config_mngr) (subs : list (list byte)).

(** The command that a key names in an instance; the other key that is sent for an
    instance is the empty one, with no command. *)
Definition ring_cmd i (key : command_id) : list byte :=
  if decide (key = key_of cfg i) then default [] (value_of subs i) else [].

(** A learner receives what the multicaster sent. *)
Definition from_group (log : list ring_msg) (ev : learner_event) : Prop :=
  match ev with
  | LrnMsg msg => msg ∈ log
  | _ => True
  end.

Definition accepted_in w (acked : Z → Prop) i : Prop := 1 ≤ i ≤ w_open w ∧ acked i.

Lemma mcast_ok_learner w acked msg : mcast_ok cfg w subs acked msg →
  learner_msg_ok (w_p1 w + 1) (accepted_in w acked) ring_cmd (key_of cfg) msg.
Proof.
  destruct msg as [| | |m|m| | |]; cbn; try done.
  - intros [Hi Hv]. split; [lia|]. unfold ring_cmd. destruct Hv as [[-> ->]|(_ & -> & ->)].
    + by rewrite decide_False by (intros E; symmetry in E; by eapply key_of_not_clear).
    + by rewrite decide_True.
  - intros (Hi & Hk & Ha). by split.
Qed.

Definition deliver_value (v : list byte) : dq_event := Deliver v (cmd_len v).

Lemma delivery_of_value i v : value_of subs i = Some v → delivery_of ring_cmd (key_of cfg) i = deliver_value v.
Proof. intros E. unfold delivery_of, ring_cmd. by rewrite decide_True, E. Qed.

(** The values of the instances [1] to [hd] are the first [hd] of [subs]. *)
Lemma deliveries_take (hd : Z) : 0 ≤ hd ≤ Z.of_nat (length subs) →
  delivery_of ring_cmd (key_of cfg) <$> range 1 hd = deliver_value <$> take (Z.to_nat hd) subs.
Proof.
  intros [H0 Hle]. revert Hle. pattern hd. apply natlike_ind; [done| |done].
  clear. intros hd H0 IH Hle. rewrite <-Z.add_1_r in *. rewrite range_snoc by lia. rewrite fmap_app, IH by lia.
  destruct (lookup_lt_is_Some_2 subs (Z.to_nat hd)) as [v Hv]; [lia|].
  replace (Z.to_nat (hd + 1)) with (S (Z.to_nat hd)) by lia. rewrite (take_S_r _ _ _ Hv), fmap_app. f_equal. cbn.
  by rewrite (delivery_of_value _ v) by (unfold value_of; by replace (hd + 1 - 1) with hd by lia).
Qed.
End log.

(** ** Total order *)

Section system.
Context {Q : Type} `{!DequeOps Q (list byte), !Deque Q (list byte)} (cfg : config_mngr).
Context (Hcfg : config_ok cfg).
Implicit Types (a : multicaster Q).

Lemma learner_of_multicaster a subs acked n (levs : list learner_event) :
  mc_inv cfg a subs acked → 0 < n < 2 ^ 63 → Forall (from_group (mcast_sent a)) levs →
  wp (mfor levs learner_exec) (λ _ l,
      0 ≤ highest_delivered (lrn_dq l) ≤ Z.of_nat (length subs) ∧
      deliveries (dq_log (lrn_dq l)) = deliver_value <$> take (Z.to_nat (highest_delivered (lrn_dq l))) subs ∧
      ∀ i, 1 ≤ i ≤ highest_delivered (lrn_dq l) → acked i)
    (ring_learner_init n).
Proof using Hcfg.
  intros H Hn Hlevs. pose proof (to_counts _ _ _ _ _ _ (mi_table _ _ _ _ H)) as Hc. cbn in Hc.
  pose proof (mi_bound _ _ _ _ H) as Hb. pose proof (mi_subs _ _ _ _ H) as Hs.
  set (L := highest_open_iid a) in *. set (K := p1_highest_open a + 1).
  assert (∀ i, accepted_in (window_of a) acked i → i ≤ L) as Hacc by (intros i [[_ ?] _]; done).
  eapply wp_mono.
  - apply (learner_run_spec n L K (accepted_in (window_of a) acked) (ring_cmd cfg subs) (key_of cfg)); try (unfold K; lia); try done.
    + apply learner_init_ok; unfold K; lia.
    + eapply list.Forall_impl; [exact Hlevs|]. intros [msg| |]; try done. intros Hin.
      apply (mcast_ok_learner cfg subs (window_of a) acked). exact (proj1 (list.Forall_forall _ _) (mi_log _ _ _ _ H) _ Hin).
  - intros [] l Hl. destruct (learner_ok_deliveries _ _ _ _ _ _ _ Hl) as (Hhd & Hall & Hd).
    assert (highest_delivered (lrn_dq l) ≤ Z.of_nat (length subs)) as Hle.
    { destruct (Z.le_gt_cases (highest_delivered (lrn_dq l)) 0); [lia|].
      destruct (Hall (highest_delivered (lrn_dq l))) as [? _]; [lia|]. cbn in *. lia. }
    split; [lia|]. split; [|by intros i Hi; apply Hall].
    rewrite Hd. by apply deliveries_take.
Qed.
End system.

(** The run of [one_value_run], and a learner that gets its messages in the wrong
    order, one of them twice. *)
Definition one_value_learner : list learner_event :=
  [LrnMsg (MAcceptance (mk_acceptance_msg 1 (key_of small_cfg 1))); LrnPacketEnd; LrnTick (at_ms 2);
   LrnMsg (MCmdmap (mk_cmdmap_msg 1 (key_of small_cfg 1) [x01; x02]));
   LrnMsg (MCmdmap (mk_cmdmap_msg 1 (key_of small_cfg 1) [x01; x02])); LrnPacketEnd].

Example one_value_delivered :
  (λ p, deliveries (dq_log (lrn_dq p.2))) <$> mfor one_value_learner learner_exec (ring_learner_init 4) =
  Some [deliver_value [x01; x02]].
Proof. vm_compute. reflexivity. Qed.

(** ** A learner that is late stops the multicaster *)

Section stale.
Context {Q : Type} `{!DequeOps Q (list byte)} (cfg : config_mngr).
Implicit Types (a : multicaster Q).

(** The record of instance [i] was reused for a later instance. *)
Definition overwritten a i : Prop :=
  ∃ mir, arr_get (mirs (msm a)) (i mod array_size (msm a)) = Some mir ∧ i < mir_inst mir.

Lemma storage_get_overwritten a i : array_size (msm a) ≠ 0 → 0 ≤ i → overwritten a i →
  on_msm (mcaster_storage_get i) a = None.
Proof.
  intros Hs Hi (mir & Hm & Hlt). unfold on_msm, zoom, mcaster_storage_get, get_mir, mbind, M_bind, get, c_assert, lift_opt.
  rewrite (proj2 (Z.eqb_neq _ _) Hs). cbv beta iota zeta delta [negb]. rewrite Hm. cbv beta iota.
  rewrite (proj2 (Z.eqb_neq (mir_inst mir) 0)) by lia. rewrite (proj2 (Z.ltb_ge (mir_inst mir) i)) by lia.
  by rewrite (proj2 (Z.ltb_lt i (mir_inst mir))).
Qed.

(** The multicaster keeps the instances of its table only until their
    records are reused.  A request of a learner whose first instance is older
    stops the multicaster, whichever kind of request it is. *)
Theorem stale_request_stops_multicaster a junk i insts :
  array_size (msm a) ≠ 0 → 0 ≤ i → overwritten a i →
  on_predecessor_msg_leader cfg junk (MMapRequest (i :: insts)) (REQS_MSG_SIZE (i :: insts)) a = None ∧
  on_predecessor_msg_leader cfg junk (MChosenvalRequest (i :: insts)) (REQS_MSG_SIZE (i :: insts)) a = None.
Proof.
  intros Hs Hi Ho. pose proof (storage_get_overwritten _ _ Hs Hi Ho) as E.
  unfold on_predecessor_msg_leader, mcaster_handle_map_request, mcaster_handle_chosenval_request, map_request_body,
    chosenval_request_body, mbind, M_bind, c_assert. rewrite !Z.eqb_refl. cbn [mfor]. unfold mbind, M_bind. by rewrite !E.
Qed.
End stale.

(** Eight instances are decided two by two, and the next two are opened, with a
    table of eight records. *)
Definition two_values (i : Z) : list mc_event :=
  let value k := [EvClient (MSubmit [x01]); EvTick clear_cmd_key (at_ms 0) (at_ms 0) (at_ms 0);
                  EvRing clear_cmd_key (MPhase2 (mk_phase2_msg k first_ballot 2 (key_of small_cfg k)))] in
  [EvTick clear_cmd_key (at_ms 0) (at_ms 0) (at_ms 0);
   EvRing clear_cmd_key (MPhase1Range (mk_phase1_range_msg i (i + 1) first_ballot 2))] ++ value i ++ value (i + 1).

Definition eight_values_run : list mc_event :=
  two_values 1 ++ two_values 3 ++ two_values 5 ++ two_values 7 ++ [EvTick clear_cmd_key (at_ms 0) (at_ms 0) (at_ms 0)].

(** Of all that, a learner receives the last acceptance. *)
Definition late_learner : list learner_event :=
  [LrnMsg (MAcceptance (mk_acceptance_msg 8 (key_of small_cfg 8))); LrnPacketEnd; LrnTick (at_ms 1)].

Lemma stale_request_stops_multicaster_witness :
  ∃ (a : multicaster client_queue) l,
    run_from_init small_cfg eight_values_run = Some a ∧ highest_closed_iid a = 8 ∧
    Forall (from_group (mcast_sent a)) late_learner ∧
    mfor late_learner learner_exec (ring_learner_init (working_set_size small_cfg)) = Some (tt, l) ∧
    NetSend (MMapRequest [1; 2; 3]) ∈ net_log l ∧
    on_predecessor_msg_leader small_cfg clear_cmd_key (MMapRequest [1; 2; 3]) (REQS_MSG_SIZE [1; 2; 3]) a = None.
Proof.
  destruct (run_from_init small_cfg eight_values_run) as [a|] eqn:E; [|by vm_compute in E].
  destruct (mfor late_learner learner_exec (ring_learner_init (working_set_size small_cfg))) as [[[] l]|] eqn:El; [|by vm_compute in El].
  exists a, l. assert (array_size (msm a) = 8 ∧ overwritten a 1 ∧ highest_closed_iid a = 8 ∧
    MAcceptance (mk_acceptance_msg 8 (key_of small_cfg 8)) ∈ mcast_sent a) as (Hs & Ho & Hc & Hin).
  { vm_compute in E. injection E as <-. split_and!; [reflexivity|eexists; split; [vm_compute; reflexivity|by vm_compute]|reflexivity|].
    rewrite list_elem_of_In. cbn. tauto. }
  assert (NetSend (MMapRequest [1; 2; 3]) ∈ net_log l) as Hreq.
  { vm_compute in El. injection El as <-. rewrite list_elem_of_In. cbn. tauto. }
  clear E El. split_and!; try done; [by repeat apply list.Forall_cons_2|].
  apply (stale_request_stops_multicaster small_cfg a clear_cmd_key 1 [2; 3]); [by rewrite Hs|lia|done].
Defined.

(** ** What the submit proxy lets through *)

(** [LARGEST_PAXOS_HEADER] is said to be the header of phase 1, which has 40
    bytes; it is also less than the header of a mapping.  A command of 8957 bytes
    passes the check of the proxy and is queued by the multicaster, which then
    overflows the buffer that it makes the mapping in. *)
Definition submit_run (v : list byte) : list mc_event :=
  [EvTick clear_cmd_key (at_ms 0) (at_ms 0) (at_ms 0);
   EvRing clear_cmd_key (MPhase1Range (mk_phase1_range_msg 1 2 first_ballot 2));
   EvClient (MSubmit v)].

(** The commands that the submit proxy accepts are those of at most 8958
    bytes; the multicaster overflows a buffer for one of 8957 bytes, and not for
    one of 8956, and the limit that the sizes of the messages imply is 8940. *)
Theorem submit_proxy_oversize :
  (∀ v, submit_command v = Some (MSubmit v) ↔ cmd_len v ≤ 8958) ∧
  MAX_COMMAND_SIZE = 8940 ∧
  (let tick := EvTick clear_cmd_key (at_ms 1) (at_ms 1) (at_ms 1) in
   let ends evs := match run_from_init small_cfg evs with Some _ => true | None => false end in
   let value (n : Z) := replicate (Z.to_nat n) x00 in
   ends (submit_run (value 8957)) = true ∧
   ends (submit_run (value 8957) ++ [tick]) = false ∧
   ends (submit_run (value 8956) ++ [tick]) = true).
Proof.
  split_and!; [|by vm_compute..]. intros v. unfold submit_command, ring_msg_size, sizeof_submit_cmd_msg.
  change (MAX_MESSAGE_SIZE - LARGEST_PAXOS_HEADER) with 8966. destruct (Z.ltb_spec 8966 (8 + cmd_len v)); split; try done; lia.
Qed.
