(* ===== verification/RingQuorum.v ===== *)
(** * The whole ring: multicaster, acceptors and network

    The processes of one ring and the messages between them.  A message for a
    successor stays in the network, so that it may be lost, delivered late, twice
    or in any order; what the multicaster sends to the group may reach an acceptor
    or not.  The accepts that come back to the multicaster are then those of
    distinct acceptors, each of which held the command as accepted. *)
From Stdlib Require Import Init.Byte.
From S2P Require Import Prelude Steps Timers RingUtil RingQueue RingMessages RingConfig RingTopology RingStorage RingAcceptor RingAcceptorProps McasterStorage RingMcaster RingMcasterInv RingMcasterProps DeliveryQueue RingLearner RingLearnerProps RingSystem.

Implicit Types (msg : ring_msg) (ra : ring_acceptor) (i j : Z) (key : command_id).

(** ** What an acceptor sends *)

Definition is_phase2 msg : bool := match msg with MPhase2 _ => true | _ => false end.

(** The table of the acceptor has a record of instance [i] in which the command
    [key] is accepted at ballot [b]. *)
Definition voted ra i (b : Z) key : Prop :=
  ∃ ir, ir ∈ instances_array (ssm ra) ∧ ir_inst ir = i ∧ accept_ballot ir = b ∧ accepted_cmd_key ir = key.

(** Nothing is sent, and the table keeps its size. *)
Definition quiet ra ra' : Prop :=
  acc_sent ra' = acc_sent ra ∧ length (instances_array (ssm ra')) = length (instances_array (ssm ra)).
(** No phase 2 message is sent. *)
Definition no_votes ra ra' : Prop :=
  ∃ new, acc_sent ra' = acc_sent ra ++ new ∧ Forall (λ msg, is_phase2 msg = false) new.

#[local] Instance quiet_preorder : PreOrder quiet.
Proof. split; [done|]. intros a1 a2 a3 [] []. split; congruence. Qed.
#[local] Instance no_votes_preorder : PreOrder no_votes.
Proof.
  split.
  - intros a. exists []. by rewrite app_nil_r.
  - intros a1 a2 a3 (n1 & E1 & H1) (n2 & E2 & H2). exists (n1 ++ n2). rewrite E2, E1, app_assoc. split; [done|].
    by apply Forall_app_2.
Qed.

Lemma quiet_no_votes ra ra' : quiet ra ra' → no_votes ra ra'.
Proof. intros [E _]. exists []. by rewrite E, app_nil_r. Qed.

(** The operations of the storage. *)
Definition same_table (g g' : stable_storage_mngr) : Prop := length (instances_array g') = length (instances_array g).
#[local] Instance same_table_preorder : PreOrder same_table.
Proof. split; [done|]. intros g1 g2 g3. unfold same_table. congruence. Qed.

Ltac solve_ssm := solve_steps_with ltac:(apply steps_modify; intros ?; unfold same_table; cbn; by rewrite ?length_arr_set).

Lemma ssm_get_ir k : steps same_table (get_ir k).
Proof. unfold get_ir. solve_ssm. Qed.
Lemma ssm_put_ir k ir : steps same_table (put_ir k ir).
Proof. unfold put_ir. solve_ssm. Qed.
#[local] Hint Resolve ssm_get_ir ssm_put_ir : steps.
Lemma ssm_index_same inst : steps same_table (ssm_index inst).
Proof. unfold ssm_index. solve_ssm. Qed.
#[local] Hint Resolve ssm_index_same : steps.
Lemma ssm_get_record_same inst : steps same_table (ssm_get_record inst).
Proof. unfold ssm_get_record. solve_ssm. Qed.
#[local] Hint Resolve ssm_get_record_same : steps.
Lemma ssm_get_command_slot_same inst : steps same_table (ssm_get_command_slot inst).
Proof. unfold ssm_get_command_slot. solve_ssm. Qed.
Lemma mem_read_same p n : steps same_table (mem_read p n).
Proof. unfold mem_read. solve_ssm. Qed.
Lemma mem_write_same p v : steps same_table (mem_write p v).
Proof. unfold mem_write. solve_ssm. Qed.
Lemma mem_free_same p : steps same_table (mem_free p).
Proof. unfold mem_free. solve_ssm. Qed.
Lemma mem_malloc_same n : steps same_table (mem_malloc n).
Proof. intros g. done. Qed.
#[local] Hint Resolve ssm_get_command_slot_same mem_read_same mem_write_same mem_free_same mem_malloc_same : steps.

Lemma on_ssm_quiet {A} (m : SM A) : steps same_table m → steps quiet (on_ssm m).
Proof. intros H ra. unfold on_ssm. apply wlp_zoom, (wlp_steps same_table); [done|]. intros a g E. by split. Qed.

Lemma on_ssm_no_votes {A} (m : SM A) : steps no_votes (on_ssm m).
Proof. apply steps_zoom. intros ra g. exists []. by rewrite app_nil_r. Qed.
#[local] Hint Resolve on_ssm_no_votes : steps.

Lemma send_no_votes msg : is_phase2 msg = false → steps no_votes (send_successor msg).
Proof. intros H. apply steps_modify. intros ra. exists [msg]. split; [done|]. by apply Forall_singleton. Qed.

Ltac solve_no_votes := solve_steps_with ltac:(first
  [ by apply send_no_votes
  | apply steps_modify; intros ?; apply quiet_no_votes; by repeat case_match ]).

Lemma phase1_no_votes junk m size : steps no_votes (acceptor_handle_phase1_msg junk m size).
Proof. unfold acceptor_handle_phase1_msg. solve_no_votes. Qed.
#[local] Hint Resolve phase1_no_votes : steps.
Lemma range_promise_no_votes b i : steps no_votes (range_promise_body b i).
Proof. unfold range_promise_body. solve_no_votes. Qed.
#[local] Hint Resolve range_promise_no_votes : steps.
Lemma phase1_range_no_votes junk m size : steps no_votes (acceptor_handle_phase1_range_msg junk m size).
Proof. unfold acceptor_handle_phase1_range_msg, for_le. solve_no_votes. Qed.
Lemma store_secondary_no_votes k ir m : steps no_votes (store_secondary k ir m).
Proof. unfold store_secondary. solve_no_votes. Qed.
Lemma assert_same_no_votes p n m : steps no_votes (assert_same_cmd p n m).
Proof. unfold assert_same_cmd. solve_no_votes. Qed.
#[local] Hint Resolve store_secondary_no_votes assert_same_no_votes : steps.
Lemma cmdmap_no_votes m size : steps no_votes (acceptor_handle_cmdmap_msg m size).
Proof. unfold acceptor_handle_cmdmap_msg. solve_no_votes. Qed.

(** A phase 2 message is sent with one more accept, when the record has the
    command of the message as accepted. *)
Definition one_vote (m : phase2_msg) ra ra' : Prop :=
  acc_sent ra' = acc_sent ra ∨
  acc_sent ra' = acc_sent ra ++ [MPhase2 (m <| p2_accepts_count := u32 (p2_accepts_count m + 1) |>)] ∧
  voted ra' (p2_inst m) (p2_ballot m) (p2_key m).

Lemma wlp_quiet {A B} ra0 (x : RA A) (f : A → RA B) (Q : B → ring_acceptor → Prop) ra :
  quiet ra0 ra → steps quiet x → (∀ a ra', quiet ra0 ra' → wlp (f a) Q ra') → wlp (x ≫= f) Q ra.
Proof. intros H0 Hx H. apply wlp_bind, (wlp_steps quiet); [done|]. intros a ra' H'. apply H. by etrans. Qed.

Lemma p2_store_votes k ir m ra ra0 : quiet ra0 ra → 0 ≤ k < Z.of_nat (length (instances_array (ssm ra0))) →
  ir_inst ir = p2_inst m → accepted_cmd_key ir = p2_key m → wlp (p2_store_and_send k ir m) (λ _ ra', one_vote m ra0 ra') ra.
Proof.
  intros [E1 E2] Hk Hi Hkey. unfold p2_store_and_send, on_ssm, send_successor.
  apply wlp_bind, wlp_zoom, wlp_modify, wlp_modify. right. cbn. rewrite E1. split; [done|].
  set (ir' := ir <| ir_ballot := p2_ballot m |> <| accept_ballot := p2_ballot m |>).
  exists ir'. split; [|by split_and!]. cbn. apply list_elem_of_lookup. exists (Z.to_nat k).
  assert (arr_get (arr_set (instances_array (ssm ra)) k ir') k = Some ir') as [_ H]%arr_get_Some; [|exact H].
  apply arr_get_set_eq. by rewrite E2.
Qed.

Lemma phase2_votes m size ra : wlp (acceptor_handle_phase2_msg m size) (λ _ ra', one_vote m ra ra') ra.
Proof.
  unfold acceptor_handle_phase2_msg. apply wlp_bind, wlp_assert. intros _.
  eapply wlp_quiet; [reflexivity|apply on_ssm_quiet; auto with steps|]. intros k ra1 Q1. apply wlp_bind, wlp_zoom. unfold get_ir.
  apply wlp_get, wlp_lift_opt. intros ir Hir. replace (ra1 <| ssm := ssm ra1 |>) with ra1 by (by destruct ra1).
  apply wlp_bind, wlp_assert. intros Hi%Z.eqb_eq.
  pose proof (arr_get_lt _ _ _ Hir) as Hk. rewrite (proj2 Q1) in Hk.
  destruct (p2_ballot m <? ir_ballot ir); [apply wlp_ret; left; apply Q1|]. cbv zeta. rewrite !CMD_KEY_EQUALS_decide.
  apply wlp_bind, wlp_assert. intros _. destruct (negb _ && negb _); [apply wlp_ret; left; apply Q1|].
  eapply wlp_quiet; [exact Q1|apply steps_modify; intros ?; by case_match|]. intros _ ra2 Q2.
  eapply wlp_quiet; [exact Q2|apply on_ssm_quiet; auto with steps|]. intros slot ra3 Q3.
  repeat first
    [ eapply p2_store_votes; [eassumption|exact Hk|exact Hi|cbn; congruence]
    | discriminate
    | case_bool_decide; cbn [negb andb]
    | apply wlp_bind, wlp_assert; intros ?
    | eapply wlp_quiet; [eassumption|apply on_ssm_quiet; solve [auto with steps]|intros ? ? ?] ].
Qed.

(** What one message or event makes an acceptor send. *)
Lemma event_votes self junk ev ra : wlp (handle_event self junk ev) (λ _ ra', no_votes ra ra' ∨
  ∃ m, (ev = EvPredecessor (MPhase2 m) ∨ ev = EvMulticast (MPhase2 m) ∧ self = 2) ∧ one_vote m ra ra') ra.
Proof.
  assert (∀ x : RA unit, steps no_votes x → wlp x (λ _ ra', no_votes ra ra' ∨
    ∃ m, (ev = EvPredecessor (MPhase2 m) ∨ ev = EvMulticast (MPhase2 m) ∧ self = 2) ∧ one_vote m ra ra') ra) as Hno.
  { intros x Hx. eapply wlp_steps; [exact Hx|]. auto. }
  pose proof (steps_ret no_votes tt) as Hret.
  destruct ev as [msg|msg]; destruct msg; cbn [handle_event on_predecessor_msg on_multicast_msg]; try (by apply Hno).
  - apply Hno, phase1_no_votes.
  - apply Hno, phase1_range_no_votes.
  - eapply wlp_mono; [apply phase2_votes|]. intros ? ra' H. right. eauto.
  - destruct (am_i_first_in_ring self) eqn:E; [|by apply Hno]. apply Z.eqb_eq in E.
    eapply wlp_mono; [apply phase2_votes|]. intros ? ra' H. right. eauto.
  - apply Hno, cmdmap_no_votes.
Qed.

(** ** What the multicaster sends *)

Definition fresh_phase2 msg : bool := match msg with MPhase2 m => p2_accepts_count m =? 0 | _ => true end.

Section mcaster.
Context {Q : Type} `{!DequeOps Q (list byte)} (cfg : config_mngr).
Implicit Types (a : multicaster Q).

(** Phase 2 starts at the group, with no accepts. *)
Definition mc_sends a a' : Prop :=
  (∃ new, succ_sent a' = succ_sent a ++ new ∧ Forall (λ msg, is_phase2 msg = false) new) ∧
  (∃ new, mcast_sent a' = mcast_sent a ++ new ∧ Forall (λ msg, fresh_phase2 msg = true) new).

#[local] Instance mc_sends_preorder : PreOrder mc_sends.
Proof.
  split.
  - intros a. split; exists []; by rewrite app_nil_r.
  - intros a1 a2 a3 [(s1 & E1 & H1) (m1 & F1 & G1)] [(s2 & E2 & H2) (m2 & F2 & G2)]. split.
    + exists (s1 ++ s2). rewrite E2, E1, app_assoc. split; [done|]. by apply Forall_app_2.
    + exists (m1 ++ m2). rewrite F2, F1, app_assoc. split; [done|]. by apply Forall_app_2.
Qed.

Lemma mc_sends_same a a' : succ_sent a' = succ_sent a → mcast_sent a' = mcast_sent a → mc_sends a a'.
Proof. intros E1 E2. split; exists []; by rewrite app_nil_r. Qed.

Lemma on_msm_sends {A} (m : M (mcaster_storage_mngr Q) A) : steps mc_sends (on_msm m).
Proof. apply steps_zoom. intros a g. by apply mc_sends_same. Qed.
Lemma send_succ_sends msg : is_phase2 msg = false → steps mc_sends (send_succ (Q := Q) msg).
Proof.
  intros H. apply steps_modify. intros a. split; [exists [msg]|exists []]; cbn; rewrite ?app_nil_r; split; try done.
  by apply Forall_singleton.
Qed.
Lemma send_mcast_sends msg : fresh_phase2 msg = true → steps mc_sends (send_mcast (Q := Q) msg).
Proof.
  intros H. apply steps_modify. intros a. split; [exists []|exists [msg]]; cbn; rewrite ?app_nil_r; split; try done.
  by apply Forall_singleton.
Qed.
#[local] Hint Resolve on_msm_sends : steps.

Ltac solve_sends := solve_steps_with ltac:(first
  [ by apply send_succ_sends | by apply send_mcast_sends
  | apply steps_modify; intros ?; by apply mc_sends_same ]).

Lemma update_mir_sends k f : steps mc_sends (update_mir (Q := Q) k f).
Proof. unfold update_mir. solve_sends. Qed.
Lemma deadline_sends tv : steps mc_sends (deadline (Q := Q) tv).
Proof. unfold deadline. solve_sends. Qed.
#[local] Hint Resolve update_mir_sends deadline_sends : steps.
Lemma do_phase1_sends junk k : steps mc_sends (mcaster_do_phase1 (Q := Q) cfg junk k).
Proof. unfold mcaster_do_phase1. solve_sends. Qed.
Lemma do_phase1_range_sends from to b : steps mc_sends (mcaster_do_phase1_range (Q := Q) from to b).
Proof. unfold mcaster_do_phase1_range. solve_sends. Qed.
Lemma do_phase2_sends k : steps mc_sends (mcaster_do_phase2 (Q := Q) cfg k).
Proof. unfold mcaster_do_phase2. solve_sends. Qed.
Lemma broadcast_mapping_sends k : steps mc_sends (mcaster_broadcast_mapping (Q := Q) cfg k).
Proof. unfold mcaster_broadcast_mapping. solve_sends. Qed.
Lemma broadcast_acceptance_sends k : steps mc_sends (mcaster_broadcast_acceptance (Q := Q) k).
Proof. unfold mcaster_broadcast_acceptance. solve_sends. Qed.
#[local] Hint Resolve do_phase1_sends do_phase1_range_sends do_phase2_sends broadcast_mapping_sends broadcast_acceptance_sends : steps.

Lemma clock_sends t : steps mc_sends (mcaster_update_wallclock (Q := Q) t).
Proof. unfold mcaster_update_wallclock. solve_sends. Qed.
Lemma open_P1_sends : steps mc_sends (mcaster_open_new_instances_P1 (Q := Q) cfg).
Proof. unfold mcaster_open_new_instances_P1, for_le_u32, open_p1_body. solve_sends. Qed.
Lemma check_expired_sends junk : steps mc_sends (mcaster_check_expired_instances (Q := Q) cfg junk).
Proof. unfold mcaster_check_expired_instances, for_le, check_expired_body. solve_sends. Qed.
Lemma open_p2_body_sends : steps mc_sends (open_p2_body (Q := Q) cfg).
Proof. unfold open_p2_body. solve_sends. Qed.
#[local] Hint Resolve clock_sends open_P1_sends check_expired_sends open_p2_body_sends : steps.
Lemma open_p2_loop_sends fuel n : steps mc_sends (open_p2_loop (Q := Q) cfg fuel n).
Proof. revert n. induction fuel as [|fuel IH]; intros n; cbn [open_p2_loop]; solve_sends; apply IH. Qed.
#[local] Hint Resolve open_p2_loop_sends : steps.
Lemma periodic_check_sends junk t1 t2 t3 : steps mc_sends (on_mcaster_periodic_check (Q := Q) cfg junk t1 t2 t3).
Proof. unfold on_mcaster_periodic_check, mcaster_open_new_instances_P2. solve_sends. Qed.

Lemma close_loop_sends fuel k : steps mc_sends (close_loop (Q := Q) fuel k).
Proof. revert k. induction fuel as [|fuel IH]; intros k; cbn [close_loop]; solve_sends; apply IH. Qed.
#[local] Hint Resolve close_loop_sends periodic_check_sends : steps.

Lemma mc_exec_sends ev : steps mc_sends (mc_exec cfg ev).
Proof.
  destruct ev as [t|junk t1 t2 t3|junk msg|msg]; cbn [mc_exec]; [solve_sends|solve_sends|..].
  - unfold on_predecessor_msg_leader, mcaster_handle_phase1_msg, mcaster_handle_phase1_range_msg, mcaster_handle_phase2_msg,
      mcaster_handle_map_request, mcaster_handle_chosenval_request, map_request_body, chosenval_request_body, for_le_u32, range_done_body.
    solve_sends.
  - unfold client_values_mngr_handle_data, mcaster_handle_value_submit. solve_sends.
Qed.
End mcaster.

(** ** The system *)

Section system.
Context {Q : Type} `{!DequeOps Q (list byte)} (cfg : config_mngr).

(** A message of [sys_net] is for the process with the given id. *)
Record ring_sys := mk_ring_sys {
  sys_mc : multicaster Q;
  sys_acc : gmap Z ring_acceptor;
  sys_net : list (Z * ring_msg)
}.
Implicit Types (s : ring_sys).

(** What happens: the multicaster handles an event; the acceptor [j] handles a
    message of its predecessor, or one of the multicast group.  [junk] is the
    contents of its stack. *)
Inductive sys_event :=
  | SysMcaster (ev : mc_event)
  | SysRing (j : Z) (junk : stack_junk) (msg : ring_msg)
  | SysGroup (j : Z) (junk : stack_junk) (msg : ring_msg).
Implicit Types (ev : sys_event) (evs : list sys_event).

(** Messages for the successor of [j]. *)
Definition to_successor (j : Z) (msgs : list ring_msg) : list (Z * ring_msg) :=
  match lptopo_get_successor_id (as_acceptor j cfg) with
  | Some d => (λ msg, (d, msg)) <$> msgs
  | None => []
  end.

(** A process that stops leaves the others as they are. *)
Definition mcaster_step (ev : mc_event) s : ring_sys :=
  match mc_exec cfg ev (sys_mc s) with
  | Some (_, a) => mk_ring_sys a (sys_acc s)
      (sys_net s ++ to_successor 1 (drop (length (succ_sent (sys_mc s))) (succ_sent a)))
  | None => s
  end.

Definition acceptor_step (j : Z) (junk : stack_junk) (ev : ring_event) s : ring_sys :=
  match sys_acc s !! j with
  | Some ra =>
      match handle_event j junk ev ra with
      | Some (_, ra') => mk_ring_sys (sys_mc s) (<[j := ra']> (sys_acc s))
          (sys_net s ++ to_successor j (drop (length (acc_sent ra)) (acc_sent ra')))
      | None => s
      end
  | None => s
  end.

Definition sys_step s ev : ring_sys :=
  match ev with
  | SysMcaster ev => mcaster_step ev s
  | SysRing j junk msg => acceptor_step j junk (EvPredecessor msg) s
  | SysGroup j junk msg => acceptor_step j junk (EvMulticast msg) s
  end.

Definition sys_run evs s : ring_sys := foldl sys_step s evs.

(** A message is received only if it was sent; a request is of a learner.  An event
    of the multicaster other than a phase 2 message is one that does not stop it
    ([event_ok]). *)
Definition sys_ok ev s : Prop :=
  match ev with
  | SysMcaster (EvRing _ msg as ev) =>
      match msg with
      | MPhase2 _ => (1, msg) ∈ sys_net s
      | MMapRequest _ | MChosenvalRequest _ => event_ok cfg (sys_mc s) ev
      | _ => (1, msg) ∈ sys_net s ∧ event_ok cfg (sys_mc s) ev
      end
  | SysMcaster ev => event_ok cfg (sys_mc s) ev
  | SysRing j _ msg => (j, msg) ∈ sys_net s
  | SysGroup _ _ msg => msg ∈ mcast_sent (sys_mc s)
  end.

Fixpoint sys_safe evs s : Prop :=
  match evs with
  | [] => True
  | ev :: evs => sys_ok ev s ∧ sys_safe evs (sys_step s ev)
  end.

Definition sys_init : option ring_sys :=
  a ← multicaster_init cfg;
  Some (mk_ring_sys a (list_to_map ((λ j, (j, regular_acceptor_init (working_set_size cfg))) <$> range 2 (acceptors_count cfg))) []).

(** The events of the multicaster. *)
Definition mc_events evs : list mc_event := omap (λ ev, match ev with SysMcaster ev => Some ev | _ => None end) evs.

(** At some moment of the run, the acceptor [j] held [key] as accepted at ballot
    [b] for instance [i]. *)
Definition voted_in s0 evs j i (b : Z) key : Prop :=
  ∃ past ra, past `prefix_of` evs ∧ sys_acc (sys_run past s0) !! j = Some ra ∧ voted ra i b key.

Lemma voted_in_app s0 evs evs' j i b key : voted_in s0 evs j i b key → voted_in s0 (evs ++ evs') j i b key.
Proof. intros (past & ra & H & ?). exists past, ra. split; [by apply prefix_app_r|done]. Qed.

Lemma sys_run_snoc evs ev s : sys_run (evs ++ [ev]) s = sys_step (sys_run evs s) ev.
Proof. unfold sys_run. by rewrite foldl_app. Qed.

Lemma sys_safe_app evs evs' s : sys_safe (evs ++ evs') s ↔ sys_safe evs s ∧ sys_safe evs' (sys_run evs s).
Proof. revert s. induction evs as [|ev evs IH]; intros s; cbn; [tauto|]. rewrite IH. tauto. Qed.

(** *** The accepts of a message *)

(** The acceptors that a message passes before it reaches [d]. *)
Definition before j d : Prop := 2 ≤ j ≤ acceptors_count cfg ∧ (d = 1 ∨ j < d).

(** A phase 2 message on its way to [d] carries the votes of distinct acceptors,
    for the command that the multicaster proposed. *)
Definition backed s0 evs d (m : phase2_msg) : Prop :=
  (∃ m0, MPhase2 m0 ∈ mcast_sent (sys_mc (sys_run evs s0)) ∧ p2_inst m0 = p2_inst m ∧ p2_key m0 = p2_key m) ∧
  ∃ V : list Z, NoDup V ∧ p2_accepts_count m = Z.of_nat (length V) ∧
    ∀ j, j ∈ V → before j d ∧ voted_in s0 evs j (p2_inst m) (p2_ballot m) (p2_key m).

Record sys_inv s0 evs : Prop := {
  si_net d m : (d, MPhase2 m) ∈ sys_net (sys_run evs s0) → backed s0 evs d m;
  si_fresh : Forall (λ msg, fresh_phase2 msg = true) (mcast_sent (sys_mc (sys_run evs s0)));
  si_acc j ra : sys_acc (sys_run evs s0) !! j = Some ra → 2 ≤ j ≤ acceptors_count cfg
}.

Lemma distinct_votes (V : list Z) d : NoDup V → (∀ j, j ∈ V → before j d) → Z.of_nat (length V) ≤ Z.max 0 (acceptors_count cfg).
Proof.
  intros Hnd HV. assert (V ⊆+ range 1 (acceptors_count cfg)) as Hsub%submseteq_length.
  { apply NoDup_submseteq; [done|]. intros j Hj%HV. apply elem_of_range. unfold before in Hj. lia. }
  unfold range in Hsub. rewrite length_seqZ in Hsub. lia.
Qed.

Lemma step_mcast s ev : ∃ new, mcast_sent (sys_mc (sys_step s ev)) = mcast_sent (sys_mc s) ++ new ∧
  Forall (λ msg, fresh_phase2 msg = true) new.
Proof.
  destruct ev as [ev|j junk msg|j junk msg]; cbn [sys_step]; unfold mcaster_step, acceptor_step.
  - destruct (mc_exec cfg ev (sys_mc s)) as [[[] a]|] eqn:E; [apply (steps_run _ _ _ _ _ (mc_exec_sends cfg ev) E)|].
    exists []. by rewrite app_nil_r.
  - exists []. rewrite app_nil_r. by repeat case_match.
  - exists []. rewrite app_nil_r. by repeat case_match.
Qed.

Lemma backed_mono s0 evs ev d m : backed s0 evs d m → backed s0 (evs ++ [ev]) d m.
Proof.
  intros [(m0 & Hm0 & Hi & Hk) (V & Hnd & Hc & HV)]. split.
  - exists m0. split; [|done]. rewrite sys_run_snoc. destruct (step_mcast (sys_run evs s0) ev) as (new & -> & _).
    apply elem_of_app. by left.
  - exists V. split_and!; [done..|]. intros j Hj. destruct (HV j Hj). split; [done|]. by apply voted_in_app.
Qed.

Lemma to_successor_elem d msg j msgs : (d, msg) ∈ to_successor j msgs →
  lptopo_get_successor_id (as_acceptor j cfg) = Some d ∧ msg ∈ msgs.
Proof.
  unfold to_successor. destruct (lptopo_get_successor_id _) as [d'|]; [|by intros ?%not_elem_of_nil].
  intros (msg' & [= -> ->] & H)%list_elem_of_fmap. done.
Qed.

Lemma successor_after j d : 2 ≤ j ≤ acceptors_count cfg → acceptors_count cfg < 2 ^ 8 - 1 →
  lptopo_get_successor_id (as_acceptor j cfg) = Some d → d = 1 ∨ d = j + 1.
Proof.
  intros Hj HN. destruct (decide (j = acceptors_count cfg)) as [->|].
  - rewrite successor_last by lia. intros [= <-]. by left.
  - rewrite successor_next by lia. intros [= <-]. by right.
Qed.

(** The acceptor [j] adds its vote to those of a message that was backed before. *)
Lemma backed_vote s0 evs ev j d m ra : acceptors_count cfg < 2 ^ 8 - 1 → 2 ≤ j ≤ acceptors_count cfg →
  backed s0 evs j m → sys_acc (sys_run (evs ++ [ev]) s0) !! j = Some ra → voted ra (p2_inst m) (p2_ballot m) (p2_key m) →
  lptopo_get_successor_id (as_acceptor j cfg) = Some d →
  backed s0 (evs ++ [ev]) d (m <| p2_accepts_count := u32 (p2_accepts_count m + 1) |>).
Proof.
  intros HN Hj Hb Hra Hv Hd. destruct (backed_mono _ _ ev _ _ Hb) as [Hm0 _]. destruct Hb as [_ (V & Hnd & Hc & HV)].
  split; [done|]. exists (j :: V). assert (∀ k, k ∈ V → before k j) as Hbef by (intros k Hk; by apply HV).
  pose proof (distinct_votes V j Hnd Hbef) as Hlen. split_and!.
  - apply list.NoDup_cons. split; [|done]. intros [_ ?]%Hbef. lia.
  - cbn. rewrite wrap_small; lia.
  - cbn. pose proof (successor_after j d Hj HN Hd) as Hnext. intros k [->|Hk]%list.elem_of_cons.
    + split; [split; [done|lia]|]. by exists (evs ++ [ev]), ra.
    + destruct (HV k Hk) as [[? ?] ?]. split; [split; [done|lia]|]. by apply voted_in_app.
Qed.

(** A message that an acceptor with [ra] sends when it becomes [ra']. *)
Lemma acceptor_sends s0 evs ev j junk rev ra ra' :
  let s := sys_run evs s0 in
  acceptors_count cfg < 2 ^ 8 - 1 → sys_inv s0 evs → sys_acc s !! j = Some ra →
  sys_step s ev = acceptor_step j junk rev s → handle_event j junk rev ra = Some (tt, ra') →
  (∀ m, rev = EvPredecessor (MPhase2 m) ∨ rev = EvMulticast (MPhase2 m) ∧ j = 2 → backed s0 evs j m) →
  ∀ d m', (d, MPhase2 m') ∈ to_successor j (drop (length (acc_sent ra)) (acc_sent ra')) → backed s0 (evs ++ [ev]) d m'.
Proof.
  intros s HN [Hnet Hfresh Hacc] Hra Hstep E Hb d m' [Hd Hin]%to_successor_elem.
  pose proof (wlp_run _ _ _ _ _ E (event_votes j junk rev ra)) as [(new & En & Hnew)|(m & Hev & [En|[En Hv]])]; rewrite En in Hin.
  - rewrite drop_app_length in Hin. by pose proof (proj1 (list.Forall_forall _ _) Hnew _ Hin).
  - rewrite drop_all in Hin. by apply not_elem_of_nil in Hin.
  - rewrite drop_app_length in Hin. apply list_elem_of_singleton in Hin. injection Hin as ->.
    apply (backed_vote _ _ _ j _ _ ra'); try done; [by eapply Hacc|by apply Hb|].
    rewrite sys_run_snoc. fold s. rewrite Hstep. unfold acceptor_step. rewrite Hra, E. cbn. apply lookup_insert_eq.
Qed.

Lemma acceptor_step_inv s0 evs ev j junk rev :
  let s := sys_run evs s0 in
  acceptors_count cfg < 2 ^ 8 - 1 → sys_inv s0 evs → sys_step s ev = acceptor_step j junk rev s →
  (∀ m, rev = EvPredecessor (MPhase2 m) ∨ rev = EvMulticast (MPhase2 m) ∧ j = 2 → backed s0 evs j m) →
  sys_inv s0 (evs ++ [ev]).
Proof.
  intros s HN H Hstep Hb. pose proof H as [Hnet Hfresh Hacc].
  assert (Forall (λ msg, fresh_phase2 msg = true) (mcast_sent (sys_mc (sys_run (evs ++ [ev]) s0)))) as Hfresh'.
  { rewrite sys_run_snoc. destruct (step_mcast (sys_run evs s0) ev) as (new & -> & ?). by apply Forall_app_2. }
  assert (∀ d m, (d, MPhase2 m) ∈ sys_net s → backed s0 (evs ++ [ev]) d m) as Hold by (intros; by apply backed_mono, Hnet).
  constructor; [|done|]; rewrite sys_run_snoc; fold s; rewrite Hstep; unfold acceptor_step;
    destruct (sys_acc s !! j) as [ra|] eqn:Hra; try done.
  - destruct (handle_event j junk rev ra) as [[[] ra']|] eqn:E; [|exact Hold]. cbn. intros d m [Hin|Hin]%elem_of_app; [by apply Hold|].
    by eapply (acceptor_sends _ _ _ _ _ _ _ _ HN H Hra Hstep E Hb).
  - destruct (handle_event j junk rev ra) as [[[] ra']|] eqn:E; [|exact Hacc]. cbn. intros j' ra1.
    destruct (decide (j' = j)) as [->|Hne]; [intros _; by eapply Hacc|]. rewrite lookup_insert_ne by done. apply Hacc.
Qed.

Lemma mcaster_step_inv s0 evs (ev : mc_event) : sys_inv s0 evs → sys_inv s0 (evs ++ [SysMcaster ev]).
Proof.
  intros H. pose proof H as [Hnet Hfresh Hacc]. constructor.
  - intros d m. rewrite sys_run_snoc. cbn [sys_step]. unfold mcaster_step. set (s := sys_run evs s0) in *.
    destruct (mc_exec cfg ev (sys_mc s)) as [[[] a]|] eqn:E; [|intros; by apply backed_mono, Hnet].
    cbn. intros [Hin|Hin]%elem_of_app; [by apply backed_mono, Hnet|]. apply to_successor_elem in Hin as [_ Hin].
    destruct (steps_run _ _ _ _ _ (mc_exec_sends cfg ev) E) as [(new & En & Hnew) _]. rewrite En, drop_app_length in Hin.
    by pose proof (proj1 (list.Forall_forall _ _) Hnew _ Hin).
  - rewrite sys_run_snoc. destruct (step_mcast (sys_run evs s0) (SysMcaster ev)) as (new & -> & ?). by apply Forall_app_2.
  - intros j ra. rewrite sys_run_snoc. cbn [sys_step]. unfold mcaster_step. case_match; [case_match|]; apply Hacc.
Qed.

(** What the group receives has no votes. *)
Lemma group_backed s0 evs m : sys_inv s0 evs → MPhase2 m ∈ mcast_sent (sys_mc (sys_run evs s0)) → backed s0 evs 2 m.
Proof.
  intros [_ Hfresh _] Hin. split; [by exists m|]. exists []. split_and!; [by apply list.NoDup_nil| |by intros j ?%not_elem_of_nil].
  pose proof (proj1 (list.Forall_forall _ _) Hfresh _ Hin) as H. by apply Z.eqb_eq in H.
Qed.

Lemma sys_run_inv s0 evs : acceptors_count cfg < 2 ^ 8 - 1 → sys_inv s0 [] → sys_safe evs s0 → sys_inv s0 evs.
Proof.
  intros HN H0. induction evs as [|ev evs IH] using rev_ind; [done|].
  intros [Hs [Hok _]]%sys_safe_app. specialize (IH Hs).
  destruct ev as [ev|j junk msg|j junk msg]; [by apply mcaster_step_inv|eapply acceptor_step_inv; try done..]; cbn in Hok.
  - intros m [[= ->]|[? _]]; [|done]. by apply (si_net _ _ IH).
  - intros m [?|[[= ->] ->]]; [done|]. by apply group_backed.
Qed.
End system.

(** ** Safety of the ring *)

Section safety.
Context {Q : Type} `{!DequeOps Q (list byte), !Deque Q (list byte)} (cfg : config_mngr).
Context (Hcfg : config_ok cfg) (Hleader : am_i_leader cfg = true) (HN : acceptors_count cfg < 2 ^ 8 - 1).
Implicit Types (s : ring_sys (Q := Q)) (evs : list sys_event).

(** A quorum of distinct acceptors accepted the key of instance [i], at one ballot. *)
Definition quorum_voted s0 evs i : Prop :=
  ∃ b (V : list Z), NoDup V ∧ quorum_size cfg ≤ Z.of_nat (length V) ∧
    ∀ j, j ∈ V → 2 ≤ j ≤ acceptors_count cfg ∧ voted_in cfg s0 evs j i b (key_of cfg i).

Lemma sys_init_inv : working_set_size cfg < 2 ^ 30 →
  ∃ s0, sys_init cfg = Some s0 ∧ mc_inv cfg (sys_mc s0) [] (λ _, False) ∧ sys_inv cfg s0 [].
Proof using Hcfg.
  intros Hs. destruct (multicaster_init_spec (Q := Q) cfg Hcfg Hs) as (a & E & H & Hsent). unfold sys_init. rewrite E. cbn.
  eexists. split; [reflexivity|]. split; [done|]. constructor; cbn.
  - by intros d m ?%not_elem_of_nil.
  - by rewrite Hsent.
  - intros j ra Hj%elem_of_list_to_map_2. apply list_elem_of_fmap in Hj as (k & [= -> _] & Hk%elem_of_range). done.
Qed.

Lemma mc_events_app evs evs' : mc_events (evs ++ evs') = mc_events evs ++ mc_events evs'.
Proof. apply omap_app. Qed.

(** A phase 2 message in the network is about an open instance, under its key. *)
Lemma net_phase2 s0 evs d m subs acked : sys_inv cfg s0 evs → (d, MPhase2 m) ∈ sys_net (sys_run cfg evs s0) →
  mc_inv cfg (sys_mc (sys_run cfg evs s0)) subs acked →
  p2_inst m ≤ p1_highest_open (sys_mc (sys_run cfg evs s0)) ∧ p2_key m = key_of cfg (p2_inst m).
Proof.
  intros HI Hin H. destruct (si_net _ _ _ HI _ _ Hin) as [(m0 & Hm0 & <- & <-) _].
  destruct (proj1 (list.Forall_forall _ _) (mi_log _ _ _ _ H) _ Hm0) as [Hi Hk]. cbn in Hi.
  pose proof (to_counts _ _ _ _ _ _ (mi_table _ _ _ _ H)) as Hc. cbn in Hc. split; [lia|done].
Qed.

Lemma sys_ok_event s0 evs (ev : mc_event) subs acked : sys_inv cfg s0 evs → mc_inv cfg (sys_mc (sys_run cfg evs s0)) subs acked →
  sys_ok cfg (SysMcaster ev) (sys_run cfg evs s0) → event_ok cfg (sys_mc (sys_run cfg evs s0)) ev.
Proof.
  intros HI H. destruct ev as [| |junk msg|]; cbn [sys_ok]; try done. destruct msg; try (by intros [_ ?]); try done.
  intros Hin. by eapply net_phase2.
Qed.

Lemma sys_mc_inv s0 evs : sys_inv cfg s0 [] → mc_inv cfg (sys_mc s0) [] (λ _, False) → sys_safe cfg evs s0 →
  ∃ subs, subs `sublist_of` client_values (mc_events evs) ∧
    mc_inv cfg (sys_mc (sys_run cfg evs s0)) subs (acked_by cfg (mc_events evs)).
Proof using Hcfg Hleader HN.
  intros HI H0. induction evs as [|ev evs IH] using rev_ind; intros Hsafe.
  { exists []. split; [done|]. by eapply acked_mono. }
  apply sys_safe_app in Hsafe as [Hs [Hok _]]. destruct (IH Hs) as (subs & Hsub & H).
  pose proof (sys_run_inv cfg s0 evs HN HI Hs) as Hinv. rewrite mc_events_app, sys_run_snoc, client_values_app.
  assert (∀ a, mc_inv cfg a subs (acked_by cfg (mc_events evs)) → ∃ subs', subs' `sublist_of` client_values (mc_events evs) ++ [] ∧
    mc_inv cfg a subs' (acked_by cfg (mc_events evs ++ []))) as Hsame.
  { intros a Ha. exists subs. by rewrite !app_nil_r. }
  destruct ev as [ev|j junk msg|j junk msg]; cbn [mc_events omap list_omap].
  - pose proof (mc_exec_spec cfg Hcfg Hleader _ _ _ ev H (sys_ok_event _ _ _ _ _ Hinv H Hok)) as Hwp.
    destruct (wp_total _ _ _ Hwp) as ([] & a & E & vs & Hvs & Ha). cbn [sys_step]. unfold mcaster_step. rewrite E. cbn.
    exists (subs ++ vs). split; [by apply sublist_app|]. eapply acked_mono; [exact Ha|]. intros i. apply acked_by_app.
  - cbn [sys_step]. unfold acceptor_step. repeat case_match; by apply Hsame.
  - cbn [sys_step]. unfold acceptor_step. repeat case_match; by apply Hsame.
Qed.

Lemma acked_quorum s0 evs i : sys_inv cfg s0 [] → mc_inv cfg (sys_mc s0) [] (λ _, False) → sys_safe cfg evs s0 →
  acked_by cfg (mc_events evs) i → quorum_voted s0 evs i.
Proof using Hcfg Hleader HN.
  intros HI H0 Hsafe (junk & m & Hin & <- & Hq). apply list_elem_of_omap in Hin as (ev & Hev & Eev).
  destruct ev as [ev| |]; [injection Eev as ->|done..]. apply list_elem_of_split in Hev as (past & rest & ->).
  apply sys_safe_app in Hsafe as [Hs [Hok _]]. cbn in Hok.
  pose proof (sys_run_inv cfg s0 past HN HI Hs) as Hinv. destruct (sys_mc_inv s0 past HI H0 Hs) as (subs & _ & H).
  destruct (net_phase2 _ _ _ _ _ _ Hinv Hok H) as [_ Hk].
  destruct (si_net _ _ _ Hinv _ _ Hok) as [_ (V & Hnd & Hc & HV)].
  exists (p2_ballot m), V. split_and!; [done|lia|]. intros j Hj. destruct (HV j Hj) as [[? _] Hv]. split; [done|].
  rewrite <-Hk. by apply voted_in_app.
Qed.
End safety.


(** A round of the ring with three acceptors: a promise of both acceptors for two
    instances, a value, its mapping and phase 2, of which acceptor 3 gets a message
    twice. *)
Definition sys_tick (n : Z) : sys_event := SysMcaster (EvTick clear_cmd_key (at_ms n) (at_ms n) (at_ms n)).
Definition range_12 (promises : Z) : ring_msg := MPhase1Range (mk_phase1_range_msg 1 2 first_ballot promises).
Definition value_1 : ring_msg := MCmdmap (mk_cmdmap_msg 1 (key_of small_cfg 1) [x01; x02]).
Definition accept_1 (accepts : Z) : ring_msg := MPhase2 (mk_phase2_msg 1 first_ballot accepts (key_of small_cfg 1)).

Definition ring_round : list sys_event :=
  [sys_tick 0; SysRing 2 no_junk (range_12 0); SysRing 3 no_junk (range_12 1); SysMcaster (EvRing clear_cmd_key (range_12 2));
   SysMcaster (EvClient (MSubmit [x01; x02])); sys_tick 1; SysGroup 2 no_junk value_1; SysGroup 3 no_junk value_1;
   SysGroup 2 no_junk (accept_1 0); SysRing 3 no_junk (accept_1 1); SysRing 3 no_junk (accept_1 1);
   SysMcaster (EvRing clear_cmd_key (accept_1 2))].

Section round.
Context (s0 : ring_sys (Q := client_queue)) (E : sys_init small_cfg = Some s0).

(** A part of the state after some events, by evaluation. *)
Lemma after_events {A} (f : ring_sys (Q := client_queue) → A) evs x :
  f ∘ sys_run small_cfg evs <$> sys_init small_cfg = Some x → f (sys_run small_cfg evs s0) = x.
Proof using E. rewrite E. by intros [= H]. Qed.

Lemma in_net evs k x : (λ s : ring_sys (Q := client_queue), sys_net s !! k) ∘ sys_run small_cfg evs <$> sys_init small_cfg = Some (Some x) →
  x ∈ sys_net (sys_run small_cfg evs s0).
Proof using E. intros H%after_events. by eapply list_elem_of_lookup_2. Qed.

Lemma in_group evs k x : (λ s : ring_sys (Q := client_queue), mcast_sent (sys_mc s) !! k) ∘ sys_run small_cfg evs <$> sys_init small_cfg = Some (Some x) →
  x ∈ mcast_sent (sys_mc (sys_run small_cfg evs s0)).
Proof using E. intros H%after_events. by eapply list_elem_of_lookup_2. Qed.

Lemma tick_ok evs n (h : Z) : (λ s : ring_sys (Q := client_queue), p1_highest_open (sys_mc s)) ∘ sys_run small_cfg evs <$> sys_init small_cfg = Some h →
  h < 100 → sys_ok small_cfg (sys_tick n) (sys_run small_cfg evs s0).
Proof using E.
  intros H%after_events Hh. change (p1_highest_open (sys_mc (sys_run small_cfg evs s0)) + 2 < 2 ^ 32 - 1).
  cbv beta in H. rewrite H. lia.
Qed.

Lemma sys_safe_snoc evs ev : sys_safe small_cfg evs s0 → sys_ok small_cfg ev (sys_run small_cfg evs s0) →
  sys_safe small_cfg (evs ++ [ev]) s0.
Proof using Type. intros H1 H2. apply sys_safe_app. by split. Qed.

(** The next event, after those before it. *)
Ltac next_event := rewrite ?app_comm_cons; lazymatch goal with
  | |- sys_safe _ ?evs _ => let evs' := eval cbn in (removelast evs) in let ev := eval cbn in (List.last evs (sys_tick 0)) in
      change evs with (evs' ++ [ev])
  end; apply sys_safe_snoc.

Lemma ring_round_safe : sys_safe small_cfg ring_round s0.
Proof using E.
  unfold ring_round. next_event; [|apply (in_net _ 4); vm_compute; reflexivity].
  next_event; [|apply (in_net _ 3); vm_compute; reflexivity].
  next_event; [|apply (in_net _ 3); vm_compute; reflexivity].
  next_event; [|apply (in_group _ 1); vm_compute; reflexivity].
  next_event; [|apply (in_group _ 0); vm_compute; reflexivity].
  next_event; [|apply (in_group _ 0); vm_compute; reflexivity].
  next_event; [|eapply tick_ok; [vm_compute; reflexivity|lia]].
  next_event; [|by vm_compute].
  next_event; [|split; [apply (in_net _ 2); vm_compute; reflexivity|]].
  2: { intros _. match goal with |- context [sys_mc ?s] => set (a := sys_mc s) end.
    assert (highest_closed_iid a = 0) as -> by (unfold a; by apply (after_events (λ s, highest_closed_iid (sys_mc s))); vm_compute).
    assert (p1_highest_open a = 2) as -> by (unfold a; by apply (after_events (λ s, p1_highest_open (sys_mc s))); vm_compute).
    cbn [pr_from pr_to range_12]. split_and!; [lia..|]. intros _ i Hi.
    assert (array_size (msm a) = 8) as Hsz by (unfold a; by apply (after_events (λ s, array_size (msm (sys_mc s)))); vm_compute).
    unfold pending_p1, mir_at. rewrite Hsz.
    assert (∃ mir, arr_get (mirs (msm a)) (i mod 8) = Some mir ∧ mir_inst mir = i ∧ mir_status mir = st_p1_pending) as (mir & ? & ? & ?); [|by exists mir].
    assert (i = 1 ∨ i = 2) as [->| ->] by lia; unfold a; clear Hsz a.
    - eexists. split; [apply (after_events (λ s, arr_get (mirs (msm (sys_mc s))) (1 mod 8))); vm_compute; reflexivity|by vm_compute].
    - eexists. split; [apply (after_events (λ s, arr_get (mirs (msm (sys_mc s))) (2 mod 8))); vm_compute; reflexivity|by vm_compute]. }
  next_event; [|apply (in_net _ 1); vm_compute; reflexivity].
  next_event; [|apply (in_net _ 0); vm_compute; reflexivity].
  next_event; [done|eapply tick_ok; [vm_compute; reflexivity|lia]].
Qed.
End round.

