(* ===== verification/RingClient.v ===== *)
(** * The closed-loop client of RingPaxos

    [ring_paxos/ring-paxos/client_proposer_learner.c]: a client that keeps
    [CONCURRENT_VALUES] commands under way, sends each again when it is not
    delivered in time and replaces it by a new one when it is.  The commands are
    in one array, the messages of the client are pointers into it, and they are
    sent with the sender of RingUdp.v.  The numbers drawn by [random] are a
    sequence; the clock is an argument of the functions that read it. *)
From Stdlib Require Import Init.Byte String.
From coqutil Require Import Byte.
From S2P Require Import Prelude Steps Timers Bytes RingMessages RingUdp.

Definition CONCURRENT_VALUES : Z := 80.
Definition MIN_VAL_SIZE : Z := MAX_COMMAND_SIZE - 50.
Definition MAX_VAL_SIZE : Z := MAX_COMMAND_SIZE.
Definition LONG_MAX : Z := 2 ^ 63 - 1.

(** [int] *)
Definition signed32 (z : Z) : Z := let u := u32 z in if u <? 2 ^ 31 then u else u - 2 ^ 32.

(** [client_submit] of [lp_msg_type] *)
Definition client_submit : Z := 9.

(** [client_proposal]; [submit_msg] is an offset in [values_buffer]. *)
Record client_proposal := mk_client_proposal {
  submit_time : timeval;
  timeout : timeval;
  submit_msg : option Z
}.

Record client := mk_client {
  cl_us : option udp_sender;
  current_inst_number : Z;
  value_timeout_interval : timeval;
  cl_current_time : timeval;
  print_stats_interval : timeval;
  cl_start_time : Z;               (* int *)
  timeout_count : Z;               (* unsigned long *)
  deliver_count : Z;
  deliver_bytes : Z;
  latency_samples_count : Z;       (* unsigned *)
  latency_samples_sum : Z;         (* unsigned long *)
  min_latency : Z;
  max_latency : Z;
  pending_values : list client_proposal;
  values_buffer : list byte;
  draws : nat                      (* the calls of random *)
}.

#[export] Instance set_submit_time : Setter submit_time := λ g r,
  mk_client_proposal (g (submit_time r)) (timeout r) (submit_msg r).
#[global] Arguments set_submit_time _ _ /.
#[export] Instance set_timeout : Setter timeout := λ g r,
  mk_client_proposal (submit_time r) (g (timeout r)) (submit_msg r).
#[global] Arguments set_timeout _ _ /.
#[export] Instance set_submit_msg : Setter submit_msg := λ g r,
  mk_client_proposal (submit_time r) (timeout r) (g (submit_msg r)).
#[global] Arguments set_submit_msg _ _ /.
#[export] Instance set_cl_us : Setter cl_us := λ g r,
  mk_client (g (cl_us r)) (current_inst_number r) (value_timeout_interval r) (cl_current_time r)
    (print_stats_interval r) (cl_start_time r) (timeout_count r) (deliver_count r) (deliver_bytes r)
    (latency_samples_count r) (latency_samples_sum r) (min_latency r) (max_latency r) (pending_values r)
    (values_buffer r) (draws r).
#[global] Arguments set_cl_us _ _ /.
#[export] Instance set_current_inst_number : Setter current_inst_number := λ g r,
  mk_client (cl_us r) (g (current_inst_number r)) (value_timeout_interval r) (cl_current_time r)
    (print_stats_interval r) (cl_start_time r) (timeout_count r) (deliver_count r) (deliver_bytes r)
    (latency_samples_count r) (latency_samples_sum r) (min_latency r) (max_latency r) (pending_values r)
    (values_buffer r) (draws r).
#[global] Arguments set_current_inst_number _ _ /.
#[export] Instance set_cl_current_time : Setter cl_current_time := λ g r,
  mk_client (cl_us r) (current_inst_number r) (value_timeout_interval r) (g (cl_current_time r))
    (print_stats_interval r) (cl_start_time r) (timeout_count r) (deliver_count r) (deliver_bytes r)
    (latency_samples_count r) (latency_samples_sum r) (min_latency r) (max_latency r) (pending_values r)
    (values_buffer r) (draws r).
#[global] Arguments set_cl_current_time _ _ /.
#[export] Instance set_cl_start_time : Setter cl_start_time := λ g r,
  mk_client (cl_us r) (current_inst_number r) (value_timeout_interval r) (cl_current_time r)
    (print_stats_interval r) (g (cl_start_time r)) (timeout_count r) (deliver_count r) (deliver_bytes r)
    (latency_samples_count r) (latency_samples_sum r) (min_latency r) (max_latency r) (pending_values r)
    (values_buffer r) (draws r).
#[global] Arguments set_cl_start_time _ _ /.
#[export] Instance set_timeout_count : Setter timeout_count := λ g r,
  mk_client (cl_us r) (current_inst_number r) (value_timeout_interval r) (cl_current_time r)
    (print_stats_interval r) (cl_start_time r) (g (timeout_count r)) (deliver_count r) (deliver_bytes r)
    (latency_samples_count r) (latency_samples_sum r) (min_latency r) (max_latency r) (pending_values r)
    (values_buffer r) (draws r).
#[global] Arguments set_timeout_count _ _ /.
#[export] Instance set_deliver_count : Setter deliver_count := λ g r,
  mk_client (cl_us r) (current_inst_number r) (value_timeout_interval r) (cl_current_time r)
    (print_stats_interval r) (cl_start_time r) (timeout_count r) (g (deliver_count r)) (deliver_bytes r)
    (latency_samples_count r) (latency_samples_sum r) (min_latency r) (max_latency r) (pending_values r)
    (values_buffer r) (draws r).
#[global] Arguments set_deliver_count _ _ /.
#[export] Instance set_deliver_bytes : Setter deliver_bytes := λ g r,
  mk_client (cl_us r) (current_inst_number r) (value_timeout_interval r) (cl_current_time r)
    (print_stats_interval r) (cl_start_time r) (timeout_count r) (deliver_count r) (g (deliver_bytes r))
    (latency_samples_count r) (latency_samples_sum r) (min_latency r) (max_latency r) (pending_values r)
    (values_buffer r) (draws r).
#[global] Arguments set_deliver_bytes _ _ /.
#[export] Instance set_latency_samples_count : Setter latency_samples_count := λ g r,
  mk_client (cl_us r) (current_inst_number r) (value_timeout_interval r) (cl_current_time r)
    (print_stats_interval r) (cl_start_time r) (timeout_count r) (deliver_count r) (deliver_bytes r) (g
    (latency_samples_count r)) (latency_samples_sum r) (min_latency r) (max_latency r) (pending_values r)
    (values_buffer r) (draws r).
#[global] Arguments set_latency_samples_count _ _ /.
#[export] Instance set_latency_samples_sum : Setter latency_samples_sum := λ g r,
  mk_client (cl_us r) (current_inst_number r) (value_timeout_interval r) (cl_current_time r)
    (print_stats_interval r) (cl_start_time r) (timeout_count r) (deliver_count r) (deliver_bytes r)
    (latency_samples_count r) (g (latency_samples_sum r)) (min_latency r) (max_latency r) (pending_values r)
    (values_buffer r) (draws r).
#[global] Arguments set_latency_samples_sum _ _ /.
#[export] Instance set_min_latency : Setter min_latency := λ g r,
  mk_client (cl_us r) (current_inst_number r) (value_timeout_interval r) (cl_current_time r)
    (print_stats_interval r) (cl_start_time r) (timeout_count r) (deliver_count r) (deliver_bytes r)
    (latency_samples_count r) (latency_samples_sum r) (g (min_latency r)) (max_latency r) (pending_values r)
    (values_buffer r) (draws r).
#[global] Arguments set_min_latency _ _ /.
#[export] Instance set_max_latency : Setter max_latency := λ g r,
  mk_client (cl_us r) (current_inst_number r) (value_timeout_interval r) (cl_current_time r)
    (print_stats_interval r) (cl_start_time r) (timeout_count r) (deliver_count r) (deliver_bytes r)
    (latency_samples_count r) (latency_samples_sum r) (min_latency r) (g (max_latency r)) (pending_values r)
    (values_buffer r) (draws r).
#[global] Arguments set_max_latency _ _ /.
#[export] Instance set_pending_values : Setter pending_values := λ g r,
  mk_client (cl_us r) (current_inst_number r) (value_timeout_interval r) (cl_current_time r)
    (print_stats_interval r) (cl_start_time r) (timeout_count r) (deliver_count r) (deliver_bytes r)
    (latency_samples_count r) (latency_samples_sum r) (min_latency r) (max_latency r) (g (pending_values r))
    (values_buffer r) (draws r).
#[global] Arguments set_pending_values _ _ /.
#[export] Instance set_values_buffer : Setter values_buffer := λ g r,
  mk_client (cl_us r) (current_inst_number r) (value_timeout_interval r) (cl_current_time r)
    (print_stats_interval r) (cl_start_time r) (timeout_count r) (deliver_count r) (deliver_bytes r)
    (latency_samples_count r) (latency_samples_sum r) (min_latency r) (max_latency r) (pending_values r) (g
    (values_buffer r)) (draws r).
#[global] Arguments set_values_buffer _ _ /.
#[export] Instance set_draws : Setter draws := λ g r,
  mk_client (cl_us r) (current_inst_number r) (value_timeout_interval r) (cl_current_time r)
    (print_stats_interval r) (cl_start_time r) (timeout_count r) (deliver_count r) (deliver_bytes r)
    (latency_samples_count r) (latency_samples_sum r) (min_latency r) (max_latency r) (pending_values r)
    (values_buffer r) (g (draws r)).
#[global] Arguments set_draws _ _ /.

Definition sizeof_slot : Z := MAX_VAL_SIZE + sizeof_submit_cmd_msg.

(** [clear] *)
Definition clear_client : client :=
  mk_client None 0 (mk_timeval 1 0) (mk_timeval 1 0) (mk_timeval 5 0) 0 0 0 0 0 0 LONG_MAX 0
    (replicate (Z.to_nat CONCURRENT_VALUES) (mk_client_proposal timeval_zero timeval_zero None))
    (replicate (Z.to_nat (CONCURRENT_VALUES * sizeof_slot)) x00) 0.

Section client.
Context (random_seq : nat → Z) (send_result : nat → Z → Z).

Abbreviation CL := (M client).

Definition random : CL Z :=
  cl ← get; modify (λ cl, cl <| draws ::= S |>);; mret (random_seq (draws cl)).

Definition write_values_buffer (off : Z) (bs : list byte) : CL unit :=
  cl ← get; buf ← lift_opt (buf_write off bs (values_buffer cl)); modify (λ cl, cl <| values_buffer := buf |>).

(** [generate_random_value] of the message at [sm]. *)
Definition generate_random_value (sm : Z) : CL unit :=
  r ← random;
  let c := r mod 94 + 33 in
  r ← random;
  let cmd_size := r mod (MAX_VAL_SIZE - MIN_VAL_SIZE) + MIN_VAL_SIZE in
  write_values_buffer sm (le_split 8 cmd_size);;
  write_values_buffer (sm + sizeof_submit_cmd_msg) (replicate (Z.to_nat cmd_size) (byte.of_Z c));;
  r ← random;
  write_values_buffer (sm + sizeof_submit_cmd_msg) (le_split 8 r);;
  r ← random;
  write_values_buffer (sm + sizeof_submit_cmd_msg + 8) (le_split 8 r).

(** [submit_value] of the message at [msg]. *)
Definition submit_value (msg : Z) : CL unit :=
  cl ← get;
  cmd_size ← lift_opt (rd 8 msg (values_buffer cl));
  data ← lift_opt (rd_bytes (sizeof_submit_cmd_msg + cmd_size) msg (values_buffer cl));
  us ← lift_opt (cl_us cl);
  zoom (λ _, us) (λ us, set_cl_us (λ _, Some us)) (net_send_udp send_result data client_submit).

Definition get_proposal (i : Z) : CL client_proposal := cl ← get; lift_opt (arr_get (pending_values cl) i).

Definition upd_proposal (i : Z) (f : client_proposal → client_proposal) : CL unit :=
  c ← get_proposal i; modify (λ cl, cl <| pending_values ::= λ l, arr_set l i (f c) |>).

(** [save_submit_time] with [MONITOR_LATENCY] *)
Definition save_submit_time (i : Z) (time_now : timeval) : CL unit :=
  upd_proposal i (λ c, c <| submit_time := time_now |>).

(** The difference in milliseconds, an [unsigned]. *)
Definition msec_between (submit_time deliver_time : timeval) : Z :=
  let msec_diff := u32 ((tv_sec deliver_time - tv_sec submit_time) * 1000) in
  u32 (msec_diff + Z.quot (tv_usec deliver_time - tv_usec submit_time) 1000).

Definition save_latency (submit_time deliver_time : timeval) : CL unit :=
  let msec_diff := msec_between submit_time deliver_time in
  modify (λ cl, cl <| latency_samples_sum := u64 (latency_samples_sum cl + msec_diff) |>
    <| latency_samples_count := u32 (latency_samples_count cl + 1) |>);;
  modify (λ cl, if max_latency cl <? msec_diff then cl <| max_latency := msec_diff |> else cl);;
  modify (λ cl, if msec_diff <? min_latency cl then cl <| min_latency := msec_diff |> else cl).

(** [print_stats] at [time(NULL)] = [now]; only what it changes. *)
Definition print_client_stats (now : Z) : CL unit :=
  cl ← get;
  (if 0 <? deliver_count cl then c_assert (negb (signed32 (now - cl_start_time cl) =? 0)) else mret tt);;
  (if 0 <? latency_samples_count cl
   then modify (λ cl, cl <| latency_samples_count := 0 |> <| latency_samples_sum := 0 |>
          <| max_latency := 0 |> <| min_latency := LONG_MAX |>)
   else mret tt).

(** Sending the command of a proposal, and when to send it again. *)
Definition submit_proposal (i : Z) : CL unit :=
  c ← get_proposal i;
  msg ← lift_opt (submit_msg c);
  submit_value msg;;
  cl ← get;
  save_submit_time i (cl_current_time cl);;
  cl ← get;
  upd_proposal i (λ c, c <| timeout := timer_set_timeout (cl_current_time cl) (value_timeout_interval cl) |>).

(** [values_timeout_check] with [gettimeofday] = [now]. *)
Definition values_timeout_check (now : timeval) : CL unit :=
  modify (λ cl, cl <| cl_current_time := now |>);;
  for_lt 0 CONCURRENT_VALUES (λ i,
    c ← get_proposal i;
    cl ← get;
    if timer_is_expired (timeout c) (cl_current_time cl) then
      modify (λ cl, cl <| timeout_count := u64 (timeout_count cl + 1) |>);;
      submit_proposal i
    else mret tt).

(** [on_deliver]: the loop over the proposals from [i] on, which ends at the
    first with the command. *)
Fixpoint deliver_loop (fuel : nat) (i : Z) (now : timeval) (cmd_value : list byte) : CL unit :=
  match fuel with
  | O => mret tt
  | S fuel =>
      c ← get_proposal i;
      msg ← lift_opt (submit_msg c);
      cl ← get;
      cmd_size ← lift_opt (rd 8 msg (values_buffer cl));
      same ← (if blen cmd_value =? cmd_size
              then v ← lift_opt (rd_bytes (blen cmd_value) (msg + sizeof_submit_cmd_msg) (values_buffer cl));
                   mret (bool_decide (v = cmd_value))
              else mret false);
      if same : bool then
        modify (λ cl, cl <| deliver_count := u64 (deliver_count cl + 1) |>);;
        modify (λ cl, cl <| deliver_bytes := u64 (deliver_bytes cl + blen cmd_value) |>);;
        modify (λ cl, cl <| cl_current_time := now |>);;
        save_latency (submit_time c) now;;
        generate_random_value msg;;
        submit_proposal i
      else deliver_loop fuel (i + 1) now cmd_value
  end.

Definition on_deliver (now : timeval) (cmd_value : list byte) : CL unit :=
  modify (λ cl, cl <| current_inst_number := u64 (current_inst_number cl + 1) |>);;
  deliver_loop (Z.to_nat CONCURRENT_VALUES) 0 now cmd_value.

(** [client_pl_init] with the sender that [udp_sender_init] returned, or [NULL];
    [event_add] is libevent's, [start] is [time(NULL)]. *)
Definition client_pl_init (event_add : timeval → Z) (us : option udp_sender) (start : Z) (now : timeval) : CL unit :=
  modify (λ cl, cl <| cl_us := us |>);;
  us ← lift_opt us;
  modify (λ cl, cl <| cl_us := Some (udp_sender_enable_autoflush 25 us) |>);;
  cl ← get;
  _ ← set_periodic_event (λ interval, mret (event_add interval)) (value_timeout_interval cl) (values_timeout_check now);
  _ ← set_periodic_event (λ interval, mret (event_add interval)) (print_stats_interval cl) (print_client_stats start);
  modify (λ cl, cl <| cl_start_time := signed32 start |>);;
  modify (λ cl, cl <| cl_current_time := now |>);;
  for_lt 0 CONCURRENT_VALUES (λ i,
    upd_proposal i (λ c, c <| submit_msg := Some (i * sizeof_slot) |>);;
    generate_random_value (i * sizeof_slot);;
    submit_proposal i).

(** ** What happens to a client *)

Inductive client_event :=
  | EvDeliver (now : timeval) (cmd_value : list byte)   (* the learner delivers *)
  | EvCheck (now : timeval)                             (* the timers *)
  | EvStats (now : Z)
  | EvAutoflush.

Definition client_handle (ev : client_event) : CL unit :=
  match ev with
  | EvDeliver now v => on_deliver now v
  | EvCheck now => values_timeout_check now
  | EvStats now => print_client_stats now
  | EvAutoflush =>
      cl ← get; us ← lift_opt (cl_us cl);
      zoom (λ _, us) (λ us, set_cl_us (λ _, Some us)) (udp_autoflush_cb send_result)
  end.

Definition client_run (event_add : timeval → Z) (us : option udp_sender) (start : Z) (now : timeval) (evs : list client_event) :
    CL unit :=
  client_pl_init event_add us start now;; mfor evs client_handle.
End client.

(** ** The buffer *)

Lemma buf_write_spec off bs buf : 0 ≤ off → off + blen bs ≤ blen buf →
  ∃ buf', buf_write off bs buf = Some buf' ∧ blen buf' = blen buf ∧ at_off buf' off bs ∧
    ∀ o l, at_off buf o l → o + blen l ≤ off ∨ off + blen bs ≤ o → at_off buf' o l.
Proof.
  intros H0 Hfit. unfold buf_write. rewrite decide_True by done. eexists; split; [done|].
  set (n := Z.to_nat off) in *.
  assert (length (take n buf) = n) as Ln by (rewrite length_take; unfold blen in *; lia).
  assert (blen (take n buf ++ bs ++ drop (Z.to_nat (off + blen bs)) buf) = blen buf) as Lb.
  { unfold blen in *. rewrite !length_app, Ln, length_drop. lia. }
  split_and!; [done|by exists (take n buf), (drop (Z.to_nat (off + blen bs)) buf); unfold blen; rewrite Ln; split; [|lia]|].
  intros o l (Ho & Hol & Hlk)%at_off_lookup Hdis. apply at_off_lookup. rewrite Lb. split_and!; [done..|].
  intros i Hi. rewrite <-Hlk by done. unfold blen in *. destruct Hdis.
  - rewrite lookup_app_l by lia. apply lookup_take_lt. lia.
  - rewrite lookup_app_r, Ln by lia. rewrite lookup_app_r by lia. rewrite lookup_drop. f_equal. lia.
Qed.

(** ** The reference client

    What the client is meant to be: the commands under way with the time each
    was last sent, and everything that was sent. *)

Record client_spec := mk_client_spec {
  sp_slots : list (list byte * timeval);
  sp_sent : list (list byte);
  sp_delivered : list (list byte);
  sp_resent : nat;
  sp_start : Z
}.

Definition spec_expired (now : timeval) (sl : list byte * timeval) : bool :=
  timer_is_expired (timer_set_timeout sl.2 (mk_timeval 1 0)) now.

Definition spec_check (now : timeval) (sp : client_spec) : client_spec :=
  mk_client_spec ((λ sl, if spec_expired now sl then (sl.1, now) else sl) <$> sp_slots sp)
    (sp_sent sp ++ (filter (λ sl, spec_expired now sl = true) (sp_slots sp)).*1)
    (sp_delivered sp)
    (sp_resent sp + length (filter (λ sl, spec_expired now sl = true) (sp_slots sp))) (sp_start sp).

(** A command of the client is replaced by [new]; others are not its business. *)
Definition spec_deliver (new : list byte) (now : timeval) (v : list byte) (sp : client_spec) : client_spec :=
  match list_find (λ sl, sl.1 = v) (sp_slots sp) with
  | Some (i, _) => mk_client_spec (<[i := (new, now)]> (sp_slots sp)) (sp_sent sp ++ [new]) (sp_delivered sp ++ [v]) (sp_resent sp) (sp_start sp)
  | None => sp
  end.

(** The bytes of a [submit_cmd_msg]. *)
Definition enc_submit (v : list byte) : list byte := le_split 8 (blen v) ++ v.

Lemma blen_enc_submit v : blen (enc_submit v) = 8 + blen v.
Proof. unfold enc_submit. by rewrite blen_app, blen_le_split. Qed.

Section client_spec.
Context (random_seq : nat → Z) (send_result : nat → Z → Z) (event_add : timeval → Z).
Hypothesis random_range : ∀ n, 0 ≤ random_seq n < 2 ^ 31.
Hypothesis send_atomic : ∀ n size, send_result n size < 0 ∨ send_result n size = size.
Hypothesis event_added : ∀ interval, event_add interval = 0.

(** The command made of the numbers from the [n]th on. *)
Definition fresh_size (n : nat) : Z := random_seq (S n) mod 50 + MIN_VAL_SIZE.
Definition fresh (n : nat) : list byte :=
  le_split 8 (random_seq (n + 2)) ++ le_split 8 (random_seq (n + 3)) ++
  replicate (Z.to_nat (fresh_size n - 16)) (byte.of_Z (random_seq n mod 94 + 33)).

Lemma fresh_size_range n : MIN_VAL_SIZE ≤ fresh_size n < MAX_VAL_SIZE.
Proof. unfold fresh_size, MIN_VAL_SIZE, MAX_VAL_SIZE. pose proof (Z.mod_pos_bound (random_seq (S n)) 50). lia. Qed.

Lemma blen_fresh n : blen (fresh n) = fresh_size n.
Proof.
  unfold fresh. rewrite !blen_app, !blen_le_split. unfold blen. rewrite length_replicate.
  pose proof (fresh_size_range n). change MIN_VAL_SIZE with 8890 in *. lia.
Qed.

Lemma random_spec cl (Q : Z → client → Prop) :
  Q (random_seq (draws cl)) (cl <| draws := S (draws cl) |>) → wp (random random_seq) Q cl.
Proof. intros H. unfold random. wp_steps. exact H. Qed.

Lemma write_values_buffer_spec off bs cl Q : 0 ≤ off → off + blen bs ≤ blen (values_buffer cl) →
  (∀ buf, blen buf = blen (values_buffer cl) → at_off buf off bs →
     (∀ o l, at_off (values_buffer cl) o l → o + blen l ≤ off ∨ off + blen bs ≤ o → at_off buf o l) →
     Q tt (cl <| values_buffer := buf |>)) →
  wp (write_values_buffer off bs) Q cl.
Proof.
  intros H0 Hfit HQ. destruct (buf_write_spec off bs (values_buffer cl)) as (buf & E & H1 & H2 & H3); [done..|].
  unfold write_values_buffer. wp_steps. eapply wp_lift_opt; [exact E|]. wp_steps. auto.
Qed.

(** A new command is written into its slot and nowhere else. *)
Lemma generate_spec off cl Q : 0 ≤ off → off + sizeof_slot ≤ blen (values_buffer cl) →
  (∀ buf, blen buf = blen (values_buffer cl) → at_off buf off (enc_submit (fresh (draws cl))) →
     (∀ o l, at_off (values_buffer cl) o l → o + blen l ≤ off ∨ off + sizeof_slot ≤ o → at_off buf o l) →
     Q tt (cl <| values_buffer := buf |> <| draws := (draws cl + 4)%nat |>)) →
  wp (generate_random_value random_seq off) Q cl.
Proof using random_range.
  intros H0 Hfit HQ. unfold generate_random_value.
  apply wp_bind, random_spec. cbv zeta. apply wp_bind, random_spec. cbn.
  pose proof (fresh_size_range (draws cl)) as Hsz. pose proof (blen_fresh (draws cl)) as Hbf.
  change (MAX_VAL_SIZE - MIN_VAL_SIZE) with 50. fold (fresh_size (draws cl)).
  set (sz := fresh_size (draws cl)) in *. unfold sizeof_slot, sizeof_submit_cmd_msg, MIN_VAL_SIZE, MAX_VAL_SIZE in *.
  change MAX_COMMAND_SIZE with 8940 in *. set (c := byte.of_Z _).
  assert (blen (replicate (Z.to_nat sz) c) = sz) as Hrep by (unfold blen; rewrite length_replicate; lia).
  apply wp_bind, write_values_buffer_spec; [done|rewrite blen_le_split; cbn; lia|]. cbn. intros b1 L1 A1 F1.
  apply wp_bind, write_values_buffer_spec; [lia|rewrite Hrep; cbn; lia|]. cbn. intros b2 L2 A2 F2.
  apply wp_bind, random_spec. cbn.
  apply wp_bind, write_values_buffer_spec; [lia|rewrite blen_le_split; cbn; lia|]. cbn. intros b3 L3 A3 F3.
  apply wp_bind, random_spec. cbn.
  apply write_values_buffer_spec; [lia|rewrite blen_le_split; cbn; lia|]. cbn. intros b4 L4 A4 F4.
  rewrite blen_le_split in *. rewrite Hrep in *.
  replace (S (S (S (S (draws cl))))) with (draws cl + 4)%nat by lia. apply HQ; [lia| |].
  - unfold enc_submit. rewrite Hbf. apply at_off_join.
    { apply F4; [apply F3; [apply F2; [exact A1|]|]|]; rewrite blen_le_split; lia. }
    rewrite blen_le_split.
    unfold fresh. fold sz. apply at_off_join; [apply F4; [|rewrite blen_le_split; lia]|].
    { replace (draws cl + 2)%nat with (S (S (draws cl))) by lia. done. }
    rewrite blen_le_split. apply at_off_join.
    { replace (draws cl + 3)%nat with (S (S (S (draws cl)))) by lia. at_field. }
    rewrite blen_le_split. apply F4; [|lia]. apply F3; [|lia].
    replace (replicate (Z.to_nat sz) c) with (replicate 16 c ++ replicate (Z.to_nat (sz - 16)) c) in A2.
    2:{ rewrite <-replicate_add. f_equal. lia. }
    apply at_off_app in A2 as [_ A2]. unfold blen in A2 at 1. rewrite length_replicate in A2. at_field.
  - intros o l Ho Hd. apply F4; [apply F3; [apply F2; [apply F1|]|]|]; [done|lia..].
Qed.

(** The representation of the reference client by the one of the code. *)
Definition proposal_at (i : nat) (t : timeval) : client_proposal :=
  mk_client_proposal t (timer_set_timeout t (mk_timeval 1 0)) (Some (Z.of_nat i * sizeof_slot)).

Definition submitted (v : list byte) : Z * list byte := (client_submit, enc_submit v).

Record client_core (cl : client) (sp : client_spec) : Prop := {
  cr_us : ∃ us, cl_us cl = Some us ∧ sender_inv us (submitted <$> sp_sent sp);
  cr_interval : value_timeout_interval cl = mk_timeval 1 0;
  cr_len : Z.of_nat (length (pending_values cl)) = CONCURRENT_VALUES;
  cr_buf : blen (values_buffer cl) = CONCURRENT_VALUES * sizeof_slot;
  cr_start : cl_start_time cl = sp_start sp;
  cr_draws : draws cl = (4 * (length (sp_slots sp) + length (sp_delivered sp)))%nat
}.

Definition slots_rep (cl : client) (slots : list (list byte * timeval)) : Prop := ∀ i v t, slots !! i = Some (v, t) →
  pending_values cl !! i = Some (proposal_at i t) ∧
  at_off (values_buffer cl) (Z.of_nat i * sizeof_slot) (enc_submit v) ∧ MIN_VAL_SIZE ≤ blen v < MAX_VAL_SIZE.

Record client_rep (cl : client) (sp : client_spec) : Prop := {
  cr_core : client_core cl sp;
  cr_slots : slots_rep cl (sp_slots sp);
  cr_resent : timeout_count cl = u64 (Z.of_nat (sp_resent sp));
  cr_delivered : deliver_count cl = u64 (Z.of_nat (length (sp_delivered sp)));
  cr_bytes : deliver_bytes cl = u64 (blen (concat (sp_delivered sp)))
}.

Lemma in_array (l : list client_proposal) i x : l !! i = Some x → arr_get l (Z.of_nat i) = Some x.
Proof. intros H. unfold arr_get. by rewrite decide_True, Nat2Z.id by lia. Qed.

Lemma upd_proposal_spec i f c cl Q : pending_values cl !! i = Some c →
  Q tt (cl <| pending_values := <[i := f c]> (pending_values cl) |>) → wp (upd_proposal (Z.of_nat i) f) Q cl.
Proof.
  intros Hc HQ. unfold upd_proposal, get_proposal. wp_steps. eapply wp_lift_opt; [by apply in_array|]. wp_steps.
  unfold arr_set. by rewrite Nat2Z.id.
Qed.

Lemma read_submit buf off v : at_off buf off (enc_submit v) → blen v < 2 ^ 63 →
  rd 8 off buf = Some (blen v) ∧ rd_bytes (sizeof_submit_cmd_msg + blen v) off buf = Some (enc_submit v) ∧
  rd_bytes (blen v) (off + sizeof_submit_cmd_msg) buf = Some v.
Proof.
  intros H Hv. pose proof (blen_nonneg v). split_and!.
  - unfold enc_submit in H. apply at_off_app in H as [H _]. by apply rd_at_small; [|cbn; lia].
  - apply rd_bytes_at; [done|]. by rewrite blen_enc_submit.
  - unfold enc_submit in H. apply at_off_app in H as [_ H]. rewrite blen_le_split in H. by apply rd_bytes_at.
Qed.

(** A command is sent, and its deadline is set. *)
Lemma submit_spec i c off v us all cl Q :
  cl_us cl = Some us → sender_inv us all → pending_values cl !! i = Some c → submit_msg c = Some off →
  at_off (values_buffer cl) off (enc_submit v) → blen v < MAX_VAL_SIZE →
  (∀ us', sender_inv us' (all ++ [submitted v]) →
     let now := cl_current_time cl in
     Q tt (cl <| cl_us := Some us' |> <| pending_values := <[i := mk_client_proposal now
             (timer_set_timeout now (value_timeout_interval cl)) (Some off)]> (pending_values cl) |>)) →
  wp (submit_proposal send_result (Z.of_nat i)) Q cl.
Proof using send_atomic.
  intros Hus Hinv Hc Hmsg Hv Hlen HQ. change MAX_VAL_SIZE with 8940 in Hlen.
  destruct (read_submit (values_buffer cl) off v) as (E1 & E2 & _); [done|lia|].
  unfold submit_proposal, submit_value. apply wp_bind. unfold get_proposal. wp_steps.
  eapply wp_lift_opt; [by apply in_array|]. wp_steps. eapply wp_lift_opt; [exact Hmsg|]. wp_steps.
  eapply wp_lift_opt; [exact E1|]. wp_steps. eapply wp_lift_opt; [exact E2|]. wp_steps.
  eapply wp_lift_opt; [exact Hus|]. apply wp_zoom. eapply wp_mono; [by apply send_spec|]. intros [] us' Hus'.
  assert (sender_inv us' (all ++ [submitted v])) as H'.
  { destruct (Z.ltb_spec MAX_MESSAGE_SIZE (blen (enc_submit v))) as [Hbig|]; [|done].
    rewrite blen_enc_submit in Hbig. change MAX_MESSAGE_SIZE with 8980 in Hbig. lia. }
  cbn. wp_steps. unfold save_submit_time.
  apply (upd_proposal_spec _ _ c); [done|]. wp_steps. cbn.
  apply (upd_proposal_spec _ _ (c <| submit_time := cl_current_time cl |>)).
  { cbn. by apply list_lookup_insert_eq, lookup_lt_Some with c. }
  cbn. rewrite list_insert_insert_eq. specialize (HQ us' H'). cbn in HQ. by rewrite Hmsg.
Qed.

(** Slots do not overlap, so what is written in one leaves the others. *)
Lemma slots_apart i j v : i ≠ j → blen v < MAX_VAL_SIZE →
  Z.of_nat j * sizeof_slot + blen (enc_submit v) ≤ Z.of_nat i * sizeof_slot ∨
  Z.of_nat i * sizeof_slot + sizeof_slot ≤ Z.of_nat j * sizeof_slot.
Proof.
  rewrite blen_enc_submit. unfold sizeof_slot, sizeof_submit_cmd_msg. change MAX_VAL_SIZE with 8940. nia.
Qed.

(** A command is sent again. *)
Lemma resend_spec i v t cl sp Q : client_rep cl sp → sp_slots sp !! i = Some (v, t) →
  (∀ cl', client_rep cl' (mk_client_spec (<[i := (v, cl_current_time cl)]> (sp_slots sp)) (sp_sent sp ++ [v])
      (sp_delivered sp) (S (sp_resent sp)) (sp_start sp)) → cl_current_time cl' = cl_current_time cl → Q tt cl') →
  wp (modify (λ cl, cl <| timeout_count := u64 (timeout_count cl + 1) |>);; submit_proposal send_result (Z.of_nat i)) Q cl.
Proof using send_atomic.
  intros [[(us & Hus & Hinv) Hint Hlen Hbuf Hst Hdraws] Hslots Hre Hdel Hby] Hi HQ.
  destruct (Hslots _ _ _ Hi) as (Hp & Hat & Hv). wp_steps.
  eapply submit_spec; [exact Hus|exact Hinv|exact Hp|done|exact Hat|lia|]. cbn. intros us' Hus'. apply HQ; [|done].
  constructor; [constructor| |..]; cbn; rewrite ?length_insert; try done.
  - exists us'. split; [done|]. by rewrite fmap_app.
  - intros j w t' Hj. cbn in *. apply list_lookup_insert_Some in Hj as [(<- & [= <- <-] & Hl)|[Hne Hj]].
    + rewrite list_lookup_insert_eq by (by apply lookup_lt_Some with (1 := Hp)). by rewrite Hint.
    + rewrite list_lookup_insert_ne by done. by apply Hslots.
  - rewrite Hre. unfold wrap. rewrite Zplus_mod_idemp_l. f_equal. lia.
Qed.

Lemma check_spec now cl sp : client_rep cl sp → Z.of_nat (length (sp_slots sp)) = CONCURRENT_VALUES →
  wp (values_timeout_check send_result now) (λ _ cl', client_rep cl' (spec_check now sp)) cl.
Proof using send_atomic.
  intros Hrep Hlen. unfold values_timeout_check, for_lt. wp_steps. set (slots := sp_slots sp).
  set (upto n := spec_check now (mk_client_spec (take n slots) (sp_sent sp) (sp_delivered sp) (sp_resent sp) (sp_start sp))).
  apply (wp_mfor (λ dn cl', cl_current_time cl' = now ∧
    client_rep cl' (mk_client_spec (sp_slots (upto (length dn)) ++ drop (length dn) slots) (sp_sent (upto (length dn)))
      (sp_delivered sp) (sp_resent (upto (length dn))) (sp_start sp)))).
  - split; [done|]. cbn. rewrite app_nil_r, Nat.add_0_r. destruct Hrep as [[] ? ? ? ?]. constructor; [constructor|..]; done.
  - intros dn i rest cl' E [Hnow Hr]. set (n := length dn) in *.
    assert (i = Z.of_nat n ∧ (n < length slots)%nat) as [-> Hn].
    { assert (seqZ 0 (CONCURRENT_VALUES - 0) !! n = Some i) as Hx by (rewrite E; by apply list_lookup_middle).
      apply lookup_seqZ in Hx. subst slots. lia. }
    destruct (lookup_lt_is_Some_2 slots n Hn) as [[v t] Hi].
    assert (length (take n slots) = n) as Ltake by (rewrite length_take; lia).
    set (sp' := mk_client_spec _ _ _ _ _) in Hr.
    assert (sp_slots sp' !! n = Some (v, t)) as Hi'.
    { cbn. rewrite lookup_app_r, length_fmap, Ltake by (rewrite length_fmap; lia).
      rewrite Nat.sub_diag, lookup_drop, Nat.add_0_r. done. }
    destruct (cr_slots _ _ Hr _ _ _ Hi') as (Hp & _).
    unfold get_proposal. wp_steps. eapply wp_lift_opt; [by apply in_array|]. wp_steps. rewrite Hnow. cbn [proposal_at timeout].
    rewrite length_app. cbn [length]. fold n. rewrite Nat.add_1_r. change (timer_is_expired _ now) with (spec_expired now (v, t)).
    assert (upto (S n) = if spec_expired now (v, t) then mk_client_spec (sp_slots (upto n) ++ [(v, now)]) (sp_sent (upto n) ++ [v])
      (sp_delivered sp) (S (sp_resent (upto n))) (sp_start sp) else mk_client_spec (sp_slots (upto n) ++ [(v, t)]) (sp_sent (upto n))
      (sp_delivered sp) (sp_resent (upto n)) (sp_start sp)) as ->.
    { unfold upto, spec_check. cbn [sp_slots sp_sent sp_delivered sp_resent sp_start]. rewrite (take_S_r _ _ _ Hi), fmap_app, list.filter_app, fmap_app, length_app.
      rewrite list.filter_cons, list.filter_nil. destruct (spec_expired now (v, t)) eqn:Ex.
      - rewrite decide_True by done. cbn [fmap list_fmap length sp_slots sp_sent sp_delivered sp_resent sp_start fst]. rewrite Ex, app_assoc. f_equal. lia.
      - rewrite decide_False by done. cbn [fmap list_fmap length sp_slots sp_sent sp_delivered sp_resent sp_start fst]. by rewrite Ex, app_nil_r, Nat.add_0_r. }
    unfold sp' in Hr, Hi'. rewrite (drop_S _ _ _ Hi) in Hr, Hi'. destruct (spec_expired now (v, t)) eqn:Ex.
    + apply (resend_spec n v t cl' _ _ Hr Hi'). rewrite Hnow. intros cl'' Hr' Hnow'. split; [done|].
      cbn in Hr'. rewrite insert_app_r_alt, length_fmap, Ltake, Nat.sub_diag in Hr' by (rewrite length_fmap; lia). cbn in Hr'.
      cbn. rewrite <-app_assoc. exact Hr'.
    + wp_steps. split; [done|]. cbn. rewrite <-app_assoc. exact Hr.
  - intros cl' [_ Hr]. revert Hr. rewrite length_seqZ. replace (Z.to_nat (CONCURRENT_VALUES - 0)) with (length slots) by (subst slots; lia).
    rewrite drop_all, app_nil_r. unfold upto. rewrite take_ge by done. destruct sp. exact id.
Qed.

(** The command of slot [i], drawn anew, is sent. *)
Lemma renew_spec i c cl sp Q :
  let new := fresh (4 * (length (sp_slots sp) + length (sp_delivered sp))) in
  client_core cl sp → pending_values cl !! i = Some c → submit_msg c = Some (Z.of_nat i * sizeof_slot) → Z.of_nat i < CONCURRENT_VALUES →
  (∀ us' buf, sender_inv us' (submitted <$> (sp_sent sp ++ [new])) → blen buf = blen (values_buffer cl) →
     let cl' := cl <| values_buffer := buf |> <| draws := (draws cl + 4)%nat |> <| cl_us := Some us' |>
                   <| pending_values := <[i := proposal_at i (cl_current_time cl)]> (pending_values cl) |> in
     (∀ slots slots', slots_rep cl slots → slots' !! i = Some (new, cl_current_time cl) →
        (∀ j sl, i ≠ j → slots' !! j = Some sl → slots !! j = Some sl) → slots_rep cl' slots') →
     Q tt cl') →
  wp (generate_random_value random_seq (Z.of_nat i * sizeof_slot);; submit_proposal send_result (Z.of_nat i)) Q cl.
Proof using random_range send_atomic.
  intros new [(us & Hus & Hinv) Hint Hlen Hbuf Hst Hdraws] Hc Hmsg Hi HQ.
  assert (0 < sizeof_slot) as Hpos by done. apply wp_bind, generate_spec; [nia|rewrite Hbuf; nia|]. intros buf Lb Hat Hfr.
  rewrite Hdraws in Hat. fold new in Hat. pose proof (fresh_size_range (4 * (length (sp_slots sp) + length (sp_delivered sp)))) as Hsz.
  rewrite <-blen_fresh in Hsz. fold new in Hsz. pose proof (lookup_lt_Some _ _ _ Hc).
  eapply submit_spec; [exact Hus|exact Hinv|exact Hc|exact Hmsg|exact Hat|lia|]. cbn. intros us' Hus'.
  unfold proposal_at in HQ. rewrite <-Hint in HQ. apply (HQ us' buf); [by rewrite fmap_app|done|].
  intros slots slots' Hs Hnew Hold j w t Hj. cbn. destruct (decide (i = j)) as [<-|Hne].
  - rewrite Hnew in Hj. injection Hj as <- <-. rewrite list_lookup_insert_eq by done. unfold proposal_at. by rewrite Hint.
  - rewrite list_lookup_insert_ne by done. destruct (Hs j w t) as (H1 & H2 & H3); [by apply Hold|].
    split_and!; [done| |lia..]. apply Hfr; [done|]. by apply slots_apart; [|lia].
Qed.

Lemma save_latency_spec t now cl Q :
  (∀ lc ls ml Ml, Q tt (cl <| latency_samples_sum := ls |> <| latency_samples_count := lc |> <| max_latency := Ml |> <| min_latency := ml |>)) →
  wp (save_latency t now) Q cl.
Proof.
  intros HQ. unfold save_latency. cbv zeta. set (d := msec_between t now). wp_steps. cbn.
  destruct (_ <? d), (d <? _); destruct cl; cbn; apply HQ.
Qed.

Lemma deliver_loop_spec now v cl sp pre rest : client_rep cl sp → Z.of_nat (length (sp_slots sp)) = CONCURRENT_VALUES →
  sp_slots sp = pre ++ rest → v ∉ pre.*1 →
  wp (deliver_loop random_seq send_result (length rest) (Z.of_nat (length pre)) now v)
    (λ _ cl', client_rep cl' (spec_deliver (fresh (4 * (length (sp_slots sp) + length (sp_delivered sp)))) now v sp)) cl.
Proof using random_range send_atomic.
  intros Hrep Hlen. revert pre. induction rest as [|[w t] rest IH]; intros pre E Hpre; cbn [length deliver_loop].
  { apply wp_ret. rewrite app_nil_r in E. unfold spec_deliver. destruct (list_find _ _) as [[i [w t]]|] eqn:F; [|done].
    apply list_find_Some in F as (Hi & [= ->] & _). destruct Hpre. rewrite <-E. apply list_elem_of_fmap. exists (v, t).
    split; [done|]. by apply list_elem_of_lookup_2 with i. }
  assert (sp_slots sp !! length pre = Some (w, t)) as Hi by (rewrite E; by apply list_lookup_middle).
  destruct (cr_slots _ _ Hrep _ _ _ Hi) as (Hp & Hat & Hw). destruct (read_submit _ _ _ Hat) as (E1 & _ & E3).
  { change MAX_VAL_SIZE with 8940 in Hw. lia. }
  unfold get_proposal. wp_steps. eapply wp_lift_opt; [by apply in_array|]. wp_steps. eapply wp_lift_opt; [done|]. wp_steps.
  eapply wp_lift_opt; [exact E1|]. wp_steps.
  assert (∀ Q, Q (bool_decide (w = v)) cl → wp (if blen v =? blen w
    then v0 ← lift_opt (rd_bytes (blen v) (Z.of_nat (length pre) * sizeof_slot + sizeof_submit_cmd_msg) (values_buffer cl));
         mret (bool_decide (v0 = v)) else mret false) Q cl) as Hcmp.
  { intros Q HQ. destruct (Z.eqb_spec (blen v) (blen w)) as [Ev|Hne].
    - rewrite Ev. wp_steps. eapply wp_lift_opt; [exact E3|]. by wp_steps.
    - wp_steps. rewrite bool_decide_eq_false_2 in HQ by congruence. done. }
  apply Hcmp. clear Hcmp. destruct (bool_decide_reflect (w = v)) as [->|Hne].
  - unfold spec_deliver. rewrite (proj2 (list_find_Some (λ sl, sl.1 = v) (sp_slots sp) (length pre) (v, t))).
    2:{ split_and!; [done..|]. intros j [w' t'] Hj Hlt [= ->]. apply Hpre, list_elem_of_fmap. exists (v, t'). split; [done|].
        rewrite E, lookup_app_l in Hj by done. by apply list_elem_of_lookup_2 with j. }
    destruct Hrep as [Hcore Hslots Hre Hdel Hby]. apply (lookup_lt_Some (sp_slots sp)) in Hi as Hlt. wp_steps.
    apply save_latency_spec. intros lc ls ml Ml. wp_steps. apply wp_bind_inv.
    eapply renew_spec with (i := length pre) (c := proposal_at (length pre) t) (sp := sp);
      [by destruct Hcore; constructor|done|done|lia|]. cbn. intros us' buf Hus' Lb Hsl. set (new := fresh _) in *.
    constructor; [destruct Hcore; constructor|..]; cbn; rewrite ?length_insert, ?length_app; try done.
    + by exists us'.
    + by rewrite Lb.
    + cbn. lia.
    + apply (Hsl (sp_slots sp)); [done|by apply list_lookup_insert_eq|]. intros j sl Hne. by rewrite list_lookup_insert_ne.
    + rewrite Hdel. unfold wrap. rewrite Zplus_mod_idemp_l. f_equal. cbn. lia.
    + rewrite Hby. unfold wrap. rewrite Zplus_mod_idemp_l, concat_app, blen_app. cbn. by rewrite app_nil_r.
  - replace (Z.of_nat (length pre) + 1) with (Z.of_nat (length (pre ++ [(w, t)]))) by (rewrite length_app; cbn; lia).
    apply IH; [by rewrite <-app_assoc|]. rewrite fmap_app, list.elem_of_app. intros [?|Hv]; [done|]. by apply list_elem_of_singleton in Hv as ->.
Qed.

Lemma on_deliver_spec now v cl sp : client_rep cl sp → Z.of_nat (length (sp_slots sp)) = CONCURRENT_VALUES →
  wp (on_deliver random_seq send_result now v)
    (λ _ cl', client_rep cl' (spec_deliver (fresh (4 * (length (sp_slots sp) + length (sp_delivered sp)))) now v sp)) cl.
Proof using random_range send_atomic.
  intros [[] ? ? ? ?] Hlen. unfold on_deliver. wp_steps.
  replace (Z.to_nat CONCURRENT_VALUES) with (length (sp_slots sp)) by lia. change 0 with (Z.of_nat (length (@nil (list byte * timeval)))).
  apply deliver_loop_spec; [|done|done|by intros ?%not_elem_of_nil]. by constructor; [constructor|..].
Qed.

(** ** The run of a client *)

Definition spec_start (start : Z) (now : timeval) (n : nat) : client_spec :=
  mk_client_spec ((λ k, (fresh (4 * k), now)) <$> seq 0 n) ((λ k, fresh (4 * k)) <$> seq 0 n) [] 0 (signed32 start).

Definition spec_step (sp : client_spec) (ev : client_event) : client_spec :=
  match ev with
  | EvDeliver now v => spec_deliver (fresh (4 * (length (sp_slots sp) + length (sp_delivered sp)))) now v sp
  | EvCheck now => spec_check now sp
  | EvStats _ | EvAutoflush => sp
  end.

Definition spec_run (start : Z) (now : timeval) (evs : list client_event) : client_spec :=
  foldl spec_step (spec_start start now (Z.to_nat CONCURRENT_VALUES)) evs.

Lemma init_loop_step start n now cl :
  client_rep cl (spec_start start now n) → cl_current_time cl = now → Z.of_nat n < CONCURRENT_VALUES →
  wp (upd_proposal (Z.of_nat n) (λ c, c <| submit_msg := Some (Z.of_nat n * sizeof_slot) |>);;
      generate_random_value random_seq (Z.of_nat n * sizeof_slot);; submit_proposal send_result (Z.of_nat n))
    (λ _ cl', client_rep cl' (spec_start start now (S n)) ∧ cl_current_time cl' = now) cl.
Proof using random_range send_atomic.
  intros [Hcore Hslots Hre Hdel Hby] Hnow Hn.
  destruct (lookup_lt_is_Some_2 (pending_values cl) n) as [c Hc]; [by pose proof (cr_len _ _ Hcore); lia|].
  apply wp_bind, (upd_proposal_spec _ _ c); [done|].
  eapply renew_spec with (i := n) (sp := spec_start start now n); [|cbn; by apply list_lookup_insert_eq, lookup_lt_Some with c|done|done|].
  { destruct Hcore. constructor; cbn in *; rewrite ?length_insert; done. }
  cbn. intros us' buf Hus' Lb Hsl. rewrite list_insert_insert_eq in *. split; [|done].
  rewrite !length_fmap, length_seq, Nat.add_0_r, Hnow in *.
  constructor; [destruct Hcore; constructor|..]; cbn -[seq] in *; rewrite ?length_insert, ?length_fmap, ?length_seq in *; try done.
  - exists us'. split; [done|]. by rewrite seq_S, fmap_app.
  - by rewrite Lb.
  - lia.
  - rewrite seq_S, fmap_app. cbn. apply (Hsl ((λ k, (fresh (4 * k), now)) <$> seq 0 n)).
    + intros i v t Hi. destruct (Hslots i v t Hi) as (H1 & H2 & H3). split; [|done]. cbn.
      apply lookup_lt_Some in Hi as Hlt. cbn -[seq] in Hlt. rewrite length_fmap, length_seq in Hlt. by rewrite list_lookup_insert_ne by lia.
    + rewrite lookup_app_r, length_fmap, length_seq, Nat.sub_diag by (by rewrite length_fmap, length_seq). done.
    + intros j sl Hne [Hj|[Hlen Hj]]%lookup_app_Some; [done|].
      rewrite length_fmap, length_seq in *. apply lookup_lt_Some in Hj as Hl. cbn in Hl. lia.
Qed.

Lemma start_rep us start now : sender_inv us [] →
  client_rep (clear_client <| cl_us := Some us |> <| cl_start_time := signed32 start |> <| cl_current_time := now |>)
    (spec_start start now 0).
Proof.
  intros Hus. constructor; [constructor| |exact eq_refl..].
  - by exists us.
  - exact eq_refl.
  - change (Z.of_nat (length (replicate (Z.to_nat CONCURRENT_VALUES) (mk_client_proposal timeval_zero timeval_zero None))) = CONCURRENT_VALUES).
    by rewrite length_replicate.
  - change (blen (replicate (Z.to_nat (CONCURRENT_VALUES * sizeof_slot)) x00) = CONCURRENT_VALUES * sizeof_slot).
    unfold blen. rewrite length_replicate. by vm_compute.
  - exact eq_refl.
  - exact eq_refl.
  - intros i v t H. change ((@nil (list byte * timeval)) !! i = Some (v, t)) in H. by rewrite lookup_nil in H.
Qed.

Lemma init_spec us start now cl :
  client_rep (cl <| cl_us := Some (udp_sender_enable_autoflush 25 us) |> <| cl_start_time := signed32 start |> <| cl_current_time := now |>)
    (spec_start start now 0) →
  wp (client_pl_init random_seq send_result event_add (Some us) start now)
    (λ _ cl, client_rep cl (spec_start start now (Z.to_nat CONCURRENT_VALUES))) cl.
Proof using random_range send_atomic event_added.
  intros Hrep. unfold client_pl_init, set_periodic_event. wp_steps. eapply wp_lift_opt; [done|]. wp_steps. rewrite event_added.
  apply wp_assert; [done|]. wp_steps. rewrite event_added. apply wp_assert; [done|]. wp_steps.
  apply (wp_mfor (λ dn cl, client_rep cl (spec_start start now (length dn)) ∧ cl_current_time cl = now)); [done| |].
  - intros dn i rest cl' E [Hr Hnow].
    assert (seqZ 0 (CONCURRENT_VALUES - 0) !! length dn = Some i) as Hx by (rewrite E; by apply list_lookup_middle).
    apply lookup_seqZ in Hx. assert (i = Z.of_nat (length dn)) as -> by lia.
    rewrite length_app, Nat.add_1_r. apply init_loop_step; [done..|lia].
  - intros cl' [Hr _]. by rewrite length_seqZ in Hr.
Qed.

(** A timer for the statistics fires after the client was started. *)
Definition event_ok (start : Z) (ev : client_event) : Prop :=
  match ev with
  | EvStats now => start < now < start + 2 ^ 32
  | _ => True
  end.

Lemma stats_spec start now cl sp : client_rep cl sp → sp_start sp = signed32 start → event_ok start (EvStats now) →
  wp (print_client_stats now) (λ _ cl', client_rep cl' sp) cl.
Proof.
  intros [Hcore Hslots Hre Hdel Hby] Hst Hnow. unfold print_client_stats. cbn in Hnow.
  assert (signed32 (now - cl_start_time cl) ≠ 0) as Hne.
  { rewrite (cr_start _ _ Hcore), Hst. unfold signed32. set (x := u32 start). set (z := if x <? 2 ^ 31 then x else x - 2 ^ 32).
    assert (∃ k, z = start + k * 2 ^ 32) as [k ->].
    { subst z x. unfold wrap. pose proof (Z.div_mod start (2 ^ 32)). case_match; [exists (- (start / 2 ^ 32))|exists (- (start / 2 ^ 32) - 1)]; lia. }
    assert (u32 (now - (start + k * 2 ^ 32)) = now - start) as ->.
    { unfold wrap. symmetry. apply (Z.mod_unique _ _ (- k)); lia. }
    case_match; zbool; lia. }
  wp_steps. assert (∀ Q, Q tt cl → wp (if 0 <? deliver_count cl then c_assert (negb (signed32 (now - cl_start_time cl) =? 0)) else mret ()) Q cl) as H.
  { intros Q HQ. case_match; [apply wp_assert; [|done]|by apply wp_ret]. by rewrite (proj2 (Z.eqb_neq _ _) Hne). }
  apply H. destruct (0 <? latency_samples_count cl); wp_steps; constructor; try done; by destruct Hcore; constructor.
Qed.

Lemma handle_spec start ev cl sp :
  client_rep cl sp → Z.of_nat (length (sp_slots sp)) = CONCURRENT_VALUES → sp_start sp = signed32 start → event_ok start ev →
  wp (client_handle random_seq send_result ev) (λ _ cl', client_rep cl' (spec_step sp ev)) cl.
Proof using random_range send_atomic.
  intros Hrep Hlen Hst Hev. destruct ev as [now v|now|now|]; cbn [client_handle spec_step].
  - by apply on_deliver_spec.
  - by apply check_spec.
  - by eapply stats_spec.
  - destruct Hrep as [[(us & Hus & Hinv) ? ? ? ? ?] ? ? ? ?]. wp_steps. eapply wp_lift_opt; [exact Hus|]. apply wp_zoom.
    unfold udp_autoflush_cb. wp_steps. eapply wp_mono; [by apply flush_spec|]. intros _ us' [H' _]. wp_steps.
    constructor; [constructor; [by exists us'|done..]|done..].
Qed.

(** What the reference client is for. *)
Record closed_loop (sp : client_spec) : Prop := {
  lp_open : Z.of_nat (length (sp_slots sp)) = CONCURRENT_VALUES;
  lp_sent : Forall (λ sl, sl.1 ∈ sp_sent sp) (sp_slots sp);
  lp_delivered : Forall (λ v, v ∈ sp_sent sp) (sp_delivered sp);
  lp_count : Z.of_nat (length (sp_sent sp)) =
    CONCURRENT_VALUES + Z.of_nat (length (sp_delivered sp)) + Z.of_nat (sp_resent sp);
  lp_sizes : Forall (λ v, MIN_VAL_SIZE ≤ blen v < MAX_VAL_SIZE) (sp_sent sp)
}.

Lemma start_closed_loop start now : closed_loop (spec_start start now (Z.to_nat CONCURRENT_VALUES)).
Proof using random_range.
  constructor; cbn -[seq].
  - by rewrite length_fmap, length_seq.
  - apply list.Forall_forall. intros [v t] (k & [= -> ->] & Hk)%list_elem_of_fmap. cbn -[seq]. apply list_elem_of_fmap. by exists k.
  - constructor.
  - by rewrite length_fmap, length_seq.
  - apply list.Forall_forall. intros v (k & -> & _)%list_elem_of_fmap. rewrite blen_fresh. apply fresh_size_range.
Qed.

Lemma step_closed_loop sp ev : closed_loop sp → closed_loop (spec_step sp ev) ∧ sp_start (spec_step sp ev) = sp_start sp.
Proof using random_range.
  intros H. destruct ev as [now v|now|now|]; cbn [spec_step]; [| |done..].
  - unfold spec_deliver. destruct (list_find _ _) as [[i [w t]]|] eqn:F; [|done]. apply list_find_Some in F as (Hi & [= ->] & _).
    destruct H as [H1 H2 H3 H4 H5]. split; [|done]. set (new := fresh _).
    assert (∀ l, Forall (λ v, v ∈ sp_sent sp) l → Forall (λ v, v ∈ sp_sent sp ++ [new]) l) as Hmono.
    { intros l Hl. eapply list.Forall_impl; [exact Hl|]. intros x Hx. rewrite list.elem_of_app. by left. }
    constructor; cbn; rewrite ?length_insert, ?length_app; cbn; try done; try lia.
    + apply list.Forall_insert; [|cbn; apply list.elem_of_app; right; by left].
      eapply list.Forall_impl; [exact H2|]. intros sl Hx. rewrite list.elem_of_app. by left.
    + apply Forall_app_2; [by apply Hmono|]. apply Forall_singleton, list.elem_of_app. left.
      by apply (proj1 (list.Forall_forall _ _) H2 (v, t)), list_elem_of_lookup_2 with i.
    + apply Forall_app_2; [done|]. apply Forall_singleton. unfold new. rewrite blen_fresh. apply fresh_size_range.
  - destruct H as [H1 H2 H3 H4 H5]. split; [|done]. set (rs := (filter (λ sl, spec_expired now sl = true) (sp_slots sp)).*1).
    assert (∀ x, x ∈ rs → x ∈ sp_sent sp) as Hrs.
    { intros x ([w t] & -> & [_ Hx]%list_elem_of_filter)%list_elem_of_fmap. by apply (proj1 (list.Forall_forall _ _) H2). }
    unfold spec_check. fold rs. constructor; cbn [sp_slots sp_sent sp_delivered sp_resent].
    + by rewrite length_fmap.
    + apply list.Forall_fmap. eapply list.Forall_impl; [exact H2|]. intros [w t] Hw. cbn. rewrite list.elem_of_app. left. by case_match.
    + eapply list.Forall_impl; [exact H3|]. intros x Hx. rewrite list.elem_of_app. by left.
    + rewrite length_app. unfold rs. rewrite length_fmap. lia.
    + apply Forall_app_2; [done|]. apply list.Forall_forall. intros x Hx%Hrs. by apply (proj1 (list.Forall_forall _ _) H5).
Qed.
End client_spec.

(** C12. The client keeps its promise, whatever is delivered to it and whenever its
    timers fire: it never stops nor writes outside its buffer, and it implements
    the reference client [spec_run], with the messages given to the network
    exactly the commands sent there.  It always has [CONCURRENT_VALUES] commands
    under way, each of them sent at least once; what it counts as delivered it
    has sent before; and every send is the first of a command, or a repetition
    after a timeout, which it counts. *)
Theorem client_closed_loop random_seq send_result event_add inet_addr_ok socket_ok connect_ok t addr port us start now evs :
  (∀ n, 0 ≤ random_seq n < 2 ^ 31) →
  (∀ n size, send_result n size < 0 ∨ send_result n size = size) →
  (∀ interval, event_add interval = 0) →
  udp_sender_init inet_addr_ok socket_ok connect_ok t addr port = Some us →
  Forall (event_ok start) evs →
  wp (client_run random_seq send_result event_add (Some us) start now evs)
    (λ _ cl, client_rep cl (spec_run random_seq start now evs)) clear_client ∧
  closed_loop (spec_run random_seq start now evs).
Proof.
  intros Hrandom Hsend Hadd Hus%sender_init_inv Hevs. unfold client_run, spec_run.
  assert (sender_inv (udp_sender_enable_autoflush 25 us) []) as Hus' by (by destruct Hus).
  set (sp0 := spec_start random_seq start now _).
  assert (closed_loop sp0 ∧ sp_start sp0 = signed32 start) as H0 by (by split; [apply start_closed_loop|]).
  assert (∀ sp, closed_loop sp ∧ sp_start sp = signed32 start → Forall (event_ok start) evs →
    (∀ cl, client_rep cl sp → wp (mfor evs (client_handle random_seq send_result)) (λ _ cl', client_rep cl' (foldl (spec_step random_seq) sp evs)) cl) ∧
    closed_loop (foldl (spec_step random_seq) sp evs)) as Hrun.
  { clear Hevs H0. induction evs as [|ev evs IH]; intros sp [Hsp Hst] Hevs; [by split; [intros cl Hr; apply wp_ret|]|].
    apply list.Forall_cons in Hevs as [Hev Hevs]. destruct (step_closed_loop random_seq Hrandom sp ev Hsp) as [Hsp' Hst'].
    rewrite Hst in Hst'. destruct (IH _ (conj Hsp' Hst') Hevs) as [IH1 IH2]. split; [|done]. intros cl Hr. cbn [mfor foldl]. apply wp_bind.
    eapply wp_mono; [by eapply handle_spec; [..|apply Hsp|exact Hst|]|]. intros [] cl'. apply IH1. }
  destruct (Hrun _ H0 Hevs) as [H1 H2]. split; [|done]. apply wp_bind.
  apply (wp_mono _ (λ _ cl, client_rep cl sp0)); [|intros [] cl; apply H1]. apply init_spec; [done..|]. by apply start_rep.
Qed.

(** A client whose first command is delivered, and whose other commands time out. *)
Lemma client_closed_loop_witness :
  let evs := [EvDeliver (mk_timeval 100 500000) (fresh (λ _, 5) 0); EvCheck (mk_timeval 102 0); EvStats 105; EvAutoflush] in
  ∃ us cl, udp_sender_init (λ _, true) true true 0 "127.0.0.1" 6666 = Some us ∧
    client_run (λ _, 5) (λ _ size, size) (λ _, 0) (Some us) 100 (mk_timeval 100 0) evs clear_client = Some (tt, cl) ∧
    client_rep cl (spec_run (λ _, 5) 100 (mk_timeval 100 0) evs).
Proof.
  intros evs. eexists. assert (Forall (event_ok 100) evs) as Hev by (repeat constructor; vm_compute; done).
  edestruct (client_closed_loop (λ _, 5) (λ _ size, size) (λ _, 0) (λ _, true) true true 0 "127.0.0.1" 6666) as [H _];
    [done|by right|done|reflexivity|exact Hev|].
  apply wp_total in H as ([] & cl & Hrun & Hrep). exists cl. split; [reflexivity|]. split; [exact Hrun|exact Hrep].
Defined.

(** The latency that is recorded is less than a millisecond from the true one. *)
Lemma msec_between_close submitted_at now : tv_normal submitted_at → tv_normal now →
  0 ≤ tv_micros now - tv_micros submitted_at < 2 ^ 31 * 1000 →
  Z.abs (msec_between submitted_at now * 1000 - (tv_micros now - tv_micros submitted_at)) < 1000.
Proof.
  unfold tv_normal, tv_micros. destruct submitted_at as [s1 u1], now as [s2 u2]. cbn. intros H1 H2 Hd.
  unfold msec_between. cbn. set (q := Z.quot (u2 - u1) 1000).
  assert (Z.abs (q * 1000 - (u2 - u1)) < 1000 ∧ (0 ≤ u2 - u1 → 0 ≤ q) ∧ - 999 ≤ q ≤ 999) as (Hq & Hq0 & Hq1).
  { unfold q. pose proof (Z.quot_rem' (u2 - u1) 1000). pose proof (Z.rem_bound_abs (u2 - u1) 1000 ltac:(lia)).
    destruct (Z.le_gt_cases 0 (u2 - u1)).
    - pose proof (Z.rem_nonneg (u2 - u1) 1000 ltac:(lia) ltac:(lia)). lia.
    - pose proof (Z.rem_nonpos (u2 - u1) 1000 ltac:(lia) ltac:(lia)). lia. }
  assert (u32 ((s2 - s1) * 1000) = (s2 - s1) * 1000) as -> by (apply wrap_small; lia).
  rewrite wrap_small by nia. lia.
Qed.
