(* ===== verification/RingApps.v ===== *)
(** * The example programs of RingPaxos

    [ring_paxos/ring-paxos/client_proposer.c]: a client that submits random
    commands at a fixed rate through the submit proxy ([RingLearner.submit_command])
    and the sender of [RingUdp]; [client_learner.c]: a learner that counts what is
    delivered.  Random numbers and times are sequences.

    [submit_loop_sends]: the client ends, and its packets hold its commands.
    [learner_counts], [rate_of_one_second]: the learner counts every delivery,
    and stops when two reports fall into one second. *)
From Stdlib Require Import Init.Byte.
From coqutil Require Import Byte.
From S2P Require Import Prelude Timers Bytes RingMessages RingUdp RingLearner RingClient.

Definition SUBMIT_PER_WAKE : Z := 16.
Definition GIGABYTE : Z := 1024 * 1024 * 1024.
Definition PRINT_INTERVAL_BYTES : Z := GIGABYTE.

(** The static buffer and the sender of the proxy, and the local variables of
    [submit_loop]; [sb_log] is what it prints. *)
Record submitter := mk_submitter {
  sp_us : udp_sender;
  smsg_buf : list byte;                (* char[MAX_MESSAGE_SIZE] *)
  sb_draws : nat;
  sb_count : Z;                        (* int *)
  sb_bytes_count : Z;                  (* unsigned long *)
  sb_time_prev : timeval;
  sb_clock : nat;
  sb_log : list (Z * Z)
}.

Section submitter.
(** [NUM_VALUES] is 500000. *)
Context (NUM_VALUES : Z) (random_seq : nat → Z) (send_result : nat → Z → Z) (gettimeofday : nat → timeval).
Implicit Types (s : submitter).

Definition sb_random : M submitter Z := λ s,
  Some (random_seq (sb_draws s),
    mk_submitter (sp_us s) (smsg_buf s) (S (sb_draws s)) (sb_count s) (sb_bytes_count s) (sb_time_prev s) (sb_clock s) (sb_log s)).

Definition sb_now : M submitter timeval := λ s,
  Some (gettimeofday (sb_clock s),
    mk_submitter (sp_us s) (smsg_buf s) (sb_draws s) (sb_count s) (sb_bytes_count s) (sb_time_prev s) (S (sb_clock s)) (sb_log s)).

Definition set_sp_us (us : udp_sender) s : submitter :=
  mk_submitter us (smsg_buf s) (sb_draws s) (sb_count s) (sb_bytes_count s) (sb_time_prev s) (sb_clock s) (sb_log s).

Definition write_smsg (off : Z) (bs : list byte) : M submitter unit :=
  s ← get;
  buf ← lift_opt (buf_write off bs (smsg_buf s));
  modify (λ s, mk_submitter (sp_us s) buf (sb_draws s) (sb_count s) (sb_bytes_count s) (sb_time_prev s) (sb_clock s) (sb_log s)).

(** [generate_random_val] in the value of [smsg]. *)
Definition generate_random_val : M submitter Z :=
  r ← sb_random;
  let c := r mod 94 + 33 in
  r ← sb_random;
  let size := r mod (MAX_VAL_SIZE - MIN_VAL_SIZE) + MIN_VAL_SIZE in
  write_smsg sizeof_submit_cmd_msg (replicate (Z.to_nat size) (byte.of_Z c));;
  mret size.

(** [submit_command] (ringpaxos_submit_proxy.c) of [smsg]. *)
Definition submit_smsg : M submitter unit :=
  s ← get;
  cmd_size ← lift_opt (rd 8 0 (smsg_buf s));
  if MAX_MESSAGE_SIZE - LARGEST_PAXOS_HEADER <? sizeof_submit_cmd_msg + cmd_size then mret tt
  else
    data ← lift_opt (rd_bytes (sizeof_submit_cmd_msg + cmd_size) 0 (smsg_buf s));
    zoom sp_us set_sp_us (net_send_udp send_result data client_submit).

(** The body of the inner loop. *)
Definition submit_one : M submitter unit :=
  modify (λ s, mk_submitter (sp_us s) (smsg_buf s) (sb_draws s) (sb_count s + 1) (sb_bytes_count s) (sb_time_prev s) (sb_clock s) (sb_log s));;
  size ← generate_random_val;
  write_smsg 0 (le_split 8 size);;
  submit_smsg;;
  modify (λ s, mk_submitter (sp_us s) (smsg_buf s) (sb_draws s) (sb_count s) (u64 (sb_bytes_count s + size)) (sb_time_prev s) (sb_clock s)
    (sb_log s)).

(** The statistics of [submit_loop]: the megabits, and the milliseconds they
    took. *)
Definition print_submit_stats : M submitter unit :=
  s ← get;
  if PRINT_INTERVAL_BYTES <=? sb_bytes_count s then
    let megabit := u64 (sb_bytes_count s * 8) / (1024 * 1024) in
    time_now ← sb_now;
    let time_prev := sb_time_prev s in
    let millisec := u64 ((tv_sec time_now - tv_sec time_prev) * 1000) in
    let millisec := u64 (millisec + Z.quot (tv_usec time_now - tv_usec time_prev) 1000) in
    modify (λ s, mk_submitter (sp_us s) (smsg_buf s) (sb_draws s) (sb_count s) 0 time_now (sb_clock s) (sb_log s ++ [(megabit, millisec)]))
  else mret tt.

Definition submit_wake : M submitter unit :=
  for_lt 0 SUBMIT_PER_WAKE (λ _, submit_one);;
  _ ← zoom sp_us set_sp_us (udp_sender_force_flush send_result);
  print_submit_stats.

Fixpoint submit_loop_fuel (fuel : nat) : M submitter unit :=
  match fuel with
  | O => crash
  | S fuel =>
      s ← get;
      if sb_count s <? NUM_VALUES then submit_wake;; submit_loop_fuel fuel else mret tt
  end.

(** The number of rounds is the fuel. *)
Definition submit_wakes : Z := (NUM_VALUES + SUBMIT_PER_WAKE - 1) / SUBMIT_PER_WAKE.

Definition submit_loop : M submitter unit :=
  time ← sb_now;
  modify (λ s, mk_submitter (sp_us s) (smsg_buf s) (sb_draws s) 0 0 time (sb_clock s) (sb_log s));;
  submit_loop_fuel (S (Z.to_nat submit_wakes)).
End submitter.

Section submitter_spec.
Context (NUM_VALUES : Z) (random_seq : nat → Z) (send_result : nat → Z → Z) (gettimeofday : nat → timeval).
Hypothesis send_atomic : ∀ n size, send_result n size < 0 ∨ send_result n size = size.
Implicit Types (s : submitter).

(** The [k]th command. *)
Definition app_size (k : nat) : Z := random_seq (S (2 * k)) mod 50 + MIN_VAL_SIZE.
Definition app_cmd (k : nat) : list byte := replicate (Z.to_nat (app_size k)) (byte.of_Z (random_seq (2 * k) mod 94 + 33)).
Definition app_cmds (n : nat) : list (list byte) := map app_cmd (seq 0 n).

Lemma app_size_range k : 8890 ≤ app_size k < 8940.
Proof using Type. unfold app_size. change MIN_VAL_SIZE with 8890. pose proof (Z.mod_pos_bound (random_seq (S (2 * k))) 50). lia. Qed.

Lemma blen_app_cmd k : blen (app_cmd k) = app_size k.
Proof using Type. unfold app_cmd, blen. rewrite length_replicate. pose proof (app_size_range k). lia. Qed.

Lemma app_cmds_S n : app_cmds (S n) = app_cmds n ++ [app_cmd n].
Proof using Type. unfold app_cmds. by rewrite seq_S, map_app. Qed.

(** [n] commands were given to the sender. *)
Record submitter_inv (n : nat) s : Prop := mk_submitter_inv {
  sbi_buf : blen (smsg_buf s) = MAX_MESSAGE_SIZE;
  sbi_draws : sb_draws s = (2 * n)%nat;
  sbi_count : sb_count s = Z.of_nat n;
  sbi_us : sender_inv (sp_us s) (submitted <$> app_cmds n)
}.

Lemma write_smsg_spec off bs s (Q : unit → submitter → Prop) : 0 ≤ off → off + blen bs ≤ blen (smsg_buf s) →
  (∀ buf, blen buf = blen (smsg_buf s) → at_off buf off bs →
    (∀ o l, at_off (smsg_buf s) o l → o + blen l ≤ off ∨ off + blen bs ≤ o → at_off buf o l) →
    Q tt (mk_submitter (sp_us s) buf (sb_draws s) (sb_count s) (sb_bytes_count s) (sb_time_prev s) (sb_clock s) (sb_log s))) →
  wp (write_smsg off bs) Q s.
Proof using Type.
  intros H0 Hfit HQ. destruct (buf_write_spec off bs (smsg_buf s)) as (buf & E & H1 & H2 & H3); [done..|].
  unfold write_smsg. apply wp_bind, wp_get, wp_bind. eapply wp_lift_opt; [exact E|]. apply wp_modify. auto.
Qed.

Lemma wp_sb_random s (Q : Z → submitter → Prop) :
  Q (random_seq (sb_draws s)) (mk_submitter (sp_us s) (smsg_buf s) (S (sb_draws s)) (sb_count s) (sb_bytes_count s) (sb_time_prev s) (sb_clock s) (sb_log s)) →
  wp (sb_random random_seq) Q s.
Proof using Type. done. Qed.

Lemma submit_one_spec n s : submitter_inv n s →
  wp (submit_one random_seq send_result) (λ _ s', submitter_inv (S n) s') s.
Proof using send_atomic.
  intros [Hbuf Hdr Hcnt Hus]. change MAX_MESSAGE_SIZE with 8980 in Hbuf. unfold submit_one, generate_random_val. apply wp_bind, wp_modify, wp_bind, wp_bind.
  apply wp_sb_random, wp_bind, wp_sb_random. cbn [sb_draws smsg_buf].
  rewrite Hdr. change (MAX_VAL_SIZE - MIN_VAL_SIZE) with 50. fold (app_size n). fold (app_cmd n).
  pose proof (app_size_range n) as Hsz. pose proof (blen_app_cmd n) as Hlen.
  apply wp_bind, write_smsg_spec; [done|cbn; unfold sizeof_submit_cmd_msg; lia|]. cbn. intros b1 L1 A1 _. apply wp_ret.
  apply wp_bind, write_smsg_spec; [done|rewrite blen_le_split; cbn; lia|]. cbn. rewrite blen_le_split. intros b2 L2 A2 F2.
  apply wp_bind. unfold submit_smsg. apply wp_bind, wp_get. cbn.
  destruct (read_submit b2 0 (app_cmd n)) as (E1 & E2 & _); [|lia|].
  { unfold enc_submit. apply at_off_join; [by rewrite Hlen|]. rewrite blen_le_split. apply F2; [exact A1|]. unfold sizeof_submit_cmd_msg. lia. }
  apply wp_bind. eapply wp_lift_opt; [exact E1|]. rewrite Hlen in *.
  destruct (Z.ltb_spec (MAX_MESSAGE_SIZE - LARGEST_PAXOS_HEADER) (sizeof_submit_cmd_msg + app_size n)) as [Hbig|_].
  { change (MAX_MESSAGE_SIZE - LARGEST_PAXOS_HEADER) with 8966 in Hbig. unfold sizeof_submit_cmd_msg in Hbig. lia. }
  apply wp_bind. eapply wp_lift_opt; [exact E2|]. apply wp_zoom. cbn.
  eapply wp_mono; [by apply (send_spec send_result send_atomic _ (submitted <$> app_cmds n))|]. intros ? us Hus'. apply wp_modify. cbn.
  constructor; cbn [smsg_buf sb_draws sb_count sp_us set_sp_us]; [change MAX_MESSAGE_SIZE with 8980; lia|lia|lia|].
  rewrite app_cmds_S, fmap_app. destruct (Z.ltb_spec MAX_MESSAGE_SIZE (blen (enc_submit (app_cmd n)))) as [Hbig|]; [|done].
  rewrite blen_enc_submit in Hbig. change MAX_MESSAGE_SIZE with 8980 in Hbig. lia.
Qed.

(** A round ends with an empty buffer. *)
Lemma submit_wake_spec n s : submitter_inv n s →
  wp (submit_wake random_seq send_result gettimeofday)
    (λ _ s', submitter_inv (n + 16) s' ∧ current_buf_size (sp_us s') = 0) s.
Proof using send_atomic.
  intros Hs. unfold submit_wake. apply wp_bind, (wp_mfor (λ dn s', submitter_inv (n + length dn) s')).
  - by rewrite Nat.add_0_r.
  - intros dn x rest s' _ Hs'. rewrite length_app. replace (n + (length dn + length [x]))%nat with (S (n + length dn)) by (cbn; lia).
    by apply submit_one_spec.
  - intros s' [H1 H2 H3 H4]. change (length _) with 16%nat in *. apply wp_bind, wp_zoom.
    eapply wp_mono; [by apply flush_spec|]. intros ? us [Hus He].
    assert (submitter_inv (n + 16) (set_sp_us us s')) as Hs1 by by constructor.
    unfold print_submit_stats. apply wp_bind, wp_get. destruct (_ <=? _); [|by apply wp_ret].
    apply wp_bind. unfold sb_now. by destruct Hs1.
Qed.

Lemma submit_wakes_spec w : 0 ≤ NUM_VALUES → w ≤ submit_wakes NUM_VALUES → (NUM_VALUES ≤ 16 * w ↔ w = submit_wakes NUM_VALUES).
Proof using Type.
  unfold submit_wakes, SUBMIT_PER_WAKE. intros H Hw. pose proof (Z.div_mod (NUM_VALUES + 16 - 1) 16).
  pose proof (Z.mod_pos_bound (NUM_VALUES + 16 - 1) 16). lia.
Qed.

Lemma submit_loop_fuel_spec fuel w s : 0 ≤ NUM_VALUES → submitter_inv (16 * w) s → current_buf_size (sp_us s) = 0 →
  Z.of_nat w ≤ submit_wakes NUM_VALUES < Z.of_nat w + Z.of_nat fuel →
  wp (submit_loop_fuel NUM_VALUES random_seq send_result gettimeofday fuel)
    (λ _ s', submitter_inv (16 * Z.to_nat (submit_wakes NUM_VALUES)) s' ∧ current_buf_size (sp_us s') = 0) s.
Proof using send_atomic.
  intros Hn. revert w s. induction fuel as [|fuel IH]; intros w s Hs He Hw; [lia|]. cbn [submit_loop_fuel].
  apply wp_bind, wp_get. rewrite (sbi_count _ _ Hs). pose proof (submit_wakes_spec (Z.of_nat w) Hn) as Hsp.
  destruct (Z.ltb_spec (Z.of_nat (16 * w)) NUM_VALUES) as [Hlt|Hge].
  - apply wp_bind. eapply wp_mono; [by apply submit_wake_spec|]. intros ? s' [Hs' He'].
    apply (IH (S w)); [by replace (16 * S w)%nat with (16 * w + 16)%nat by lia|done|lia].
  - apply wp_ret. split; [|done]. by replace (Z.to_nat (submit_wakes NUM_VALUES)) with w by lia.
Qed.

(** When [send] sends a datagram or fails, the client ends after its last round;
    the packets it handed to [send] hold its commands, in order and each once,
    and it keeps none back. *)
Theorem submit_loop_sends s : 0 ≤ NUM_VALUES → blen (smsg_buf s) = MAX_MESSAGE_SIZE → sb_draws s = 0%nat →
  sender_inv (sp_us s) [] → current_buf_size (sp_us s) = 0 →
  wp (submit_loop NUM_VALUES random_seq send_result gettimeofday)
    (λ _ s', let n := (16 * Z.to_nat (submit_wakes NUM_VALUES))%nat in
      sb_count s' = Z.of_nat n ∧
      concat (parse_packet <$> (attempts (sp_us s')).*1) = submitted <$> app_cmds n ∧
      Forall (λ p, 0 < blen p ≤ MAX_UDP_PAYLOAD) (attempts (sp_us s')).*1) s.
Proof using send_atomic.
  intros Hn Hb Hd Hus He. unfold submit_loop. apply wp_bind. unfold sb_now.
  assert (0 ≤ submit_wakes NUM_VALUES) as Hw by (unfold submit_wakes, SUBMIT_PER_WAKE; apply Z.div_pos; lia).
  enough (∀ s1, submitter_inv (16 * 0) s1 → current_buf_size (sp_us s1) = 0 →
    wp (submit_loop_fuel NUM_VALUES random_seq send_result gettimeofday (S (Z.to_nat (submit_wakes NUM_VALUES)))) (λ _ s',
      let n := (16 * Z.to_nat (submit_wakes NUM_VALUES))%nat in
      sb_count s' = Z.of_nat n ∧ concat (parse_packet <$> (attempts (sp_us s')).*1) = submitted <$> app_cmds n ∧
      Forall (λ p, 0 < blen p ≤ MAX_UDP_PAYLOAD) (attempts (sp_us s')).*1) s1) as Hloop.
  { by apply Hloop; [constructor|]. }
  intros s1 Hs1 He1. eapply wp_mono; [apply (submit_loop_fuel_spec _ 0); [done..|lia]|].
  intros ? s' [[_ _ Hc [_ _ _ Hall Hps]] He']. split; [done|]. rewrite He' in Hall.
  change (take (Z.to_nat 0) (send_buf (sp_us s'))) with (@nil byte) in Hall. rewrite (parse_packet_end []), app_nil_r in Hall by apply no_frame_nil.
  split; [exact Hall|]. eapply list.Forall_impl; [exact Hps|]. by intros p [? _].
Qed.
End submitter_spec.

(** ** client_learner.c *)

Record learner_stats := mk_learner_stats {
  ls_start_time : Z;                   (* int *)
  ls_total_count : Z;                  (* unsigned long *)
  ls_total_bytes : Z;
  ls_prev_time : Z;
  ls_deliver_count : Z;
  ls_deliver_bytes : Z
}.

(** What a report prints of its sample and of the total: values, bytes, seconds,
    values per second, megabits per second. *)
Definition report_line : Type := Z * Z * Z * Z * Z.

(** [count/secs] and [((bytes * 8) / (1024*1024)) / secs], which are unsigned
    divisions whose results are stored in an [int]; a division by 0 traps. *)
Definition report (count bytes secs : Z) : M learner_stats report_line :=
  c_assert (negb (u64 secs =? 0));;
  mret (count, bytes, secs, signed32 (count / u64 secs), signed32 (u64 (bytes * 8) / (1024 * 1024) / u64 secs)).

(** [on_deliver] of a command of [cmd_size] bytes. *)
Definition app_on_deliver (cmd_size : Z) : M learner_stats unit := modify (λ ls,
  mk_learner_stats (ls_start_time ls) (ls_total_count ls) (ls_total_bytes ls) (ls_prev_time ls)
    (u64 (ls_deliver_count ls + 1)) (u64 (ls_deliver_bytes ls + cmd_size))).

(** [print_stats] with [time(NULL)] = [now]. *)
Definition app_print_stats (now : Z) : M learner_stats (option (report_line * report_line)) :=
  ls ← get;
  if ls_deliver_count ls =? 0 then mret None
  else
    let current_time := signed32 now in
    last ← report (ls_deliver_count ls) (ls_deliver_bytes ls) (signed32 (current_time - ls_prev_time ls));
    modify (λ ls, mk_learner_stats (ls_start_time ls) (u64 (ls_total_count ls + ls_deliver_count ls))
      (u64 (ls_total_bytes ls + ls_deliver_bytes ls)) current_time 0 0);;
    ls ← get;
    total ← report (ls_total_count ls) (ls_total_bytes ls) (signed32 (current_time - ls_start_time ls));
    mret (Some (last, total)).

(** [custom_init] *)
Definition app_custom_init (now : Z) : M learner_stats unit := modify (λ ls,
  mk_learner_stats (signed32 now) (ls_total_count ls) (ls_total_bytes ls) (signed32 now) (ls_deliver_count ls) (ls_deliver_bytes ls)).

Inductive app_event := AppDeliver (cmd_size : Z) | AppPrint (now : Z).

Definition app_handle (ev : app_event) : M learner_stats unit :=
  match ev with
  | AppDeliver cmd_size => app_on_deliver cmd_size
  | AppPrint now => _ ← app_print_stats now; mret tt
  end.

(** The reports come at later and later seconds. *)
Fixpoint later_reports (last : Z) (evs : list app_event) : Prop :=
  match evs with
  | [] => True
  | AppDeliver _ :: evs => later_reports last evs
  | AppPrint now :: evs => last < now ∧ later_reports now evs
  end.

Definition delivered_sizes (evs : list app_event) : list Z :=
  omap (λ ev, match ev with AppDeliver n => Some n | AppPrint _ => None end) evs.

Lemma signed32_id z : - 2 ^ 31 ≤ z < 2 ^ 31 → signed32 z = z.
Proof.
  intros H. unfold signed32, wrap. destruct (Z.leb_spec 0 z).
  - rewrite Z.mod_small by lia. destruct (Z.ltb_spec z (2 ^ 31)); lia.
  - replace (z mod 2 ^ 32) with (z + 2 ^ 32); [destruct (Z.ltb_spec (z + 2 ^ 32) (2 ^ 31)); lia|].
    rewrite <-(Z.mod_small (z + 2 ^ 32) (2 ^ 32)) by lia. rewrite Z.add_mod, Z.mod_same, Z.add_0_r, Z.mod_mod by lia. done.
Qed.

Lemma later_reports_weaken last last' evs : last' ≤ last → later_reports last evs → later_reports last' evs.
Proof. intros Hl. induction evs as [|[n|now] evs IH]; cbn; [done|done|]. intros [H1 H2]. split; [lia|done]. Qed.

Lemma report_spec count bytes secs ls (Q : report_line → learner_stats → Prop) :
  0 < secs < 2 ^ 31 → (∀ r, Q r ls) → wp (report count bytes secs) Q ls.
Proof.
  intros H HQ. unfold report. rewrite (wrap_small 64 secs) by lia. apply wp_bind, wp_assert; [|by apply wp_ret].
  apply negb_true_iff, Z.eqb_neq. lia.
Qed.

(** What was counted. *)
Definition counted (ls : learner_stats) : Z * Z :=
  (u64 (ls_total_count ls + ls_deliver_count ls), u64 (ls_total_bytes ls + ls_deliver_bytes ls)).

Lemma app_print_spec now ls : 0 ≤ ls_start_time ls ≤ ls_prev_time ls → ls_prev_time ls < now < 2 ^ 31 →
  wp (app_print_stats now) (λ _ ls', counted ls' = counted ls ∧ ls_start_time ls' = ls_start_time ls ∧
    ls_prev_time ls ≤ ls_prev_time ls' ≤ now) ls.
Proof.
  intros H1 H2. unfold app_print_stats. apply wp_bind, wp_get. destruct (Z.eqb_spec (ls_deliver_count ls) 0) as [E|E].
  { apply wp_ret. split_and!; [done|done|lia|lia]. }
  rewrite (signed32_id now), (signed32_id (now - _)) by lia. apply wp_bind, report_spec; [lia|]. intros r.
  apply wp_bind, wp_modify, wp_bind, wp_get. cbn. rewrite (signed32_id (now - _)) by lia. apply wp_bind, report_spec; [lia|]. intros r'.
  apply wp_ret. cbn. split_and!; [|done|lia|lia]. unfold counted. cbn. rewrite !Z.add_0_r. unfold wrap. by rewrite !Zmod_mod.
Qed.

Lemma app_run_spec evs ls : 0 ≤ ls_start_time ls ≤ ls_prev_time ls → later_reports (ls_prev_time ls) evs →
  Forall (λ ev, if ev is AppPrint now then now < 2 ^ 31 else True) evs →
  wp (mfor evs app_handle) (λ _ ls', counted ls' =
    (u64 ((counted ls).1 + Z.of_nat (length (delivered_sizes evs))), u64 ((counted ls).2 + foldr Z.add 0 (delivered_sizes evs)))) ls.
Proof.
  intros Hst Hl Hev. revert ls Hst Hl. induction Hev as [|ev evs Hev _ IH]; intros ls Hst Hl.
  { apply wp_ret. unfold counted. cbn. rewrite !Z.add_0_r. unfold wrap. by rewrite !Zmod_mod. }
  cbn [mfor]. apply wp_bind. destruct ev as [n|now]; cbn [app_handle later_reports] in *.
  - apply wp_modify. eapply wp_mono; [by apply IH|]. intros _ ls' ->. unfold counted.
    change (delivered_sizes (AppDeliver n :: evs)) with (n :: delivered_sizes evs).
    cbn [length foldr fst snd ls_total_count ls_deliver_count ls_total_bytes ls_deliver_bytes]. rewrite Nat2Z.inj_succ. unfold wrap. apply pair_equal_spec.
    rewrite !Zplus_mod_idemp_r, !Zplus_mod_idemp_l. split; apply (f_equal (λ z, z mod 2 ^ 64)); lia.
  - destruct Hl as [Hlt Hl]. cbv iota in Hev. apply wp_bind. eapply wp_mono; [apply app_print_spec; [exact Hst|lia]|].
    intros _ ls1 (E & Es & Hp). apply wp_ret. rewrite <-E. apply IH; [lia|]. eapply later_reports_weaken; [|exact Hl]; lia.
Qed.

(** Every delivery is in the totals or in the sample, and no report divides by
    zero, when the clock counts up and reports are a second apart. *)
Theorem learner_counts start evs :
  0 ≤ start < 2 ^ 31 → later_reports start evs → Forall (λ ev, if ev is AppPrint now then now < 2 ^ 31 else True) evs →
  wp (app_custom_init start;; mfor evs app_handle)
    (λ _ ls, u64 (ls_total_count ls + ls_deliver_count ls) = u64 (Z.of_nat (length (delivered_sizes evs))) ∧
      u64 (ls_total_bytes ls + ls_deliver_bytes ls) = u64 (foldr Z.add 0 (delivered_sizes evs)))
    (mk_learner_stats 0 0 0 0 0 0).
Proof.
  intros Hst Hl Hev. apply wp_bind, wp_modify. cbn. rewrite signed32_id by lia.
  eapply wp_mono; [apply app_run_spec; [cbn; lia|exact Hl|exact Hev]|]. intros _ ls [= -> ->].
  unfold wrap. by rewrite !Zmod_0_l, !Z.add_0_l.
Qed.

(** Two reports in one second, with a delivery between them. *)
Example rate_of_one_second :
  (app_custom_init 100;; mfor [AppDeliver 5; AppPrint 105; AppDeliver 5; AppPrint 105] app_handle) (mk_learner_stats 0 0 0 0 0 0) = None.
Proof. reflexivity. Qed.
