(* ===== verification/RingTests.v ===== *)
(** * The tests of RingPaxos

    The programs of [ring_paxos/test] that test one component of the library,
    over the models of these components: [test_mempool_1.c] and
    [test_mempool_2.c], [test_values_queue.c] and [test_values_queue_2.c],
    [test_ballot.c] and [test_ballot_2.c], [test_timer_1.c].

    [pool_tests_pass]: the tests of the pool succeed with any implementation of
    its queue, whatever numbers are drawn, for any number of operations.
    [timer_test_passes]: so does that of the timers for any clock that runs. *)
From Stdlib Require Import Init.Byte String Ascii.
From S2P Require Import Prelude Timers RingUtil RingQueue MemoryPool.

(** ** The pool *)

(** The pool, the bytes it was cut out of, and the array [chunks] of [main]. *)
Record pool_test (Q : Type) := mk_pool_test {
  pt_pool : memory_pool Q;
  pt_mem : list Z;                     (* char *)
  pt_chunks : list (option Z)
}.
Arguments mk_pool_test {Q} _ _ _.
Arguments pt_pool {Q} _.
Arguments pt_mem {Q} _.
Arguments pt_chunks {Q} _.

Section pool_test.
Context {Q : Type} `{HQ : Deque Q Z}.
(** [POOL_ENTRIES] is 10 in the first and 100 in the second test,
    [POOL_ENTRY_SIZE] 300; [base] is what [calloc] returned. *)
Context (POOL_ENTRIES POOL_ENTRY_SIZE base : Z).
Implicit Types (s : pool_test Q).

Abbreviation PT := (M (pool_test Q)).

Definition on_pool {A} (m : M (memory_pool Q) A) : PT A := zoom pt_pool (λ mp s, mk_pool_test mp (pt_mem s) (pt_chunks s)) m.

(** A read and a write of a byte at an address; outside of the pool there is
    nothing. *)
Definition load (addr : Z) : PT Z := s ← get; lift_opt (arr_get (pt_mem s) (addr - base)).
Definition store (addr c : Z) : PT unit :=
  _ ← load addr; modify (λ s, mk_pool_test (pt_pool s) (arr_set (pt_mem s) (addr - base) c) (pt_chunks s)).

Definition write_chunk (addr c : Z) : PT unit := for_lt 0 POOL_ENTRY_SIZE (λ i, store (addr + i) c).
Definition verify_chunk (addr c : Z) : PT unit := for_lt 0 POOL_ENTRY_SIZE (λ i, d ← load (addr + i); c_assert (d =? c)).

Definition get_chunk (i : Z) : PT (option Z) := s ← get; lift_opt (arr_get (pt_chunks s) i).
Definition set_chunk (i : Z) (p : option Z) : PT unit :=
  _ ← get_chunk i; modify (λ s, mk_pool_test (pt_pool s) (pt_mem s) (arr_set (pt_chunks s) i p)).

(** [(char)(i % 255)] *)
Definition chunk_char (i : Z) : Z := let c := i mod 255 in if c <? 128 then c else c - 256.

(** Allocate a chunk and write into it. *)
Definition alloc_chunk (i : Z) : PT unit :=
  addr ← on_pool mempool_alloc;
  set_chunk i (Some addr);;
  write_chunk addr (chunk_char i).

(** Verify the contents and release. *)
Definition free_chunk (i : Z) : PT unit :=
  p ← get_chunk i;
  addr ← lift_opt p;
  verify_chunk addr (chunk_char i);;
  on_pool (mempool_free addr);;
  set_chunk i None.

(** [while (is_mempool_exhaused(mp) == false)], from [i] on; the result is the
    final [i]. *)
Fixpoint alloc_until_exhausted (fuel : nat) (i : Z) : PT Z :=
  s ← get;
  if is_mempool_exhaused (pt_pool s) then mret i
  else match fuel with O => crash | S fuel => alloc_chunk i;; alloc_until_exhausted fuel (i + 1) end.

(** [main] of test_mempool_1.c once the pool is made. *)
Definition test_mempool_1 : PT unit :=
  for_lt 0 POOL_ENTRIES alloc_chunk;;
  for_lt 0 POOL_ENTRIES free_chunk;;
  i ← alloc_until_exhausted (Z.to_nat POOL_ENTRIES) 0;
  c_assert (i =? POOL_ENTRIES);;
  for_lt 0 POOL_ENTRIES free_chunk.

(** [boundaries_test]: the addresses that [malloc] returns. *)
Definition boundaries_test (malloc : nat → Z) : PT unit :=
  mfor (seq 0 100) (λ i, s ← get; c_assert (negb (is_mempool_chunk (pt_pool s) (malloc i)))).

(** One operation of the random loop of test_mempool_2.c. *)
Definition random_operation (random : Z) : PT unit :=
  let index := random mod POOL_ENTRIES in
  p ← get_chunk index;
  match p with
  | None =>
      addr ← on_pool mempool_alloc;
      set_chunk index (Some addr);;
      s ← get;
      p ← get_chunk index;
      addr ← lift_opt p;
      c_assert (is_mempool_chunk (pt_pool s) addr);;
      write_chunk addr (chunk_char index)
  | Some _ => free_chunk index
  end.

(** [main] of test_mempool_2.c; [randoms] are the numbers that are drawn. *)
Definition test_mempool_2 (malloc : nat → Z) (randoms : list Z) : PT unit :=
  boundaries_test malloc;;
  mfor (Z.mul 2 <$> seqZ 0 ((POOL_ENTRIES + 1) / 2)) alloc_chunk;;
  mfor randoms random_operation.

(** The state before the first allocation. *)
Definition pool_test_start : option (pool_test Q) :=
  mp ← mempool_new POOL_ENTRIES POOL_ENTRY_SIZE base;
  Some (mk_pool_test mp (replicate (Z.to_nat (POOL_ENTRIES * POOL_ENTRY_SIZE)) 0) (replicate (Z.to_nat POOL_ENTRIES) None)).
End pool_test.

(** *** Every allocated chunk keeps its contents *)

(** The owned chunks, when an entry of the array changes. *)
Lemma owned_split (l : list (option Z)) i x y : arr_get l i = Some x →
  ∃ l1 l2, l = l1 ++ x :: l2 ∧ arr_set l i y = l1 ++ y :: l2.
Proof.
  intros [Hi Hx]%arr_get_Some. exists (take (Z.to_nat i) l), (drop (S (Z.to_nat i)) l).
  split; [by rewrite take_drop_middle|]. unfold arr_set. apply insert_take_drop. by apply lookup_lt_Some in Hx.
Qed.

Lemma in_owned (l : list (option Z)) i a : arr_get l i = Some (Some a) → a ∈ omap id l.
Proof. intros [_ H%list_elem_of_lookup_2]%arr_get_Some. apply list_elem_of_omap. by exists (Some a). Qed.

Lemma length_omap_le {A B} (f : A → option B) l : (length (omap f l) ≤ length l)%nat.
Proof. induction l as [|x l IH]; cbn; [done|]. destruct (f x); cbn; lia. Qed.

Lemma length_owned (l : list (option Z)) i : arr_get l i = Some None → (length (omap id l) < length l)%nat.
Proof.
  intros H. destruct (owned_split l i None None H) as (l1 & l2 & -> & _). rewrite omap_app, !length_app. cbn.
  pose proof (length_omap_le id l1). pose proof (length_omap_le id l2). lia.
Qed.
Lemma length_omap_all (l : list (option Z)) : (∀ i, 0 ≤ i < Z.of_nat (length l) → ∃ a, arr_get l i = Some (Some a)) → length (omap id l) = length l.
Proof.
  intros H. assert (Forall is_Some l) as Hl.
  { apply list.Forall_lookup. intros i x Hx. destruct (H (Z.of_nat i)) as [a Ha]; [apply lookup_lt_Some in Hx; lia|].
    apply arr_get_Some in Ha as [_ Ha]. rewrite Nat2Z.id, Hx in Ha. injection Ha as ->. by exists a. }
  clear H. induction Hl as [|x l [a ->] _ IH]; cbn; [done|]. by rewrite IH.
Qed.

(** A position of [seqZ]. *)
Lemma seqZ_split from len dn x rest : seqZ from len = dn ++ x :: rest → x = from + Z.of_nat (length dn) ∧ from ≤ x < from + len.
Proof.
  intros E. assert (seqZ from len !! length dn = Some x) as Hx by (by rewrite E, list_lookup_middle).
  apply lookup_seqZ in Hx. lia.
Qed.

Lemma seqZ_prefix_lt from len dn x rest i : seqZ from len = dn ++ x :: rest → i ∈ dn → i < x.
Proof.
  intros E [k Hk]%list_elem_of_lookup. destruct (seqZ_split _ _ _ _ _ E) as [-> _].
  assert (seqZ from len !! k = Some i) as H by (rewrite E; by apply lookup_app_l_Some).
  apply lookup_seqZ in H as [-> _]. apply lookup_lt_Some in Hk. lia.
Qed.

Section pool_spec.
Context {Q : Type} `{HQ : Deque Q Z} (n sz base : Z).
Context (n_pos : 0 < n < 2 ^ 32) (sz_pos : 0 < sz).
Implicit Types (s : pool_test Q).

Definition holds_char (mem : list Z) (addr c : Z) : Prop := ∀ j, 0 ≤ j < sz → arr_get mem (addr - base + j) = Some c.

(** [owned] is [None] where [chunks] is NULL. *)
Record pt_inv s : Prop := mk_pt_inv {
  pti_pool : pool_inv (n, sz, base) (pt_pool s) (omap id (pt_chunks s));
  pti_chunks : Z.of_nat (length (pt_chunks s)) = n;
  pti_mem : Z.of_nat (length (pt_mem s)) = n * sz;
  pti_chars : ∀ i a, arr_get (pt_chunks s) i = Some (Some a) → holds_char (pt_mem s) a (chunk_char i)
}.

Definition is_chunk (a : Z) : Prop := ∃ i, 0 ≤ i < n ∧ a = base + i * sz.

Lemma chunks_apart a a' j j' : is_chunk a → is_chunk a' → 0 ≤ j < sz → 0 ≤ j' < sz → a - base + j = a' - base + j' → a = a'.
Proof using n_pos sz_pos. intros (i & Hi & ->) (i' & Hi' & ->) Hj Hj' E. assert (i = i') as -> by nia. done. Qed.

Lemma chunk_inside a j : is_chunk a → 0 ≤ j < sz → 0 ≤ a - base + j < n * sz.
Proof using n_pos sz_pos. intros (i & Hi & ->) Hj. nia. Qed.

Lemma write_chunk_spec a c s (P : unit → pool_test Q → Prop) : is_chunk a → Z.of_nat (length (pt_mem s)) = n * sz →
  (∀ mem, Z.of_nat (length mem) = n * sz → holds_char mem a c →
    (∀ k, 0 ≤ k → (∀ j, 0 ≤ j < sz → k ≠ a - base + j) → arr_get mem k = arr_get (pt_mem s) k) →
    P tt (mk_pool_test (pt_pool s) mem (pt_chunks s))) → wp (write_chunk sz base a c) P s.
Proof using n_pos sz_pos.
  intros Ha Hlen HP. unfold write_chunk, for_lt.
  apply (wp_mfor (λ dn s', ∃ mem, s' = mk_pool_test (pt_pool s) mem (pt_chunks s) ∧ Z.of_nat (length mem) = n * sz ∧
    (∀ j, j ∈ dn → arr_get mem (a - base + j) = Some c) ∧
    (∀ k, 0 ≤ k → (∀ j, j ∈ dn → k ≠ a - base + j) → arr_get mem k = arr_get (pt_mem s) k))).
  - exists (pt_mem s). split_and!; [by destruct s|done|by intros j Hj%elem_of_nil|done].
  - intros dn i rest s' Hdn (mem & -> & Hl & H1 & H2).
    assert (∀ j, j ∈ dn ++ [i] → 0 ≤ j < sz) as Hin.
    { intros j Hj. assert (j ∈ seqZ 0 (sz - 0)) as Hj'; [|apply elem_of_seqZ in Hj'; lia].
      rewrite Hdn. apply elem_of_app in Hj as [Hj|Hj%list_elem_of_singleton]; apply elem_of_app; [by left|right; subst; left]. }
    assert (0 ≤ i < sz) as Hi by (apply Hin, elem_of_app; right; by apply list_elem_of_singleton).
    pose proof (chunk_inside a i Ha Hi) as Hins. unfold store, load.
    destruct (arr_get_is_Some mem (a + i - base)) as [x Hx]; [lia|].
    apply wp_bind, wp_bind, wp_get. eapply wp_lift_opt; [exact Hx|]. apply wp_modify. cbn [pt_pool pt_mem pt_chunks].
    exists (arr_set mem (a + i - base) c). replace (a + i - base) with (a - base + i) by lia.
    split_and!; [done|unfold arr_set; by rewrite length_insert| |].
    + intros j [Hj|Hj%list_elem_of_singleton]%elem_of_app; [|subst j; apply arr_get_set_eq; lia].
      destruct (decide (j = i)) as [->|Hne]; [apply arr_get_set_eq; lia|]. rewrite arr_get_set_ne by lia. by apply H1.
    + intros k Hk Hne. rewrite arr_get_set_ne.
      * apply H2; [done|]. intros j Hj. apply Hne, elem_of_app. by left.
      * lia.
      * intros E. apply (Hne i); [apply elem_of_app; right; by apply list_elem_of_singleton|done].
  - intros s' (mem & -> & Hl & H1 & H2). apply HP; [done| |].
    + intros j Hj. apply H1, elem_of_seqZ. lia.
    + intros k Hk Hne. apply H2; [done|]. intros j Hj%elem_of_seqZ. apply Hne. lia.
Qed.

Lemma verify_chunk_spec a c s : holds_char (pt_mem s) a c → wp (verify_chunk sz base a c) (λ _ s', s' = s) s.
Proof using n_pos sz_pos.
  intros Hc. unfold verify_chunk, for_lt. apply (wp_mfor_inv (λ s', s' = s)); [done| |done].
  intros i s' Hi%elem_of_seqZ ->. unfold load. apply wp_bind, wp_bind, wp_get. eapply wp_lift_opt.
  - replace (a + i - base) with (a - base + i) by lia. apply Hc. lia.
  - apply wp_assert; [apply Z.eqb_refl|done].
Qed.

Lemma owned_chunk s a : pt_inv s → a ∈ omap id (pt_chunks s) → is_chunk a.
Proof using n_pos sz_pos. intros [Hp _ _ _] Ha. destruct (pool_inv_owned n sz base _ _ Hp) as (_ & H & _). by apply H. Qed.


(** A chunk [a] was allocated for entry [i] and not written yet. *)
Record fresh_chunk i a s : Prop := mk_fresh_chunk {
  fc_pool : pool_inv (n, sz, base) (pt_pool s) (omap id (pt_chunks s));
  fc_chunks : Z.of_nat (length (pt_chunks s)) = n;
  fc_mem : Z.of_nat (length (pt_mem s)) = n * sz;
  fc_entry : arr_get (pt_chunks s) i = Some (Some a);
  fc_chunk : is_chunk a;
  fc_others : ∀ k a', k ≠ i → arr_get (pt_chunks s) k = Some (Some a') →
    is_chunk a' ∧ a' ≠ a ∧ holds_char (pt_mem s) a' (chunk_char k)
}.

(** The array after an allocation and after a release. *)
Lemma alloc_addr_spec {A} i s (k : Z → M (pool_test Q) A) (P : A → pool_test Q → Prop) : pt_inv s → arr_get (pt_chunks s) i = Some None →
  (∀ a s', fresh_chunk i a s' → pt_chunks s' = arr_set (pt_chunks s) i (Some a) → wp (k a) P s') →
  wp (addr ← on_pool mempool_alloc; set_chunk i (Some addr);; k addr) P s.
Proof using n_pos sz_pos.
  intros Hs Hi HP. pose proof Hs as [Hp Hlen Hmem Hch]. pose proof (length_owned _ _ Hi) as Hfree.
  destruct (pool_inv_owned n sz base _ _ Hp) as (_ & _ & Hex).
  destruct (alloc_total _ _ _ Hp) as (a & mp & Ea & Hp'); [apply Hex; lia|].
  pose proof (arr_get_lt _ _ _ Hi) as Hil.
  assert (pool_inv (n, sz, base) mp (omap id (arr_set (pt_chunks s) i (Some a)))) as Hp2.
  { destruct (owned_split _ i None (Some a) Hi) as (l1 & l2 & E1 & E2). rewrite E2. rewrite E1 in Hp'.
    destruct Hp' as (Hsh & q & free & H). split; [done|]. exists q, free. eapply pool_state_perm; [|exact H].
    rewrite !omap_app. cbn. by rewrite Permutation_middle. }
  destruct (pool_inv_owned n sz base _ _ Hp') as (Hnd & Hin & _).
  apply wp_bind, wp_zoom. eapply wp_value; [exact Ea|]. apply wp_bind. unfold set_chunk, get_chunk.
  apply wp_bind, wp_bind, wp_get. eapply wp_lift_opt; [exact Hi|]. apply wp_modify. apply (HP a); [|done].
  constructor; cbn; [done|unfold arr_set; by rewrite length_insert|done|by apply arr_get_set_eq|apply Hin; left|].
  intros j a' Hne Hj. pose proof (arr_get_lt _ _ _ Hj) as Hjl. rewrite arr_get_set_ne in Hj by lia.
  pose proof (in_owned _ _ _ Hj) as Ho. split_and!; [by apply (owned_chunk s)| |by apply Hch].
  intros ->. by apply list.NoDup_cons in Hnd as [? _].
Qed.

Lemma write_fresh i a s : fresh_chunk i a s →
  wp (write_chunk sz base a (chunk_char i)) (λ _ s', pt_inv s' ∧ pt_chunks s' = pt_chunks s) s.
Proof using n_pos sz_pos.
  intros [Hp Hlen Hmem Hi Ha Hot]. apply write_chunk_spec; [done|done|]. intros mem Hl Hc Hrest. split; [|done].
  constructor; cbn; [done|done|done|]. intros k a' Hk. destruct (decide (k = i)) as [->|Hne]; [by rewrite Hi in Hk; injection Hk as <-|].
  destruct (Hot k a' Hne Hk) as (Ha' & Hna & Hh). intros j Hj.
  rewrite Hrest; [by apply Hh|pose proof (chunk_inside a' j Ha' Hj); lia|]. intros j' Hj' E. by apply Hna, (chunks_apart a' a j j').
Qed.

(** The bounds that [is_mempool_chunk] tests. *)
Lemma fresh_in_pool i a s : fresh_chunk i a s → is_mempool_chunk (pt_pool s) a = true.
Proof using n_pos sz_pos.
  intros [([= Ht Hz Hb] & q & free & H) _ _ _ (k & Hk & ->) _]. unfold is_mempool_chunk. rewrite (ps_end _ _ _ _ H), Ht, Hz, Hb.
  apply andb_true_intro. split; apply Z.leb_le; nia.
Qed.

Lemma free_spec i a s : pt_inv s → arr_get (pt_chunks s) i = Some (Some a) →
  wp (free_chunk sz base i) (λ _ s', pt_inv s' ∧ pt_chunks s' = arr_set (pt_chunks s) i None) s.
Proof using n_pos sz_pos.
  intros Hs Hi. pose proof Hs as [Hp Hlen Hmem Hch]. unfold free_chunk, get_chunk. pose proof (arr_get_lt _ _ _ Hi) as Hil.
  apply wp_bind, wp_bind, wp_get. eapply wp_lift_opt; [exact Hi|]. apply wp_bind. eapply wp_lift_opt; [done|].
  apply wp_bind. eapply wp_mono; [by apply verify_chunk_spec, (Hch i)|]. intros _ s' ->.
  destruct (owned_split _ i (Some a) None Hi) as (l1 & l2 & E1 & E2).
  assert (omap id (pt_chunks s) = omap id l1 ++ a :: omap id l2) as Eo by by rewrite E1, omap_app.
  rewrite Eo in Hp. destruct (free_total _ _ _ _ _ Hp) as (mp & Ef & Hp').
  apply wp_bind, wp_zoom. eapply wp_value; [exact Ef|]. unfold set_chunk, get_chunk.
  apply wp_bind, wp_bind, wp_get. eapply wp_lift_opt; [exact Hi|]. apply wp_modify. cbn. split; [|done].
  constructor; cbn; [by rewrite E2, omap_app|unfold arr_set; by rewrite length_insert|done|].
  intros k a' Hk. destruct (decide (k = i)) as [->|Hne]; [by rewrite arr_get_set_eq in Hk by lia|].
  pose proof (arr_get_lt _ _ _ Hk) as Hkl. rewrite arr_get_set_ne in Hk by lia. by apply (Hch k).
Qed.
End pool_spec.

Section pool_tests.
Context {Q : Type} `{HQ : Deque Q Z} (n sz base : Z).
Context (n_pos : 0 < n < 2 ^ 32) (sz_pos : 0 < sz).
Implicit Types (s : pool_test Q).

(** Which entries of the array are allocated. *)
Definition allocated s (i : Z) : Prop := ∃ a, arr_get (pt_chunks s) i = Some (Some a).

Definition pt_at (taken : Z → Prop) s : Prop :=
  pt_inv n sz base s ∧ ∀ i, 0 ≤ i < n → (taken i → allocated s i) ∧ (¬ taken i → arr_get (pt_chunks s) i = Some None).

Lemma pt_at_ext (taken taken' : Z → Prop) s : (∀ i, 0 ≤ i < n → taken i ↔ taken' i) → pt_at taken s → pt_at taken' s.
Proof using n_pos sz_pos. intros H [Hs Ht]. split; [done|]. intros i Hi. destruct (Ht i Hi) as [H1 H2]. destruct (H i Hi). split; auto. Qed.

(** A change of one entry. *)
Lemma pt_at_set taken taken' i p s s' : pt_at taken s → 0 ≤ i < n → pt_inv n sz base s' → pt_chunks s' = arr_set (pt_chunks s) i p →
  (taken' i → is_Some p) → (¬ taken' i → p = None) → (∀ j, j ≠ i → taken' j ↔ taken j) → pt_at taken' s'.
Proof using n_pos sz_pos.
  intros [Hs Ht] Hi Hs' E H1 H2 H3. split; [done|]. intros j Hj. unfold allocated. rewrite E.
  pose proof (pti_chunks _ _ _ _ Hs) as Hlen. destruct (decide (j = i)) as [->|Hne].
  - rewrite arr_get_set_eq by lia. split; [intros Hp%H1; destruct Hp as [a ->]; by exists a|intros Hp%H2; by rewrite Hp].
  - rewrite arr_get_set_ne by lia. specialize (H3 j Hne). destruct (Ht j Hj) as [H4 H5]. split; intros Hp; [apply H4|apply H5]; tauto.
Qed.

Lemma alloc_at (taken : Z → Prop) i s : pt_at taken s → 0 ≤ i < n → ¬ taken i →
  wp (alloc_chunk sz base i) (λ _ s', pt_at (λ j, taken j ∨ j = i) s') s.
Proof using n_pos sz_pos.
  intros Hs Hi Hti. pose proof Hs as [Hinv Ht]. apply (alloc_addr_spec n sz base n_pos sz_pos); [done|by apply Ht|].
  intros a s1 H1 E1. eapply wp_mono; [by apply (write_fresh n sz base n_pos sz_pos)|]. intros ? s' [Hs' E].
  eapply (pt_at_set _ _ i (Some a)); [done..|by rewrite E|by exists a|tauto|tauto].
Qed.

Lemma free_at (taken : Z → Prop) i s : pt_at taken s → 0 ≤ i < n → taken i →
  wp (free_chunk sz base i) (λ _ s', pt_at (λ j, taken j ∧ j ≠ i) s') s.
Proof using n_pos sz_pos.
  intros Hs Hi Hti. pose proof Hs as [Hinv Ht]. destruct (proj1 (Ht i Hi) Hti) as [a Ha].
  eapply wp_mono; [by apply (free_spec n sz base n_pos sz_pos i a)|]. intros ? s' [Hs' E].
  eapply pt_at_set; [done..|tauto|done|tauto].
Qed.

Lemma free_all s : pt_at (λ _, True) s → wp (for_lt 0 n (free_chunk sz base)) (λ _ s', pt_at (λ _, False) s') s.
Proof using n_pos sz_pos.
  intros Hs. apply (wp_mfor (λ dn s', pt_at (λ j, j ∉ dn) s')).
  - eapply pt_at_ext; [|exact Hs]. intros i _. split; [|done]. by intros _ Hi%elem_of_nil.
  - intros dn i rest s' Hdn Hs'. destruct (seqZ_split _ _ _ _ _ Hdn) as [-> Hi].
    eapply wp_mono; [apply (free_at (λ j, j ∉ dn)); [done|lia|]|].
    + intros Hin. pose proof (seqZ_prefix_lt _ _ _ _ _ _ Hdn Hin). lia.
    + intros ? s2. apply pt_at_ext. intros j _. rewrite elem_of_app, list_elem_of_singleton. tauto.
  - intros s'. apply pt_at_ext. intros i Hi. split; [|done]. intros Hni. apply Hni, elem_of_seqZ. lia.
Qed.

Lemma alloc_all s : pt_at (λ _, False) s → wp (for_lt 0 n (alloc_chunk sz base)) (λ _ s', pt_at (λ _, True) s') s.
Proof using n_pos sz_pos.
  intros Hs. apply (wp_mfor (λ dn s', pt_at (λ j, j ∈ dn) s')).
  - eapply pt_at_ext; [|exact Hs]. intros i _. split; [done|]. by intros Hi%elem_of_nil.
  - intros dn i rest s' Hdn Hs'. destruct (seqZ_split _ _ _ _ _ Hdn) as [-> Hi].
    eapply wp_mono; [apply (alloc_at (λ j, j ∈ dn)); [done|lia|]|].
    + intros Hin. pose proof (seqZ_prefix_lt _ _ _ _ _ _ Hdn Hin). lia.
    + intros ? s2. apply pt_at_ext. intros j _. rewrite elem_of_app, list_elem_of_singleton. tauto.
  - intros s'. apply pt_at_ext. intros i Hi. split; [done|]. intros _. apply elem_of_seqZ. lia.
Qed.

(** The pool is exhausted exactly when the whole array is allocated. *)
Lemma exhausted_at k s : 0 ≤ k ≤ n → pt_at (λ j, j < k) s → is_mempool_exhaused (pt_pool s) = (k =? n).
Proof using n_pos sz_pos.
  intros Hk [Hs Ht]. destruct (pool_inv_owned n sz base _ _ (pti_pool _ _ _ _ Hs)) as (_ & _ & Hex).
  pose proof (pti_chunks _ _ _ _ Hs) as Hlen. destruct (Z.eqb_spec k n) as [->|Hne].
  - destruct (is_mempool_exhaused (pt_pool s)); [done|]. exfalso. apply proj1 in Hex. specialize (Hex eq_refl).
    rewrite (length_omap_all (pt_chunks s)) in Hex; [lia|]. intros i Hi. destruct (proj1 (Ht i ltac:(lia))) as [a Ha]; [lia|]. by exists a.
  - apply Hex. assert (arr_get (pt_chunks s) k = Some None) as H by (apply Ht; lia). pose proof (length_owned _ _ H). lia.
Qed.

Lemma alloc_until_spec fuel k s : 0 ≤ k ≤ n → n - k ≤ Z.of_nat fuel → pt_at (λ j, j < k) s →
  wp (alloc_until_exhausted sz base fuel k) (λ i s', i = n ∧ pt_at (λ _, True) s') s.
Proof using n_pos sz_pos.
  revert k s. induction fuel as [|fuel IH]; intros k s Hk Hf Hs; cbn [alloc_until_exhausted]; apply wp_bind, wp_get;
    rewrite (exhausted_at k s Hk Hs).
  - replace (k =? n) with true by lia. apply wp_ret. split; [lia|]. eapply pt_at_ext; [|exact Hs]. intros i Hi. cbn. lia.
  - destruct (Z.eqb_spec k n) as [->|Hne].
    { apply wp_ret. split; [done|]. eapply pt_at_ext; [|exact Hs]. intros i Hi. cbn. lia. }
    apply wp_bind. eapply wp_mono; [apply (alloc_at (λ j, j < k)); [done|lia|lia]|]. intros ? s' Hs'.
    apply IH; [lia|lia|]. eapply pt_at_ext; [|exact Hs']. intros i Hi. cbn. lia.
Qed.

Lemma test_mempool_1_spec s : pt_at (λ _, False) s → wp (test_mempool_1 n sz base) (λ _ s', pt_at (λ _, False) s') s.
Proof using n_pos sz_pos.
  intros Hs. unfold test_mempool_1. apply wp_bind. eapply wp_mono; [by apply alloc_all|]. intros ? s1 H1.
  apply wp_bind. eapply wp_mono; [by apply free_all|]. intros ? s2 H2.
  apply wp_bind. eapply wp_mono; [apply (alloc_until_spec _ 0); [lia|lia|]|].
  { eapply pt_at_ext; [|exact H2]. intros i Hi. cbn. lia. }
  intros i s3 [-> H3]. apply wp_bind, wp_assert; [apply Z.eqb_refl|]. by apply free_all.
Qed.

(** *** The random test *)

Lemma random_operation_spec r s : pt_inv n sz base s → wp (random_operation n sz base r) (λ _ s', pt_inv n sz base s') s.
Proof using n_pos sz_pos.
  intros Hs. pose proof (pti_chunks _ _ _ _ Hs) as Hlen. unfold random_operation. set (i := r mod n).
  assert (0 ≤ i < n) as Hi by (apply Z.mod_pos_bound; lia). destruct (arr_get_is_Some (pt_chunks s) i) as [p Hp]; [lia|].
  unfold get_chunk at 1. apply wp_bind, wp_bind, wp_get. eapply wp_lift_opt; [exact Hp|]. destruct p as [a|].
  { eapply wp_mono; [by apply (free_spec n sz base n_pos sz_pos i a)|]. by intros ? s' [? _]. }
  apply (alloc_addr_spec n sz base n_pos sz_pos); [done|done|]. intros a s1 H1 _.
  apply wp_bind, wp_get, wp_bind. unfold get_chunk. apply wp_bind, wp_get. eapply wp_lift_opt; [exact (fc_entry _ _ _ _ _ _ H1)|].
  apply wp_bind. eapply wp_lift_opt; [done|]. apply wp_bind, wp_assert; [by eapply fresh_in_pool|].
  eapply wp_mono; [by apply (write_fresh n sz base n_pos sz_pos)|]. by intros ? s' [? _].
Qed.
Lemma evens_split m dn x rest : Z.mul 2 <$> seqZ 0 m = dn ++ x :: rest → 0 ≤ x < 2 * m ∧ x ∉ dn.
Proof using Type.
  intros E. apply fmap_app_inv in E as (l1 & l2 & -> & E2 & E1). symmetry in E2. apply fmap_cons_inv in E2 as (y & l3 & -> & -> & ->).
  destruct (seqZ_split _ _ _ _ _ E1) as [Hy Hr]. split; [lia|]. intros (z & Hz & Hin)%list_elem_of_fmap.
  pose proof (seqZ_prefix_lt _ _ _ _ _ _ E1 Hin). lia.
Qed.

Lemma test_mempool_2_spec malloc randoms s : pt_at (λ _, False) s →
  (∀ i, malloc i < base ∨ base + n * sz ≤ malloc i) →
  wp (test_mempool_2 n sz base malloc randoms) (λ _ s', pt_inv n sz base s') s.
Proof using n_pos sz_pos.
  intros Hs Hmalloc. unfold test_mempool_2, boundaries_test. apply wp_bind, (wp_mfor_inv (λ s', s' = s)); [done| |].
  - intros i s' _ ->. apply wp_bind, wp_get, wp_assert; [|done]. destruct Hs as [[([= Ht Hz Hb] & q & free & H) _ _ _] _].
    unfold is_mempool_chunk. rewrite (ps_end _ _ _ _ H), Ht, Hz, Hb. destruct (Hmalloc i); nia.
  - intros s' ->. apply wp_bind, (wp_mfor (λ dn s', pt_at (λ j, j ∈ dn) s')).
    + eapply pt_at_ext; [|exact Hs]. intros i _. split; [done|]. by intros Hi%elem_of_nil.
    + intros dn i rest s' Hdn Hs'. destruct (evens_split _ _ _ _ Hdn) as [Hi Hni].
      eapply wp_mono; [apply (alloc_at (λ j, j ∈ dn)); [done| |done]|].
      * pose proof (Z.mul_div_le (n + 1) 2). assert (i mod 2 = 0) as Hm.
        { assert (i ∈ Z.mul 2 <$> seqZ 0 ((n + 1) / 2)) as (z & -> & _)%list_elem_of_fmap by (rewrite Hdn; apply elem_of_app; right; left).
          rewrite Z.mul_comm. by apply Z.mod_mul. }
        pose proof (Z.div_mod i 2). lia.
      * intros ? s2. apply pt_at_ext. intros j _. rewrite elem_of_app, list_elem_of_singleton. tauto.
    + intros s1 [H1 _]. apply (wp_mfor_inv (λ s', pt_inv n sz base s')); [done| |done]. intros r s2 _. apply random_operation_spec.
Qed.
End pool_tests.

(** C38. The tests of the pool succeed, for any implementation of its queue, any
    number and size of the chunks that it takes, wherever the memory of the pool
    is, and for any sequence of random numbers: no assertion fails, neither of
    the tests, which check that nobody else writes into a chunk that was
    allocated, nor of the pool, and the loop that exhausts the pool ends after
    [POOL_ENTRIES] allocations.  The first test gives all chunks back. *)
Theorem pool_tests_pass `{HQ : Deque Q Z} n sz base malloc randoms :
  0 < n < 2 ^ 32 → 0 < sz → n * sz ≤ MAX_QUEUE_SIZE_BYTES → (∀ i, malloc i < base ∨ base + n * sz ≤ malloc i) →
  ∃ s, pool_test_start (Q := Q) n sz base = Some s ∧
    wp (test_mempool_1 n sz base) (λ _ s', omap id (pt_chunks s') = [] ∧ pt_inv n sz base s') s ∧
    wp (test_mempool_2 n sz base malloc randoms) (λ _ s', pt_inv n sz base s') s.
Proof.
  intros Hn Hsz Hmax Hmalloc. destruct (mempool_new_state n sz base) as (mp & E & Hinv); [done..|].
  unfold pool_test_start. rewrite E. eexists; split; [done|]. set (s := mk_pool_test mp _ _).
  assert (omap id (replicate (Z.to_nat n) (@None Z)) = []) as Hno by (induction (Z.to_nat n); [done|cbn; done]).
  assert (pt_at n sz base (λ _, False) s) as Hs.
  { split.
    - constructor; cbn [pt_pool pt_mem pt_chunks s]; [by rewrite Hno|rewrite length_replicate; lia|rewrite length_replicate; nia|].
      intros i a Hi%arr_get_replicate_inv. done.
    - intros i Hi. split; [done|]. intros _. apply arr_get_replicate. lia. }
  split; [|by apply test_mempool_2_spec]. eapply wp_mono; [by apply test_mempool_1_spec|]. intros _ s' [Hs' Hf]. split; [|done].
  apply elem_of_nil_inv. intros a (o & Ho & Hoa)%list_elem_of_omap. cbn in Hoa. subst o. apply list_elem_of_lookup in Ho as [k Hk].
  pose proof (pti_chunks _ _ _ _ Hs') as Hlen. pose proof (lookup_lt_Some _ _ _ Hk) as Hkl.
  assert (arr_get (pt_chunks s') (Z.of_nat k) = Some None) as Hnone by (apply Hf; [lia|tauto]).
  apply arr_get_Some in Hnone as [_ Hnone]. rewrite Nat2Z.id, Hk in Hnone. done.
Qed.

(** With the sizes of the tests, over the circular buffer. *)
Lemma pool_tests_pass_witness :
  ∃ s, pool_test_start (Q := lpqueue Z) 100 300 65536 = Some s ∧
    wp (test_mempool_1 100 300 65536) (λ _ s', omap id (pt_chunks s') = [] ∧ pt_inv 100 300 65536 s') s ∧
    wp (test_mempool_2 100 300 65536 (λ i, 200000 + Z.of_nat i) [7; 1234; 7; 100]) (λ _ s', pt_inv 100 300 65536 s') s.
Proof.
  refine (pool_tests_pass 100 300 65536 (λ i, 200000 + Z.of_nat i) [7; 1234; 7; 100] _ _ _ _); [lia|lia| |].
  - unfold MAX_QUEUE_SIZE_BYTES. lia.
  - intros i. right. lia.
Defined.

(** ** The queue *)

Abbreviation string_queue := (lpqueue (list ascii)).

Definition strings : list string :=
  ["1sdadasdasaasdasd"; "2jnasd;jnasd;"; "3falsdjfbnasodfuasdf"; "4asdf;kjansdfajnsdfajnsdf";
   "5asdf;kjnasd;fkjansdfjansdfai4afj"; "6a;sjvnas;dfjnasjnaorivoaeirnvafv`"; "7a;fjnafjansdansdjfna";
   "8asd;jandfjana[alfdsknv;aodut"; "9a;jnas;fjan"; "10jsvlknsdsnfrvoiropi"]%string.

Definition strlen (s : string) : Z := Z.of_nat (String.length s).
Definition string_element (s : string) : queue_element (list ascii) :=
  mk_queue_element (Some (list_ascii_of_string s)) (strlen s).

(** Append or prepend, and assert the outcome. *)
Definition expect {A} `{EqDecision A} (m : M string_queue A) (success : A) : M string_queue unit :=
  r ← m; c_assert (bool_decide (r = success)).

(** Pop and compare.  The assertion on the size is an assignment: it sets the
    size to the length of the string, and fails for an empty string only. *)
Definition expect_pop (s : string) : M string_queue unit :=
  r ← queue_pop;
  e ← lift_opt r;
  let size := strlen s in
  c_assert (negb (size =? 0));;
  d ← lift_opt (data e);
  c_assert (bool_decide (take (Z.to_nat size) d = list_ascii_of_string s)).

Definition expect_empty : M string_queue unit := r ← queue_pop; c_assert (bool_decide (r = None)).

(** [main] of test_values_queue.c and of test_values_queue_2.c, once the queue
    is made. *)
Definition test_values_queue : M string_queue unit :=
  mfor strings (λ s, expect (queue_append (string_element s)) true);;
  s1 ← lift_opt (strings !! 1%nat);
  expect (queue_append (string_element s1)) false;;
  mfor strings expect_pop;;
  expect_empty.

Definition test_values_queue_2 : M string_queue unit :=
  s0 ← lift_opt (strings !! 0%nat);
  s1 ← lift_opt (strings !! 1%nat);
  expect (queue_append (string_element s0)) true;;
  expect queue_discard_last true;;
  expect_empty;;
  expect (queue_append (string_element s0)) true;;
  expect (queue_append (string_element s0)) true;;
  expect (queue_append (string_element s1)) true;;
  expect (queue_append (string_element s0)) false;;
  expect (queue_prepend (string_element s0)) true;;
  mfor (seq 0 3) (λ _, expect_pop s0);;
  expect_empty.

(** Both tests succeed and leave the queue empty. *)
Theorem queue_tests_pass :
  option_map (λ s, queue_count s.2) (queue_init 10 ≫= test_values_queue) = Some 0 ∧
  option_map (λ s, queue_count s.2) (queue_init 3 ≫= test_values_queue_2) = Some 0.
Proof. split; vm_compute; reflexivity. Qed.

(** ** Ballots *)

(** The bytes of a ballot in memory, on a little endian machine. *)
Definition bal_bytes (b : Z) : list Z := (λ i, Z.land (Z.shiftr b (8 * i)) 255) <$> [0; 1; 2; 3].

(** The nine digits of a byte: the mask starts at 256. *)
Definition byte_to_binary (c : Z) : string :=
  String.concat "" ((λ z, if (Z.land c z =? z)%Z then "1" else "0") <$> [256; 128; 64; 32; 16; 8; 4; 2; 1]%Z)%string.
Definition ballot_to_binary (b : Z) : string := String.concat "|" (byte_to_binary <$> rev (bal_bytes b)).

(** Three names of processes of test_ballot_2.c. *)
Definition PROC_1 : Z * Z := (1, 0).
Definition PROC_2 : Z * Z := (1, 1).
Definition PROC_3 : Z * Z := (2, 0).

Definition repeat_increment (n : nat) (b : Z) : Z := Nat.iter n increment_ballot b.

(** [main] of test_ballot.c: the assertions in their order. *)
Definition test_ballot : M unit unit :=
  let x := make_first_ballot 0 0 in
  c_assert (x =? 65536);;
  let x := make_first_ballot 1 1 in
  c_assert (x =? 65536 + Z.shiftl 1 8 + 1);;
  let y := make_first_ballot 2 1 in
  c_assert (y =? 65536 + Z.shiftl 2 8 + 1);;
  c_assert (x <? y);;
  let x := increment_ballot x in
  c_assert (y <? x);;
  let y := increment_ballot y in
  c_assert (x <? y);;
  let y := repeat_increment 100 y in
  let x := repeat_increment 100 x in
  c_assert (x <? y);;
  let y := repeat_increment 10 y in
  c_assert (x <? y);;
  let x := raise_ballot x y in
  c_assert (y <? x);;
  let y := raise_ballot y x in
  c_assert (x <? y);;
  let x := repeat_increment 10 x in
  c_assert (y <? x);;
  let y := raise_ballot y x in
  c_assert (x <? y).

(** [main] of test_ballot_2.c. *)
Definition make_first (p : Z * Z) : Z := make_first_ballot p.1 p.2.
Definition is_mine (b : Z) (p : Z * Z) : bool := is_my_ballot b p.1 p.2.

Fixpoint increment_mine (n : nat) (x : Z) : M unit Z :=
  match n with
  | O => mret x
  | S n => let x := increment_ballot x in c_assert (is_mine x PROC_1);; increment_mine n x
  end.

Definition test_ballot_2 : M unit unit :=
  let x := make_first PROC_1 in
  c_assert (is_mine x PROC_1);;
  let y := make_first PROC_2 in
  c_assert (is_mine y PROC_2);;
  let z := make_first PROC_3 in
  c_assert (is_mine z PROC_3);;
  c_assert (negb (is_mine x PROC_2));;
  c_assert (negb (is_mine z PROC_2));;
  c_assert (negb (is_mine y PROC_1));;
  x ← increment_mine 10 x;
  c_assert (negb (is_mine x PROC_2));;
  let y := raise_ballot y x in
  c_assert (is_mine y PROC_2).

(** Both tests succeed, and what they print fits in the buffer of 64 bytes for
    every ballot, the terminating zero included. *)
Theorem ballot_tests_pass :
  test_ballot tt = Some (tt, tt) ∧ test_ballot_2 tt = Some (tt, tt) ∧
  (∀ b, String.length (ballot_to_binary b) = 39%nat).
Proof.
  split; [vm_compute; reflexivity|split; [vm_compute; reflexivity|]]. intros b.
  assert (∀ c, ∃ d1 d2 d3 d4 d5 d6 d7 d8 d9, byte_to_binary c =
    String d1 (String d2 (String d3 (String d4 (String d5 (String d6 (String d7 (String d8 (String d9 ""))))))))) as H.
  { intros c. unfold byte_to_binary. cbn [fmap list_fmap].
    do 9 (match goal with |- context [if ?b then _ else _] => generalize b; intros [] end); cbn; repeat eexists. }
  unfold ballot_to_binary, bal_bytes. cbn [fmap list_fmap rev app].
  repeat match goal with |- context [byte_to_binary ?c] => destruct (H c) as (? & ? & ? & ? & ? & ? & ? & ? & ? & ->) end.
  reflexivity.
Qed.

(** ** Timers *)

(** [main] of test_timer_1.c; [t] are the four values that [gettimeofday]
    returns. *)
Definition test_timer_1 (t : nat → timeval) : M unit unit :=
  let current_time := t 0%nat in
  let timeout_variable := timer_set_timeout current_time (mk_timeval 1 0) in
  c_assert (negb (timer_is_expired timeout_variable current_time));;
  let timeout_variable := timer_set_timeout current_time (mk_timeval 0 1) in
  c_assert (negb (timer_is_expired timeout_variable current_time));;
  let current_time := t 1%nat in
  let timeout_variable := timer_set_timeout current_time (mk_timeval 1 0) in
  let current_time := t 2%nat in
  c_assert (timer_is_expired timeout_variable current_time);;
  let timeout_variable := timer_set_timeout current_time (mk_timeval 0 1) in
  let current_time := t 3%nat in
  c_assert (timer_is_expired timeout_variable current_time).

(** The test of the deadlines succeeds with every clock on which the sleeps
    take 3 seconds and 1 second or more. *)
Theorem timer_test_passes t : (∀ i, tv_normal (t i)) →
  tv_micros (t 1%nat) + 3000000 ≤ tv_micros (t 2%nat) → tv_micros (t 2%nat) + 1000000 ≤ tv_micros (t 3%nat) →
  test_timer_1 t tt = Some (tt, tt).
Proof.
  intros Ht H1 H2. assert (tv_normal (mk_timeval 1 0) ∧ tv_normal (mk_timeval 0 1)) as [N1 N2] by (unfold tv_normal; cbn; lia).
  assert (∀ i j iv, tv_normal iv → timer_is_expired (timer_set_timeout (t i) iv) (t j) = bool_decide (tv_micros (t i) + tv_micros iv < tv_micros (t j))) as E.
  { intros i j iv Hiv. rewrite timer_is_expired_micros, timer_set_timeout_micros by auto with fds. done. }
  unfold test_timer_1. rewrite !E by done.
  change (tv_micros (mk_timeval 1 0)) with 1000000. change (tv_micros (mk_timeval 0 1)) with 1.
  rewrite (bool_decide_eq_false_2 (_ + 1000000 < tv_micros (t 0%nat))), (bool_decide_eq_false_2 (_ + 1 < tv_micros (t 0%nat))) by lia.
  rewrite (bool_decide_eq_true_2 (_ < tv_micros (t 2%nat))), (bool_decide_eq_true_2 (_ < tv_micros (t 3%nat))) by lia. reflexivity.
Qed.

(** A clock that is about to carry. *)
Lemma timer_test_passes_witness :
  test_timer_1 (λ i, match i with 2%nat => mk_timeval 4 0 | 3%nat => mk_timeval 5 1 | _ => mk_timeval 0 999999 end) tt = Some (tt, tt).
Proof.
  apply (timer_test_passes (λ i, match i with 2%nat => mk_timeval 4 0 | 3%nat => mk_timeval 5 1 | _ => mk_timeval 0 999999 end)).
  - intros i. destruct i as [|[|[|[|i]]]]; unfold tv_normal; cbn; lia.
  - unfold tv_micros. cbn. lia.
  - unfold tv_micros. cbn. lia.
Defined.
